(* ===== verification/_CoqProject ===== *)
-Q . S2P
Prelude.v
GoLib.v
Files.v
Codec.v
Meta.v
Api.v
Kube.v
Client.v
Sim.v
Shared.v
ResourceUtil.v
Promise.v
PromiseStore.v
SimPromise.v
PromiseFacts.v
WorkCreator.v
StatusUpdater.v
PipelineFactory.v
Purge.v
ResourceFacts.v
Frame.v
WorkCreatorFacts.v
StatusUpdaterFacts.v
WorkCreatorWitness.v
Workflow.v
DynamicController.v
WorkflowPlan.v
WorkflowFacts.v
WorkflowOrder.v
WorkflowDelete.v
WorkflowWitness.v
FactoryFacts.v
FactoryWitness.v
DynamicFacts.v
DynamicStatus.v
DynamicWitness.v
PromiseController.v
PromiseInstall.v
Scheduler.v
SchedulerSelect.v
SchedulerPlace.v
SchedulerFacts.v
SchedulerWork.v
SchedulerWitness.v
WorkController.v
WorkControllerFacts.v
StateStore.v
SimStore.v
S3Writer.v
S3Facts.v
GitWriter.v
GitFacts.v
GitWitness.v
StateStoreController.v
StateStoreFacts.v
WorkPlacementController.v
WorkPlacementFacts.v
WorkPlacementWitness.v
Delivery.v
DestinationController.v
Webhooks.v
WebhookFacts.v
PromiseRelease.v
PromiseReleaseFacts.v
HealthRecord.v
ReleaseWitness.v
DestinationFacts.v
SystemFrames.v
PlacementGuard.v
System.v
SystemWitness.v
PromiseServe.v
PromiseDeletion.v
PromiseWitness.v
Programs.v
ProgramFacts.v
ProgramWitness.v
Manager.v
Setup.v
Installer.v
