(* ===== verification/Prelude.v ===== *)
(** * Kratix, verified: the control plane in Rocq

    Kratix is a set of Kubernetes controllers.  A platform team installs a
    Promise; users then make resource requests against the API the Promise
    defines.  For each Promise and each request Kratix runs workflows (pipelines
    of containers, as jobs), collects their output in Works, schedules the
    workload groups of a Work to Destinations by means of WorkPlacements, and
    writes the files of each placement to the state store of its destination (a
    bucket or a git repository).  The controllers share no memory: they
    communicate through the objects of the API server.

    ** How the code is modelled

    The development is a shallow embedding.  A Go function becomes a Rocq function
    with the same name and the same control flow; one that reads or writes the
    cluster is a program of the monad [M S], state passing over an abstract world
    [S], whose outcome is a value, an error or a panic ([outcome]).  Loops over
    slices are [foldM], [iterM] or structural recursion, so every program
    terminates; the one recursion that is not structural, the walk through the output
    directory, is defined by recursion on the tree, and [walk_terminates] shows
    that the function as written (with fuel, one unit per nested directory) returns
    the same.  An error that the Go code
    inspects is caught with [try]; one that it returns propagates.  Objects are
    passed by value and returned where Go mutates them through a pointer.

    Code that is not in the repository is a parameter, given by type classes, and
    its documented behaviour a second class of laws:

    - [World]/[WorldLaws] ([Kube.v]): the client and the API server (get, list,
      create, update, status update, patch, delete, create-or-update, with
      finalizers and the status subresource), the clock, the random source, the
      order of a range over a map, events.  Any request may fail; the laws say
      what a successful one did and that a failed one changed nothing.
    - [Lib]/[LibLaws] ([Kube.v]): the pure helpers of the Kubernetes libraries,
      hashing, sorting.  [Codec] ([Codec.v]): gzip and YAML.
    - [StateStoreWriter]/[StateStoreLaws] ([StateStore.v]): the interface of
      [lib/writers], with what an update of files promises.  The two writers of the
      repository are proved to keep it over [ObjectStore]/[ObjectStoreLaws] ([S3Writer.v],
      [S3Facts.v]: the MinIO client and a bucket) and over [GitClient], [GitTransport] and
      [GitLaws] ([GitWriter.v], [GitFacts.v]: go-git, temporary files and a branch).
    - [Admission]/[AdmissionLaws] ([Webhooks.v], [WebhookFacts.v]): dry runs and the
      validation of labels.  [PromiseFetcher]/[PromiseFetcherLaws], [HTTP], [ReleaseLib]
      ([PromiseRelease.v]): where released Promises come from; the URL fetcher is an
      instance.  [DetailsLib] ([HealthRecord.v]), [ConfigLib] ([Manager.v]): decoding.
    - [Pod]/[PodLaws] and [Shell]/[ShellLaws] ([Programs.v], [ProgramFacts.v]): the files and
      clients of the pod of a job, and how a shell splits a command line.
    - [PromiseLib], [Config] ([Promise.v], [PipelineFactory.v]), [CanaryLib]
      ([DestinationController.v]), [WorkCreatorLib], [StatusLib], [YamlEncoder]:
      decoding, encoding and environment variables.  [TimeLib]: reading and
      formatting of times.
    - [PromiseCodec] ([PromiseStore.v]): the conversion between a typed Promise and
      the unstructured object the API server holds, on which workflows and the status
      updater work; [ConverterLaws] ([PromiseDeletion.v]): what it preserves.
    - [ControllerManager] ([PromiseController.v]): starting a controller and
      restarting the manager.  [ControllerRuntime]/[ControllerRuntimeLaws] ([Setup.v]):
      registering with a manager and starting it.
    - [Host]/[HostLaws], [BuilderLib] ([Installer.v]): calls of kubectl, decoding of
      documents.
    - [WorkScheduler]/[WorkSchedulerLaws] ([WorkController.v],
      [WorkControllerFacts.v]): what the Work controller expects of a scheduler;
      the scheduler of the repository is an instance.

    [Sim.v], [SimStore.v], [SimPromise.v] and the witness files implement these interfaces in
    memory, most with injected faults, and prove the laws.  All definitions are executable on them; the files
    named [...Witness.v] evaluate the theorems there on concrete clusters.

    Specifications are weakest preconditions ([wp], with [post] for a
    postcondition by outcome): unless a theorem says otherwise it also states
    what holds when the call fails and that it does not panic.  [Frame.v] adds
    [keeps], what a program leaves alone, with a hint database that walks through
    a program.

    ** Which file models what

    - [GoLib.v]: strings, paths and stable sorting of Go's standard library.
    - [Meta.v], [Api.v]: object metadata and the API types ([api/v1alpha1]:
      Work, WorkPlacement, Destination; the Kubernetes kinds the code reads).
    - [Codec.v]: [lib/compression], with base64 defined and proved.
    - [Client.v]: the client in the monad, one proof rule per operation.
    - [Shared.v], [Purge.v]: [lib/resourceutil/finalizer.go], [work.go] and
      [internal/controller/shared.go]; the loop that deletes by label.
    - [ResourceUtil.v], [ResourceFacts.v]: [lib/resourceutil/util.go],
      [conditions.go], [lib/hash], [lib/objectutil].
    - [Promise.v], [PromiseFacts.v]: [promise_types.go], [pipeline_types.go].
    - [PipelineFactory.v], [FactoryFacts.v], [FactoryWitness.v]:
      [pipeline_factory.go] and the generation of all pipelines of a Promise.
    - [Files.v], [WorkCreator.v], [WorkCreatorFacts.v], [WorkCreatorWitness.v]:
      directory trees, paths and [work-creator/pipeline/work_creator.go];
      [StatusUpdater.v], [StatusUpdaterFacts.v]: [lib/status_updater.go] and the
      update-status program.
    - [Programs.v], [ProgramFacts.v], [ProgramWitness.v]: the programs of the pipeline
      adapter as containers start them ([work-creator/pipeline/cmd], [lib/reader.go],
      [lib/helpers]), with the flags of the work creator.
    - [Workflow.v]: [lib/workflow/reconciler.go] and [rbac.go];
      [WorkflowPlan.v], [WorkflowFacts.v], [WorkflowOrder.v],
      [WorkflowDelete.v], [WorkflowWitness.v]: its properties.
    - [DynamicController.v]: [dynamic_resource_request_controller.go];
      [DynamicFacts.v], [DynamicStatus.v], [DynamicWitness.v]: its properties.
    - [PromiseController.v]: [promise_controller.go]; its state beside the cluster is
      the map of started controllers ([Started]).  [PromiseInstall.v],
      [PromiseServe.v], [PromiseDeletion.v], [PromiseWitness.v]: its properties.
    - [Scheduler.v]: [internal/controller/scheduler.go]; [SchedulerSelect.v],
      [SchedulerPlace.v], [SchedulerFacts.v], [SchedulerWork.v],
      [SchedulerWitness.v]: its properties.
    - [WorkController.v], [WorkControllerFacts.v]: [work_controller.go].
    - [WorkPlacementController.v], [WorkPlacementFacts.v],
      [WorkPlacementWitness.v]: [workplacement_controller.go].
    - [DestinationController.v], [DestinationFacts.v]:
      [destination_controller.go].
    - [StateStore.v]: [newWriter] of [shared.go] and what the writers share;
      [S3Writer.v], [S3Facts.v]: [lib/writers/s3.go]; [GitWriter.v],
      [GitFacts.v], [GitWitness.v]: [lib/writers/git.go].
    - [StateStoreController.v], [StateStoreFacts.v]:
      [state_store.go], [bucketstatestore_controller.go], [gitstatestore_controller.go].
    - [Webhooks.v], [WebhookFacts.v]: [internal/webhook/v1alpha1].
    - [PromiseRelease.v], [PromiseReleaseFacts.v], [ReleaseWitness.v]:
      [promiserelease_controller.go], its webhook and [lib/fetchers/url.go];
      [HealthRecord.v]: [healthrecord_controller.go].
    - [SystemFrames.v], [PlacementGuard.v], [System.v], [SystemWitness.v]: the
      controllers together, as a step relation.
    - [Delivery.v]: the scheduler and the WorkPlacement controller together, from a
      Work to the files of its destinations.
    - [Manager.v]: [cmd/main.go], its configuration and the loop that
      restarts the manager, as a step relation of calls, goroutines and stops.
      [Setup.v]: a turn of that loop, with the [SetupWithManager] functions of the
      controllers and webhooks.
    - [Installer.v]: [hack/kratix-quick-start-installer] and
      [hack/worker-resource-builder].

    ** What the theorems show

    - Workflows.  [plan] is the abstract specification of a configure workflow, a
      decision from the newest job; [ReconcileConfigure] refines it.  From the
      plan follow: never two jobs at a time, pipelines in order, failures
      reported in the parent object.  The delete workflow has its own plan.  Old
      jobs are removed oldest first, and service accounts Kratix did not create
      are never touched.
    - Pipelines.  The objects generated for a pipeline grant exactly the
      permissions it asks for; the pipelines of a workflow are generated in
      order; the labels of a job are those by which the workflow finds it.
    - Scheduling.  Which destinations a Work may go to; that every chosen
      destination gets its placement; that the placements of a resource request
      are sticky; that dangling placements, and only those, are deleted; that the
      status of the Work is truthful.
    - Placements and destinations.  The state store mirrors the workloads;
      finalizers are released only after the files are gone, for placements and
      for destinations; conditions tell whether writes succeeded; version
      identifiers are not lost.  End to end ([Delivery.v]): the groups of a Work that
      reports it is scheduled have placements on the destinations they are meant for, and
      once such a placement has been reconciled without asking for another try its
      directory holds the workloads of the group and nothing else, whatever happened in
      between.
    - State stores.  The S3 and the git writer refine the contract the controllers rely on:
      after an update the workloads are there, nothing else is left in their directory and
      other files are as before; a store says it is ready only if it can be written to.
    - Output.  Every file a pipeline writes ends up exactly once in the one Work of
      the pipeline, and what it reports is merged into the status.  The programs of a
      pod act on the object its job was generated for.
    - Admission and releases.  Admitted Promises can be parsed and keep their API, the paths of
      destinations stay distinct; a release installs the version it names and outlives the
      Promises labelled with it; a health record is copied to its request.
    - Requests and Promises.  Work starts only for admitted requests, and only when the
      API is there and the requirements of the Promise are installed; the
      conditions of a request are truthful and settle; both are deleted in phases,
      each released only when it is over.
    - The system.  [step] is a run of one of the controllers, or a request of somebody
      else that the API server accepts.  A run is atomic: others act between runs, not
      during one; which requests fail, and when, is arbitrary.  The invariant of
      all reachable states is proved by rule induction.  A restart of the manager that
      was asked for is not lost.  A manager starts only with everything registered, and
      every controller it starts runs steps of the system.
    - Tools.  The installer works through its commands in order, with bounded retries;
      the resource builder collects all documents of a directory, in order.
    - Data.  Round trips for compression and status fields, the shape of generated
      names, the limit on request names, destination selectors.

    ** What is not modelled

    Logging, the sleep between writes of pipeline objects, the flags and the metrics server
    of the manager, generated code (deep copies) and test doubles.  Fuel appears in
    two places only: the walk above, and the loop of the resource builder over the documents
    of a file, where as many units are enough as the file has documents and one more, and
    where no fuel is enough for a file that cannot be read.  Fields of
    API types that only library code reads are left out or kept as opaque text.  A finer step
    relation, in which others act between the requests of one run, is left for later.
    Integers of the source are counters and timestamps far from their bounds; they are [Z] or
    [nat]. *)

From stdpp Require Export base gmap strings list fin_maps fin_sets sorting pretty.

Declare Scope go_scope.
Delimit Scope go_scope with go.

(** ** Go errors

    The errors the code distinguishes: the API machinery's classified errors
    (what [errors.IsNotFound] and friends test), the sentinel errors of the
    repository and [os.ErrNotExist], plain [fmt.Errorf]/[errors.New] messages, and a message that
    wraps another error with [%w]. *)
Inductive api_reason :=
  | ReasonNotFound
  | ReasonAlreadyExists
  | ReasonConflict
  | ReasonInvalid
  | ReasonOther.

Inductive error :=
  | ApiError (r : api_reason)
  | ErrNoAPI
  | ErrFileNotFound
  | ErrNotExist
  | ErrDeletePipelineFailed
  | ErrorMsg (msg : string)
  | ErrorWrap (msg : string) (e : error).

#[global] Instance api_reason_eq_dec : EqDecision api_reason.
Proof. solve_decision. Defined.
#[global] Instance error_eq_dec : EqDecision error.
Proof. solve_decision. Defined.

(** [errors.Is]/[errors.As] look through the wrapping. *)
Fixpoint root_cause (e : error) : error :=
  match e with
  | ErrorWrap _ e' => root_cause e'
  | _ => e
  end.

(** [err.Error()].  An API error's text is the server's; only its reason is kept. *)
Fixpoint Error (e : error) : string :=
  match e with
  | ApiError ReasonNotFound => "not found"
  | ApiError ReasonAlreadyExists => "already exists"
  | ApiError ReasonConflict => "conflict"
  | ApiError ReasonInvalid => "invalid"
  | ApiError ReasonOther => "server error"
  | ErrNoAPI => "promise does not contain an API"
  | ErrFileNotFound => "file not found"
  | ErrNotExist => "file does not exist"
  | ErrDeletePipelineFailed => "Delete Pipeline Failed"
  | ErrorMsg msg => msg
  | ErrorWrap msg e' => msg +:+ ": " +:+ Error e'
  end.

Definition has_reason (r : api_reason) (e : error) : bool :=
  bool_decide (root_cause e = ApiError r).

Definition IsNotFound : error → bool := has_reason ReasonNotFound.
Definition IsAlreadyExists : error → bool := has_reason ReasonAlreadyExists.
Definition IsConflict : error → bool := has_reason ReasonConflict.
Definition IsInvalid : error → bool := has_reason ReasonInvalid.

(** ** Outcomes of a Go call

    A call returns a value, returns an error, or panics (index out of range,
    nil dereference); a panic is never caught by the modelled code. *)
Inductive outcome (A : Type) :=
  | Ok (a : A)
  | Fail (e : error)
  | Panicked.
Arguments Ok {_} _.
Arguments Fail {_} _.
Arguments Panicked {_}.

(** ** The effect monad: state passing over an abstract world [S] *)
Definition M (S A : Type) : Type := S → outcome A * S.

Section monad.
Context {S : Type}.
Implicit Types s : S.

Definition ret {A} (a : A) : M S A := λ s, (Ok a, s).
Definition fail {A} (e : error) : M S A := λ s, (Fail e, s).
Definition panic {A} : M S A := λ s, (Panicked, s).

Definition bind {A B} (m : M S A) (k : A → M S B) : M S B := λ s,
  match m s with
  | (Ok a, s') => k a s'
  | (Fail e, s') => (Fail e, s')
  | (Panicked, s') => (Panicked, s')
  end.

(** [r, err := f()] where the caller inspects [err] itself. *)
Definition try {A} (m : M S A) : M S (error + A) := λ s,
  match m s with
  | (Ok a, s') => (Ok (inr a), s')
  | (Fail e, s') => (Ok (inl e), s')
  | (Panicked, s') => (Panicked, s')
  end.

(** An operation of the environment that returns a value or an error. *)
Definition call {A} (op : S → (error + A) * S) : M S A := λ s,
  match op s with
  | (inl e, s') => (Fail e, s')
  | (inr a, s') => (Ok a, s')
  end.

(** An operation of the environment that cannot fail. *)
Definition total {A} (op : S → A * S) : M S A := λ s,
  let '(a, s') := op s in (Ok a, s').

Definition lift {A} (r : outcome A) : M S A := λ s, (r, s).

Definition of_sum {A} (r : error + A) : M S A :=
  match r with inl e => fail e | inr a => ret a end.

(** [for _, a := range l { acc = body(acc, a) }], left to right, stopping
    at the first error. *)
Fixpoint foldM {A B} (f : B → A → M S B) (l : list A) (b : B) : M S B :=
  match l with
  | [] => ret b
  | a :: l' => bind (f b a) (foldM f l')
  end.

Definition iterM {A} (f : A → M S unit) (l : list A) : M S unit :=
  foldM (λ _ a, f a) l tt.
End monad.

(** A program of the environment, run by a component that keeps memory of its own. *)
Definition zoom {S T A} (m : M S A) : M (S * T) A := λ st,
  let '(r, s') := m st.1 in (r, (s', st.2)).
Definition recall {S T} : M (S * T) T := λ st, (Ok st.2, st).
Definition remember {S T} (t : T) : M (S * T) unit := λ st, (Ok tt, (st.1, t)).

Notation "'let!' x ':=' m 'in' k" := (bind m (λ x, k))
  (at level 10, x pattern, m at level 100, k at level 200,
   format "'[v' 'let!'  x  ':='  m  'in' '/' k ']'") : go_scope.
Notation "m ';;;' k" := (bind m (λ _, k))
  (at level 199, right associativity, format "'[v' m ';;;' '/' k ']'") : go_scope.

Open Scope go_scope.

(** ** Lists and maps *)
Section lists.
Context {A : Type}.
Implicit Types l : list A.

Lemma filter_empty (P : A → Prop) `{∀ x, Decision (P x)} l :
  Forall (λ x, ¬ P x) l → filter P l = [].
Proof. induction 1; [done|]. by rewrite filter_cons_False. Qed.

Lemma filter_id (P : A → Prop) `{∀ x, Decision (P x)} l :
  Forall P l → filter P l = l.
Proof. induction 1 as [|x l Hx _ IH]; [done|]. by rewrite filter_cons_True, IH. Qed.

(** The last element that satisfies [f], as a right-to-left search. *)
Lemma foldl_app_one {B} (f : B → A → B) b l x :
  foldl f b (l ++ [x]) = f (foldl f b l) x.
Proof. by rewrite foldl_app. Qed.
End lists.

(** Values of a finite map, in the map's own order. *)
Definition map_values {K V} `{Countable K} (m : gmap K V) : list V :=
  (map_to_list m).*2.

Lemma elem_of_map_values {K V} `{Countable K} (m : gmap K V) v :
  v ∈ map_values m ↔ ∃ k, m !! k = Some v.
Proof.
  unfold map_values. rewrite list_elem_of_fmap. split.
  - intros ([k v'] & -> & Hin). apply elem_of_map_to_list in Hin. eauto.
  - intros (k & Hk). exists (k, v). by rewrite elem_of_map_to_list.
Qed.

(** ** Weakest preconditions

    [wp m Q s]: running [m] from [s] ends in an outcome and a state that
    satisfy [Q].  [Q] speaks about every outcome, so a specification says what
    holds when the call fails and that it does not panic. *)
Section wp.
Context {S : Type}.
Implicit Types s : S.

Definition wp {A} (m : M S A) (Q : outcome A → S → Prop) (s : S) : Prop :=
  Q (m s).1 (m s).2.

(** A postcondition by outcome: [a] on success, [f] on an error, and no
    panic. *)
Definition post {A} (a : A → S → Prop) (f : error → S → Prop)
    : outcome A → S → Prop := λ r s,
  match r with Ok x => a x s | Fail e => f e s | Panicked => False end.

Lemma wp_mono {A} (m : M S A) Q Q' s :
  wp m Q s → (∀ r s', Q r s' → Q' r s') → wp m Q' s.
Proof. unfold wp; eauto. Qed.

Lemma wp_and {A} (m : M S A) Q Q' s :
  wp m Q s → wp m Q' s → wp m (λ r s', Q r s' ∧ Q' r s') s.
Proof. done. Qed.

Lemma wp_ret {A} (a : A) (Q : outcome A → S → Prop) s : Q (Ok a) s → wp (ret a) Q s.
Proof. done. Qed.

Lemma wp_fail {A} e (Q : outcome A → S → Prop) s : Q (Fail e) s → wp (fail e) Q s.
Proof. done. Qed.

Lemma wp_lift {A} (r : outcome A) (Q : outcome A → S → Prop) s : Q r s → wp (lift r) Q s.
Proof. done. Qed.

Lemma wp_panic {A} (Q : outcome A → S → Prop) s : Q Panicked s → wp panic Q s.
Proof. done. Qed.

Lemma wp_bind {A B} (m : M S A) (k : A → M S B) Q s :
  wp m (λ r s', match r with
                | Ok a => wp (k a) Q s'
                | Fail e => Q (Fail e) s'
                | Panicked => Q Panicked s'
                end) s →
  wp (bind m k) Q s.
Proof. unfold wp, bind. by destruct (m s) as [[]]. Qed.

Lemma wp_try {A} (m : M S A) Q s :
  wp m (λ r s', match r with
                | Ok a => Q (Ok (inr a)) s'
                | Fail e => Q (Ok (inl e)) s'
                | Panicked => Q Panicked s'
                end) s →
  wp (try m) Q s.
Proof. unfold wp, try. by destruct (m s) as [[]]. Qed.

Lemma wp_call {A} (op : S → (error + A) * S) (Q : outcome A → S → Prop) s :
  (∀ a s', op s = (inr a, s') → Q (Ok a) s') →
  (∀ e s', op s = (inl e, s') → Q (Fail e) s') →
  wp (call op) Q s.
Proof.
  intros HA HE. unfold wp, call. destruct (op s) as [[e|a] s'] eqn:E; simpl; eauto.
Qed.

Lemma wp_total {A} (op : S → A * S) (Q : outcome A → S → Prop) s :
  (∀ a s', op s = (a, s') → Q (Ok a) s') → wp (total op) Q s.
Proof. intros HA. unfold wp, total. destruct (op s) eqn:E; simpl; eauto. Qed.

(** The loop rule: [I done todo acc s] holds of the elements already
    processed and those still to come. *)
Lemma wp_foldM {A B} (f : B → A → M S B) (I : list A → list A → B → S → Prop)
    (Q : outcome B → S → Prop) l b s :
  I [] l b s →
  (∀ done a todo acc s', l = done ++ a :: todo → I done (a :: todo) acc s' →
     wp (f acc a) (λ r s'', match r with
                            | Ok acc' => I (done ++ [a]) todo acc' s''
                            | Fail e => Q (Fail e) s''
                            | Panicked => Q Panicked s''
                            end) s') →
  (∀ acc s', I l [] acc s' → Q (Ok acc) s') →
  wp (foldM f l b) Q s.
Proof.
  intros H0 Hstep Hend.
  assert (∀ todo done acc s', l = done ++ todo → I done todo acc s' →
         wp (foldM f todo acc) Q s') as Hgen; [|by apply (Hgen l [])].
  clear H0 b s. induction todo as [|a todo IH]; intros done acc s' Hl HI.
  - rewrite app_nil_r in Hl. subst. by apply wp_ret, Hend.
  - apply wp_bind. eapply wp_mono; [by eapply Hstep|].
    intros [acc'|e|] s'' HI'; [|done..].
    apply (IH (done ++ [a])); [by rewrite <-(assoc_L (++))|done].
Qed.

(** The same rule when the invariant ignores the position. *)
Lemma wp_foldM_inv {A B} (f : B → A → M S B) (I : B → S → Prop)
    (Q : outcome B → S → Prop) l b s :
  I b s →
  (∀ a acc s', a ∈ l → I acc s' →
     wp (f acc a) (λ r s'', match r with
                            | Ok acc' => I acc' s''
                            | Fail e => Q (Fail e) s''
                            | Panicked => Q Panicked s''
                            end) s') →
  (∀ acc s', I acc s' → Q (Ok acc) s') →
  wp (foldM f l b) Q s.
Proof.
  intros H0 Hstep Hend. apply (wp_foldM _ (λ _ _, I)); [done| |done].
  intros done a todo acc s' -> HI. apply Hstep; [set_solver|done].
Qed.

Lemma wp_intro {A} (m : M S A) Q s r s' : m s = (r, s') → wp m Q s → Q r s'.
Proof. unfold wp. by intros ->. Qed.

Lemma wp_elim {A} (m : M S A) (Q : outcome A → S → Prop) s r s' :
  m s = (r, s') → Q r s' → wp m Q s.
Proof. unfold wp. by intros ->. Qed.

(** A rule that also remembers the run. *)
Lemma wp_exec {A} (m : M S A) (Q : outcome A → S → Prop) s :
  wp m (λ r s', m s = (r, s') → Q r s') s → wp m Q s.
Proof. unfold wp. intros Hm. apply Hm. by destruct (m s). Qed.
End wp.

(** Reading off the result of a specified run that returns normally. *)
Lemma run_ok {S A} (m : M S A) (a : A → S → Prop) f s x :
  wp m (post a f) s → (m s).1 = Ok x → a x (m s).2.
Proof.
intros Hwp Hx. destruct (m s) as [r s'] eqn:E. apply (wp_intro _ _ _ _ _ E) in Hwp.
simpl in *. by subst r.
Qed.

Definition returns {A} (r : outcome A) : bool := match r with Ok _ => true | _ => false end.

Lemma run_returns {S A} (m : M S A) (Q : outcome A → S → Prop) s :
  wp m Q s → returns (m s).1 = true → ∃ x, (m s).1 = Ok x ∧ Q (Ok x) (m s).2.
Proof.
intros Hwp Hx. destruct (m s) as [r s'] eqn:E. apply (wp_intro _ _ _ _ _ E) in Hwp.
destruct r as [x|e|]; simpl in *; [|done..]. eauto.
Qed.

Lemma wp_zoom {S T A} (m : M S A) (Q : outcome A → S * T → Prop) s t :
  wp m (λ r s', Q r (s', t)) s → wp (zoom m) Q (s, t).
Proof. unfold wp, zoom. cbn. by destruct (m s). Qed.
Lemma wp_recall {S T} (Q : outcome T → S * T → Prop) s t : Q (Ok t) (s, t) → wp recall Q (s, t).
Proof. done. Qed.
Lemma wp_remember {S T} t' (Q : outcome unit → S * T → Prop) s (t : T) :
  Q (Ok tt) (s, t') → wp (remember t') Q (s, t).
Proof. done. Qed.

#[global] Opaque wp.

(** One step of symbolic execution: the structural rules. *)
Ltac wp_simp :=
  repeat first
    [ apply wp_ret | apply wp_fail | apply wp_bind | apply wp_try ];
  simpl.

(** From a specification of a concrete run, the value it returns and what holds
    then; the run is evaluated. *)
Ltac read_off Hwp :=
  cbv zeta in Hwp;
  match type of Hwp with
  | wp ?m ?Q ?s =>
      let Hret := fresh in
      assert (returns (m s).1 = true) as Hret by (vm_compute; reflexivity);
      let Hx := fresh in
      pose proof (run_returns _ _ _ Hwp) as Hx; specialize (Hx Hret);
      clear Hwp Hret; rename Hx into Hwp; cbn [post] in Hwp
  end.
