(* ===== verification/GoLib.v ===== *)
(** * The part of Go's standard library the controllers use

    Strings and slices ([strings], [slices]), slash-separated paths
    ([path/filepath] on Unix), and stable sorting ([sort.SliceStable]).  A Go
    string is a sequence of bytes: here a [string] of 8-bit [ascii]. *)

From S2P Require Import Prelude.
From Stdlib Require Import Ascii.

(** ** strings *)
Module Strings.
(** [strings.Join] *)
Fixpoint Join (elems : list string) (sep : string) : string :=
  match elems with
  | [] => ""
  | [e] => e
  | e :: es => e +:+ sep +:+ Join es sep
  end.

(** [strings.HasPrefix s prefix] *)
Definition HasPrefix (s pre : string) : bool := String.prefix pre s.

(** [strings.HasSuffix s suffix] *)
Definition HasSuffix (s suf : string) : bool :=
  let n := String.length s in
  let k := String.length suf in
  (k <=? n) && bool_decide (String.substring (n - k) k s = suf).

(** [strings.TrimPrefix s prefix] *)
Definition TrimPrefix (s pre : string) : string :=
  if HasPrefix s pre then String.substring (String.length pre) (String.length s - String.length pre) s else s.

(** [strings.Contains s substr] *)
Fixpoint Contains (s substr : string) : bool :=
  HasPrefix s substr || match s with EmptyString => false | String _ s' => Contains s' substr end.

(** [s[lo:hi]], which panics out of range. *)
Definition slice (s : string) (lo hi : nat) : outcome string :=
  if (lo <=? hi) && (hi <=? String.length s)
  then Ok (String.substring lo (hi - lo) s) else Panicked.

(** [strings.ToLower] on ASCII letters. *)
Definition lower_char (c : ascii) : ascii :=
  let n := nat_of_ascii c in
  if (65 <=? n) && (n <=? 90) then ascii_of_nat (n + 32) else c.

Fixpoint ToLower (s : string) : string :=
  match s with
  | EmptyString => EmptyString
  | String c s' => String (lower_char c) (ToLower s')
  end.

(** [%q] of a string without characters that need escaping. *)
Definition quote (s : string) : string :=
  let q := String (ascii_of_nat 34) "" in q +:+ s +:+ q.

Lemma slice_ok s lo hi :
  lo ≤ hi → hi ≤ String.length s →
  slice s lo hi = Ok (String.substring lo (hi - lo) s).
Proof.
  intros H1 H2. unfold slice.
  by rewrite (proj2 (Nat.leb_le _ _) H1), (proj2 (Nat.leb_le _ _) H2).
Qed.
End Strings.

(** ** path/filepath, on slash-separated paths *)
Module Filepath.
Definition slash : ascii := "/"%char.

(** The substrings between slashes. *)
Fixpoint split_aux (s acc : string) : list string :=
  match s with
  | EmptyString => [acc]
  | String c s' =>
      if Ascii.eqb c slash then acc :: split_aux s' ""
      else split_aux s' (acc +:+ String c "")
  end.
Definition split (s : string) : list string := split_aux s "".

Definition is_rooted (s : string) : bool := Strings.HasPrefix s "/".

(** One component of the lexical processing of [filepath.Clean]: the
    components kept so far are in [acc], most recent first. *)
Definition clean_step (rooted : bool) (acc : list string) (c : string)
    : list string :=
  if bool_decide (c = "" ∨ c = ".") then acc
  else if bool_decide (c = "..") then
    match acc with
    | [] => if rooted then [] else [".."]
    | p :: rest => if bool_decide (p = "..") then ".." :: acc else rest
    end
  else c :: acc.

Definition clean_parts (rooted : bool) (parts : list string) : list string :=
  rev (foldl (clean_step rooted) [] parts).

(** [filepath.Clean] *)
Definition Clean (path : string) : string :=
  let rooted := is_rooted path in
  let parts := clean_parts rooted (split path) in
  if rooted then "/" +:+ Strings.Join parts "/"
  else if bool_decide (parts = []) then "." else Strings.Join parts "/".

(** [filepath.Join]: empty elements are ignored, the result is cleaned, and
    joining nothing gives the empty string. *)
Definition Join (elems : list string) : string :=
  match filter (λ e, e ≠ "") elems with
  | [] => ""
  | es => Clean (Strings.Join es "/")
  end.

(** [filepath.Base]: the last element, trailing slashes removed. *)
Definition Base (path : string) : string :=
  if bool_decide (path = "") then "."
  else
    match rev (filter (λ e, e ≠ "") (split path)) with
    | [] => "/"
    | x :: _ => x
    end.

(** [filepath.Dir]: all but the last element, cleaned. *)
Definition Dir (path : string) : string :=
  let parts := removelast (split path) in
  match parts with
  | [] => "."
  | _ => Clean (Strings.Join parts "/" +:+ "/")
  end.

(** The elements of a path that is clean. *)
Definition elements (path : string) : list string := filter (λ e, e ≠ "") (split path).

(** The elements left after the longest common prefix. *)
Fixpoint strip_common (base targ : list string) : list string * list string :=
  match base, targ with
  | b :: base', t :: targ' =>
      if bool_decide (b = t) then strip_common base' targ' else (base, targ)
  | _, _ => (base, targ)
  end.

(** [filepath.Rel] *)
Definition Rel (basepath targpath : string) : error + string :=
  let base := Clean basepath in
  let targ := Clean targpath in
  if bool_decide (targ = base) then inr "."
  else if bool_decide (is_rooted base ≠ is_rooted targ)
  then inl (ErrorMsg ("Rel: can't make " +:+ targpath +:+ " relative to " +:+ basepath))
  else
    match strip_common (if bool_decide (base = ".") then [] else elements base) (elements targ) with
    | (".." :: _, _ :: _) =>
        inl (ErrorMsg ("Rel: can't make " +:+ targpath +:+ " relative to " +:+ basepath))
    | (up, down) => inr (Strings.Join (((λ _, "..") <$> up) ++ down) "/")
    end.

Example rel_ex1 : Rel "/a" "/a/b/c" = inr "b/c".
Proof. vm_compute. reflexivity. Qed.
Example rel_ex2 : Rel "/a/x" "/b/c" = inr "../../b/c".
Proof. vm_compute. reflexivity. Qed.
Example rel_ex3 : Rel "../a" "../b" = inr "../b".
Proof. vm_compute. reflexivity. Qed.
Example clean_ex1 : Clean "foo//./bar/../baz/" = "foo/baz".
Proof. vm_compute. reflexivity. Qed.
Example clean_ex2 : Clean "/../a/.." = "/".
Proof. vm_compute. reflexivity. Qed.
Example clean_ex3 : Clean "../../a" = "../../a".
Proof. vm_compute. reflexivity. Qed.
Example clean_ex4 : Clean "" = ".".
Proof. vm_compute. reflexivity. Qed.
Example join_ex1 : Join ["dependencies"; "p"; ""; "abcde"] = "dependencies/p/abcde".
Proof. vm_compute. reflexivity. Qed.
Example base_ex1 : Base "a/b/" = "b".
Proof. vm_compute. reflexivity. Qed.
Example dir_ex1 : Dir "/tmp/kratix-repo1" = "/tmp".
Proof. vm_compute. reflexivity. Qed.
End Filepath.

(** ** sort.SliceStable *)
Module Sort.
Section stable.
Context {A : Type} (less : A → A → bool).

(** Insert after every element that is not greater. *)
Fixpoint insert_stable (x : A) (l : list A) : list A :=
  match l with
  | [] => [x]
  | y :: l' => if less x y then x :: l else y :: insert_stable x l'
  end.

Definition SliceStable (l : list A) : list A :=
  foldl (λ acc x, insert_stable x acc) [] l.

Lemma insert_stable_perm x l : insert_stable x l ≡ₚ x :: l.
Proof.
  induction l as [|y l IH]; simpl; [done|].
  destruct (less x y); [done|]. rewrite IH. apply Permutation_swap.
Qed.

Lemma SliceStable_perm l : SliceStable l ≡ₚ l.
Proof.
  unfold SliceStable. rewrite <-(app_nil_r l) at 2. generalize (@nil A) as acc.
  induction l as [|x l IH]; intros acc; simpl; [done|].
  rewrite IH, insert_stable_perm. by rewrite Permutation_middle.
Qed.
End stable.

Lemma SliceStable_ext {A} (less less' : A → A → bool) l :
  (∀ x y, less x y = less' x y) → SliceStable less l = SliceStable less' l.
Proof.
  intros Hext. unfold SliceStable. generalize (@nil A).
  induction l as [|x l IH]; intros acc; cbn; [done|]. rewrite IH. f_equal.
  clear IH. induction acc as [|y acc IH]; cbn; [done|]. rewrite Hext.
  case_match; congruence.
Qed.

(** Sorting by a rank: the result is sorted, and inside one rank the
    original order is kept; so it is determined by the ranks alone. *)
Section rank.
Context {A : Type} (rank : A → Z).
Let less x y := bool_decide (rank x < rank y)%Z.
Let le x y := (rank x ≤ rank y)%Z.

Lemma insert_stable_sorted x l :
  StronglySorted le l → StronglySorted le (insert_stable less x l).
Proof.
  induction 1 as [|y l Hl IH Hy]; simpl; [by repeat constructor|].
  unfold less at 1. case_bool_decide.
  - constructor; [by constructor|]. constructor; [unfold le; lia|].
    eapply Forall_impl; [done|]. unfold le. intros; lia.
  - constructor; [done|].
    rewrite insert_stable_perm. constructor; [unfold le; lia|done].
Qed.

Lemma SliceStable_sorted l : StronglySorted le (SliceStable less l).
Proof.
  unfold SliceStable. assert (StronglySorted le (@nil A)) as H by constructor.
  revert H. generalize (@nil A) as acc.
  induction l as [|x l IH]; intros acc Hacc; simpl; [done|].
  by apply IH, insert_stable_sorted.
Qed.

Lemma insert_stable_snoc x l :
  Forall (λ y, le y x) l → insert_stable less x l = l ++ [x].
Proof.
  induction 1 as [|y l Hy _ IH]; [done|]. cbn [insert_stable].
  unfold less at 1. rewrite bool_decide_false by (unfold le in Hy; lia).
  by rewrite IH.
Qed.

Lemma SliceStable_id l : StronglySorted le l → SliceStable less l = l.
Proof.
  unfold SliceStable. induction l as [|x l IH] using rev_ind; [done|].
  intros [Hx [Hl _]]%StronglySorted_app. rewrite foldl_app. simpl.
  rewrite IH by done. apply insert_stable_snoc, Forall_forall.
  intros y Hy. apply Hx; [done|by left].
Qed.

Lemma insert_stable_filter r x l :
  StronglySorted le l →
  filter (λ z, rank z = r) (insert_stable less x l) =
  filter (λ z, rank z = r) l ++ filter (λ z, rank z = r) [x].
Proof.
  induction 1 as [|y l Hl IH Hy]; [done|]. cbn [insert_stable].
  unfold less at 1. case_bool_decide.
  - rewrite !filter_cons, filter_nil.
    destruct (decide (rank x = r)); [|by rewrite app_nil_r].
    rewrite decide_False by lia.
    assert (filter (λ z, rank z = r) l = []) as ->; [|done].
    apply filter_empty. eapply Forall_impl; [done|].
    unfold le; intros; lia.
  - rewrite !(filter_cons _ y), IH. by case_decide.
Qed.

Lemma SliceStable_filter r l :
  filter (λ z, rank z = r) (SliceStable less l) = filter (λ z, rank z = r) l.
Proof.
  unfold SliceStable.
  assert (StronglySorted le (@nil A)) as H by constructor.
  change (filter (λ z, rank z = r) l) with
    (filter (λ z, rank z = r) (@nil A) ++ filter (λ z, rank z = r) l).
  revert H. generalize (@nil A) as acc.
  induction l as [|x l IH]; intros acc Hacc; simpl; [by rewrite app_nil_r|].
  rewrite IH by (by apply insert_stable_sorted).
  rewrite insert_stable_filter by done. rewrite <-(assoc_L (++)).
  by rewrite <-filter_app.
Qed.
End rank.
End Sort.

(** ** Lengths of strings *)
Lemma substring_length n m s :
  n + m ≤ String.length s → String.length (String.substring n m s) = m.
Proof.
  revert n m. induction s as [|c s IH]; intros [|n] [|m]; cbn; intros Hle; try lia.
  - by rewrite IH by lia.
  - apply IH. lia.
  - rewrite IH; lia.
Qed.

Lemma string_length_app (a b : string) :
  String.length (a +:+ b) = String.length a + String.length b.
Proof. induction a as [|c a IH]; [done|]. exact (f_equal S IH). Qed.

Lemma string_of_list_length l : String.length (String.string_of_list_ascii l) = length l.
Proof. induction l as [|c l IH]; [done|]. exact (f_equal S IH). Qed.
Lemma list_of_string_length s : length (String.list_ascii_of_string s) = String.length s.
Proof. induction s as [|c s IH]; [done|]. exact (f_equal S IH). Qed.
