(* ===== verification/Files.v ===== *)
(** * The local file system, as far as it is read

    A directory tree with [os.ReadDir] and [os.ReadFile], and what the functions
    of [path/filepath] do to the absolute path of an entry.  There are no
    symbolic links, so cleaning a path lexically does not change what it names. *)

From S2P Require Import Prelude GoLib.
From Stdlib Require Import Ascii.

(** The entries of a directory are in the order [os.ReadDir] lists them; an entry
    can be unreadable, with the error it gives. *)
Inductive Entry :=
  | File (content : string)
  | Dir (entries : list (string * Entry))
  | Unreadable (isDir : bool) (e : error).

Definition IsDir (e : Entry) : bool :=
  match e with File _ => false | Dir _ => true | Unreadable b _ => b end.

Definition errNotDir : error := ErrorMsg "not a directory".
Definition errIsDir : error := ErrorMsg "is a directory".

Definition entry_named (name : string) (entries : list (string * Entry)) : option Entry :=
  snd <$> (snd <$> list_find (λ ne, ne.1 = name) entries).

(** Following the elements of a path. *)
Fixpoint resolve (elems : list string) (e : Entry) : error + Entry :=
  match elems with
  | [] => inr e
  | name :: rest =>
      match e with
      | File _ => inl errNotDir
      | Unreadable _ err => inl err
      | Dir entries =>
          match entry_named name entries with
          | None => inl ErrNotExist
          | Some e' => resolve rest e'
          end
      end
  end.

Definition lookup_file (root : Entry) (path : string) : error + Entry :=
  resolve (Filepath.elements (Filepath.Clean path)) root.

(** [os.ReadDir] *)
Definition ReadDir (root : Entry) (path : string) : error + list (string * Entry) :=
  match lookup_file root path with
  | inl e => inl e
  | inr (Dir entries) => inr entries
  | inr (File _) => inl errNotDir
  | inr (Unreadable _ e) => inl e
  end.

(** Reading an entry that was opened. *)
Definition read_entry (e : Entry) : error + string :=
  match e with
  | File content => inr content
  | Dir _ => inl errIsDir
  | Unreadable _ err => inl err
  end.

(** [os.ReadFile] *)
Definition ReadFile (root : Entry) (path : string) : error + string :=
  match lookup_file root path with inl e => inl e | inr e => read_entry e end.

(** [goerr.Is(err, os.ErrNotExist)] *)
Definition IsNotExist (e : error) : bool := bool_decide (root_cause e = ErrNotExist).

(** ** Absolute paths *)

(** A name an entry of a directory can have. *)
Definition no_slash (s : string) : Prop := Filepath.slash ∉ String.list_ascii_of_string s.
Definition name_ok (s : string) : Prop := s ≠ "" ∧ s ≠ "." ∧ s ≠ ".." ∧ no_slash s.

#[global] Instance name_ok_dec s : Decision (name_ok s).
Proof. unfold name_ok, no_slash. apply _. Defined.

Definition abs_path (elems : list string) : string := "/" +:+ Strings.Join elems "/".

Lemma string_app_assoc (a b c : string) : (a +:+ b) +:+ c = a +:+ (b +:+ c).
Proof. induction a as [|x a IH]; [done|]. exact (f_equal (String x) IH). Qed.
Lemma string_app_nil_r (a : string) : a +:+ "" = a.
Proof. induction a as [|x a IH]; [done|]. exact (f_equal (String x) IH). Qed.

(** Splitting at slashes is a homomorphism. *)
Lemma split_aux_slash a b acc :
  Filepath.split_aux (a +:+ "/" +:+ b) acc = Filepath.split_aux a acc ++ Filepath.split b.
Proof.
revert acc. induction a as [|c a IH]; intros acc; [done|].
change (Filepath.split_aux (String c (a +:+ "/" +:+ b)) acc =
        Filepath.split_aux (String c a) acc ++ Filepath.split b).
cbn [Filepath.split_aux]. destruct (Ascii.eqb c Filepath.slash); rewrite IH; done.
Qed.
Lemma split_slash a b : Filepath.split (a +:+ "/" +:+ b) = Filepath.split a ++ Filepath.split b.
Proof. apply split_aux_slash. Qed.

Lemma split_aux_name a acc : no_slash a → Filepath.split_aux a acc = [acc +:+ a].
Proof.
unfold no_slash. revert acc. induction a as [|c a IH]; intros acc; cbn.
- by rewrite string_app_nil_r.
- intros [Hc Ha]%not_elem_of_cons. rewrite (proj2 (Ascii.eqb_neq _ _)) by congruence.
  rewrite IH by done. by rewrite string_app_assoc.
Qed.
Lemma split_name a : no_slash a → Filepath.split a = [a].
Proof. apply split_aux_name. Qed.

Lemma split_join es : es ≠ [] → Forall no_slash es → Filepath.split (Strings.Join es "/") = es.
Proof.
intros Hne H. induction H as [|e es He Hes IH]; [done|]. destruct es as [|e' es].
- by apply split_name.
- change (Strings.Join (e :: e' :: es) "/") with (e +:+ "/" +:+ Strings.Join (e' :: es) "/").
  rewrite split_slash, IH by done. by rewrite split_name.
Qed.

Lemma split_aux_no_slash s acc e :
  no_slash acc → e ∈ Filepath.split_aux s acc → no_slash e.
Proof.
revert acc. induction s as [|c s IH]; intros acc Hacc; cbn.
- by intros ->%list_elem_of_singleton.
- destruct (Ascii.eqb_spec c Filepath.slash) as [->|Hc].
  + intros [->|Hin]%elem_of_cons; [done|]. apply (IH ""); [|done]. unfold no_slash. set_solver.
  + apply IH. unfold no_slash in *.
    assert (∀ a b, String.list_ascii_of_string (a +:+ b) =
      String.list_ascii_of_string a ++ String.list_ascii_of_string b) as Happ.
    { intros a b. induction a as [|x a IHa]; [done|]. exact (f_equal (cons x) IHa). }
    rewrite Happ. cbn. set_solver.
Qed.

Lemma split_abs es :
  Forall no_slash es → Filepath.split (abs_path es) = "" :: match es with [] => [""] | _ => es end.
Proof.
intros H. change (abs_path es) with ("" +:+ "/" +:+ Strings.Join es "/"). rewrite split_slash.
destruct es; [done|]. by rewrite split_join.
Qed.

Lemma rooted_slash s : Filepath.is_rooted ("/" +:+ s) = true.
Proof. by destruct s. Qed.
Lemma rooted_abs es : Filepath.is_rooted (abs_path es) = true.
Proof. apply rooted_slash. Qed.

(** Cleaning drops the empty elements and keeps names. *)
Lemma clean_fold es acc :
  Forall (λ e, e = "" ∨ name_ok e) es →
  foldl (Filepath.clean_step true) acc es = rev (filter (λ e, e ≠ "") es) ++ acc.
Proof.
intros H. revert acc. induction H as [|e es He _ IH]; intros acc; [done|].
cbn [foldl]. rewrite IH. destruct He as [->|(H1 & H2 & H3 & _)].
- by rewrite filter_cons_False by auto.
- rewrite filter_cons_True by done. cbn [rev]. rewrite <-(assoc_L (++)). cbn.
  unfold Filepath.clean_step. by rewrite !bool_decide_false by tauto.
Qed.

Lemma clean_rooted path :
  Filepath.is_rooted path = true → Forall (λ e, e = "" ∨ name_ok e) (Filepath.split path) →
  Filepath.Clean path = abs_path (Filepath.elements path).
Proof.
intros Hr H. unfold Filepath.Clean. rewrite Hr. unfold Filepath.clean_parts.
by rewrite clean_fold, app_nil_r, rev_involutive by done.
Qed.

Lemma names_no_slash es : Forall name_ok es → Forall no_slash es.
Proof. intros H. eapply Forall_impl; [done|]. by intros e (_ & _ & _ & ?). Qed.
Lemma names_nonempty es : Forall name_ok es → filter (λ e, e ≠ "") es = es.
Proof. intros H. apply filter_id. eapply Forall_impl; [done|]. by intros e (? & _). Qed.

Lemma elements_abs es : Forall name_ok es → Filepath.elements (abs_path es) = es.
Proof.
intros H. unfold Filepath.elements. rewrite split_abs by (by apply names_no_slash).
rewrite filter_cons_False by auto. destruct es as [|e es]; [done|]. by apply names_nonempty.
Qed.

Lemma split_abs_ok es :
  Forall name_ok es → Forall (λ e, e = "" ∨ name_ok e) (Filepath.split (abs_path es)).
Proof.
intros H. rewrite split_abs by (by apply names_no_slash). constructor; [by left|].
destruct es; [repeat constructor|]. eapply Forall_impl; [done|]. auto.
Qed.

Lemma clean_abs es : Forall name_ok es → Filepath.Clean (abs_path es) = abs_path es.
Proof.
intros H. rewrite clean_rooted by (auto using rooted_abs, split_abs_ok). by rewrite elements_abs.
Qed.

(** [filepath.Join] of a directory and the name of one of its entries. *)
Lemma join_abs es name :
  Forall name_ok es → name_ok name → Filepath.Join [abs_path es; name] = abs_path (es ++ [name]).
Proof.
intros H Hn. unfold Filepath.Join. rewrite filter_cons_True by done.
rewrite filter_cons_True by apply Hn. rewrite filter_nil. cbn [Strings.Join].
assert (Filepath.split (abs_path es +:+ "/" +:+ name) = Filepath.split (abs_path es) ++ [name]) as E.
{ rewrite split_slash, (split_name name) by apply Hn. done. }
rewrite clean_rooted.
- unfold Filepath.elements. rewrite E, filter_app. fold (Filepath.elements (abs_path es)).
  rewrite elements_abs by done. rewrite (names_nonempty [name]) by (constructor; [done|constructor]). done.
- apply rooted_slash.
- rewrite E. apply Forall_app. split; [by apply split_abs_ok|]. constructor; [by right|constructor].
Qed.

Lemma strip_common_prefix es rest : Filepath.strip_common es (es ++ rest) = ([], rest).
Proof. induction es as [|e es IH]; [by destruct rest|]. cbn. by rewrite bool_decide_true. Qed.

Lemma abs_path_inj es es' : Forall name_ok es → Forall name_ok es' → abs_path es = abs_path es' → es = es'.
Proof. intros H H' E. rewrite <-(elements_abs es), <-(elements_abs es') by done. by rewrite E. Qed.

(** [filepath.Rel] of a path below a directory. *)
Lemma rel_abs es rest :
  Forall name_ok es → Forall name_ok rest → rest ≠ [] →
  Filepath.Rel (abs_path es) (abs_path (es ++ rest)) = inr (Strings.Join rest "/").
Proof.
intros H Hr Hne. assert (Forall name_ok (es ++ rest)) as Ha by (by apply Forall_app).
unfold Filepath.Rel. rewrite !clean_abs, !rooted_abs by done.
rewrite bool_decide_false.
2: { intros E%abs_path_inj; [|done..]. apply Hne. apply (app_inv_head es). by rewrite app_nil_r. }
rewrite bool_decide_false by auto. rewrite bool_decide_false by done.
by rewrite !elements_abs, strip_common_prefix by done.
Qed.

Lemma lookup_abs root es : Forall name_ok es → lookup_file root (abs_path es) = resolve es root.
Proof. intros H. unfold lookup_file. by rewrite clean_abs, elements_abs. Qed.

Lemma resolve_app es es' root :
  resolve (es ++ es') root = match resolve es root with inl e => inl e | inr d => resolve es' d end.
Proof.
revert root. induction es as [|n es IH]; intros root; [done|]. cbn.
destruct root as [|l|]; [done| |done]. destruct (entry_named n l); [apply IH|done].
Qed.

(** ** Paths: cleaning, joining, staying inside a directory *)

(** ** What cleaning has kept so far, the last element first

    Names on top, and at the bottom steps up, if the path is not rooted. *)
Inductive stack (rooted : bool) : list string → Prop :=
  | stack_nil : stack rooted []
  | stack_name x acc : name_ok x → stack rooted acc → stack rooted (x :: acc)
  | stack_up acc : rooted = false → Forall (λ x, x = "..") acc → stack rooted (".." :: acc).

Lemma up_not_name : ¬ name_ok "..".
Proof. by intros (_ & _ & ? & _). Qed.

Lemma clean_step_stack r acc c : no_slash c → stack r acc → stack r (Filepath.clean_step r acc c).
Proof.
intros Hc Hs. unfold Filepath.clean_step. case_bool_decide as H1; [done|]. case_bool_decide as H2.
- subst c. destruct acc as [|p rest]; [destruct r; constructor; [done|constructor]|].
  inversion Hs as [|x acc' Hx Hrest|acc' Hr Hall]; subst.
  + rewrite bool_decide_false; [done|]. intros ->. by apply up_not_name.
  + rewrite bool_decide_true by done. constructor; [done|]. by constructor.
- constructor; [|done]. split_and!; tauto.
Qed.

Lemma clean_fold_stack r es acc : Forall no_slash es → stack r acc → stack r (foldl (Filepath.clean_step r) acc es).
Proof.
intros H. revert acc. induction H as [|e es He _ IH]; intros acc Hs; [done|]. by apply IH, clean_step_stack.
Qed.

(** Going through it once more changes nothing. *)
Lemma stack_refold r acc : stack r acc → foldl (Filepath.clean_step r) [] (rev acc) = acc.
Proof.
induction 1 as [|x acc (H1 & H2 & H3 & _) _ IH|acc -> Hall]; [done|..]; cbn [rev]; rewrite foldl_app.
- rewrite IH. cbn. unfold Filepath.clean_step. by rewrite !bool_decide_false by tauto.
- assert (foldl (Filepath.clean_step false) [] (rev acc) = acc) as ->.
  { induction Hall as [|x acc -> Hall IH]; [done|]. cbn [rev]. rewrite foldl_app, IH. cbn.
    destruct acc as [|y acc]; [done|]. inversion Hall; subst. done. }
  destruct acc as [|y acc]; [done|]. inversion Hall; subst. done.
Qed.

Lemma stack_no_slash r acc : stack r acc → Forall no_slash (rev acc).
Proof.
intros Hs. apply Forall_rev. induction Hs as [|x acc (_ & _ & _ & ?) _ IH|acc -> Hall]; constructor; try done.
- by vm_compute; set_solver.
- eapply Forall_impl; [done|]. intros ? ->. by vm_compute; set_solver.
Qed.

Lemma split_no_slash s : Forall no_slash (Filepath.split s).
Proof. apply Forall_forall. intros e. apply split_aux_no_slash. unfold no_slash. set_solver. Qed.

(** ** Cleaning is idempotent, also as a part of a longer path *)
Definition kept (s : string) : list string :=
  foldl (Filepath.clean_step (Filepath.is_rooted s)) [] (Filepath.split s).

Lemma kept_stack s : stack (Filepath.is_rooted s) (kept s).
Proof. apply clean_fold_stack; [apply split_no_slash|constructor]. Qed.

Lemma rooted_app s t : s ≠ "" → Filepath.is_rooted (s +:+ t) = Filepath.is_rooted s.
Proof.
intros Hs. destruct s as [|c s]; [done|]. change (String c s +:+ t) with (String c (s +:+ t)).
unfold Filepath.is_rooted, Strings.HasPrefix. cbn. case_match; [|done]. by destruct s, t.
Qed.

Lemma join_head es : es ≠ [] → Forall no_slash es → head es ≠ Some "" → Filepath.is_rooted (Strings.Join es "/") = false.
Proof.
intros Hne Hes Hh. destruct es as [|e es]; [done|]. inversion Hes as [|? ? He _]; subst.
assert (e ≠ "") as He' by (intros ->; by apply Hh).
assert (Filepath.is_rooted e = false) as Hr.
{ destruct e as [|c e]; [done|]. unfold no_slash in He. cbn in He. apply not_elem_of_cons in He as [Hc _].
  unfold Filepath.is_rooted, Strings.HasPrefix. cbn. case_match; [|done]. by subst. }
destruct es as [|e' es]; [done|]. change (Strings.Join (e :: e' :: es) "/") with (e +:+ ("/" +:+ Strings.Join (e' :: es) "/")).
by rewrite rooted_app.
Qed.

Lemma stack_nonempty r acc : stack r acc → "" ∉ acc.
Proof.
induction 1 as [|x acc (? & _) _ IH|acc _ Hall]; [set_solver|set_solver|].
rewrite Forall_forall in Hall. intros [?|Hin]%elem_of_cons; [done|]. by apply Hall in Hin.
Qed.

Lemma clean_kept s : Filepath.Clean s =
  if Filepath.is_rooted s then abs_path (rev (kept s))
  else if bool_decide (rev (kept s) = []) then "." else Strings.Join (rev (kept s)) "/".
Proof. done. Qed.

Lemma rooted_clean s : Filepath.is_rooted (Filepath.Clean s) = Filepath.is_rooted s.
Proof.
rewrite clean_kept. pose proof (kept_stack s) as Hs. destruct (Filepath.is_rooted s); [apply rooted_abs|].
case_bool_decide as Hk; [done|]. apply join_head; [done|by eapply stack_no_slash|].
intros Hh. apply (stack_nonempty _ _ Hs). destruct (rev (kept s)) as [|e es] eqn:E; [done|].
injection Hh as ->. apply list_elem_of_In, in_rev. rewrite E. by left.
Qed.

Lemma clean_nonempty s : Filepath.Clean s ≠ "".
Proof.
rewrite clean_kept. pose proof (kept_stack s) as Hs. destruct (Filepath.is_rooted s); [done|].
case_bool_decide as Hk; [done|]. destruct (rev (kept s)) as [|e es] eqn:E; [done|].
intros He. apply (stack_nonempty _ _ Hs). apply list_elem_of_In, in_rev. rewrite E. left.
destruct es; [done|]. by destruct e.
Qed.

Lemma kept_clean s acc :
  foldl (Filepath.clean_step (Filepath.is_rooted s)) [] (Filepath.split (Filepath.Clean s) ++ acc) =
  foldl (Filepath.clean_step (Filepath.is_rooted s)) [] (Filepath.split s ++ acc).
Proof.
rewrite !foldl_app. f_equal. fold (kept s). pose proof (kept_stack s) as Hs.
pose proof (stack_refold _ _ Hs) as Hre. pose proof (stack_no_slash _ _ Hs) as Hns. rewrite clean_kept.
destruct (Filepath.is_rooted s).
- rewrite split_abs by done. destruct (rev (kept s)) as [|e es] eqn:E; [|done].
  rewrite <-Hre. done.
- case_bool_decide as Hk; [rewrite Hk in Hre; by rewrite <-Hre|]. by rewrite split_join.
Qed.

Lemma clean_clean s : Filepath.Clean (Filepath.Clean s) = Filepath.Clean s.
Proof.
unfold Filepath.Clean at 1. rewrite rooted_clean. unfold Filepath.clean_parts.
rewrite <-(app_nil_r (Filepath.split (Filepath.Clean s))), kept_clean, app_nil_r. done.
Qed.

Lemma clean_nested s t : s ≠ "" → Filepath.Clean (Filepath.Clean s +:+ "/" +:+ t) = Filepath.Clean (s +:+ "/" +:+ t).
Proof.
intros Hs. unfold Filepath.Clean at 1. rewrite rooted_app by apply clean_nonempty. rewrite rooted_clean.
unfold Filepath.clean_parts. rewrite split_slash, kept_clean. unfold Filepath.Clean.
rewrite rooted_app by done. unfold Filepath.clean_parts. by rewrite split_slash.
Qed.

(** [filepath.Join] is associative. *)
Lemma join_nested a b c : Filepath.Join [Filepath.Join [a; b]; c] = Filepath.Join [a; b; c].
Proof.
unfold Filepath.Join.
assert (∀ s : string, s ≠ "" →
  match filter (λ e, e ≠ "") [Filepath.Clean s; c] with [] => "" | es => Filepath.Clean (Strings.Join es "/") end =
  Filepath.Clean (Strings.Join (s :: filter (λ e, e ≠ "") [c]) "/")) as Hgen.
{ intros s Hs. rewrite filter_cons_True by apply clean_nonempty. rewrite filter_cons, filter_nil. case_decide; cbn.
  - by apply clean_nested.
  - apply clean_clean. }
rewrite !(filter_cons _ a), !(filter_cons _ b), !filter_nil. repeat case_decide; try done; cbn [Strings.Join].
- rewrite Hgen by (by destruct a). rewrite filter_cons, filter_nil. case_decide; cbn [Strings.Join]; [|done].
  by rewrite !string_app_assoc.
- by rewrite Hgen.
- by rewrite Hgen.
Qed.

(** ** Paths that go down *)
Definition plain (p : string) : Prop := Forall name_ok (Filepath.split p).

#[global] Instance plain_dec p : Decision (plain p).
Proof. unfold plain. apply _. Defined.

Lemma plain_nonempty p : plain p → p ≠ "".
Proof. intros Hp ->. inversion Hp as [|? ? [? _] _]. done. Qed.

Lemma fold_names r acc es : Forall name_ok es → foldl (Filepath.clean_step r) acc es = rev es ++ acc.
Proof.
intros H. revert acc. induction H as [|e es (H1 & H2 & H3 & _) _ IH]; intros acc; [done|]. cbn [foldl rev].
rewrite IH, <-(assoc_L (++)). unfold Filepath.clean_step. by rewrite !bool_decide_false by tauto.
Qed.

Lemma prefix_of_app x y : Strings.HasPrefix (x +:+ y) x = true.
Proof.
unfold Strings.HasPrefix. induction x as [|c x IH]; [by destruct y|].
change (String c x +:+ y) with (String c (x +:+ y)). cbn. by case_match.
Qed.

Lemma strings_join_app xs ys : xs ≠ [] → ys ≠ [] →
  Strings.Join (xs ++ ys) "/" = Strings.Join xs "/" +:+ "/" +:+ Strings.Join ys "/".
Proof.
intros Hx Hy. induction xs as [|x xs IH]; [done|]. destruct xs as [|x' xs].
- cbn. by destruct ys.
- change (Strings.Join ((x :: x' :: xs) ++ ys) "/") with (x +:+ "/" +:+ Strings.Join ((x' :: xs) ++ ys) "/").
  rewrite IH by done. change (Strings.Join (x :: x' :: xs) "/") with (x +:+ "/" +:+ Strings.Join (x' :: xs) "/").
  by rewrite !string_app_assoc.
Qed.

Lemma split_nonempty s : Filepath.split s ≠ [].
Proof.
unfold Filepath.split. generalize "". induction s as [|c s IH]; intros acc; cbn; [done|]. by case_match.
Qed.

(** Joining a plain path to a directory stays inside. *)
Lemma join_inside d p :
  Filepath.is_rooted d = true → Filepath.Clean d = d → plain p → Strings.HasPrefix (Filepath.Join [d; p]) d = true.
Proof.
intros Hr Hd Hp. assert (d ≠ "") as Hd0 by (by intros ->). pose proof (plain_nonempty p Hp) as Hp0.
unfold Filepath.Join. rewrite !filter_cons_True, filter_nil by done. cbn [Strings.Join].
rewrite <-Hd at 2. rewrite !clean_kept, rooted_app, Hr by done.
assert (kept (d +:+ "/" +:+ p) = rev (Filepath.split p) ++ kept d) as ->.
{ unfold kept. rewrite rooted_app by done. rewrite split_slash, foldl_app. by apply fold_names. }
rewrite rev_app_distr, rev_involutive. unfold abs_path.
destruct (decide (rev (kept d) = [])) as [->|Hne]; [apply (prefix_of_app "/")|].
rewrite strings_join_app; [|done|apply split_nonempty].
rewrite <-!string_app_assoc. rewrite string_app_assoc. apply prefix_of_app.
Qed.

(** In a directory other than the root, the path is appended. *)
Lemma join_split s : Strings.Join (Filepath.split s) "/" = s.
Proof.
unfold Filepath.split.
assert (∀ acc, Strings.Join (Filepath.split_aux s acc) "/" = acc +:+ s) as Hgen; [|apply Hgen].
induction s as [|c s IH]; intros acc; cbn [Filepath.split_aux]; [by rewrite string_app_nil_r|].
destruct (Ascii.eqb_spec c Filepath.slash) as [->|Hc].
- destruct (Filepath.split_aux s "") as [|e es] eqn:E; [by destruct (split_nonempty s E)|].
  change (acc +:+ "/" +:+ Strings.Join (e :: es) "/" = acc +:+ "/" +:+ s). rewrite <-E, IH. done.
- rewrite IH, string_app_assoc. done.
Qed.

Lemma join_plain es p : es ≠ [] → Forall name_ok es → plain p → Filepath.Join [abs_path es; p] = abs_path es +:+ "/" +:+ p.
Proof.
intros Hne Hes Hp. pose proof (plain_nonempty p Hp) as Hp0.
unfold Filepath.Join. rewrite !filter_cons_True, filter_nil by done. cbn [Strings.Join].
rewrite clean_rooted; [|apply rooted_slash|].
- unfold Filepath.elements. rewrite split_slash, filter_app. fold (Filepath.elements (abs_path es)).
  rewrite elements_abs, names_nonempty by done. unfold abs_path.
  rewrite strings_join_app by (done || apply split_nonempty). by rewrite join_split, string_app_assoc.
- rewrite split_slash. apply Forall_app. split; [by apply split_abs_ok|]. eapply Forall_impl; [exact Hp|]. auto.
Qed.

Lemma substring_all b : String.substring 0 (String.length b) b = b.
Proof. induction b as [|c b IH]; [done|]. exact (f_equal (String c) IH). Qed.

Lemma substring_app a b : String.substring (String.length a) (String.length b) (a +:+ b) = b.
Proof.
induction a as [|c a IH]; [apply substring_all|exact IH].
Qed.

Lemma trim_prefix a b : Strings.TrimPrefix (a +:+ b) a = b.
Proof.
unfold Strings.TrimPrefix. rewrite prefix_of_app, string_length_app.
replace (String.length a + String.length b - String.length a) with (String.length b) by lia. apply substring_app.
Qed.
