(* ===== verification/Codec.v ===== *)
(** * Encodings: base64, [lib/compression], and the [.kratix] state file

    Base64 is written out; gzip and YAML stand for the libraries and are
    parameters with their round-trip laws. *)

From S2P Require Import Prelude GoLib.
From Stdlib Require Import Ascii.

(** ** encoding/base64, [StdEncoding] *)
Module Base64.
Definition alphabet : string :=
  "ABCDEFGHIJKLMNOPQRSTUVWXYZabcdefghijklmnopqrstuvwxyz0123456789+/".

Definition pad : ascii := "="%char.

(** The character of a sextet, and back. *)
Definition enc (n : nat) : ascii := default pad (String.get n alphabet).

Fixpoint index (c : ascii) (s : string) (i : nat) : option nat :=
  match s with
  | EmptyString => None
  | String d s' => if Ascii.eqb c d then Some i else index c s' (S i)
  end.
Definition dec (c : ascii) : option nat := index c alphabet 0.

Definition byte (n : nat) : ascii := ascii_of_nat n.
Definition val (c : ascii) : nat := nat_of_ascii c.

(** The four sextets of three bytes. *)
Definition s1 (a : nat) : nat := a / 4.
Definition s2 (a b : nat) : nat := (a mod 4) * 16 + b / 16.
Definition s3 (b c : nat) : nat := (b mod 16) * 4 + c / 64.
Definition s4 (c : nat) : nat := c mod 64.

Fixpoint Encode (s : string) : string :=
  match s with
  | EmptyString => EmptyString
  | String a EmptyString =>
      String (enc (s1 (val a))) (String (enc (s2 (val a) 0)) (String pad (String pad EmptyString)))
  | String a (String b EmptyString) =>
      String (enc (s1 (val a))) (String (enc (s2 (val a) (val b)))
        (String (enc (s3 (val b) 0)) (String pad EmptyString)))
  | String a (String b (String c rest)) =>
      String (enc (s1 (val a))) (String (enc (s2 (val a) (val b)))
        (String (enc (s3 (val b) (val c))) (String (enc (s4 (val c))) (Encode rest))))
  end.

(** Line breaks inside the input are skipped. *)
Definition is_newline (c : ascii) : bool := Ascii.eqb c "010"%char || Ascii.eqb c "013"%char.

Fixpoint strip (s : string) : string :=
  match s with
  | EmptyString => EmptyString
  | String c s' => if is_newline c then strip s' else String c (strip s')
  end.

(** A quantum of four characters: the last one of the input may be padded. *)
Fixpoint decode (s : string) : option string :=
  match s with
  | EmptyString => Some EmptyString
  | String x (String y (String z (String w rest))) =>
      match dec x, dec y with
      | Some p, Some q =>
          let a := byte ((p * 4 + q / 16) mod 256) in
          if Ascii.eqb z pad then
            if Ascii.eqb w pad && bool_decide (rest = EmptyString)
            then Some (String a EmptyString) else None
          else
            match dec z with
            | None => None
            | Some r =>
                let b := byte (((q mod 16) * 16 + r / 4) mod 256) in
                if Ascii.eqb w pad then
                  if bool_decide (rest = EmptyString)
                  then Some (String a (String b EmptyString)) else None
                else
                  match dec w, decode rest with
                  | Some t, Some rest' =>
                      Some (String a (String b (String (byte (((r mod 4) * 64 + t) mod 256)) rest')))
                  | _, _ => None
                  end
            end
      | _, _ => None
      end
  | _ => None
  end.

Definition Decode (s : string) : option string := decode (strip s).

Lemma dec_enc n : n < 64 → dec (enc n) = Some n ∧ enc n ≠ pad ∧ is_newline (enc n) = false.
Proof.
intros Hn.
assert (Forall (λ n, dec (enc n) = Some n ∧ enc n ≠ pad ∧ is_newline (enc n) = false) (seq 0 64))
  as Hall by (by vm_compute; repeat constructor).
rewrite Forall_forall in Hall. apply Hall, elem_of_seq. lia.
Qed.

Lemma val_bound c : val c < 256.
Proof. unfold val. apply nat_ascii_bounded. Qed.

Lemma byte_val c n : n = val c → byte n = c.
Proof. intros ->. apply ascii_nat_embedding. Qed.

Lemma div_lt b n m : b < n * m → b / n < m.
Proof. apply Nat.Div0.div_lt_upper_bound. Qed.

Lemma sextet_bounds a b : a < 256 → b < 256 → s1 a < 64 ∧ s2 a b < 64 ∧ s3 a b < 64 ∧ s4 a < 64.
Proof.
unfold s1, s2, s3, s4. intros. pose proof (div_lt a 4 64 ltac:(lia)).
pose proof (div_lt b 16 16 ltac:(lia)). pose proof (div_lt b 64 4 ltac:(lia)).
pose proof (Nat.mod_upper_bound a 4). pose proof (Nat.mod_upper_bound a 16).
pose proof (Nat.mod_upper_bound a 64). lia.
Qed.

Lemma join12 a b : a < 256 → b < 256 → (s1 a * 4 + s2 a b / 16) mod 256 = a.
Proof.
unfold s1, s2. intros. pose proof (div_lt b 16 16 ltac:(lia)).
rewrite Nat.div_add_l, (Nat.div_small (b / 16)) by lia.
pose proof (Nat.div_mod_eq a 4). rewrite Nat.mod_small; lia.
Qed.
Lemma join23 a b c : a < 256 → b < 256 → c < 256 →
  ((s2 a b mod 16) * 16 + s3 b c / 4) mod 256 = b.
Proof.
unfold s2, s3. intros. pose proof (div_lt b 16 16 ltac:(lia)).
pose proof (div_lt c 64 4 ltac:(lia)).
rewrite (Nat.add_comm (a mod 4 * 16)), Nat.Div0.mod_add, (Nat.mod_small (b / 16)) by lia.
rewrite Nat.div_add_l, (Nat.div_small (c / 64)) by lia.
pose proof (Nat.div_mod_eq b 16). rewrite Nat.mod_small; lia.
Qed.
Lemma join34 b c : b < 256 → c < 256 → ((s3 b c mod 4) * 64 + s4 c) mod 256 = c.
Proof.
unfold s3, s4. intros. pose proof (div_lt c 64 4 ltac:(lia)).
rewrite (Nat.add_comm (b mod 16 * 4)), Nat.Div0.mod_add, (Nat.mod_small (c / 64)) by lia.
pose proof (Nat.div_mod_eq c 64). rewrite Nat.mod_small; lia.
Qed.

(** Induction by three bytes at a time. *)
Lemma string_ind3 (P : string → Prop) :
  P "" → (∀ a, P (String a "")) → (∀ a b, P (String a (String b ""))) →
  (∀ a b c s, P s → P (String a (String b (String c s)))) → ∀ s, P s.
Proof.
intros H0 H1 H2 H3 s.
assert (∀ n s, String.length s ≤ n → P s) as Hgen; [|by apply (Hgen (String.length s))].
induction n as [|n IH]; intros [|a [|b [|c s']]] Hl; auto; simpl in Hl; [lia..|].
apply H3, IH. lia.
Qed.

Lemma eqb_pad n : n < 64 → Ascii.eqb (enc n) pad = false.
Proof. intros (_ & Hne & _)%dec_enc. by apply Ascii.eqb_neq. Qed.

Lemma decode_Encode s : decode (Encode s) = Some s.
Proof.
induction s as [|a|a b|a b c s IH] using string_ind3; [done| | |].
all: try pose proof (val_bound a); try pose proof (val_bound b); try pose proof (val_bound c).
- destruct (sextet_bounds (val a) 0) as (B1 & B2 & _); [lia..|].
  cbn [Encode decode]. destruct (dec_enc _ B1) as [-> _], (dec_enc _ B2) as [-> _].
  rewrite join12 by lia. by rewrite (byte_val a).
- destruct (sextet_bounds (val a) (val b)) as (B1 & B2 & _); [lia..|].
  destruct (sextet_bounds (val b) 0) as (_ & _ & B3 & _); [lia..|].
  cbn [Encode decode]. destruct (dec_enc _ B1) as [-> _], (dec_enc _ B2) as [-> _].
  rewrite (eqb_pad _ B3). destruct (dec_enc _ B3) as [-> _].
  rewrite join12, join23 by lia. by rewrite (byte_val a), (byte_val b).
- destruct (sextet_bounds (val a) (val b)) as (B1 & B2 & _); [lia..|].
  destruct (sextet_bounds (val b) (val c)) as (_ & _ & B3 & _); [lia..|].
  destruct (sextet_bounds (val c) 0) as (_ & _ & _ & B4); [lia..|].
  cbn [Encode decode]. destruct (dec_enc _ B1) as [-> _], (dec_enc _ B2) as [-> _].
  rewrite (eqb_pad _ B3), (eqb_pad _ B4).
  destruct (dec_enc _ B3) as [-> _], (dec_enc _ B4) as [-> _].
  rewrite join12, join23, join34 by lia.
  by rewrite (byte_val a), (byte_val b), (byte_val c), IH.
Qed.

Lemma strip_Encode s : strip (Encode s) = Encode s.
Proof.
induction s as [|a|a b|a b c s IH] using string_ind3; [done| | |].
all: try pose proof (val_bound a); try pose proof (val_bound b); try pose proof (val_bound c).
- destruct (sextet_bounds (val a) 0) as (B1 & B2 & _); [lia..|].
  cbn [Encode strip]. destruct (dec_enc _ B1) as (_ & _ & ->), (dec_enc _ B2) as (_ & _ & ->).
  done.
- destruct (sextet_bounds (val a) (val b)) as (B1 & B2 & _); [lia..|].
  destruct (sextet_bounds (val b) 0) as (_ & _ & B3 & _); [lia..|].
  cbn [Encode strip]. destruct (dec_enc _ B1) as (_ & _ & ->), (dec_enc _ B2) as (_ & _ & ->),
    (dec_enc _ B3) as (_ & _ & ->). done.
- destruct (sextet_bounds (val a) (val b)) as (B1 & B2 & _); [lia..|].
  destruct (sextet_bounds (val b) (val c)) as (_ & _ & B3 & _); [lia..|].
  destruct (sextet_bounds (val c) 0) as (_ & _ & _ & B4); [lia..|].
  cbn [Encode strip]. destruct (dec_enc _ B1) as (_ & _ & ->), (dec_enc _ B2) as (_ & _ & ->),
    (dec_enc _ B3) as (_ & _ & ->), (dec_enc _ B4) as (_ & _ & ->). by rewrite IH.
Qed.

Lemma Decode_Encode s : Decode (Encode s) = Some s.
Proof. unfold Decode. by rewrite strip_Encode, decode_Encode. Qed.

Example encode_ex : Encode "kratix!" = "a3JhdGl4IQ==".
Proof. vm_compute. reflexivity. Qed.
End Base64.

(** ** gzip and YAML *)
Class Codec := {
  (** [gzip.NewWriter], [Write] and [Close] on a buffer never fail. *)
  gzip : string → string;
  gunzip : string → error + string;
  (** [yaml.Marshal] and [yaml.Unmarshal] of a [StateFile]. *)
  yaml_Marshal : list string → error + string;
  yaml_Unmarshal : string → error + list string;
}.

Class CodecLaws `{Codec} : Prop := {
  gunzip_gzip : ∀ s, gunzip (gzip s) = inr s;
  unmarshal_marshal : ∀ files s, yaml_Marshal files = inr s → yaml_Unmarshal s = inr files;
  unmarshal_empty : yaml_Unmarshal "" = inr [];
}.

(** ** lib/compression *)
Section compression.
Context `{Codec}.

Definition CompressContent (content : string) : string := Base64.Encode (gzip content).

Definition DecompressContent (compressed : string) : error + string :=
  match Base64.Decode compressed with
  | None => inl (ErrorMsg "illegal base64 data")
  | Some decoded => gunzip decoded
  end.

Fixpoint contains (s sub : string) : bool :=
  String.prefix sub s ||
  match s with EmptyString => false | String _ s' => contains s' sub end.

Definition InCompressedContents (compressed content : string) : error + bool :=
  match DecompressContent compressed with
  | inl e => inl (ErrorWrap "unable to decompress contents" e)
  | inr d => inr (contains d content)
  end.

Lemma decompress_compressed `{!CodecLaws} s : DecompressContent (CompressContent s) = inr s.
Proof.
unfold DecompressContent, CompressContent. by rewrite Base64.Decode_Encode, gunzip_gzip.
Qed.

(** C40: What is compressed into a Work is what is written out: decompressing the
    base64-encoded gzip stream gives the content back, for every content, and
    searching the compressed form searches the content itself. *)
Theorem compression_round_trip `{!CodecLaws} s sub :
  DecompressContent (CompressContent s) = inr s ∧
  InCompressedContents (CompressContent s) sub = inr (contains s sub).
Proof. unfold InCompressedContents. by rewrite decompress_compressed. Qed.
End compression.
