(* ===== verification/Meta.v ===== *)
(** * Object metadata, conditions and the generic shape of an API object

    Every Kubernetes object the controllers handle has metadata, a spec and a
    status.  A Go map that is [nil] and one that is empty behave alike in
    every read; both are the empty [gmap] here. *)

From S2P Require Import Prelude.

(** An object is addressed by its namespace ("" when it is cluster scoped)
    and its name. *)
Abbreviation Key := (string * string)%type.
Abbreviation Labels := (gmap string string).

(** [labels[key]] in Go: the empty string when the key is missing. *)
Definition label (ls : Labels) (k : string) : string := default "" (ls !! k).

Record OwnerReference := {
  or_kind : string;
  or_name : string;
  or_controller : bool;
}.

Record ObjectMeta := {
  om_name : string;
  om_namespace : string;
  om_uid : string;
  om_labels : Labels;
  om_annotations : Labels;
  om_finalizers : list string;
  om_owners : list OwnerReference;
  om_deletionTimestamp : option Z;
  om_creationTimestamp : Z;
  om_generation : Z;
}.

#[global] Instance OwnerReference_eq_dec : EqDecision OwnerReference.
Proof. solve_decision. Defined.
#[global] Instance ObjectMeta_eq_dec : EqDecision ObjectMeta.
Proof. solve_decision. Defined.

(** The metadata of [&T{}] with a namespace and a name assigned. *)
Definition new_meta (ns name : string) : ObjectMeta := {|
  om_name := name; om_namespace := ns; om_uid := "";
  om_labels := ∅; om_annotations := ∅; om_finalizers := []; om_owners := [];
  om_deletionTimestamp := None; om_creationTimestamp := 0; om_generation := 0 |}.

Definition om_key (m : ObjectMeta) : Key := (om_namespace m, om_name m).

Definition om_set_labels (ls : Labels) (m : ObjectMeta) : ObjectMeta :=
  {| om_name := om_name m; om_namespace := om_namespace m; om_uid := om_uid m;
     om_labels := ls; om_annotations := om_annotations m;
     om_finalizers := om_finalizers m; om_owners := om_owners m;
     om_deletionTimestamp := om_deletionTimestamp m;
     om_creationTimestamp := om_creationTimestamp m;
     om_generation := om_generation m |}.
Definition om_set_annotations (a : Labels) (m : ObjectMeta) : ObjectMeta :=
  {| om_name := om_name m; om_namespace := om_namespace m; om_uid := om_uid m;
     om_labels := om_labels m; om_annotations := a;
     om_finalizers := om_finalizers m; om_owners := om_owners m;
     om_deletionTimestamp := om_deletionTimestamp m;
     om_creationTimestamp := om_creationTimestamp m;
     om_generation := om_generation m |}.
Definition om_set_finalizers (fs : list string) (m : ObjectMeta) : ObjectMeta :=
  {| om_name := om_name m; om_namespace := om_namespace m; om_uid := om_uid m;
     om_labels := om_labels m; om_annotations := om_annotations m;
     om_finalizers := fs; om_owners := om_owners m;
     om_deletionTimestamp := om_deletionTimestamp m;
     om_creationTimestamp := om_creationTimestamp m;
     om_generation := om_generation m |}.
Definition om_set_owners (os : list OwnerReference) (m : ObjectMeta) : ObjectMeta :=
  {| om_name := om_name m; om_namespace := om_namespace m; om_uid := om_uid m;
     om_labels := om_labels m; om_annotations := om_annotations m;
     om_finalizers := om_finalizers m; om_owners := os;
     om_deletionTimestamp := om_deletionTimestamp m;
     om_creationTimestamp := om_creationTimestamp m;
     om_generation := om_generation m |}.
(** The fields only the API server writes. *)
Definition om_set_system (uid : string) (del : option Z) (created gen : Z)
    (m : ObjectMeta) : ObjectMeta :=
  {| om_name := om_name m; om_namespace := om_namespace m; om_uid := uid;
     om_labels := om_labels m; om_annotations := om_annotations m;
     om_finalizers := om_finalizers m; om_owners := om_owners m;
     om_deletionTimestamp := del;
     om_creationTimestamp := created;
     om_generation := gen |}.

(** [!obj.DeletionTimestamp.IsZero()] *)
Definition is_deleting (m : ObjectMeta) : bool :=
  match om_deletionTimestamp m with Some _ => true | None => false end.

(** ** metav1.Condition and clusterv1.Condition *)
Definition ConditionTrue : string := "True".
Definition ConditionFalse : string := "False".
Definition ConditionUnknown : string := "Unknown".

Record Condition := {
  cond_type : string;
  cond_status : string;
  cond_reason : string;
  cond_message : string;
  cond_lastTransitionTime : Z;
}.

#[global] Instance Condition_eq_dec : EqDecision Condition.
Proof. solve_decision. Defined.

(** A condition literal that leaves [LastTransitionTime] unset. *)
Definition mk_cond (type status reason message : string) : Condition :=
  {| cond_type := type; cond_status := status; cond_reason := reason;
     cond_message := message; cond_lastTransitionTime := 0 |}.

(** What a condition says, its transition time aside. *)
Definition same_cond (c d : Condition) : Prop :=
  cond_type c = cond_type d ∧ cond_status c = cond_status d ∧
  cond_reason c = cond_reason d ∧ cond_message c = cond_message d.

(** [c != nil && c.Status == st], and the same for the reason. *)
Definition status_is (c : option Condition) (st : string) : bool :=
  match c with Some c => bool_decide (cond_status c = st) | None => false end.
Definition reason_is (c : option Condition) (reason : string) : bool :=
  match c with Some c => bool_decide (cond_reason c = reason) | None => false end.

(** ** Typed objects *)
Record Resource (Spec Status : Type) := mkResource {
  r_meta : ObjectMeta;
  r_spec : Spec;
  r_status : Status;
}.
Arguments mkResource {_ _} _ _ _.
Arguments r_meta {_ _} _.
Arguments r_spec {_ _} _.
Arguments r_status {_ _} _.

#[global] Instance Resource_eq_dec {A B} `{EqDecision A, EqDecision B} :
  EqDecision (Resource A B).
Proof. solve_decision. Defined.

Section resource.
Context {Spec Status : Type}.
Implicit Types o : Resource Spec Status.

Definition set_meta (m : ObjectMeta) o := mkResource m (r_spec o) (r_status o).
Definition set_spec (x : Spec) o := mkResource (r_meta o) x (r_status o).
Definition set_status (x : Status) o := mkResource (r_meta o) (r_spec o) x.

Definition GetName o := om_name (r_meta o).
Definition GetNamespace o := om_namespace (r_meta o).
Definition GetLabels o := om_labels (r_meta o).
Definition GetAnnotations o := om_annotations (r_meta o).
Definition GetFinalizers o := om_finalizers (r_meta o).
Definition key o : Key := om_key (r_meta o).
Definition deleting o : bool := is_deleting (r_meta o).

Definition SetLabels (ls : Labels) o := set_meta (om_set_labels ls (r_meta o)) o.
Definition SetAnnotations (a : Labels) o := set_meta (om_set_annotations a (r_meta o)) o.
Definition SetFinalizers (fs : list string) o :=
  set_meta (om_set_finalizers fs (r_meta o)) o.
End resource.
