(* ===== verification/Api.v ===== *)
(** * The API types of [api/v1alpha1]

    Works, WorkPlacements and Destinations with their methods, the scheduling
    selectors of a Promise, and the fields of [batchv1.Job] the workflow
    reconciler reads. *)

From S2P Require Import Prelude GoLib Meta.

(** ** Constants of [work_types.go], [const.go] and [promise_types.go] *)
Definition DefaultWorkloadGroupDirectory := ".".
Definition KratixPrefix := "kratix.io/".
Definition PromiseVersionLabel := KratixPrefix +:+ "promise-version".
Definition PromiseNameLabel := KratixPrefix +:+ "promise-name".
Definition ResourceNameLabel := KratixPrefix +:+ "resource-name".
Definition PipelineNameLabel := KratixPrefix +:+ "pipeline-name".
Definition PipelineNamespaceLabel := KratixPrefix +:+ "pipeline-namespace".
Definition WorkTypeLabel := KratixPrefix +:+ "work-type".
Definition WorkActionLabel := KratixPrefix +:+ "work-action".
Definition UserPermissionResourceNamespaceLabel := KratixPrefix +:+ "resource-namespace".
Definition WorkTypePromise := "promise".
Definition WorkTypeResource := "resource".
Definition WorkTypeStaticDependency := "static-dependency".
Definition WorkflowTypeLabel := KratixPrefix +:+ "workflow-type".
Definition WorkflowActionLabel := KratixPrefix +:+ "workflow-action".
Definition KratixResourceHashLabel := "kratix.io/hash".
Definition KratixPipelineHashLabel := "kratix.io/pipeline-hash".

Definition SystemNamespace := "kratix-platform-system".
Definition WorkflowActionConfigure := "configure".
Definition WorkflowActionDelete := "delete".
Definition WorkflowTypeResource := "resource".
Definition WorkflowTypePromise := "promise".

(** ** Work *)
Record Workload := { wl_filepath : string; wl_content : string }.

Record WorkloadGroupScheduling := {
  wgs_matchLabels : Labels;
  wgs_source : string;
}.

Record WorkloadGroup := {
  wg_workloads : list Workload;
  wg_directory : string;
  wg_id : string;
  wg_destinationSelectors : list WorkloadGroupScheduling;
}.

Record WorkSpec := {
  ws_workloadGroups : list WorkloadGroup;
  ws_promiseName : string;
  ws_resourceName : string;
}.

Record WorkStatus := {
  wst_conditions : list Condition;
  wst_workPlacements : Z;
  wst_workPlacementsCreated : Z;
}.

Abbreviation Work := (Resource WorkSpec WorkStatus).

#[global] Instance Workload_eq_dec : EqDecision Workload.
Proof. solve_decision. Defined.
#[global] Instance WorkloadGroupScheduling_eq_dec : EqDecision WorkloadGroupScheduling.
Proof. solve_decision. Defined.
#[global] Instance WorkloadGroup_eq_dec : EqDecision WorkloadGroup.
Proof. solve_decision. Defined.
#[global] Instance WorkSpec_eq_dec : EqDecision WorkSpec.
Proof. solve_decision. Defined.
#[global] Instance WorkStatus_eq_dec : EqDecision WorkStatus.
Proof. solve_decision. Defined.

Definition IsResourceRequest (w : Work) : bool :=
  bool_decide (ws_resourceName (r_spec w) ≠ "").

Definition IsDependency (w : Work) : bool :=
  bool_decide (ws_resourceName (r_spec w) = "").

(** [Work.GetWorkloadGroupScheduling]: only the first group of the directory
    is searched, and in it the first selector of the source. *)
Definition GetWorkloadGroupScheduling (w : Work) (source directory : string)
    : option WorkloadGroupScheduling :=
  match list_find (λ wg, wg_directory wg = directory) (ws_workloadGroups (r_spec w)) with
  | None => None
  | Some (_, wg) =>
      snd <$> list_find (λ s, wgs_source s = source) (wg_destinationSelectors wg)
  end.

Definition GetDefaultScheduling (w : Work) (source : string)
    : option WorkloadGroupScheduling :=
  GetWorkloadGroupScheduling w source DefaultWorkloadGroupDirectory.

(** ** WorkPlacement *)
Record WorkPlacementSpec := {
  wps_targetDestinationName : string;
  wps_workloads : list Workload;
  wps_promiseName : string;
  wps_resourceName : string;
  wps_id : string;
}.

Record WorkPlacementStatus := {
  wpst_conditions : list Condition;
  wpst_versionID : string;
}.

Abbreviation WorkPlacement := (Resource WorkPlacementSpec WorkPlacementStatus).

#[global] Instance WorkPlacementSpec_eq_dec : EqDecision WorkPlacementSpec.
Proof. solve_decision. Defined.
#[global] Instance WorkPlacementStatus_eq_dec : EqDecision WorkPlacementStatus.
Proof. solve_decision. Defined.

Definition empty_wp_spec : WorkPlacementSpec := {|
  wps_targetDestinationName := ""; wps_workloads := []; wps_promiseName := "";
  wps_resourceName := ""; wps_id := "" |}.
Definition empty_wp_status : WorkPlacementStatus :=
  {| wpst_conditions := []; wpst_versionID := "" |}.

(** [&v1alpha1.WorkPlacement{}] with a namespace and a name. *)
Definition new_WorkPlacement (ns name : string) : WorkPlacement :=
  mkResource (new_meta ns name) empty_wp_spec empty_wp_status.

Definition set_wp_conditions (cs : list Condition) (wp : WorkPlacement) : WorkPlacement :=
  set_status {| wpst_conditions := cs; wpst_versionID := wpst_versionID (r_status wp) |} wp.

Definition set_wp_versionID (v : string) (wp : WorkPlacement) : WorkPlacement :=
  set_status {| wpst_conditions := wpst_conditions (r_status wp); wpst_versionID := v |} wp.

(** [workPlacement.Spec.Workloads = ws] *)
Definition set_wp_workloads (ws : list Workload) (wp : WorkPlacement) : WorkPlacement :=
  let sp := r_spec wp in
  set_spec {| wps_targetDestinationName := wps_targetDestinationName sp;
              wps_workloads := ws; wps_promiseName := wps_promiseName sp;
              wps_resourceName := wps_resourceName sp; wps_id := wps_id sp |} wp.

Definition SetPipelineName (work : Work) (w : WorkPlacement) : WorkPlacement :=
  SetLabels (<[PipelineNameLabel := label (GetLabels work) PipelineNameLabel]>
               (GetLabels w)) w.

Definition PipelineName (w : WorkPlacement) : string :=
  label (GetLabels w) PipelineNameLabel.

Definition GetUniqueID (w : WorkPlacement) : string :=
  GetNamespace w +:+ "-" +:+ GetName w.

(** ** Destination *)
Definition FilepathModeNone := "none".
Definition FilepathModeNestedByMetadata := "nestedByMetadata".
Definition FilepathModeAggregatedYAML := "aggregatedYAML".
Definition DestinationCleanupAll := "all".
Definition DestinationCleanupNone := "none".

Record StateStoreReference := { ssr_kind : string; ssr_name : string }.
Record Filepath := { fp_mode : string; fp_filename : string }.

Record DestinationSpec := {
  ds_path : string;
  ds_stateStoreRef : StateStoreReference;
  ds_strictMatchLabels : bool;
  ds_filepath : Filepath;
  ds_cleanup : string;
  ds_initWorkloadsEnabled : bool;
}.

Record DestinationStatus := { dst_conditions : list Condition }.

Abbreviation Destination := (Resource DestinationSpec DestinationStatus).

#[global] Instance StateStoreReference_eq_dec : EqDecision StateStoreReference.
Proof. solve_decision. Defined.
#[global] Instance Filepath_eq_dec : EqDecision Filepath.
Proof. solve_decision. Defined.
#[global] Instance DestinationSpec_eq_dec : EqDecision DestinationSpec.
Proof. solve_decision. Defined.
#[global] Instance DestinationStatus_eq_dec : EqDecision DestinationStatus.
Proof. solve_decision. Defined.

Definition GetFilepathMode (d : Destination) : string :=
  let m := fp_mode (ds_filepath (r_spec d)) in
  if bool_decide (m = "") then FilepathModeNestedByMetadata else m.

Definition GetCleanup (d : Destination) : string :=
  let c := ds_cleanup (r_spec d) in
  if bool_decide (c = "") then DestinationCleanupNone else c.

(** ** State stores ([bucketstatestore_types.go], [gitstatestore_types.go]) *)
Record SecretReference := { sr_name : string; sr_namespace : string }.

Record BucketStateStoreSpec := {
  bss_bucketName : string;
  bss_endpoint : string;
  bss_path : string;
  bss_secretRef : option SecretReference;
  bss_insecure : bool;
  bss_authMethod : string;
}.

Record GitAuthor := { ga_name : string; ga_email : string }.

Record GitStateStoreSpec := {
  gss_url : string;
  gss_path : string;
  gss_secretRef : option SecretReference;
  gss_branch : string;
  gss_authMethod : string;
  gss_gitAuthor : GitAuthor;
}.

Record StateStoreStatus := { sst_status : string; sst_conditions : list Condition }.
Definition empty_store_status : StateStoreStatus := {| sst_status := ""; sst_conditions := [] |}.

Abbreviation BucketStateStore := (Resource BucketStateStoreSpec StateStoreStatus).
Abbreviation GitStateStore := (Resource GitStateStoreSpec StateStoreStatus).

Definition AuthMethodIAM := "IAM".
Definition AuthMethodAccessKey := "accessKey".

Definition ValidateSecretRef (b : BucketStateStore) : option error :=
  if bool_decide (bss_authMethod (r_spec b) = AuthMethodAccessKey) then
    match bss_secretRef (r_spec b) with
    | None => Some (ErrorMsg "spec.secretRef must be set when using authentication method accessKey")
    | Some ref =>
        if bool_decide (sr_name ref = "")
        then Some (ErrorMsg "spec.secretRef must contain secret name")
        else if bool_decide (sr_namespace ref = "")
        then Some (ErrorMsg "spec.secretRef must contain secret namespace")
        else None
    end
  else None.

(** A secret; its data may be missing altogether. *)
Record SecretSpec := { sec_data : option (gmap string string) }.
Abbreviation Secret := (Resource SecretSpec unit).

(** ** Promise releases ([promiserelease_types.go]) *)
Definition TypeHTTP := "http".

Record SourceRef := { src_type : string; src_url : string; src_secretRef : option SecretReference }.
Record PromiseReleaseSpec := { prl_version : string; prl_sourceRef : SourceRef }.
Record PromiseReleaseStatus := { prls_status : string; prls_conditions : list Condition }.
Definition empty_release_status : PromiseReleaseStatus := {| prls_status := ""; prls_conditions := [] |}.
Abbreviation PromiseRelease := (Resource PromiseReleaseSpec PromiseReleaseStatus).

(** ** Health records ([healthrecord_types.go]): data instead of a spec, no status *)
Record ResourceRef := { rref_name : string; rref_namespace : string; rref_generation : Z }.
Record HealthRecordData := {
  hr_promiseRef : string;
  hr_resourceRef : ResourceRef;
  hr_state : string;
  hr_lastRun : Z;
  hr_details : option string;
}.
Abbreviation HealthRecord := (Resource HealthRecordData unit).

(** ** Scheduling selectors of a Promise *)
Record PromiseScheduling := { ps_matchLabels : Labels }.

(** [for key, value := range src { dst[key] = value }].  The keys of [src] are
    distinct, so the order of the iteration does not matter. *)
Definition assign_all (src dst : Labels) : Labels :=
  map_fold (λ k v acc, <[k := v]> acc) dst src.

Lemma assign_all_union src dst : assign_all src dst = src ∪ dst.
Proof.
  unfold assign_all. induction src as [|k v m Hk IH] using map_ind.
  - by rewrite map_fold_empty, (left_id_L ∅ (∪)).
  - rewrite map_fold_insert_L; [by rewrite IH, insert_union_l| |done].
    intros j1 j2 z1 z2 y Hne _ _. by rewrite insert_insert_ne.
Qed.

(** [SquashPromiseScheduling]: from the last entry to the first, so that the
    first one takes precedence. *)
Definition SquashPromiseScheduling (scheduling : list PromiseScheduling) : Labels :=
  foldl (λ acc s, assign_all (ps_matchLabels s) acc) ∅ (rev scheduling).

(** ** Pods, as far as the pipeline jobs describe them *)
Record EnvVar := { env_name : string; env_value : string }.
Record VolumeMount := { vm_mountPath : string; vm_name : string; vm_readOnly : bool }.
Inductive VolumeSource :=
  | VolEmptyDir
  | VolConfigMap (name : string) (items : list (string * string))
  | VolOther (description : string).
Record Volume := { vol_name : string; vol_source : VolumeSource }.
Record SecurityContext := {
  sc_allowPrivilegeEscalation : option bool;
  sc_capabilitiesDrop : list string;
  sc_runAsNonRoot : option bool;
  sc_seccompProfile : string;
  sc_privileged : option bool;
  sc_other : string;
}.
Record PodContainer := {
  pc_name : string;
  pc_image : string;
  pc_command : list string;
  pc_args : list string;
  pc_env : list EnvVar;
  pc_envFrom : list string;
  pc_volumeMounts : list VolumeMount;
  pc_imagePullPolicy : string;
  pc_securityContext : option SecurityContext;
}.
Record PodSpec := {
  pod_restartPolicy : string;
  pod_serviceAccountName : string;
  pod_containers : list PodContainer;
  pod_imagePullSecrets : list string;
  pod_initContainers : list PodContainer;
  pod_volumes : list Volume;
  pod_nodeSelector : Labels;
  pod_tolerations : list string;
}.
Record PodTemplate := {
  pt_labels : Labels;
  pt_annotations : Labels;
  pt_spec : PodSpec;
}.

(** ** batchv1.Job *)
Definition JobComplete := "Complete".
Definition JobFailed := "Failed".
Definition JobSuspended := "Suspended".

Record JobSpec := {
  jsp_suspend : option bool;
  jsp_backoffLimit : option Z;
  jsp_template : PodTemplate;
}.
Record JobCondition := { jc_type : string; jc_status : string }.
Record JobStatus := {
  js_active : Z;
  js_succeeded : Z;
  js_failed : Z;
  js_conditions : list JobCondition;
}.

Abbreviation Job := (Resource JobSpec JobStatus).

Definition empty_job_status : JobStatus :=
  {| js_active := 0; js_succeeded := 0; js_failed := 0; js_conditions := [] |}.

(** ** RBAC objects, service accounts and config maps *)
Record PolicyRule := {
  rule_apiGroups : list string;
  rule_resources : list string;
  rule_verbs : list string;
  rule_resourceNames : list string;
}.
Record RoleRef := { rr_apiGroup : string; rr_kind : string; rr_name : string }.
Record Subject := { sub_kind : string; sub_name : string; sub_namespace : string }.

Record RoleSpec := { role_rules : list PolicyRule }.
Record ClusterRoleSpec := { crole_rules : list PolicyRule }.
Record RoleBindingSpec := { rb_roleRef : RoleRef; rb_subjects : list Subject }.
Record ClusterRoleBindingSpec := { crb_roleRef : RoleRef; crb_subjects : list Subject }.
Inductive ServiceAccountSpec := SASpec.
Record ConfigMapSpec := { cm_data : Labels }.

Abbreviation Role := (Resource RoleSpec unit).
Abbreviation ClusterRole := (Resource ClusterRoleSpec unit).
Abbreviation RoleBinding := (Resource RoleBindingSpec unit).
Abbreviation ClusterRoleBinding := (Resource ClusterRoleBindingSpec unit).
Abbreviation ServiceAccount := (Resource ServiceAccountSpec unit).
Abbreviation ConfigMap := (Resource ConfigMapSpec unit).

(** ** Unstructured objects: a tree of JSON values *)
Inductive JSON :=
  | JNull
  | JBool (b : bool)
  | JInt (z : Z)            (* int64 *)
  | JFloat (truncated : Z)  (* float64, by its integral part *)
  | JStr (s : string)
  | JArr (l : list JSON)
  | JObj (fields : list (string * JSON)).

(** [unstructured.Unstructured]: the status is absent, or a map. *)
Record UnstructuredSpec := { us_kind : string; us_apiVersion : string; us_spec : JSON }.
Definition UnstructuredStatus := option (gmap string JSON).
Abbreviation Unstructured := (Resource UnstructuredSpec UnstructuredStatus).

(** ** Custom resource definitions, as far as they are read *)

(** A JSON schema: its type, maximal length, properties ([None] for a nil map)
    and everything else. *)
Inductive JSONSchemaProps :=
  | mkSchema (type : string) (maxLength : option Z)
      (properties : option (list (string * JSONSchemaProps))) (rest : string).

Definition schema_type (s : JSONSchemaProps) := let 'mkSchema t _ _ _ := s in t.
Definition schema_maxLength (s : JSONSchemaProps) := let 'mkSchema _ m _ _ := s in m.
Definition schema_properties (s : JSONSchemaProps) := let 'mkSchema _ _ p _ := s in p.
Definition schema_rest (s : JSONSchemaProps) := let 'mkSchema _ _ _ r := s in r.

Record PrinterColumn := { col_name : string; col_type : string; col_jsonPath : string }.
Record CRDVersion := {
  cv_name : string;
  cv_storage : bool;
  cv_schema : option JSONSchemaProps;
  cv_statusSubresource : bool;
  cv_printerColumns : list PrinterColumn;
}.
Record CRDSpec := {
  crd_group : string;
  crd_kind : string;
  crd_plural : string;
  crd_singular : string;
  crd_otherNames : string;  (** list kind, short names, categories *)
  crd_scope : string;
  crd_versions : list CRDVersion;
  crd_conversion : string;
  crd_preserveUnknownFields : bool;
}.
Record CRDCondition := { crdc_type : string; crdc_status : string }.
Record CRDStatus := { crdst_conditions : list CRDCondition }.
Abbreviation CRD := (Resource CRDSpec CRDStatus).
(** [crd.Spec.Versions = vs] *)
Definition set_crd_versions (vs : list CRDVersion) (crd : CRD) : CRD :=
  let sp := r_spec crd in
  set_spec {| crd_group := crd_group sp; crd_kind := crd_kind sp; crd_plural := crd_plural sp;
    crd_singular := crd_singular sp; crd_otherNames := crd_otherNames sp;
              crd_scope := crd_scope sp; crd_versions := vs; crd_conversion := crd_conversion sp;
              crd_preserveUnknownFields := crd_preserveUnknownFields sp |} crd.
Definition set_cv_schema (x : option JSONSchemaProps) (v : CRDVersion) : CRDVersion :=
  {| cv_name := cv_name v; cv_storage := cv_storage v; cv_schema := x;
     cv_statusSubresource := cv_statusSubresource v; cv_printerColumns := cv_printerColumns v |}.
Record GVK := { gvk_group : string; gvk_version : string; gvk_kind : string }.
