(* ===== verification/Kube.v ===== *)
(** * The environment of the controllers: the API server and the libraries

    Everything here stands for code that is not part of the repository: the
    controller-runtime client and the API server behind it, the clock, the
    random source, Go's unspecified map iteration order, the event recorder
    ([World]), and the pure helper functions of the Kubernetes libraries and of
    Go's hashing and sorting packages ([Lib]).  The operations are parameters;
    [WorldLaws] and [LibLaws] state their documented behaviour, and the theorems
    about the controllers take them as hypotheses.  [Sim.v] gives a concrete
    environment that satisfies them. *)

From S2P Require Import Prelude GoLib Meta Api.

(** ** The objects of a cluster *)
(** Objects without a typed client are kept as unstructured objects: the resource
    requests of the Promise at hand, and Promises, which the workflow engine
    handles in that form; their typed form is in [PromiseStore.v]. *)
Record Cluster := mkCluster {
  c_works : gmap Key Work;
  c_workplacements : gmap Key WorkPlacement;
  c_destinations : gmap Key Destination;
  c_jobs : gmap Key Job;
  c_parents : gmap Key Unstructured;
  c_promises : gmap Key Unstructured;
  c_crds : gmap Key CRD;
  c_serviceaccounts : gmap Key ServiceAccount;
  c_configmaps : gmap Key ConfigMap;
  c_roles : gmap Key Role;
  c_rolebindings : gmap Key RoleBinding;
  c_clusterroles : gmap Key ClusterRole;
  c_clusterrolebindings : gmap Key ClusterRoleBinding;
  c_bucketstores : gmap Key BucketStateStore;
  c_gitstores : gmap Key GitStateStore;
  c_secrets : gmap Key Secret;
  c_releases : gmap Key PromiseRelease;
  c_healthrecords : gmap Key HealthRecord;
}.

Definition empty_cluster : Cluster :=
  mkCluster ∅ ∅ ∅ ∅ ∅ ∅ ∅ ∅ ∅ ∅ ∅ ∅ ∅ ∅ ∅ ∅ ∅ ∅.

(** A kind of object and the part of the cluster that holds it. *)
Class Collection (Spec Status : Type) := {
  kind_name : string;
  zero_status : Status;
  coll : Cluster → gmap Key (Resource Spec Status);
  set_coll : gmap Key (Resource Spec Status) → Cluster → Cluster;
  coll_set : ∀ m c, coll (set_coll m c) = m;
  set_coll_coll : ∀ c, set_coll (coll c) c = c;
  set_coll_set : ∀ m m' c, set_coll m (set_coll m' c) = set_coll m c;
}.

#[global] Program Instance works_coll : Collection WorkSpec WorkStatus := {|
  kind_name := "Work";
  zero_status := {| wst_conditions := []; wst_workPlacements := 0; wst_workPlacementsCreated := 0 |};
  coll := c_works;
  set_coll m c :=
    mkCluster m (c_workplacements c) (c_destinations c) (c_jobs c) (c_parents c) (c_promises
      c) (c_crds c) (c_serviceaccounts c) (c_configmaps c) (c_roles c) (c_rolebindings c)
      (c_clusterroles c) (c_clusterrolebindings c)
      (c_bucketstores c) (c_gitstores c) (c_secrets c) (c_releases c) (c_healthrecords c) |}.
Solve All Obligations with (intros; by repeat match goal with c : Cluster |- _ => destruct c end).

#[global] Program Instance workplacements_coll : Collection WorkPlacementSpec WorkPlacementStatus := {|
  kind_name := "WorkPlacement";
  zero_status := empty_wp_status;
  coll := c_workplacements;
  set_coll m c :=
    mkCluster (c_works c) m (c_destinations c) (c_jobs c) (c_parents c) (c_promises c)
      (c_crds c) (c_serviceaccounts c) (c_configmaps c) (c_roles c) (c_rolebindings c)
      (c_clusterroles c) (c_clusterrolebindings c)
      (c_bucketstores c) (c_gitstores c) (c_secrets c) (c_releases c) (c_healthrecords c) |}.
Solve All Obligations with (intros; by repeat match goal with c : Cluster |- _ => destruct c end).

#[global] Program Instance destinations_coll : Collection DestinationSpec DestinationStatus := {|
  kind_name := "Destination";
  zero_status := {| dst_conditions := [] |};
  coll := c_destinations;
  set_coll m c :=
    mkCluster (c_works c) (c_workplacements c) m (c_jobs c) (c_parents c) (c_promises c)
      (c_crds c) (c_serviceaccounts c) (c_configmaps c) (c_roles c) (c_rolebindings c)
      (c_clusterroles c) (c_clusterrolebindings c)
      (c_bucketstores c) (c_gitstores c) (c_secrets c) (c_releases c) (c_healthrecords c) |}.
Solve All Obligations with (intros; by repeat match goal with c : Cluster |- _ => destruct c end).

#[global] Program Instance jobs_coll : Collection JobSpec JobStatus := {|
  kind_name := "Job";
  zero_status := empty_job_status;
  coll := c_jobs;
  set_coll m c :=
    mkCluster (c_works c) (c_workplacements c) (c_destinations c) m (c_parents c)
      (c_promises c) (c_crds c) (c_serviceaccounts c) (c_configmaps c) (c_roles c)
      (c_rolebindings c) (c_clusterroles c) (c_clusterrolebindings c)
      (c_bucketstores c) (c_gitstores c) (c_secrets c) (c_releases c) (c_healthrecords c) |}.
Solve All Obligations with (intros; by repeat match goal with c : Cluster |- _ => destruct c end).

#[global] Program Instance parents_coll : Collection UnstructuredSpec UnstructuredStatus := {|
  kind_name := "Unstructured";
  zero_status := None;
  coll := c_parents;
  set_coll m c :=
    mkCluster (c_works c) (c_workplacements c) (c_destinations c) (c_jobs c) m (c_promises
      c) (c_crds c) (c_serviceaccounts c) (c_configmaps c) (c_roles c) (c_rolebindings c)
      (c_clusterroles c) (c_clusterrolebindings c)
      (c_bucketstores c) (c_gitstores c) (c_secrets c) (c_releases c) (c_healthrecords c) |}.
Solve All Obligations with (intros; by repeat match goal with c : Cluster |- _ => destruct c end).

Program Definition promises_coll : Collection UnstructuredSpec UnstructuredStatus := {|
  kind_name := "Promise";
  zero_status := None;
  coll := c_promises;
  set_coll m c :=
    mkCluster (c_works c) (c_workplacements c) (c_destinations c) (c_jobs c) (c_parents c) m
      (c_crds c) (c_serviceaccounts c) (c_configmaps c) (c_roles c) (c_rolebindings c)
      (c_clusterroles c) (c_clusterrolebindings c)
      (c_bucketstores c) (c_gitstores c) (c_secrets c) (c_releases c) (c_healthrecords c) |}.
Solve All Obligations with (intros; by repeat match goal with c : Cluster |- _ => destruct c end).

#[global] Program Instance crds_coll : Collection CRDSpec CRDStatus := {|
  kind_name := "CustomResourceDefinition";
  zero_status := {| crdst_conditions := [] |};
  coll := c_crds;
  set_coll m c :=
    mkCluster (c_works c) (c_workplacements c) (c_destinations c) (c_jobs c) (c_parents c)
      (c_promises c) m (c_serviceaccounts c) (c_configmaps c) (c_roles c) (c_rolebindings c)
      (c_clusterroles c) (c_clusterrolebindings c)
      (c_bucketstores c) (c_gitstores c) (c_secrets c) (c_releases c) (c_healthrecords c) |}.
Solve All Obligations with (intros; by repeat match goal with c : Cluster |- _ => destruct c end).

#[global] Program Instance serviceaccounts_coll : Collection ServiceAccountSpec unit := {|
  kind_name := "ServiceAccount";
  zero_status := tt;
  coll := c_serviceaccounts;
  set_coll m c :=
    mkCluster (c_works c) (c_workplacements c) (c_destinations c) (c_jobs c) (c_parents c)
      (c_promises c) (c_crds c) m (c_configmaps c) (c_roles c) (c_rolebindings c)
      (c_clusterroles c) (c_clusterrolebindings c)
      (c_bucketstores c) (c_gitstores c) (c_secrets c) (c_releases c) (c_healthrecords c) |}.
Solve All Obligations with (intros; by repeat match goal with c : Cluster |- _ => destruct c end).

#[global] Program Instance configmaps_coll : Collection ConfigMapSpec unit := {|
  kind_name := "ConfigMap";
  zero_status := tt;
  coll := c_configmaps;
  set_coll m c :=
    mkCluster (c_works c) (c_workplacements c) (c_destinations c) (c_jobs c) (c_parents c)
      (c_promises c) (c_crds c) (c_serviceaccounts c) m (c_roles c) (c_rolebindings c)
      (c_clusterroles c) (c_clusterrolebindings c)
      (c_bucketstores c) (c_gitstores c) (c_secrets c) (c_releases c) (c_healthrecords c) |}.
Solve All Obligations with (intros; by repeat match goal with c : Cluster |- _ => destruct c end).

#[global] Program Instance roles_coll : Collection RoleSpec unit := {|
  kind_name := "Role";
  zero_status := tt;
  coll := c_roles;
  set_coll m c :=
    mkCluster (c_works c) (c_workplacements c) (c_destinations c) (c_jobs c) (c_parents c)
      (c_promises c) (c_crds c) (c_serviceaccounts c) (c_configmaps c) m (c_rolebindings c)
      (c_clusterroles c) (c_clusterrolebindings c)
      (c_bucketstores c) (c_gitstores c) (c_secrets c) (c_releases c) (c_healthrecords c) |}.
Solve All Obligations with (intros; by repeat match goal with c : Cluster |- _ => destruct c end).

#[global] Program Instance rolebindings_coll : Collection RoleBindingSpec unit := {|
  kind_name := "RoleBinding";
  zero_status := tt;
  coll := c_rolebindings;
  set_coll m c :=
    mkCluster (c_works c) (c_workplacements c) (c_destinations c) (c_jobs c) (c_parents c)
      (c_promises c) (c_crds c) (c_serviceaccounts c) (c_configmaps c) (c_roles c) m
      (c_clusterroles c) (c_clusterrolebindings c)
      (c_bucketstores c) (c_gitstores c) (c_secrets c) (c_releases c) (c_healthrecords c) |}.
Solve All Obligations with (intros; by repeat match goal with c : Cluster |- _ => destruct c end).

#[global] Program Instance clusterroles_coll : Collection ClusterRoleSpec unit := {|
  kind_name := "ClusterRole";
  zero_status := tt;
  coll := c_clusterroles;
  set_coll m c :=
    mkCluster (c_works c) (c_workplacements c) (c_destinations c) (c_jobs c) (c_parents c)
      (c_promises c) (c_crds c) (c_serviceaccounts c) (c_configmaps c) (c_roles c)
      (c_rolebindings c) m (c_clusterrolebindings c)
      (c_bucketstores c) (c_gitstores c) (c_secrets c) (c_releases c) (c_healthrecords c) |}.
Solve All Obligations with (intros; by repeat match goal with c : Cluster |- _ => destruct c end).

#[global] Program Instance clusterrolebindings_coll : Collection ClusterRoleBindingSpec unit := {|
  kind_name := "ClusterRoleBinding";
  zero_status := tt;
  coll := c_clusterrolebindings;
  set_coll m c :=
    mkCluster (c_works c) (c_workplacements c) (c_destinations c) (c_jobs c) (c_parents c)
      (c_promises c) (c_crds c) (c_serviceaccounts c) (c_configmaps c) (c_roles c)
      (c_rolebindings c) (c_clusterroles c) m
      (c_bucketstores c) (c_gitstores c) (c_secrets c) (c_releases c) (c_healthrecords c) |}.
Solve All Obligations with (intros; by repeat match goal with c : Cluster |- _ => destruct c end).

#[global] Program Instance bucketstores_coll : Collection BucketStateStoreSpec StateStoreStatus := {|
  kind_name := "BucketStateStore";
  zero_status := empty_store_status;
  coll := c_bucketstores;
  set_coll m c :=
    mkCluster (c_works c) (c_workplacements c) (c_destinations c) (c_jobs c) (c_parents
      c) (c_promises c) (c_crds c) (c_serviceaccounts c) (c_configmaps c) (c_roles c)
      (c_rolebindings c) (c_clusterroles c) (c_clusterrolebindings c) m (c_gitstores c)
      (c_secrets c) (c_releases c) (c_healthrecords c) |}.
Solve All Obligations with (intros; by repeat match goal with c : Cluster |- _ => destruct c end).

#[global] Program Instance gitstores_coll : Collection GitStateStoreSpec StateStoreStatus := {|
  kind_name := "GitStateStore";
  zero_status := empty_store_status;
  coll := c_gitstores;
  set_coll m c :=
    mkCluster (c_works c) (c_workplacements c) (c_destinations c) (c_jobs c) (c_parents
      c) (c_promises c) (c_crds c) (c_serviceaccounts c) (c_configmaps c) (c_roles c)
      (c_rolebindings c) (c_clusterroles c) (c_clusterrolebindings c) (c_bucketstores c)
      m (c_secrets c) (c_releases c) (c_healthrecords c) |}.
Solve All Obligations with (intros; by repeat match goal with c : Cluster |- _ => destruct c end).

#[global] Program Instance secrets_coll : Collection SecretSpec unit := {|
  kind_name := "Secret";
  zero_status := tt;
  coll := c_secrets;
  set_coll m c :=
    mkCluster (c_works c) (c_workplacements c) (c_destinations c) (c_jobs c) (c_parents
      c) (c_promises c) (c_crds c) (c_serviceaccounts c) (c_configmaps c) (c_roles c)
      (c_rolebindings c) (c_clusterroles c) (c_clusterrolebindings c) (c_bucketstores c)
      (c_gitstores c) m (c_releases c) (c_healthrecords c) |}.
Solve All Obligations with (intros; by repeat match goal with c : Cluster |- _ => destruct c end).

#[global] Program Instance releases_coll : Collection PromiseReleaseSpec PromiseReleaseStatus := {|
  kind_name := "PromiseRelease";
  zero_status := empty_release_status;
  coll := c_releases;
  set_coll m c :=
    mkCluster (c_works c) (c_workplacements c) (c_destinations c) (c_jobs c) (c_parents
      c) (c_promises c) (c_crds c) (c_serviceaccounts c) (c_configmaps c) (c_roles c)
      (c_rolebindings c) (c_clusterroles c) (c_clusterrolebindings c) (c_bucketstores c)
      (c_gitstores c) (c_secrets c) m (c_healthrecords c) |}.
Solve All Obligations with (intros; by repeat match goal with c : Cluster |- _ => destruct c end).

#[global] Program Instance healthrecords_coll : Collection HealthRecordData unit := {|
  kind_name := "HealthRecord";
  zero_status := tt;
  coll := c_healthrecords;
  set_coll m c :=
    mkCluster (c_works c) (c_workplacements c) (c_destinations c) (c_jobs c) (c_parents
      c) (c_promises c) (c_crds c) (c_serviceaccounts c) (c_configmaps c) (c_roles c)
      (c_rolebindings c) (c_clusterroles c) (c_clusterrolebindings c) (c_bucketstores c)
      (c_gitstores c) (c_secrets c) (c_releases c) m |}.
Solve All Obligations with (intros; by repeat match goal with c : Cluster |- _ => destruct c end).

(** ** List options: a namespace ("" for all) and a label selector *)
Definition Selector := Labels → bool.

Record ListOptions := { lo_namespace : string; lo_selector : option Selector }.

Definition lo_match (lo : ListOptions) (m : ObjectMeta) : bool :=
  (bool_decide (lo_namespace lo = "") || bool_decide (lo_namespace lo = om_namespace m)) &&
  match lo_selector lo with None => true | Some sel => sel (om_labels m) end.

(** ** What the API server stores *)
Section server.
Context {Spec Status : Type} `{Collection Spec Status}.
Implicit Types o old new : Resource Spec Status.

(** A create: the server fills in its own metadata; the status of the
    request is dropped. *)
Definition on_create (uid : string) (t gen : Z) new : Resource Spec Status :=
  mkResource (om_set_system uid None t gen (r_meta new)) (r_spec new) zero_status.

(** An update of the main resource: the status subresource and the system
    metadata stay as they are. *)
Definition on_update (gen : Z) old new : Resource Spec Status :=
  mkResource (om_set_system (om_uid (r_meta old)) (om_deletionTimestamp (r_meta old))
                (om_creationTimestamp (r_meta old)) gen (r_meta new))
             (r_spec new) (r_status old).

(** An update of the status subresource: nothing else changes. *)
Definition on_status_update old new : Resource Spec Status :=
  set_status (r_status new) old.

(** An object that is being deleted goes away with its last finalizer. *)
Definition put_or_reap o (m : gmap Key (Resource Spec Status)) :
    gmap Key (Resource Spec Status) :=
  if deleting o && bool_decide (GetFinalizers o = [])
  then delete (key o) m else <[key o := o]> m.

(** A delete request marks an object with finalizers, and removes one
    without. *)
Definition mark_deleting (t : Z) o : Resource Spec Status :=
  if deleting o then o
  else set_meta (om_set_system (om_uid (r_meta o)) (Some t)
                   (om_creationTimestamp (r_meta o)) (om_generation (r_meta o))
                   (r_meta o)) o.

Definition on_delete (t : Z) (k : Key) o (m : gmap Key (Resource Spec Status)) :
    gmap Key (Resource Spec Status) :=
  if bool_decide (GetFinalizers o = []) then delete k m
  else <[k := mark_deleting t o]> m.

(** A collection is indexed by the namespace and the name of its objects. *)
Definition keyed (m : gmap Key (Resource Spec Status)) : Prop :=
  ∀ k o, m !! k = Some o → key o = k.

(** No stored object is waiting for a deletion nothing holds up. *)
Definition no_zombies (m : gmap Key (Resource Spec Status)) : Prop :=
  ∀ k o, m !! k = Some o → deleting o = true → GetFinalizers o ≠ [].
End server.

(** ** Events *)
Record Event := {
  ev_object : Key;
  ev_type : string;
  ev_reason : string;
  ev_message : string;
}.
Definition EventTypeNormal := "Normal".
Definition EventTypeWarning := "Warning".

(** ** The world: effects of the environment *)
Class World (S : Type) := {
  w_get : ∀ {Sp St} `{Collection Sp St}, Key → S → (error + Resource Sp St) * S;
  w_list : ∀ {Sp St} `{Collection Sp St}, ListOptions → S → (error + list (Resource Sp St)) * S;
  w_create : ∀ {Sp St} `{Collection Sp St}, Resource Sp St → S → (error + Resource Sp St) * S;
  w_update : ∀ {Sp St} `{Collection Sp St}, Resource Sp St → S → (error + Resource Sp St) * S;
  w_status_update : ∀ {Sp St} `{Collection Sp St},
    Resource Sp St → S → (error + Resource Sp St) * S;
  w_patch : ∀ {Sp St} `{Collection Sp St},
    Resource Sp St → Resource Sp St → S → (error + Resource Sp St) * S;
  w_delete : ∀ {Sp St} `{Collection Sp St}, Key → S → (error + unit) * S;
  (** [controllerutil.CreateOrUpdate], with the mutate function; also returns
      the operation result it reports. *)
  w_create_or_update : ∀ {Sp St} `{Collection Sp St},
    Resource Sp St → (Resource Sp St → error + Resource Sp St) → S →
    (error + (Resource Sp St * string)) * S;
  (** [rand.Intn] *)
  w_intn : nat → S → nat * S;
  (** [time.Now] *)
  w_now : S → Z * S;
  (** [uuid.NewUUID] *)
  w_uuid : S → string * S;
  (** The order of one [range] over a map. *)
  w_range : ∀ {V : Type}, gmap string V → S → list (string * V) * S;
  (** [EventRecorder.Event] *)
  w_event : Event → S → unit * S;
}.

Class Viewed (S : Type) := view : S → Cluster.

Class WorldLaws (S : Type) `{World S, Viewed S} : Prop := {
  get_ok : ∀ {Sp St} `{Collection Sp St} k s o s',
    w_get k s = (inr o, s') → view s' = view s ∧ coll (view s) !! k = Some o;
  get_err : ∀ {Sp St} `{Collection Sp St} k s e s',
    w_get (Sp:=Sp) (St:=St) k s = (inl e, s') →
    view s' = view s ∧ (IsNotFound e = true → coll (view s) !! k = None);
  list_ok : ∀ {Sp St} `{Collection Sp St} lo s l s',
    w_list lo s = (inr l, s') →
    view s' = view s ∧
    l ≡ₚ filter (λ o, lo_match lo (r_meta o) = true) (map_values (coll (view s)));
  list_err : ∀ {Sp St} `{Collection Sp St} lo s e s',
    w_list (Sp:=Sp) (St:=St) lo s = (inl e, s') → view s' = view s;
  create_ok : ∀ {Sp St} `{Collection Sp St} o s o' s',
    w_create o s = (inr o', s') →
    coll (view s) !! key o = None ∧
    ∃ uid t gen, o' = on_create uid t gen o ∧
      view s' = set_coll (<[key o := o']> (coll (view s))) (view s);
  create_err : ∀ {Sp St} `{Collection Sp St} (o : Resource Sp St) s e s',
    w_create o s = (inl e, s') → view s' = view s;
  update_ok : ∀ {Sp St} `{Collection Sp St} o s o' s',
    w_update o s = (inr o', s') →
    ∃ old gen, coll (view s) !! key o = Some old ∧ o' = on_update gen old o ∧
      view s' = set_coll (put_or_reap o' (coll (view s))) (view s);
  update_err : ∀ {Sp St} `{Collection Sp St} (o : Resource Sp St) s e s',
    w_update o s = (inl e, s') → view s' = view s;
  status_update_ok : ∀ {Sp St} `{Collection Sp St} o s o' s',
    w_status_update o s = (inr o', s') →
    ∃ old, coll (view s) !! key o = Some old ∧ o' = on_status_update old o ∧
      view s' = set_coll (<[key o := o']> (coll (view s))) (view s);
  status_update_err : ∀ {Sp St} `{Collection Sp St} (o : Resource Sp St) s e s',
    w_status_update o s = (inl e, s') → view s' = view s;
  (** A merge patch updates the stored object in some way; computed against the
      object as stored, it has the effect of an update. *)
  patch_ok : ∀ {Sp St} `{Collection Sp St} orig o s o' s',
    w_patch orig o s = (inr o', s') →
    ∃ old o1 gen, coll (view s) !! key o = Some old ∧ key o1 = key o ∧
      o' = on_update gen old o1 ∧
      view s' = set_coll (put_or_reap o' (coll (view s))) (view s) ∧ (old = orig → o1 = o);
  patch_err : ∀ {Sp St} `{Collection Sp St} (orig o : Resource Sp St) s e s',
    w_patch orig o s = (inl e, s') → view s' = view s;
  delete_ok : ∀ {Sp St} `{Collection Sp St} k s s',
    w_delete (Sp:=Sp) (St:=St) k s = (inr tt, s') →
    ∃ (old : Resource Sp St) t, coll (view s) !! k = Some old ∧
      view s' = set_coll (on_delete t k old (coll (view s))) (view s);
  delete_err : ∀ {Sp St} `{Collection Sp St} k s e s',
    w_delete (Sp:=Sp) (St:=St) k s = (inl e, s') →
    view s' = view s ∧ (IsNotFound e = true → coll (view s) !! k = None);
  create_or_update_ok : ∀ {Sp St} `{Collection Sp St} o f s o' op s',
    w_create_or_update o f s = (inr (o', op), s') →
    (coll (view s) !! key o = None ∧
     ∃ o1 uid t gen, f o = inr o1 ∧ key o1 = key o ∧ o' = on_create uid t gen o1 ∧
       view s' = set_coll (<[key o := o']> (coll (view s))) (view s)) ∨
    (∃ old o1 gen, coll (view s) !! key o = Some old ∧ f old = inr o1 ∧
       key o1 = key o ∧ o' = on_update gen old o1 ∧
       view s' = set_coll (put_or_reap o' (coll (view s))) (view s));
  create_or_update_err : ∀ {Sp St} `{Collection Sp St} (o : Resource Sp St) f s e s',
    w_create_or_update o f s = (inl e, s') → view s' = view s;
  intn_ok : ∀ n s i s', w_intn n s = (i, s') → view s' = view s ∧ (0 < n → i < n);
  now_ok : ∀ s t s', w_now s = (t, s') → view s' = view s;
  uuid_ok : ∀ s u s', w_uuid s = (u, s') → view s' = view s;
  range_ok : ∀ V (m : gmap string V) s l s',
    w_range m s = (l, s') → view s' = view s ∧ l ≡ₚ map_to_list m;
  event_ok : ∀ ev s u s', w_event ev s = (u, s') → view s' = view s;
}.

(** ** Library functions *)
Class Lib := {
  (** [apimeta.SetStatusCondition], with the time it stamps a transition. *)
  SetStatusCondition : Z → list Condition → Condition → list Condition * bool;
  (** [apimeta.FindStatusCondition] *)
  FindStatusCondition : list Condition → string → option Condition;
  (** [controllerutil.ContainsFinalizer], [AddFinalizer], [RemoveFinalizer] *)
  ContainsFinalizer : list string → string → bool;
  AddFinalizer : list string → string → list string;
  RemoveFinalizer : list string → string → list string;
  (** [controllerutil.SetControllerReference]: owner kind and metadata, then
      the metadata of the owned object. *)
  SetControllerReference : string → ObjectMeta → ObjectMeta → error + ObjectMeta;
  (** [labels.Merge], [labels.FormatLabels], [labels.Parse],
      [labels.SelectorFromSet] *)
  labels_Merge : Labels → Labels → Labels;
  FormatLabels : Labels → string;
  labels_Parse : string → error + Selector;
  SelectorFromSet : Labels → Selector;
  (** [fmt.Sprintf("%x", md5.Sum(_))] *)
  md5_hex : string → string;
  (** [json.Marshal] of a JSON value *)
  json_Marshal : JSON → error + string;
  (** [schema.ParseGroupVersion]: the group and the version of an apiVersion *)
  ParseGroupVersion : string → string * string;
  (** [sort.Slice] *)
  sort_Slice : ∀ {A : Type}, (A → A → bool) → list A → list A;
  (** cluster-api's [conditions.Get] and [conditions.Set] on the status of an
      unstructured object. *)
  conditions_Get : UnstructuredStatus → string → option Condition;
  conditions_Set : Z → UnstructuredStatus → Condition → UnstructuredStatus;
}.

(** A strict weak order given by a key. *)
Definition by_key {A} (less : A → A → bool) (f : A → Z) : Prop :=
  ∀ x y, less x y = bool_decide (f x < f y)%Z.

Class LibLaws `{Lib} : Prop := {
  find_spec : ∀ cs t,
    FindStatusCondition cs t = snd <$> list_find (λ c, cond_type c = t) cs;
  set_find_same : ∀ now cs c, ∃ d,
    FindStatusCondition (SetStatusCondition now cs c).1 (cond_type c) = Some d ∧
    same_cond d c;
  set_find_other : ∀ now cs c t, t ≠ cond_type c →
    FindStatusCondition (SetStatusCondition now cs c).1 t = FindStatusCondition cs t;
  set_unchanged : ∀ now cs c,
    (SetStatusCondition now cs c).2 = false ↔
    ∃ d, FindStatusCondition cs (cond_type c) = Some d ∧ same_cond d c;
  set_unchanged_eq : ∀ now cs c,
    (SetStatusCondition now cs c).2 = false → (SetStatusCondition now cs c).1 = cs;
  contains_finalizer : ∀ fs f, ContainsFinalizer fs f = bool_decide (f ∈ fs);
  elem_of_add_finalizer : ∀ fs f g, g ∈ AddFinalizer fs f ↔ g = f ∨ g ∈ fs;
  elem_of_remove_finalizer : ∀ fs f g, g ∈ RemoveFinalizer fs f ↔ g ≠ f ∧ g ∈ fs;
  set_controller_reference_meta : ∀ kind owner m m',
    SetControllerReference kind owner m = inr m' →
    m' = om_set_owners (om_owners m') m;
  merge_spec : ∀ a b, labels_Merge a b = b ∪ a;
  parse_format : ∀ ls sel, ls ≠ ∅ → labels_Parse (FormatLabels ls) = inr sel →
    ∀ m, sel m = bool_decide (ls ⊆ m);
  selector_from_set : ∀ ls m, SelectorFromSet ls m = bool_decide (ls ⊆ m);
  md5_length : ∀ x, String.length (md5_hex x) = 32;
  sort_slice_perm : ∀ A less (l : list A), sort_Slice less l ≡ₚ l;
  sort_slice_sorted : ∀ A less (f : A → Z) (l : list A),
    by_key less f → StronglySorted (λ x y, f x ≤ f y)%Z (sort_Slice less l);
  conditions_get_set : ∀ now st c, ∃ d,
    conditions_Get (conditions_Set now st c) (cond_type c) = Some d ∧ same_cond d c;
  conditions_get_set_other : ∀ now st c t, t ≠ cond_type c →
    conditions_Get (conditions_Set now st c) t = conditions_Get st t;
  (** The conditions of an object are its [status.conditions]. *)
  conditions_get_field : ∀ st st' t,
    default ∅ st !! "conditions" = default ∅ st' !! "conditions" →
    conditions_Get st t = conditions_Get st' t;
  conditions_set_fields : ∀ now st c k, k ≠ "conditions" →
    default ∅ (conditions_Set now st c) !! k = default ∅ st !! k;
}.
