(* ===== verification/Client.v ===== *)
(** * The client as the controllers call it, and its proof rules

    The operations of [World] lifted into the effect monad, with one weakest
    precondition rule each, derived from [WorldLaws]. *)

From S2P Require Import Prelude GoLib Meta Api Kube.

Section client.
Context {S : Type} `{World S}.

(** [client.Get], [List], [Create], [Update], [Status().Update], [Patch],
    [Delete] and [controllerutil.CreateOrUpdate]. *)
Definition Get {Sp St} `{Collection Sp St} (k : Key) : M S (Resource Sp St) :=
  call (w_get k).
Definition List {Sp St} `{Collection Sp St} (lo : ListOptions) : M S (list (Resource Sp St)) :=
  call (w_list lo).
Definition Create {Sp St} `{Collection Sp St} (o : Resource Sp St) : M S (Resource Sp St) :=
  call (w_create o).
Definition Update {Sp St} `{Collection Sp St} (o : Resource Sp St) : M S (Resource Sp St) :=
  call (w_update o).
Definition StatusUpdate {Sp St} `{Collection Sp St} (o : Resource Sp St)
    : M S (Resource Sp St) := call (w_status_update o).
Definition Patch {Sp St} `{Collection Sp St} (orig o : Resource Sp St)
    : M S (Resource Sp St) := call (w_patch orig o).
Definition Delete {Sp St} `{Collection Sp St} (o : Resource Sp St) : M S unit :=
  call (w_delete (Sp:=Sp) (St:=St) (key o)).
Definition CreateOrUpdate {Sp St} `{Collection Sp St} (o : Resource Sp St)
    (mutate : Resource Sp St → error + Resource Sp St) : M S (Resource Sp St * string) :=
  call (w_create_or_update o mutate).

Definition Intn (n : nat) : M S nat := total (w_intn n).
Definition Now : M S Z := total w_now.
Definition NewUUID : M S string := total w_uuid.
Definition Range {V} (m : gmap string V) : M S (list (string * V)) := total (w_range m).
Definition Eventf {Sp St} (o : Resource Sp St) (type reason message : string) : M S unit :=
  total (w_event {| ev_object := key o; ev_type := type; ev_reason := reason;
                    ev_message := message |}).
End client.

Section rules.
Context {S : Type} `{World S, Viewed S, !WorldLaws S}.
Implicit Types s : S.

Lemma wp_Get {Sp St} `{Collection Sp St} k (Q : outcome (Resource Sp St) → S → Prop) s :
  (∀ o s', view s' = view s → coll (view s) !! k = Some o → Q (Ok o) s') →
  (∀ e s', view s' = view s →
     (IsNotFound e = true → coll (Collection:=_) (view s) !! k = @None (Resource Sp St)) →
     Q (Fail e) s') →
  wp (Get k) Q s.
Proof.
  intros HO HE. apply wp_call.
  - intros o s' [Hv Hk]%get_ok. by apply HO.
  - intros e s' [Hv Hk]%get_err. by apply HE.
Qed.

Lemma wp_List {Sp St} `{Collection Sp St} lo
    (Q : outcome (list (Resource Sp St)) → S → Prop) s :
  (∀ l s', view s' = view s →
     l ≡ₚ filter (λ o, lo_match lo (r_meta o) = true) (map_values (coll (view s))) →
     Q (Ok l) s') →
  (∀ e s', view s' = view s → Q (Fail e) s') →
  wp (List lo) Q s.
Proof.
  intros HO HE. apply wp_call.
  - intros l s' [Hv Hl]%list_ok. by apply HO.
  - intros e s' Hv%list_err. by apply HE.
Qed.

Lemma wp_Create {Sp St} `{Collection Sp St} o (Q : outcome (Resource Sp St) → S → Prop) s :
  (∀ uid t gen s', coll (view s) !! key o = None →
     view s' = set_coll (<[key o := on_create uid t gen o]> (coll (view s))) (view s) →
     Q (Ok (on_create uid t gen o)) s') →
  (∀ e s', view s' = view s → Q (Fail e) s') →
  wp (Create o) Q s.
Proof.
  intros HO HE. apply wp_call.
  - intros o' s' (Hk & uid & t & gen & -> & Hv)%create_ok. by apply HO.
  - intros e s' Hv%create_err. by apply HE.
Qed.

Lemma wp_Update {Sp St} `{Collection Sp St} o (Q : outcome (Resource Sp St) → S → Prop) s :
  (∀ old gen s', coll (view s) !! key o = Some old →
     view s' = set_coll (put_or_reap (on_update gen old o) (coll (view s))) (view s) →
     Q (Ok (on_update gen old o)) s') →
  (∀ e s', view s' = view s → Q (Fail e) s') →
  wp (Update o) Q s.
Proof.
  intros HO HE. apply wp_call.
  - intros o' s' (old & gen & Hk & -> & Hv)%update_ok. by apply HO.
  - intros e s' Hv%update_err. by apply HE.
Qed.

Lemma wp_StatusUpdate {Sp St} `{Collection Sp St} o
    (Q : outcome (Resource Sp St) → S → Prop) s :
  (∀ old s', coll (view s) !! key o = Some old →
     view s' = set_coll (<[key o := on_status_update old o]> (coll (view s))) (view s) →
     Q (Ok (on_status_update old o)) s') →
  (∀ e s', view s' = view s → Q (Fail e) s') →
  wp (StatusUpdate o) Q s.
Proof.
  intros HO HE. apply wp_call.
  - intros o' s' (old & Hk & -> & Hv)%status_update_ok. by apply HO.
  - intros e s' Hv%status_update_err. by apply HE.
Qed.

Lemma wp_Patch {Sp St} `{Collection Sp St} orig o
    (Q : outcome (Resource Sp St) → S → Prop) s :
  coll (view s) !! key o = Some orig →
  (∀ gen s',
     view s' = set_coll (put_or_reap (on_update gen orig o) (coll (view s))) (view s) →
     Q (Ok (on_update gen orig o)) s') →
  (∀ e s', view s' = view s → Q (Fail e) s') →
  wp (Patch orig o) Q s.
Proof.
  intros Hk HO HE. apply wp_call.
  - intros o' s' (old & o1 & gen & Hold & _ & -> & Hv & Ho)%patch_ok.
    assert (old = orig) as -> by congruence. rewrite Ho in * by done. by apply HO.
  - intros e s' Hv%patch_err. by apply HE.
Qed.

Lemma wp_Patch_any {Sp St} `{Collection Sp St} orig o
    (Q : outcome (Resource Sp St) → S → Prop) s :
  (∀ old o1 gen s', coll (view s) !! key o1 = Some old →
     view s' = set_coll (put_or_reap (on_update gen old o1) (coll (view s))) (view s) →
     Q (Ok (on_update gen old o1)) s') →
  (∀ e s', view s' = view s → Q (Fail e) s') →
  wp (Patch orig o) Q s.
Proof.
  intros HO HE. apply wp_call.
  - intros o' s' (old & o1 & gen & Hold & Hk & -> & Hv & _)%patch_ok.
    apply HO; [by rewrite Hk|done].
  - intros e s' Hv%patch_err. by apply HE.
Qed.

Lemma wp_Delete {Sp St} `{Collection Sp St} (o : Resource Sp St)
    (Q : outcome unit → S → Prop) s :
  (∀ (old : Resource Sp St) t s', coll (view s) !! key o = Some old →
     view s' = set_coll (on_delete t (key o) old (coll (view s))) (view s) →
     Q (Ok tt) s') →
  (∀ e s', view s' = view s →
     (IsNotFound e = true → coll (view s) !! key o = @None (Resource Sp St)) →
     Q (Fail e) s') →
  wp (Delete o) Q s.
Proof.
  intros HO HE. apply wp_call.
  - intros [] s' (old & t & Hk & Hv)%delete_ok. by eapply HO.
  - intros e s' [Hv Hk]%delete_err. by apply HE.
Qed.

Lemma wp_CreateOrUpdate {Sp St} `{Collection Sp St} o f
    (Q : outcome (Resource Sp St * string) → S → Prop) s :
  (∀ o1 uid t gen op s', coll (view s) !! key o = None → f o = inr o1 → key o1 = key o →
     view s' = set_coll (<[key o := on_create uid t gen o1]> (coll (view s))) (view s) →
     Q (Ok (on_create uid t gen o1, op)) s') →
  (∀ old o1 gen op s', coll (view s) !! key o = Some old → f old = inr o1 →
     key o1 = key o →
     view s' = set_coll (put_or_reap (on_update gen old o1) (coll (view s))) (view s) →
     Q (Ok (on_update gen old o1, op)) s') →
  (∀ e s', view s' = view s → Q (Fail e) s') →
  wp (CreateOrUpdate o f) Q s.
Proof.
  intros HC HU HE. apply wp_call.
  - intros [o' op] s' [(Hk & o1 & uid & t & gen & Hf & Hk1 & -> & Hv)
                      |(old & o1 & gen & Hk & Hf & Hk1 & -> & Hv)]%create_or_update_ok.
    + by apply HC.
    + by apply HU.
  - intros e s' Hv%create_or_update_err. by apply HE.
Qed.

Lemma wp_Intn n (Q : outcome nat → S → Prop) s :
  (∀ i s', view s' = view s → (0 < n → i < n) → Q (Ok i) s') → wp (Intn n) Q s.
Proof. intros HO. apply wp_total. intros i s' [Hv Hi]%intn_ok. by apply HO. Qed.

Lemma wp_Now (Q : outcome Z → S → Prop) s :
  (∀ t s', view s' = view s → Q (Ok t) s') → wp Now Q s.
Proof. intros HO. apply wp_total. intros t s' Hv%now_ok. by apply HO. Qed.

Lemma wp_NewUUID (Q : outcome string → S → Prop) s :
  (∀ u s', view s' = view s → Q (Ok u) s') → wp NewUUID Q s.
Proof. intros HO. apply wp_total. intros t s' Hv%uuid_ok. by apply HO. Qed.

Lemma wp_Range {V} (m : gmap string V) (Q : outcome (list (string * V)) → S → Prop) s :
  (∀ l s', view s' = view s → l ≡ₚ map_to_list m → Q (Ok l) s') → wp (Range m) Q s.
Proof. intros HO. apply wp_total. intros l s' [Hv Hl]%range_ok. by apply HO. Qed.

Lemma wp_Eventf {Sp St} (o : Resource Sp St) type reason msg
    (Q : outcome unit → S → Prop) s :
  (∀ s', view s' = view s → Q (Ok tt) s') → wp (Eventf o type reason msg) Q s.
Proof. intros HO. apply wp_total. intros [] s' Hv%event_ok. by apply HO. Qed.
End rules.
