(* ===== verification/Sim.v ===== *)
(** * A concrete environment

    An in-memory API server with injected faults, a counter for a clock, and
    straightforward implementations of the library functions.  It satisfies
    [WorldLaws] and [LibLaws], so the hypotheses of the theorems about the
    controllers can hold, and it makes the controllers executable: the examples
    and witnesses of the development run on it. *)

From S2P Require Import Prelude GoLib Codec Meta Api Kube.
From Stdlib Require Import Ascii.

(** ** The world *)

(** The faults a request can be made to fail with. *)
Inductive fault := FConflict | FOther.
Definition fault_error (f : fault) : error :=
  ApiError (match f with FConflict => ReasonConflict | FOther => ReasonOther end).

Record Sim := {
  sim_cluster : Cluster;
  sim_faults : list (option fault);  (** one entry per request *)
  sim_rand : list nat;
  sim_clock : Z;
  sim_events : list Event;
  sim_files : gmap string string;  (** the state store *)
}.

Definition sim_set_cluster (c : Cluster) (s : Sim) : Sim := {|
  sim_cluster := c; sim_faults := sim_faults s; sim_rand := sim_rand s;
  sim_clock := sim_clock s; sim_events := sim_events s; sim_files := sim_files s |}.

(** Every request consumes one entry of the fault schedule and one tick. *)
Definition sim_request {A} (f : Z → Cluster → error + (A * Cluster)) (s : Sim)
    : (error + A) * Sim :=
  let t := sim_clock s in
  let s1 := {| sim_cluster := sim_cluster s; sim_faults := tail (sim_faults s);
               sim_rand := sim_rand s; sim_clock := (t + 1)%Z;
               sim_events := sim_events s; sim_files := sim_files s |} in
  match head (sim_faults s) with
  | Some (Some x) => (inl (fault_error x), s1)
  | _ =>
      match f t (sim_cluster s) with
      | inl e => (inl e, s1)
      | inr (a, c) => (inr a, sim_set_cluster c s1)
      end
  end.

Section ops.
Context {Sp St} `{Collection Sp St}.
Local Abbreviation R := (Resource Sp St).

Definition sim_get (k : Key) (t : Z) (c : Cluster) : error + (R * Cluster) :=
  match coll c !! k with
  | Some o => inr (o, c)
  | None => inl (ApiError ReasonNotFound)
  end.
Definition sim_list (lo : ListOptions) (t : Z) (c : Cluster) : error + (list R * Cluster) :=
  inr (filter (λ o, lo_match lo (r_meta o) = true) (map_values (coll c)), c).
Definition sim_create (o : R) (t : Z) (c : Cluster) : error + (R * Cluster) :=
  match coll (Spec:=Sp) c !! key o with
  | Some _ => inl (ApiError ReasonAlreadyExists)
  | None => let o' := on_create "uid" t 1 o in
            inr (o', set_coll (<[key o := o']> (coll c)) c)
  end.
Definition sim_update (o : R) (t : Z) (c : Cluster) : error + (R * Cluster) :=
  match coll c !! key o with
  | None => inl (ApiError ReasonNotFound)
  | Some old => let o' := on_update (om_generation (r_meta old)) old o in
                inr (o', set_coll (put_or_reap o' (coll c)) c)
  end.
Definition sim_status_update (o : R) (t : Z) (c : Cluster) : error + (R * Cluster) :=
  match coll c !! key o with
  | None => inl (ApiError ReasonNotFound)
  | Some old => let o' := on_status_update old o in
                inr (o', set_coll (<[key o := o']> (coll c)) c)
  end.
Definition sim_delete (k : Key) (t : Z) (c : Cluster) : error + (unit * Cluster) :=
  match coll (Spec:=Sp) c !! k with
  | None => inl (ApiError ReasonNotFound)
  | Some old => inr (tt, set_coll (on_delete t k old (coll c)) c)
  end.
Definition sim_create_or_update (o : R) (f : R → error + R) (t : Z) (c : Cluster)
    : error + ((R * string) * Cluster) :=
  match coll c !! key o with
  | None =>
      match f o with
      | inl e => inl e
      | inr o1 =>
          if bool_decide (key o1 = key o) then
            let o' := on_create "uid" t 1 o1 in
            inr ((o', "created"), set_coll (<[key o := o']> (coll c)) c)
          else inl (ErrorMsg "MutateFn cannot mutate object name and/or object namespace")
      end
  | Some old =>
      match f old with
      | inl e => inl e
      | inr o1 =>
          if bool_decide (key o1 = key o) then
            let o' := on_update (om_generation (r_meta old)) old o1 in
            inr ((o', "updated"), set_coll (put_or_reap o' (coll c)) c)
          else inl (ErrorMsg "MutateFn cannot mutate object name and/or object namespace")
      end
  end.
End ops.

#[global] Instance Sim_World : World Sim := {|
  w_get Sp St _ k := sim_request (sim_get k);
  w_list Sp St _ lo := sim_request (sim_list lo);
  w_create Sp St _ o := sim_request (sim_create o);
  w_update Sp St _ o := sim_request (sim_update o);
  w_status_update Sp St _ o := sim_request (sim_status_update o);
  w_patch Sp St _ orig o := sim_request (sim_update o);
  w_delete Sp St _ k := sim_request (sim_delete (Sp:=Sp) (St:=St) k);
  w_create_or_update Sp St _ o f := sim_request (sim_create_or_update o f);
  w_intn n s :=
    ((default 0 (head (sim_rand s)) mod n)%nat,
     {| sim_cluster := sim_cluster s; sim_faults := sim_faults s;
        sim_rand := tail (sim_rand s); sim_clock := sim_clock s;
        sim_events := sim_events s; sim_files := sim_files s |});
  w_now s := (sim_clock s, s);
  w_uuid s := ("0f3a9c11-5d2e-4b6f-8a70-1c2d3e4f5a6b", s);
  w_range V m s := (map_to_list m, s);
  w_event ev s :=
    (tt, {| sim_cluster := sim_cluster s; sim_faults := sim_faults s;
            sim_rand := sim_rand s; sim_clock := sim_clock s;
            sim_events := sim_events s ++ [ev]; sim_files := sim_files s |});
|}.

#[global] Instance Sim_Viewed : Viewed Sim := sim_cluster.

Lemma sim_request_ok {A} (f : Z → Cluster → error + (A * Cluster)) s a s' :
  sim_request f s = (inr a, s') →
  ∃ t, f t (sim_cluster s) = inr (a, sim_cluster s').
Proof.
  unfold sim_request. destruct (head _) as [[x|]|];
    [done|destruct (f _ _) as [|[??]] eqn:E..]; intros; simplify_eq; eauto.
Qed.

Lemma sim_request_err {A} (f : Z → Cluster → error + (A * Cluster)) s e s' :
  sim_request f s = (inl e, s') →
  sim_cluster s' = sim_cluster s ∧
  ((∃ x, e = fault_error x) ∨ ∃ t, f t (sim_cluster s) = inl e).
Proof.
  unfold sim_request. destruct (head _) as [[x|]|];
    [|destruct (f _ _) as [|[??]] eqn:E..]; intros; simplify_eq; eauto.
Qed.

Lemma fault_not_found x : IsNotFound (fault_error x) = true → False.
Proof. by destruct x. Qed.

(** Unfold what a request did, from the answer it got. *)
Local Ltac sim_ok def :=
  match goal with
  | E : sim_request _ _ = (inr _, _) |- _ =>
      apply sim_request_ok in E as [t Ht]; unfold def in Ht;
      repeat case_match; repeat case_bool_decide; simplify_eq; eauto 12
  end.
Local Ltac sim_err def :=
  match goal with
  | E : sim_request _ _ = (inl _, _) |- _ =>
      apply sim_request_err in E as [-> [[x ->]|[t Ht]]];
      split_and?; try done;
      [by intros ?%fault_not_found | unfold def in Ht; by case_match]
  end.

#[global] Instance Sim_laws : WorldLaws Sim.
Proof.
  split; unfold view, Sim_Viewed; simpl; intros.
  all: try (match goal with E : sim_request _ _ = (inl _, _) |- sim_cluster _ = _ =>
              by apply sim_request_err in E as [? _] end).
  - sim_ok @sim_get.
  - sim_err @sim_get.
  - sim_ok @sim_list.
  - sim_ok @sim_create.
  - sim_ok @sim_update.
  - sim_ok @sim_status_update.
  - sim_ok @sim_update.
  - sim_ok @sim_delete.
  - sim_err @sim_delete.
  - sim_ok @sim_create_or_update.
    + right. do 3 eexists; split_and!; try done; unfold key, om_key; congruence.
    + left. split; [done|].
      do 4 eexists; split_and!; try done; unfold key, om_key; congruence.
  - simplify_eq/=. split; [done|]. intros. apply Nat.mod_upper_bound. lia.
  - by simplify_eq.
  - by simplify_eq.
  - by simplify_eq.
  - by simplify_eq.
Qed.

(** ** The library functions *)

(** *** Conditions *)
Definition sim_find (cs : list Condition) (t : string) : option Condition :=
  snd <$> list_find (λ c, cond_type c = t) cs.

Definition same_condb (c d : Condition) : bool :=
  bool_decide (cond_type c = cond_type d) && bool_decide (cond_status c = cond_status d) &&
  bool_decide (cond_reason c = cond_reason d) && bool_decide (cond_message c = cond_message d).

Lemma same_condb_spec c d : same_condb c d = true ↔ same_cond c d.
Proof.
  unfold same_condb, same_cond. rewrite !andb_true_iff, !bool_decide_eq_true. tauto.
Qed.

(** Replace the first condition of the type, or append a new one; the time of
    the last transition is kept while the status is the same. *)
Fixpoint sim_put (now : Z) (cs : list Condition) (c : Condition) : list Condition :=
  match cs with
  | [] => [{| cond_type := cond_type c; cond_status := cond_status c;
              cond_reason := cond_reason c; cond_message := cond_message c;
              cond_lastTransitionTime := now |}]
  | d :: cs' =>
      if bool_decide (cond_type d = cond_type c) then
        {| cond_type := cond_type c; cond_status := cond_status c;
           cond_reason := cond_reason c; cond_message := cond_message c;
           cond_lastTransitionTime :=
             if bool_decide (cond_status d = cond_status c)
             then cond_lastTransitionTime d else now |} :: cs'
      else d :: sim_put now cs' c
  end.

Definition sim_set_condition (now : Z) (cs : list Condition) (c : Condition)
    : list Condition * bool :=
  match sim_find cs (cond_type c) with
  | Some d => if same_condb d c then (cs, false) else (sim_put now cs c, true)
  | None => (sim_put now cs c, true)
  end.

#[global] Arguments sim_find : simpl never.

Lemma sim_find_cons d cs t :
  sim_find (d :: cs) t = if bool_decide (cond_type d = t) then Some d else sim_find cs t.
Proof.
  unfold sim_find. cbn. case_bool_decide.
  - by rewrite decide_True.
  - rewrite decide_False by done. by destruct (list_find _ cs) as [[]|].
Qed.

Lemma sim_put_find_same now cs c :
  ∃ d, sim_find (sim_put now cs c) (cond_type c) = Some d ∧ same_cond d c.
Proof.
  induction cs as [|d cs IH]; cbn [sim_put].
  - rewrite sim_find_cons, bool_decide_true by done. eexists; split; done.
  - case_bool_decide; rewrite sim_find_cons; cbn.
    + rewrite bool_decide_true by done. eexists; split; done.
    + by rewrite bool_decide_false.
Qed.

Lemma sim_put_find_other now cs c t :
  t ≠ cond_type c → sim_find (sim_put now cs c) t = sim_find cs t.
Proof.
  intros Ht. induction cs as [|d cs IH]; cbn [sim_put].
  - by rewrite sim_find_cons, bool_decide_false by done.
  - case_bool_decide; rewrite !sim_find_cons; cbn.
    + rewrite !bool_decide_false; [done|congruence..].
    + by rewrite IH.
Qed.

(** *** Label selectors, printed as the binary code of the label set *)
Fixpoint pos_to_string (p : positive) : string :=
  match p with
  | xH => ""
  | xO p => String "0"%char (pos_to_string p)
  | xI p => String "1"%char (pos_to_string p)
  end.
Fixpoint string_to_positive (s : string) : positive :=
  match s with
  | EmptyString => xH
  | String c s => if Ascii.eqb c "0"%char then xO (string_to_positive s)
                  else xI (string_to_positive s)
  end.

Lemma pos_to_string_inv p : string_to_positive (pos_to_string p) = p.
Proof. induction p; cbn; congruence. Qed.

Definition sim_parse (s : string) : error + Selector :=
  match decode (string_to_positive s) with
  | Some ls => inr (λ m : Labels, bool_decide ((ls : Labels) ⊆ m))
  | None => inl (ErrorMsg "unable to parse requirement")
  end.

(** *** Conditions of unstructured objects *)
Definition cond_to_json (c : Condition) : JSON :=
  JArr [JStr (cond_type c); JStr (cond_status c); JStr (cond_reason c);
        JStr (cond_message c); JInt (cond_lastTransitionTime c)].
Definition json_to_cond (j : JSON) : option Condition :=
  match j with
  | JArr [JStr t; JStr st; JStr r; JStr m; JInt l] =>
      Some {| cond_type := t; cond_status := st; cond_reason := r; cond_message := m;
              cond_lastTransitionTime := l |}
  | _ => None
  end.

Definition sim_conditions (st : UnstructuredStatus) : list Condition :=
  match default ∅ st !! "conditions" with
  | Some (JArr l) => omap json_to_cond l
  | _ => []
  end.

Lemma json_to_cond_inv (cs : list Condition) : omap json_to_cond (cond_to_json <$> cs) = cs.
Proof. induction cs as [|[] cs IH]; cbn; congruence. Qed.

Definition sim_conditions_set (now : Z) (st : UnstructuredStatus) (c : Condition)
    : UnstructuredStatus :=
  Some (<["conditions" := JArr (cond_to_json <$> sim_put now (sim_conditions st) c)]>
          (default ∅ st)).

Lemma sim_conditions_set_conditions now st c :
  sim_conditions (sim_conditions_set now st c) = sim_put now (sim_conditions st) c.
Proof.
  unfold sim_conditions at 1, sim_conditions_set. cbn.
  rewrite lookup_insert_eq. apply json_to_cond_inv.
Qed.

Definition sim_add_finalizer (fs : list string) (f : string) : list string :=
  if bool_decide (f ∈ fs) then fs else fs ++ [f].

Definition sim_set_controller (kind : string) (owner m : ObjectMeta) : error + ObjectMeta :=
  if bool_decide (Exists (λ o, or_controller o = true ∧ or_name o ≠ om_name owner) (om_owners m))
  then inl (ErrorMsg "already owned by another controller")
  else inr (om_set_owners
              (filter (λ o, or_name o ≠ om_name owner) (om_owners m) ++
               [{| or_kind := kind; or_name := om_name owner; or_controller := true |}]) m).

Fixpoint sim_json (j : JSON) : string :=
  match j with
  | JNull => "null"
  | JBool b => if b then "true" else "false"
  | JInt z | JFloat z => pretty z
  | JStr s => "'" +:+ s +:+ "'"
  | JArr l => "[" +:+ Strings.Join (map sim_json l) "," +:+ "]"
  | JObj fs => "{" +:+ Strings.Join (map (λ kv, kv.1 +:+ ":" +:+ sim_json kv.2) fs) "," +:+ "}"
  end.

Definition sim_group_version (s : string) : string * string :=
  match Filepath.split s with
  | [v] => ("", v)
  | g :: v :: _ => (g, v)
  | [] => ("", "")
  end.

#[global] Instance Sim_Lib : Lib := {|
  SetStatusCondition := sim_set_condition;
  FindStatusCondition := sim_find;
  ContainsFinalizer fs f := bool_decide (f ∈ fs);
  AddFinalizer := sim_add_finalizer;
  RemoveFinalizer fs f := filter (λ g, g ≠ f) fs;
  SetControllerReference := sim_set_controller;
  labels_Merge a b := b ∪ a;
  FormatLabels ls := pos_to_string (encode ls);
  labels_Parse := sim_parse;
  SelectorFromSet ls m := bool_decide (ls ⊆ m);
  md5_hex x := String.substring 0 32 (x +:+ "00000000000000000000000000000000");
  json_Marshal j := inr (sim_json j);
  ParseGroupVersion := sim_group_version;
  sort_Slice A less l := Sort.SliceStable less l;
  conditions_Get st t := sim_find (sim_conditions st) t;
  conditions_Set := sim_conditions_set;
|}.

#[global] Instance Sim_lib_laws : LibLaws.
Proof.
  split; cbn; intros.
  - done.
  - unfold sim_set_condition.
    destruct (sim_find cs (cond_type c)) as [d|] eqn:E; [|apply sim_put_find_same].
    destruct (same_condb d c) eqn:Es; [|apply sim_put_find_same].
    exists d; split; [done|by apply same_condb_spec].
  - unfold sim_set_condition. repeat case_match; cbn; auto using sim_put_find_other.
  - unfold sim_set_condition.
    destruct (sim_find cs (cond_type c)) as [d|] eqn:E.
    + destruct (same_condb d c) eqn:Es; cbn; split; try done.
      * intros _. exists d; split; [done|by apply same_condb_spec].
      * intros (d' & ? & Hd%same_condb_spec). simplify_eq. congruence.
    + cbn. split; [done|]. intros (? & ? & _). done.
  - unfold sim_set_condition in *. by destruct (sim_find cs _) as [d|]; [destruct (same_condb d c)|].
  - done.
  - unfold sim_add_finalizer. case_bool_decide; [naive_solver|].
    rewrite elem_of_app, list_elem_of_singleton. tauto.
  - rewrite list_elem_of_filter. done.
  - unfold sim_set_controller in H. case_bool_decide; by simplify_eq.
  - done.
  - unfold sim_parse in *. rewrite pos_to_string_inv, decode_encode in *. by simplify_eq.
  - done.
  - apply substring_length. rewrite string_length_app. cbn. lia.
  - apply Sort.SliceStable_perm.
  - rewrite (Sort.SliceStable_ext _ _ l H). apply Sort.SliceStable_sorted.
  - rewrite sim_conditions_set_conditions. apply sim_put_find_same.
  - rewrite sim_conditions_set_conditions. by apply sim_put_find_other.
  - unfold sim_conditions. by rewrite H.
  - by rewrite lookup_insert_ne.
Qed.

(** ** Building states *)
Definition of_list {Sp St} (l : list (Resource Sp St)) : gmap Key (Resource Sp St) :=
  list_to_map ((λ o, (key o, o)) <$> l).

Definition sim_of (c : Cluster) : Sim := {|
  sim_cluster := c; sim_faults := []; sim_rand := []; sim_clock := 100; sim_events := [];
  sim_files := ∅ |}.

Lemma of_list_lookup {Sp St} (l : list (Resource Sp St)) k o :
  of_list l !! k = Some o → o ∈ l ∧ key o = k.
Proof.
intros Hin%elem_of_list_to_map_2%list_elem_of_fmap. destruct Hin as (o' & Heq & Hin).
by simplify_eq.
Qed.

Lemma of_list_keyed {Sp St} (l : list (Resource Sp St)) : keyed (of_list l).
Proof. by intros k o [_ ?]%of_list_lookup. Qed.

Lemma of_list_no_zombies {Sp St} (l : list (Resource Sp St)) :
  Forall (λ o, deleting o = true → GetFinalizers o ≠ []) l → no_zombies (of_list l).
Proof. intros Hl k o [Hin _]%of_list_lookup. rewrite Forall_forall in Hl. auto. Qed.

(** ** A codec: gzip is the identity, a state file is a coded list *)
#[global] Instance Sim_Codec : Codec := {|
  gzip s := s;
  gunzip s := inr s;
  yaml_Marshal files := inr ("f" +:+ pos_to_string (encode files));
  yaml_Unmarshal s :=
    match s with
    | "" => inr []
    | String _ s' =>
        match decode (string_to_positive s') with
        | Some files => inr files
        | None => inl (ErrorMsg "yaml: cannot unmarshal")
        end
    end;
|}.

#[global] Instance Sim_codec_laws : CodecLaws.
Proof.
split; [done| |done]. intros files s [= <-].
change (match decode (string_to_positive (pos_to_string (encode files))) with
        | Some fs => inr fs
        | None => inl (ErrorMsg "yaml: cannot unmarshal")
        end = inr (A:=error) files).
by rewrite pos_to_string_inv, decode_encode.
Qed.

Lemma compression_round_trip_witness :
  DecompressContent (CompressContent "kind: Redis") = inr "kind: Redis" ∧
  InCompressedContents (CompressContent "kind: Redis") "Redis" = inr true.
Proof. exact (compression_round_trip "kind: Redis" "Redis"). Defined.
