(* ===== verification/Shared.v ===== *)
(** * Helpers shared by the controllers

    [lib/resourceutil/finalizer.go], [lib/resourceutil/work.go] and the helpers
    of [internal/controller/shared.go]. *)

From S2P Require Import Prelude GoLib Meta Api Kube Client.

(** ** Reconciliation results ([ctrl.Result]) *)
Record Result := { requeueAfter : Z }.
#[global] Instance Result_eq_dec : EqDecision Result.
Proof. solve_decision. Defined.
Definition noRequeue : Result := {| requeueAfter := 0 |}.
Definition second : Z := 1000000000.
Definition fastRequeue : Result := {| requeueAfter := 5 * second |}.
Definition defaultRequeue : Result := {| requeueAfter := 15 * second |}.
Definition slowRequeue : Result := {| requeueAfter := 60 * second |}.

(** [shortID]: the first five bytes; panics on a shorter identifier. *)
Definition shortID (id : string) : outcome string := Strings.slice id 0 5.

Section finalizers.
Context `{Lib}.

(** ** lib/resourceutil/finalizer.go, on the finalizers of the resource *)
Fixpoint FinalizersAreMissing (existing finalizers : list string) : bool :=
  match finalizers with
  | [] => false
  | f :: fs => if negb (ContainsFinalizer existing f) then true
               else FinalizersAreMissing existing fs
  end.

Definition DoesNotContainFinalizer (existing : list string) (finalizer : string) : bool :=
  negb (ContainsFinalizer existing finalizer).

Fixpoint FinalizersAreDeleted (existing finalizers : list string) : bool :=
  match finalizers with
  | [] => true
  | f :: fs => if ContainsFinalizer existing f then false
               else FinalizersAreDeleted existing fs
  end.

Section laws.
Context `{!LibLaws}.

Lemma FinalizersAreMissing_spec existing fs :
  FinalizersAreMissing existing fs = false ↔ ∀ f, f ∈ fs → f ∈ existing.
Proof.
  induction fs as [|f fs IH]; simpl; [set_solver|].
  rewrite contains_finalizer. case_bool_decide; simpl; [rewrite IH|]; set_solver.
Qed.

Lemma FinalizersAreDeleted_spec existing fs :
  FinalizersAreDeleted existing fs = true ↔ ∀ f, f ∈ fs → f ∉ existing.
Proof.
  induction fs as [|f fs IH]; simpl; [set_solver|].
  rewrite contains_finalizer. case_bool_decide; simpl; [|rewrite IH]; set_solver.
Qed.
End laws.
End finalizers.

Section shared.
Context {S : Type} `{World S, Lib}.

(** [apimeta.SetStatusCondition], which reads the clock. *)
Definition setStatusCondition (cs : list Condition) (c : Condition)
    : M S (list Condition * bool) :=
  let! now := Now in ret (SetStatusCondition now cs c).

(** [apimeta.IsStatusConditionFalse] *)
Definition IsStatusConditionFalse (cs : list Condition) (t : string) : bool :=
  match FindStatusCondition cs t with
  | Some c => bool_decide (cond_status c = ConditionFalse)
  | None => false
  end.

(** A condition literal with [LastTransitionTime: time.Now()]. *)
Definition stamped (type status reason message : string) : M S Condition :=
  let! now := Now in
  ret {| cond_type := type; cond_status := status; cond_reason := reason;
         cond_message := message; cond_lastTransitionTime := now |}.

(** [addFinalizers] *)
Definition addFinalizers {Sp St} `{Collection Sp St} (o : Resource Sp St)
    (finalizers : list string) : M S Result :=
  let o' := SetFinalizers (foldl AddFinalizer (GetFinalizers o) finalizers) o in
  Update o' ;;;
  ret noRequeue.

(** [deleteAllResourcesWithKindMatchingLabel]: the kind is the collection. *)
Definition deleteAllResourcesWithKindMatchingLabel (Sp St : Type) `{Collection Sp St}
    (resourceLabels : Labels) : M S bool :=
  let! items := List (Sp:=Sp) (St:=St)
    {| lo_namespace := ""; lo_selector := Some (SelectorFromSet resourceLabels) |} in
  match items with
  | [] => ret false
  | _ =>
      iterM (λ o,
        let! r := try (Delete o) in
        match r with
        | inl e => if IsNotFound e then ret tt else fail e
        | inr _ => ret tt
        end) items ;;;
      ret true
  end.

(** ** lib/resourceutil/work.go *)
Definition GetWorkLabels (promiseName resourceName pipelineName workType : string) : Labels :=
  let l := <[WorkTypeLabel := workType]> (<[PromiseNameLabel := promiseName]> ∅) in
  let l := if bool_decide (pipelineName ≠ "")
           then <[PipelineNameLabel := pipelineName]> l else l in
  if bool_decide (resourceName ≠ "")
  then <[ResourceNameLabel := resourceName]> l else l.

Definition getExistingWorks (namespace : string) (workLabels : Labels) : M S (list Work) :=
  let! selector := of_sum (labels_Parse (FormatLabels workLabels)) in
  List {| lo_namespace := namespace; lo_selector := Some selector |}.

Definition GetAllWorksForResource (namespace promiseName resourceName : string)
    : M S (list Work) :=
  getExistingWorks namespace
    (<[ResourceNameLabel := resourceName]> (<[PromiseNameLabel := promiseName]> ∅)).

Definition GetWorksByType (workflowType : string) (obj : Unstructured) : M S (list Work) :=
  let namespace := if bool_decide (GetNamespace obj = "")
                   then SystemNamespace else GetNamespace obj in
  let l := <[WorkTypeLabel := workflowType]> ∅ in
  let '(promiseName, l) :=
    if bool_decide (workflowType = WorkflowTypeResource)
    then (label (GetLabels obj) PromiseNameLabel,
          <[ResourceNameLabel := GetName obj]> l)
    else (GetName obj, l) in
  getExistingWorks namespace (<[PromiseNameLabel := promiseName]> l).

Definition GetWork (namespace : string) (ls : Labels) : M S (option Work) :=
  let! works := getExistingWorks namespace ls in
  match works with
  | [] => ret None
  | [w] => ret (Some w)
  | _ => fail (ErrorMsg "more than 1 work exist with the matching labels. Unable to update")
  end.
End shared.

(** ** Proof rules *)
(** A Work with these labels in this namespace. *)
Definition work_matches (ns : string) (ls : Labels) (w : Work) : Prop :=
  (ns = "" ∨ GetNamespace w = ns) ∧ ls ⊆ GetLabels w.

Section shared_rules.
Context {S : Type} `{World S, Viewed S, !WorldLaws S, Lib, !LibLaws}.
Implicit Types s : S.

Lemma wp_setStatusCondition cs c (Q : outcome (list Condition * bool) → S → Prop) s :
  (∀ now s', view s' = view s → Q (Ok (SetStatusCondition now cs c)) s') →
  wp (setStatusCondition cs c) Q s.
Proof. intros HO. apply wp_bind, wp_Now. intros now s' Hv. by apply wp_ret, HO. Qed.

Lemma wp_stamped t st r m (Q : outcome Condition → S → Prop) s :
  (∀ now s', view s' = view s →
     Q (Ok {| cond_type := t; cond_status := st; cond_reason := r;
              cond_message := m; cond_lastTransitionTime := now |}) s') →
  wp (stamped t st r m) Q s.
Proof. intros HO. apply wp_bind, wp_Now. intros now s' Hv. by apply wp_ret, HO. Qed.

Lemma wp_getExistingWorks ns ls (Q : outcome (list Work) → S → Prop) s :
  ls ≠ ∅ →
  (∀ l s', view s' = view s →
     (∀ w, w ∈ l ↔ work_matches ns ls w ∧ ∃ k, c_works (view s) !! k = Some w) → Q (Ok l) s') →
  (∀ e s', view s' = view s → Q (Fail e) s') →
  wp (getExistingWorks ns ls) Q s.
Proof.
intros Hls HO HE. unfold getExistingWorks. apply wp_bind. unfold of_sum.
destruct (labels_Parse (FormatLabels ls)) as [e|sel] eqn:Ep; [by apply wp_fail, HE|].
apply wp_ret. apply wp_List; [|done]. intros l s' Hv Hperm. apply HO; [done|].
intros w. rewrite Hperm, list_elem_of_filter, elem_of_map_values. apply and_iff_compat_r.
unfold lo_match, work_matches, GetNamespace, GetLabels. cbn.
rewrite (parse_format ls sel Hls Ep), andb_true_iff, orb_true_iff, !bool_decide_eq_true.
naive_solver.
Qed.

Lemma wp_GetWork ns ls (Q : outcome (option Work) → S → Prop) s :
  ls ≠ ∅ →
  (∀ s', view s' = view s → (∀ k w, c_works (view s) !! k = Some w → ¬ work_matches ns ls w) →
     Q (Ok None) s') →
  (∀ k w s', view s' = view s → c_works (view s) !! k = Some w → work_matches ns ls w →
     (∀ k' w', c_works (view s) !! k' = Some w' → work_matches ns ls w' → w' = w) →
     Q (Ok (Some w)) s') →
  (∀ e s', view s' = view s → Q (Fail e) s') →
  wp (GetWork ns ls) Q s.
Proof.
intros Hls HN HO HE. apply wp_bind, wp_getExistingWorks; [done| |done]. intros l s' Hv Hl.
destruct l as [|w [|w' l]].
- apply wp_ret, HN; [done|]. intros k w Hk Hm.
  assert (w ∈ []) as Hin by (apply Hl; eauto). by apply elem_of_nil in Hin.
- destruct (proj1 (Hl w)) as [Hm [k Hk]]; [left|]. apply wp_ret, (HO k); [done..|].
  intros k' w' Hk' Hm'. apply list_elem_of_singleton, Hl. eauto.
- by apply wp_fail, HE.
Qed.
End shared_rules.

(** One step of symbolic execution on the goal [wp _ _ _]. *)
Ltac wp_step :=
  first
    [ apply wp_setStatusCondition; intros ? ? ?
    | apply wp_stamped; intros ? ? ?
    | apply wp_Eventf; intros ? ?
    | apply wp_Now; intros ? ? ?
    | apply wp_ret | apply wp_fail | apply wp_bind | apply wp_try ].
Ltac wp_steps := repeat (wp_step; cbn beta iota).
