(* ===== verification/ResourceUtil.v ===== *)
(** * [lib/resourceutil/util.go], [conditions.go], [lib/objectutil/name.go] and [lib/hash]

    Conditions and status fields of unstructured objects, questions about
    lists of jobs, and the names and hashes of generated objects. *)

From S2P Require Import Prelude GoLib Meta Api Kube Client Shared.
From Stdlib Require Import Ascii.

Definition ConfigureWorkflowCompletedCondition := "ConfigureWorkflowCompleted".
Definition ConfigureWorkflowCompletedFailedReason := "ConfigureWorkflowFailed".
Definition DeleteWorkflowCompletedCondition := "DeleteWorkflowCompleted".
Definition DeleteWorkflowCompletedFailedReason := "DeleteWorkflowFailed".
Definition ManualReconciliationLabel := "kratix.io/manual-reconciliation".
Definition promiseAvailableCondition := "PromiseAvailable".
Definition WorksSucceededCondition := "WorksSucceeded".
Definition ReconciledCondition := "Reconciled".
Definition pausedReconciliationReason := "PausedReconciliation".

Section conditions.
Context {S : Type} `{World S, Lib}.

(** ** conditions.go *)
Definition GetCondition (obj : Unstructured) (conditionType : string) : option Condition :=
  conditions_Get (r_status obj) conditionType.

Definition HasCondition (obj : Unstructured) (conditionType : string) : bool :=
  match GetCondition obj conditionType with Some _ => true | None => false end.

(** [conditions.Set] reads the clock when the condition changes state. *)
Definition SetCondition (obj : Unstructured) (c : Condition) : M S Unstructured :=
  let! now := Now in
  ret (set_status (conditions_Set now (r_status obj) c) obj).

(** ** util.go: conditions *)
Definition GetConfigureWorkflowCompletedConditionStatus (obj : Unstructured) : string :=
  match GetCondition obj ConfigureWorkflowCompletedCondition with
  | None => ConditionUnknown
  | Some c => cond_status c
  end.

Definition mark (obj : Unstructured) (type status message reason : string) : M S Unstructured :=
  let! c := stamped type status reason message in
  SetCondition obj c.

Definition MarkConfigureWorkflowAsRunning (obj : Unstructured) : M S Unstructured :=
  mark obj ConfigureWorkflowCompletedCondition ConditionFalse
    "Pipelines are still in progress" "PipelinesInProgress".

Definition MarkConfigureWorkflowAsFailed (obj : Unstructured) (failedPipeline : string)
    : M S Unstructured :=
  mark obj ConfigureWorkflowCompletedCondition ConditionFalse
    ("A Configure Pipeline has failed: " +:+ failedPipeline)
    ConfigureWorkflowCompletedFailedReason.

Definition MarkResourceRequestAsWorksFailed (obj : Unstructured) (works : list string)
    : M S Unstructured :=
  mark obj WorksSucceededCondition ConditionFalse
    ("Some works associated with this resource failed: [" +:+ Strings.Join works "," +:+ "]")
    "WorksFailing".

Definition MarkResourceRequestAsWorksMisplaced (obj : Unstructured) (works : list string)
    : M S Unstructured :=
  mark obj WorksSucceededCondition ConditionFalse
    ("Some works associated with this resource are misplaced: [" +:+
     Strings.Join works "," +:+ "]")
    "WorksMisplaced".

Definition MarkResourceRequestAsWorksPending (obj : Unstructured) (works : list string)
    : M S Unstructured :=
  mark obj WorksSucceededCondition ConditionUnknown
    ("Some works associated with this resource are not ready: [" +:+
     Strings.Join works "," +:+ "]")
    "WorksPending".

Definition MarkResourceRequestAsWorksSucceeded (obj : Unstructured) : M S Unstructured :=
  mark obj WorksSucceededCondition ConditionTrue
    "All works associated with this resource are ready" "WorksSucceeded".

Definition MarkReconciledPending (obj : Unstructured) (reason : string) : M S Unstructured :=
  mark obj ReconciledCondition ConditionUnknown "Pending" reason.

Definition MarkReconciledFailing (obj : Unstructured) (reason : string) : M S Unstructured :=
  mark obj ReconciledCondition ConditionFalse "Failing" reason.

Definition MarkReconciledTrue (obj : Unstructured) : M S Unstructured :=
  mark obj ReconciledCondition ConditionTrue "Reconciled" "Reconciled".

Definition MarkReconciledPaused (obj : Unstructured) : M S Unstructured :=
  mark obj ReconciledCondition ConditionUnknown "Paused" pausedReconciliationReason.

Definition MarkDeleteWorkflowAsFailed (obj : Unstructured) : M S Unstructured :=
  mark obj DeleteWorkflowCompletedCondition ConditionFalse
    "The Delete Pipeline has failed" DeleteWorkflowCompletedFailedReason.
End conditions.

(** ** util.go: status fields *)

(** The key/value pairs of the variadic argument, in order; a key that is not a
    string is skipped. *)
Fixpoint assign_pairs (statuses : list JSON) (m : gmap string JSON) : gmap string JSON :=
  match statuses with
  | key :: value :: rest =>
      assign_pairs rest (match key with JStr k => <[k := value]> m | _ => m end)
  | _ => m
  end.

Definition SetStatus (rr : Unstructured) (statuses : list JSON) : Unstructured :=
  if bool_decide (length statuses = 0) then rr
  else if negb (Nat.even (length statuses)) then rr
  else
    let nestedMap := assign_pairs statuses (default ∅ (r_status rr)) in
    if bool_decide (size nestedMap = 0) then set_status None rr
    else set_status (Some nestedMap) rr.

Definition status_field (rr : Unstructured) (key : string) : option JSON :=
  match r_status rr with
  | None => None
  | Some m => match m !! key with Some JNull => None | v => v end
  end.

(** Panics when the field is not a string. *)
Definition GetStatus (rr : Unstructured) (key : string) : outcome string :=
  match status_field rr key with
  | None => Ok ""
  | Some (JStr s) => Ok s
  | Some _ => Panicked
  end.

Definition GetWorkflowsCounterStatus (rr : Unstructured) (key : string) : Z :=
  match status_field rr key with
  | Some (JFloat v) => v
  | Some (JInt v) => v
  | _ => -1
  end.

(** Panics when the field is not an [int64]. *)
Definition GetObservedGeneration (rr : Unstructured) : outcome Z :=
  match status_field rr "observedGeneration" with
  | None => Ok 0%Z
  | Some (JInt v) => Ok v
  | Some _ => Panicked
  end.

Section promise_conditions.
Context {S : Type} `{World S, Lib}.

Definition MarkPromiseConditionAsNotAvailable (obj : Unstructured) : M S Unstructured :=
  mark (SetStatus obj [JStr "message"; JStr "Pending"]) promiseAvailableCondition ConditionFalse
    "Promise Requirements are not installed" "PromiseRequirementsNotInstalled".

Definition MarkPromiseConditionAsAvailable (obj : Unstructured) : M S Unstructured :=
  mark obj promiseAvailableCondition ConditionTrue
    "Promise Requirements are met" "PromiseAvailable".

Definition IsPromiseMarkedAsUnavailable (obj : Unstructured) : bool :=
  match GetCondition obj promiseAvailableCondition with
  | None => false
  | Some c => bool_decide (cond_status c = ConditionFalse)
  end.
End promise_conditions.

Definition GetResourceNames (items : list Unstructured) : list string :=
  (λ item, if bool_decide (GetNamespace item ≠ "")
           then GetNamespace item +:+ "/" +:+ GetName item else GetName item) <$> items.

(** ** lib/hash *)
Section hash.
Context `{Lib}.

Definition ComputeHashForResource (input : Unstructured) : error + string :=
  match json_Marshal (us_spec (r_spec input)) with
  | inl e => inl e
  | inr spec => inr (md5_hex spec)
  end.

Definition ComputeHash (item : string) : string := md5_hex item.
End hash.

(** ** util.go: jobs *)
Definition created (j : Job) : Z := om_creationTimestamp (r_meta j).

Definition hasCondition (job : Job) (type status : string) : bool :=
  existsb (λ c, bool_decide (jc_type c = type) && bool_decide (jc_status c = status))
    (js_conditions (r_status job)).

Fixpoint IsThereAPipelineRunning (jobs : list Job) : bool :=
  match jobs with
  | [] => false
  | job :: jobs' =>
      if bool_decide (length (js_conditions (r_status job)) = 0) then true
      else if hasCondition job JobComplete ConditionTrue ||
              hasCondition job JobSuspended ConditionTrue ||
              hasCondition job JobFailed ConditionTrue
      then IsThereAPipelineRunning jobs'
      else true
  end.

Definition SuspendablePipelines (jobs : list Job) : list Job :=
  filter (λ job, negb (default false (jsp_suspend (r_spec job))) &&
                 bool_decide (js_active (r_status job) = 0%Z) = true) jobs.

Section jobs.
Context `{Lib}.

Definition SortJobsByCreationDateTime (jobs : list Job) (desc : bool) : list Job :=
  sort_Slice (λ i j, if desc then bool_decide (created i < created j)%Z
                     else bool_decide (created j < created i)%Z) jobs.

Definition PipelineWithDesiredSpecExists (obj : Unstructured) (jobs : list Job)
    : error + option Job :=
  match last (SortJobsByCreationDateTime jobs true) with
  | None => inr None
  | Some mostRecentJob =>
      match ComputeHashForResource obj with
      | inl e => inl e
      | inr currentRequestHash =>
          if bool_decide (label (GetLabels mostRecentJob) KratixResourceHashLabel =
                          currentRequestHash)
          then inr (Some mostRecentJob) else inr None
      end
  end.
End jobs.

(** ** lib/objectutil/name.go *)
Definition maxNameLength : nat := 63 - 1 - 5.

(** [^[a-zA-Z0-9]*$] on one byte. *)
Definition isAlphanumeric (c : ascii) : bool :=
  let n := nat_of_ascii c in
  ((65 <=? n) && (n <=? 90)) || ((97 <=? n) && (n <=? 122)) || ((48 <=? n) && (n <=? 57)).

(** Dropping bytes from the end; [name[len(name)-1]] panics on the empty name. *)
Fixpoint trim_end (rev_name : list ascii) : outcome (list ascii) :=
  match rev_name with
  | [] => Panicked
  | c :: rest => if isAlphanumeric c then Ok rev_name else trim_end rest
  end.

Definition processName (name : string) : outcome string :=
  let name := if maxNameLength <? String.length name
              then String.substring 0 (maxNameLength - 1) name else name in
  match trim_end (rev (String.list_ascii_of_string name)) with
  | Ok r => Ok (String.string_of_list_ascii (rev r))
  | Fail e => Fail e
  | Panicked => Panicked
  end.

Definition with_suffix (name id : string) : outcome string :=
  match processName name, Strings.slice id 0 5 with
  | Ok n, Ok i => Ok (n +:+ "-" +:+ i)
  | _, _ => Panicked
  end.

Definition GenerateDeterministicObjectName `{Lib} (name : string) : outcome string :=
  with_suffix name (ComputeHash name).

Definition GenerateObjectName {S} `{World S} (name : string) : M S string :=
  let! n := lift (processName name) in
  let! id := NewUUID in
  let! i := lift (Strings.slice id 0 5) in
  ret (n +:+ "-" +:+ i).
