(* ===== verification/Promise.v ===== *)
(** * Promises and pipelines: [api/v1alpha1/promise_types.go] and [pipeline_types.go]

    The Promise type with the methods the pipelines need, the Pipeline type and
    the labels of the objects pipelines create. *)

From S2P Require Import Prelude GoLib Meta Api Kube.

(** ** Promise *)
Record RequiredPromise := { rp_name : string; rp_version : string }.
Record WorkflowTriggers := { wt_configure : list Unstructured; wt_delete : list Unstructured }.
Record Workflows := { wf_resource : WorkflowTriggers; wf_promise : WorkflowTriggers }.

(** The spec, with the type metadata of the object in front. *)
Record PromiseSpec := {
  prs_kind : string;
  prs_apiVersion : string;
  prs_api : option string;  (** [API.Raw] *)
  prs_workflows : Workflows;
  prs_requiredPromises : list RequiredPromise;
  prs_dependencies : list JSON;
  prs_destinationSelectors : list PromiseScheduling;
}.

Record RequiredPromiseStatus := { rps_name : string; rps_version : string; rps_state : string }.
Record RequiredBy := { rb_promise : string; rb_version : string; rb_requiredVersion : string }.
Record PromiseStatus := {
  prst_conditions : list Condition;
  prst_version : string;
  prst_observedGeneration : Z;
  prst_kind : string;
  prst_apiVersion : string;
  prst_status : string;
  prst_workflows : Z;
  prst_workflowsSucceeded : Z;
  prst_workflowsFailed : Z;
  prst_requiredPromises : list RequiredPromiseStatus;
  prst_requiredBy : list RequiredBy;
  prst_lastAvailableTime : option Z;
}.
Abbreviation Promise := (Resource PromiseSpec PromiseStatus).

Definition promiseNameLabel (promiseName : string) : Labels := <[PromiseNameLabel := promiseName]> ∅.

Definition DoesNotContainAPI (p : Promise) : bool :=
  match prs_api (r_spec p) with None => true | Some _ => false end.
Definition ContainsAPI (p : Promise) : bool := negb (DoesNotContainAPI p).

Definition GenerateSharedLabelsForPromise (promiseName : string) : Labels :=
  <[PromiseNameLabel := promiseName]> ∅.
Definition GenerateSharedLabels (p : Promise) : Labels := GenerateSharedLabelsForPromise (GetName p).
Definition GetControllerResourceName (p : Promise) : string := GetName p +:+ "-promise-controller".
Definition GetPipelineResourceName (p : Promise) : string := GetName p +:+ "-resource-pipeline".
Definition GetPipelineResourceNamespace (p : Promise) : string := "default".

Definition GenerateFullAccessForRR (group plural : string) : list PolicyRule :=
  [ {| rule_apiGroups := [group]; rule_resources := [plural]; rule_verbs := ["*"];
       rule_resourceNames := [] |};
    {| rule_apiGroups := [group]; rule_resources := [plural +:+ "/finalizers"];
       rule_verbs := ["update"]; rule_resourceNames := [] |};
    {| rule_apiGroups := [group]; rule_resources := [plural +:+ "/status"];
       rule_verbs := ["get"; "update"; "patch"]; rule_resourceNames := [] |} ].

Definition Promise_GetCondition (p : Promise) (conditionType : string) : option Condition :=
  snd <$> list_find (λ c, cond_type c = conditionType) (prst_conditions (r_status p)).

Definition Promise_GetWorkloadGroupScheduling (p : Promise) : list WorkloadGroupScheduling :=
  (λ s, {| wgs_matchLabels := ps_matchLabels s; wgs_source := "promise" |}) <$>
    prs_destinationSelectors (r_spec p).

Definition HasPipeline (p : Promise) (workflowType workflowAction : string) : bool :=
  let triggers (t : WorkflowTriggers) :=
    if bool_decide (workflowAction = WorkflowActionConfigure)
    then bool_decide (0 < length (wt_configure t))
    else if bool_decide (workflowAction = WorkflowActionDelete)
    then bool_decide (0 < length (wt_delete t)) else false in
  if bool_decide (workflowType = WorkflowTypeResource)
  then triggers (wf_resource (prs_workflows (r_spec p)))
  else if bool_decide (workflowType = WorkflowTypePromise)
  then triggers (wf_promise (prs_workflows (r_spec p))) else false.

Definition generateLabelSelectorsFromScheduling `{Lib} (scheduling : list PromiseScheduling)
    : Labels :=
  foldl (λ acc s, labels_Merge (ps_matchLabels s) acc) ∅ scheduling.
Definition GetSchedulingSelectors `{Lib} (p : Promise) : Labels :=
  generateLabelSelectorsFromScheduling (prs_destinationSelectors (r_spec p)).

(** ** [ensureMetadataSchema] *)

(** [m[k] = v] and [m[k]] on an association list with distinct keys. *)
Fixpoint prop_get (k : string) (ps : list (string * JSONSchemaProps)) : option JSONSchemaProps :=
  match ps with
  | [] => None
  | (k', v) :: ps' => if bool_decide (k = k') then Some v else prop_get k ps'
  end.
Fixpoint prop_set (k : string) (v : JSONSchemaProps) (ps : list (string * JSONSchemaProps))
    : list (string * JSONSchemaProps) :=
  match ps with
  | [] => [(k, v)]
  | (k', v') :: ps' => if bool_decide (k = k') then (k, v) :: ps' else (k', v') :: prop_set k v ps'
  end.

Definition MaxResourceNameLength : Z := 63.

(** The name property with its length limit. *)
Definition limited_name (old : option JSONSchemaProps) : JSONSchemaProps :=
  match old with
  | Some (mkSchema t _ ps r) =>
      if bool_decide (t = "") then mkSchema "string" (Some MaxResourceNameLength) None ""
      else mkSchema t (Some MaxResourceNameLength) ps r
  | None => mkSchema "string" (Some MaxResourceNameLength) None ""
  end.

(** The metadata schema is read into a local copy.  Its property map is shared
    with the original, unless it was nil: then the new map is the copy's only. *)
Definition ensureMetadataSchema (schema : JSONSchemaProps) : JSONSchemaProps :=
  let 'mkSchema t m props r := schema in
  let props := default [] props in
  let props := match prop_get "metadata" props with
               | Some _ => props
               | None => prop_set "metadata" (mkSchema "object" None (Some []) "") props
               end in
  match prop_get "metadata" props with
  | Some (mkSchema mt mm (Some mprops) mr) =>
      let mprops := prop_set "name" (limited_name (prop_get "name" mprops)) mprops in
      mkSchema t m (Some (prop_set "metadata" (mkSchema mt mm (Some mprops) mr) props)) r
  | _ => mkSchema t m (Some props) r
  end.

(** ** Pipelines *)
Record JobOptions := { jo_backoffLimit : option Z }.
Record Permission := { perm_resourceNamespace : string; perm_rule : PolicyRule }.
Record RBAC := { rbac_serviceAccount : string; rbac_permissions : list Permission }.
Record Container := {
  ct_name : string;
  ct_image : string;
  ct_args : list string;
  ct_command : list string;
  ct_env : list EnvVar;
  ct_envFrom : list string;
  ct_volumeMounts : list VolumeMount;
  ct_imagePullPolicy : string;
  ct_securityContext : option SecurityContext;
}.
Record PipelineSpec := {
  pls_containers : list Container;
  pls_volumes : list Volume;
  pls_imagePullSecrets : list string;
  pls_rbac : RBAC;
  pls_jobOptions : JobOptions;
  pls_nodeSelector : Labels;
  pls_tolerations : list string;
}.
Record Pipeline := { pl_meta : ObjectMeta; pl_spec : PipelineSpec }.
Definition pl_name (p : Pipeline) : string := om_name (pl_meta p).

Record SharedPipelineResources := {
  sh_serviceAccount : option ServiceAccount;
  sh_configMap : option ConfigMap;
  sh_roles : list Role;
  sh_roleBindings : list RoleBinding;
  sh_clusterRoles : list ClusterRole;
  sh_clusterRoleBindings : list ClusterRoleBinding;
}.
Record PipelineJobResources := {
  pjr_name : string;
  pjr_pipelineID : string;
  pjr_job : Job;
  pjr_shared : SharedPipelineResources;
  pjr_workflowType : string;
  pjr_workflowAction : string;
}.

(** [client.Object]: the kinds of object a pipeline consists of. *)
Inductive Object :=
  | OServiceAccount (o : ServiceAccount)
  | OConfigMap (o : ConfigMap)
  | ORole (o : Role)
  | ORoleBinding (o : RoleBinding)
  | OClusterRole (o : ClusterRole)
  | OClusterRoleBinding (o : ClusterRoleBinding)
  | OJob (o : Job).

Definition GetObjects (p : PipelineJobResources) : list Object :=
  let sh := pjr_shared p in
  match sh_serviceAccount sh with Some o => [OServiceAccount o] | None => [] end ++
  match sh_configMap sh with Some o => [OConfigMap o] | None => [] end ++
  (ORole <$> sh_roles sh) ++ (ORoleBinding <$> sh_roleBindings sh) ++
  (OClusterRole <$> sh_clusterRoles sh) ++ (OClusterRoleBinding <$> sh_clusterRoleBindings sh).

(** ** Decoding, done by libraries *)
Class PromiseLib := {
  (** [json.Unmarshal] into a CRD *)
  unmarshal_CRD : string → error + CRD;
  (** the kind and apiVersion of that document *)
  CRD_TypeMeta : string → string * string;
  (** [runtime.DefaultUnstructuredConverter.ToUnstructured] *)
  ToUnstructured : Promise → error + Unstructured;
  (** [pipeline.MarshalJSON], then a strict decode into a Pipeline *)
  MarshalJSON : Unstructured → error + string;
  decode_Pipeline : string → error + Pipeline;
  (** [yaml.Marshal] of the destination selectors *)
  yaml_scheduling : list WorkloadGroupScheduling → error + string;
}.

Section promise_lib.
Context `{Lib, PromiseLib}.

(** [crd.Spec.Versions[0]], or the first version that is stored; panics on a
    definition without versions. *)
Definition stored_version (crd : CRD) : option nat :=
  match list_find (λ v, cv_storage v = true) (crd_versions (r_spec crd)) with
  | Some (i, _) => Some i
  | None => match crd_versions (r_spec crd) with [] => None | _ => Some 0 end
  end.

Definition GetAPI (p : Promise) : outcome (GVK * CRD) :=
  match prs_api (r_spec p) with
  | None => Fail ErrNoAPI
  | Some raw =>
      match unmarshal_CRD raw with
      | inl e => Fail (ErrorWrap "api is not a valid CRD" e)
      | inr crd =>
          match stored_version crd with
          | None => Panicked
          | Some i =>
              match crd_versions (r_spec crd) !! i with
              | None => Panicked
              | Some v =>
                  let v' := set_cv_schema (ensureMetadataSchema <$> cv_schema v) v in
                  Ok ({| gvk_group := crd_group (r_spec crd); gvk_version := cv_name v;
                         gvk_kind := crd_kind (r_spec crd) |},
                      set_crd_versions (<[i := v']> (crd_versions (r_spec crd))) crd)
              end
          end
      end
  end.

Definition GetDynamicControllerName (p : Promise) : outcome string :=
  match GetAPI p with
  | Ok (_, crd) => Ok (GetName p +:+ "_" +:+ GetName crd)
  | Fail _ => Ok (GetName p)
  | Panicked => Panicked
  end.

Fixpoint PipelinesFromUnstructured (pipelines : list Unstructured) : error + list Pipeline :=
  match pipelines with
  | [] => inr []
  | p :: ps =>
      if bool_decide (us_kind (r_spec p) = "Pipeline") &&
         bool_decide (us_apiVersion (r_spec p) = "platform.kratix.io/v1alpha1") then
        match MarshalJSON p with
        | inl e => inl (ErrorWrap ("failed marshalling pipeline " +:+ GetName p +:+ " to json") e)
        | inr j =>
            match decode_Pipeline j with
            | inl e => inl (ErrorWrap ("failed unmarshalling pipeline " +:+ GetName p) e)
            | inr pl =>
                match PipelinesFromUnstructured ps with
                | inl e => inl e
                | inr pls => inr (pl :: pls)
                end
            end
        end
      else inl (ErrorMsg ("unsupported pipeline " +:+ GetName p +:+ " with APIVersion " +:+
                          us_kind (r_spec p) +:+ "/" +:+ us_apiVersion (r_spec p)))
  end.
End promise_lib.

(** ** Labels *)
Definition ManagedByLabel := "app.kubernetes.io/managed-by".
Definition ManagedByLabelValue := "Kratix".
Definition userPermissionResourceNamespaceLabelAll := "kratix_all_namespaces".

Definition resourceNameLabel (rName : string) : Labels := <[ResourceNameLabel := rName]> ∅.
Definition managedByKratixLabel : Labels := <[ManagedByLabel := ManagedByLabelValue]> ∅.

Section labels.
Context `{Lib}.

Definition merge_unless_empty (key value : string) (ls : Labels) : Labels :=
  if bool_decide (value ≠ "") then labels_Merge ls (<[key := value]> ∅) else ls.

Definition workflowLabels (workflowType workflowAction pipelineName : string) : Labels :=
  merge_unless_empty WorkflowActionLabel workflowAction
    (merge_unless_empty PipelineNameLabel pipelineName
       (merge_unless_empty WorkflowTypeLabel workflowType ∅)).

Definition workflowLegacyLabels (workflowType workflowAction pipelineName : string) : Labels :=
  merge_unless_empty WorkActionLabel workflowAction
    (merge_unless_empty PipelineNameLabel pipelineName
       (merge_unless_empty WorkTypeLabel workflowType ∅)).

Definition UserPermissionPipelineResourcesLabels
    (promiseName pipelineName pipelineNamespace workflowType workflowAction : string) : Labels :=
  <[PipelineNamespaceLabel := pipelineNamespace]>
    (labels_Merge (promiseNameLabel promiseName)
       (workflowLabels workflowType workflowAction pipelineName)).

Definition UserPermissionPipelineResourcesLegacyLabels
    (promiseName pipelineName pipelineNamespace workflowType workflowAction : string) : Labels :=
  <[PipelineNamespaceLabel := pipelineNamespace]>
    (labels_Merge (promiseNameLabel promiseName)
       (workflowLegacyLabels workflowType workflowAction pipelineName)).
End labels.

Definition hasUserPermissions (p : Pipeline) : bool :=
  bool_decide (0 < length (rbac_permissions (pls_rbac (pl_spec p)))).
