(* ===== verification/PromiseStore.v ===== *)
(** * Promises in the cluster

    A Promise is stored as an unstructured object.  The typed client encodes what it
    sends and decodes what it gets, spec and status each on its own. *)

From S2P Require Import Prelude GoLib Meta Api Kube Client Promise.

Class PromiseCodec := {
  encode_spec : PromiseSpec → UnstructuredSpec;
  decode_spec : UnstructuredSpec → error + PromiseSpec;
  encode_status : PromiseStatus → UnstructuredStatus;
  decode_status : UnstructuredStatus → error + PromiseStatus;
}.

Class PromiseCodecLaws `{PromiseCodec} : Prop := {
  decode_encode_spec : ∀ sp, decode_spec (encode_spec sp) = inr sp;
  decode_encode_status : ∀ st, decode_status (encode_status st) = inr st;
  (** A missing status is read as one. *)
  decode_no_status : ∃ st, decode_status None = inr st;
}.

Section codec.
Context `{PromiseCodec}.

Definition encode_promise (p : Promise) : Unstructured :=
  mkResource (r_meta p) (encode_spec (r_spec p)) (encode_status (r_status p)).

Definition decode_promise (u : Unstructured) : error + Promise :=
  match decode_spec (r_spec u), decode_status (r_status u) with
  | inl e, _ => inl e
  | _, inl e => inl e
  | inr sp, inr st => inr (mkResource (r_meta u) sp st)
  end.

Lemma decode_encode_promise `{!PromiseCodecLaws} p : decode_promise (encode_promise p) = inr p.
Proof.
unfold decode_promise, encode_promise. cbn. rewrite decode_encode_spec, decode_encode_status.
by destruct p.
Qed.

Lemma decode_promise_meta u p : decode_promise u = inr p → r_meta p = r_meta u.
Proof.
unfold decode_promise. destruct (decode_spec (r_spec u)), (decode_status (r_status u)); [done..|]. by intros [= <-].
Qed.

Lemma decode_promise_key u p : decode_promise u = inr p → key p = key u.
Proof. intros Hd. unfold key. by rewrite (decode_promise_meta _ _ Hd). Qed.

Lemma decode_status_updated `{!PromiseCodecLaws} u p0 p :
  decode_promise u = inr p0 →
  decode_promise (on_status_update u (encode_promise p)) = inr (set_status (r_status p) p0).
Proof.
unfold decode_promise. cbn. rewrite decode_encode_status.
destruct (decode_spec (r_spec u)), (decode_status (r_status u)); [done..|]. by intros [= <-].
Qed.

Lemma decode_updated `{!PromiseCodecLaws} gen u p0 p :
  decode_promise u = inr p0 →
  decode_promise (on_update gen u (encode_promise p)) = inr (on_update gen p0 p).
Proof.
unfold decode_promise. cbn. rewrite decode_encode_spec.
destruct (decode_spec (r_spec u)), (decode_status (r_status u)); [done..|]. by intros [= <-].
Qed.
End codec.

(** ** The typed client *)
Section client.
Context {S : Type} `{World S, PromiseCodec}.
#[local] Existing Instance promises_coll.

Definition GetPromise (k : Key) : M S Promise :=
  let! u := Get k in of_sum (decode_promise u).
Definition UpdatePromise (p : Promise) : M S Promise :=
  let! u := Update (encode_promise p) in of_sum (decode_promise u).
Definition StatusUpdatePromise (p : Promise) : M S Promise :=
  let! u := StatusUpdate (encode_promise p) in of_sum (decode_promise u).

(** A list fails when one of its items cannot be decoded. *)
Fixpoint decode_promises (us : list Unstructured) : error + list Promise :=
  match us with
  | [] => inr []
  | u :: us =>
      match decode_promise u, decode_promises us with
      | inl e, _ | _, inl e => inl e
      | inr p, inr ps => inr (p :: ps)
      end
  end.
Definition ListPromises (lo : ListOptions) : M S (list Promise) :=
  let! us := List lo in of_sum (decode_promises us).
Definition DeletePromise (p : Promise) : M S unit := Delete (encode_promise p).
Definition CreateOrUpdatePromise (p : Promise) (mutate : Promise → error + Promise)
    : M S (Promise * string) :=
  let! u := CreateOrUpdate (encode_promise p) (λ u,
    match decode_promise u with
    | inl e => inl e
    | inr existing => match mutate existing with inl e => inl e | inr p' => inr (encode_promise p') end
    end) in
  let! p' := of_sum (decode_promise u.1) in
  ret (p', u.2).
End client.

(** ** Proof rules *)

(** The Promises of a cluster as the typed client sees them. *)
Definition typed_promises `{PromiseCodec} (c : Cluster) : gmap Key Promise :=
  omap (λ u, match decode_promise u with inr p => Some p | inl _ => None end) (c_promises c).

(** A write to the collection of Promises, and to nothing else. *)
Definition only_promises (c c' : Cluster) : Prop :=
  c' = set_coll (Collection:=promises_coll) (c_promises c') c.

#[global] Instance only_promises_preorder : PreOrder only_promises.
Proof.
split; [by intros []|]. intros a b c Hab Hbc. unfold only_promises in *. rewrite Hbc, Hab. done.
Qed.

Section rules.
Context {S : Type} `{World S, Viewed S, !WorldLaws S, PromiseCodec, !PromiseCodecLaws}.
Implicit Types s : S.
#[local] Existing Instance promises_coll.

Lemma typed_lookup c k p :
  typed_promises c !! k = Some p ↔ ∃ u, c_promises c !! k = Some u ∧ decode_promise u = inr p.
Proof.
unfold typed_promises. rewrite lookup_omap_Some. split.
- intros (u & Hd & Hu). exists u. split; [done|]. by destruct (decode_promise u); simplify_eq.
- intros (u & Hu & Hd). exists u. by rewrite Hd.
Qed.

Lemma typed_insert k u p c :
  decode_promise u = inr p →
  typed_promises (set_coll (<[k := u]> (c_promises c)) c) = <[k := p]> (typed_promises c).
Proof.
intros Hd. unfold typed_promises. cbn. apply omap_insert_Some. by rewrite Hd.
Qed.

Lemma typed_put gen u p0 p c :
  decode_promise u = inr p0 →
  typed_promises (set_coll (put_or_reap (on_update gen u (encode_promise p)) (c_promises c)) c) =
  put_or_reap (on_update gen p0 p) (typed_promises c).
Proof.
intros Hd. pose proof (decode_updated gen u p0 p Hd) as Hu. unfold put_or_reap.
pose proof (decode_promise_meta _ _ Hu) as Hm.
assert (key (on_update gen u (encode_promise p)) = key (on_update gen p0 p)) as ->
  by (unfold key; by rewrite Hm).
unfold deleting, GetFinalizers. rewrite Hm. case_match.
- unfold typed_promises. cbn. apply omap_delete.
- by apply typed_insert.
Qed.

Lemma typed_missing k c : c_promises c !! k = None → typed_promises c !! k = None.
Proof. intros Hn. unfold typed_promises. by rewrite lookup_omap, Hn. Qed.

Lemma wp_GetPromise_missing k (Q : outcome Promise → S → Prop) s :
  (∀ p s', view s' = view s → typed_promises (view s) !! k = Some p → Q (Ok p) s') →
  (∀ e s', view s' = view s → (IsNotFound e = true → typed_promises (view s) !! k = None) →
     Q (Fail e) s') →
  wp (GetPromise k) Q s.
Proof.
intros HO HE. apply wp_bind, wp_Get.
- intros u s' Hv Hu. unfold of_sum. destruct (decode_promise u) as [e|p] eqn:Ed.
  + apply wp_fail, HE; [done|]. intros _. destruct (typed_promises (view s) !! k) eqn:Ht; [|done].
    apply typed_lookup in Ht as (u' & Hu' & Hd). change (c_promises (view s) !! k = Some u) in Hu.
    assert (u' = u) as -> by congruence. congruence.
  + apply wp_ret, HO; [done|]. apply typed_lookup. by exists u.
- intros e s' Hv Hn. apply HE; [done|]. intros Hnf. by apply typed_missing, Hn.
Qed.

Lemma wp_GetPromise k (Q : outcome Promise → S → Prop) s :
  (∀ p s', view s' = view s → typed_promises (view s) !! k = Some p → Q (Ok p) s') →
  (∀ e s', view s' = view s → Q (Fail e) s') →
  wp (GetPromise k) Q s.
Proof. intros HO HE. apply wp_GetPromise_missing; auto. Qed.

Lemma wp_UpdatePromise p p0 (Q : outcome Promise → S → Prop) s :
  typed_promises (view s) !! key p = Some p0 →
  (∀ gen s', only_promises (view s) (view s') →
     typed_promises (view s') = put_or_reap (on_update gen p0 p) (typed_promises (view s)) →
     Q (Ok (on_update gen p0 p)) s') →
  (∀ e s', view s' = view s → Q (Fail e) s') →
  wp (UpdatePromise p) Q s.
Proof.
intros (u & Hu & Hd)%typed_lookup HO HE. apply wp_bind, wp_Update; [|done].
intros old gen s' Hold Hv. change (c_promises (view s) !! key p = Some old) in Hold.
assert (old = u) as -> by congruence. unfold of_sum. rewrite (decode_updated gen u p0 p Hd).
apply wp_ret, HO; [by rewrite Hv|]. rewrite Hv. by apply typed_put.
Qed.

Lemma decode_promises_spec us ps :
  decode_promises us = inr ps → ∀ p, p ∈ ps ↔ ∃ u, u ∈ us ∧ decode_promise u = inr p.
Proof.
revert ps. induction us as [|u us IH]; cbn; intros ps.
- intros [= <-] p. split; [by intros ?%elem_of_nil|by intros (? & ?%elem_of_nil & _)].
- destruct (decode_promise u) as [|p0] eqn:Hd, (decode_promises us) as [|ps']; try done. intros [= <-] p.
  rewrite elem_of_cons, (IH _ eq_refl). setoid_rewrite elem_of_cons. split.
  + intros [->|(u' & ? & ?)]; eauto.
  + intros (u' & [->|?] & ?); [left; congruence|eauto].
Qed.

Lemma decode_promises_all us ps u :
  decode_promises us = inr ps → u ∈ us → ∃ p, p ∈ ps ∧ decode_promise u = inr p.
Proof.
revert ps. induction us as [|u0 us IH]; cbn; intros ps; [by intros _ ?%elem_of_nil|].
destruct (decode_promise u0) as [|p0] eqn:Hd, (decode_promises us) as [|ps']; try done.
intros [= <-] [->|Hu]%elem_of_cons; [exists p0; split; [left|done]|].
destruct (IH _ eq_refl Hu) as (p & Hp & Hdp). exists p. split; [by right|done].
Qed.

(** The Promises with these labels. *)
Lemma wp_ListPromises sel ls (Q : outcome (list Promise) → S → Prop) s :
  (∀ m, sel m = bool_decide (ls ⊆ m)) →
  (∀ ps us s', view s' = view s → decode_promises us = inr ps →
     (∀ u, u ∈ us ↔ ls ⊆ GetLabels u ∧ ∃ k, c_promises (view s) !! k = Some u) → Q (Ok ps) s') →
  (∀ e s', view s' = view s → Q (Fail e) s') →
  wp (ListPromises {| lo_namespace := ""; lo_selector := Some sel |}) Q s.
Proof.
intros Hsel HO HE. apply wp_bind, wp_List; [|done]. intros us s' Hv Hperm. unfold of_sum.
destruct (decode_promises us) as [e|ps] eqn:Hd; [by apply wp_fail, HE|]. apply wp_ret, (HO _ us); [done..|].
intros u. rewrite Hperm, list_elem_of_filter, elem_of_map_values.
unfold lo_match, GetLabels. cbn. rewrite Hsel, (bool_decide_true (_ = _)) by done. cbn. by rewrite bool_decide_eq_true.
Qed.

Lemma decode_created uid t gen p : ∃ st,
  decode_promise (on_create (H:=promises_coll) uid t gen (encode_promise p)) =
    inr (mkResource (om_set_system uid None t gen (r_meta p)) (r_spec p) st).
Proof.
destruct decode_no_status as [st Hst]. exists st. unfold decode_promise. cbn.
by rewrite decode_encode_spec, Hst.
Qed.

Lemma wp_StatusUpdatePromise p p0 (Q : outcome Promise → S → Prop) s :
  typed_promises (view s) !! key p = Some p0 →
  (∀ s', only_promises (view s) (view s') →
     typed_promises (view s') = <[key p := set_status (r_status p) p0]> (typed_promises (view s)) →
     Q (Ok (set_status (r_status p) p0)) s') →
  (∀ e s', view s' = view s → Q (Fail e) s') →
  wp (StatusUpdatePromise p) Q s.
Proof.
intros (u & Hu & Hd)%typed_lookup HO HE. apply wp_bind, wp_StatusUpdate; [|done].
intros old s' Hold Hv. change (c_promises (view s) !! key p = Some old) in Hold.
assert (old = u) as -> by congruence. unfold of_sum.
rewrite (decode_status_updated u p0 p Hd). apply wp_ret, HO; [by rewrite Hv|].
rewrite Hv. apply typed_insert. by apply decode_status_updated.
Qed.
End rules.
