(* ===== verification/SimPromise.v ===== *)
(** * A concrete encoding of Promises

    Values are written as JSON by composing encoders of their parts; the spec of a
    Promise is one JSON value, its status a map with a field per field.  The
    encoding satisfies [PromiseCodecLaws]. *)

From S2P Require Import Prelude GoLib Meta Api Kube Sim Promise PromiseStore.

(** ** Encoders with their inverses *)
Class Json (A : Type) := {
  to_json : A → JSON;
  of_json : JSON → option A;
  of_to_json : ∀ a, of_json (to_json a) = Some a;
}.

#[global] Instance Json_JSON : Json JSON.
Proof.
refine {| to_json j := j; of_json := Some; of_to_json := _ |}.
done.
Defined.
#[global] Instance Json_string : Json string.
Proof.
refine {| to_json := JStr; of_json j := match j with JStr s => Some s | _ => None end; of_to_json := _ |}.
done.
Defined.
#[global] Instance Json_Z : Json Z.
Proof.
refine {| to_json := JInt; of_json j := match j with JInt z => Some z | _ => None end; of_to_json := _ |}.
done.
Defined.
#[global] Instance Json_bool : Json bool.
Proof.
refine {| to_json := JBool; of_json j := match j with JBool b => Some b | _ => None end; of_to_json := _ |}.
done.
Defined.

Section combinators.
Context {A B : Type} `{Json A, Json B}.

#[global] Instance Json_pair : Json (A * B).
Proof.
refine {| to_json p := JArr [to_json p.1; to_json p.2];
     of_json j := match j with
                  | JArr [a; b] => a ← of_json a; b ← of_json b; Some (a, b)
                  | _ => None
                  end; of_to_json := _ |}.
intros [a b]. cbn. by rewrite !of_to_json.
Defined.

#[global] Instance Json_option : Json (option A).
Proof.
refine {| to_json o := JArr (match o with Some a => [to_json a] | None => [] end);
     of_json j := match j with
                  | JArr [] => Some None
                  | JArr [a] => Some <$> of_json a
                  | _ => None
                  end; of_to_json := _ |}.
intros [a|]; cbn; [|done]. by rewrite of_to_json.
Defined.

#[global] Instance Json_list : Json (list A).
Proof.
refine {| to_json l := JArr (to_json <$> l);
     of_json j := match j with JArr l => mapM of_json l | _ => None end; of_to_json := _ |}.
intros l. cbn. induction l as [|a l IH]; cbn; [done|]. by rewrite of_to_json, IH.
Defined.
End combinators.

#[global] Instance Json_map {A} `{Json A} : Json (gmap string A).
Proof.
refine {| to_json m := to_json (map_to_list m : list (string * A));
     of_json j := list_to_map <$> of_json (A:=list (string * A)) j; of_to_json := _ |}.
intros m. cbn -[to_json of_json]. rewrite of_to_json. cbn. by rewrite list_to_map_to_list.
Defined.

(** A type with the shape of another. *)
Definition json_via {A B} `{Json B} (f : A → B) (g : B → A) (Hgf : ∀ a, g (f a) = a) : Json A.
Proof.
refine {| to_json a := to_json (f a); of_json j := g <$> of_json (A:=B) j; of_to_json := _ |}.
intros a. cbn -[to_json of_json]. rewrite of_to_json. cbn. by rewrite Hgf.
Defined.

#[global] Instance Json_owner : Json OwnerReference :=
  json_via (λ o, (or_kind o, or_name o, or_controller o))
    (λ '(k, n, c), {| or_kind := k; or_name := n; or_controller := c |}) ltac:(by intros []).
#[global] Instance Json_meta : Json ObjectMeta :=
  json_via (λ m, (om_name m, om_namespace m, om_uid m, om_labels m, om_annotations m,
                  om_finalizers m, om_owners m, om_deletionTimestamp m, om_creationTimestamp m,
                  om_generation m))
    (λ '(n, ns, u, l, a, f, o, d, c, g),
       {| om_name := n; om_namespace := ns; om_uid := u; om_labels := l; om_annotations := a;
          om_finalizers := f; om_owners := o; om_deletionTimestamp := d;
          om_creationTimestamp := c; om_generation := g |}) ltac:(by intros []).
#[global] Instance Json_uspec : Json UnstructuredSpec :=
  json_via (λ u, (us_kind u, us_apiVersion u, us_spec u))
    (λ '(k, a, s), {| us_kind := k; us_apiVersion := a; us_spec := s |}) ltac:(by intros []).
#[global] Instance Json_ustatus : Json UnstructuredStatus := Json_option.
#[global] Instance Json_unstructured : Json Unstructured :=
  json_via (λ o : Unstructured, (r_meta o, r_spec o, r_status o : UnstructuredStatus))
    (λ '(m, s, t), mkResource m s t)
    ltac:(by intros []).
#[global] Instance Json_triggers : Json WorkflowTriggers :=
  json_via (λ t, (wt_configure t, wt_delete t))
    (λ '(c, d), {| wt_configure := c; wt_delete := d |}) ltac:(by intros []).
#[global] Instance Json_workflows : Json Workflows :=
  json_via (λ w, (wf_resource w, wf_promise w))
    (λ '(r, p), {| wf_resource := r; wf_promise := p |}) ltac:(by intros []).
#[global] Instance Json_required : Json RequiredPromise :=
  json_via (λ r, (rp_name r, rp_version r))
    (λ '(n, v), {| rp_name := n; rp_version := v |}) ltac:(by intros []).
#[global] Instance Json_scheduling : Json PromiseScheduling :=
  json_via ps_matchLabels (λ l, {| ps_matchLabels := l |}) ltac:(by intros []).
#[global] Instance Json_required_status : Json RequiredPromiseStatus :=
  json_via (λ r, (rps_name r, rps_version r, rps_state r))
    (λ '(n, v, s), {| rps_name := n; rps_version := v; rps_state := s |}) ltac:(by intros []).
#[global] Instance Json_required_by : Json RequiredBy :=
  json_via (λ r, (rb_promise r, rb_version r, rb_requiredVersion r))
    (λ '(p, v, r), {| rb_promise := p; rb_version := v; rb_requiredVersion := r |}) ltac:(by intros []).
#[global] Instance Json_condition : Json Condition.
Proof.
refine {| to_json := cond_to_json; of_json := json_to_cond; of_to_json := _ |}.
by intros [].
Defined.

(** ** The spec: kind and API version are those of the object *)
Definition spec_body (sp : PromiseSpec) :=
  (prs_api sp, prs_workflows sp, prs_requiredPromises sp, prs_dependencies sp,
   prs_destinationSelectors sp).

Definition sim_encode_spec (sp : PromiseSpec) : UnstructuredSpec :=
  {| us_kind := prs_kind sp; us_apiVersion := prs_apiVersion sp; us_spec := to_json (spec_body sp) |}.

Definition sim_decode_spec (u : UnstructuredSpec) : error + PromiseSpec :=
  match of_json (us_spec u) : option (option string * Workflows * list RequiredPromise * list JSON *
                                     list PromiseScheduling) with
  | Some (a, w, r, d, s) =>
      inr {| prs_kind := us_kind u; prs_apiVersion := us_apiVersion u; prs_api := a;
             prs_workflows := w; prs_requiredPromises := r; prs_dependencies := d;
             prs_destinationSelectors := s |}
  | None => inl (ErrorMsg "cannot decode the spec of the Promise")
  end.

(** ** The status: a missing field has its zero value *)
Definition field {A} `{Json A} (zero : A) (m : gmap string JSON) (k : string) : option A :=
  match m !! k with Some j => of_json j | None => Some zero end.

Definition sim_encode_status (st : PromiseStatus) : UnstructuredStatus :=
  Some {["conditions" := to_json (prst_conditions st); "version" := to_json (prst_version st);
         "observedGeneration" := to_json (prst_observedGeneration st); "kind" := to_json (prst_kind st);
         "apiVersion" := to_json (prst_apiVersion st); "status" := to_json (prst_status st);
         "workflows" := to_json (prst_workflows st);
         "workflowsSucceeded" := to_json (prst_workflowsSucceeded st);
         "workflowsFailed" := to_json (prst_workflowsFailed st);
         "requiredPromises" := to_json (prst_requiredPromises st);
         "requiredBy" := to_json (prst_requiredBy st);
         "lastAvailableTime" := to_json (prst_lastAvailableTime st)]}.

Definition sim_decode_fields (m : gmap string JSON) : option PromiseStatus :=
  c ← field [] m "conditions"; v ← field "" m "version"; g ← field 0%Z m "observedGeneration";
  k ← field "" m "kind"; a ← field "" m "apiVersion"; st ← field "" m "status";
  w ← field 0%Z m "workflows"; ws ← field 0%Z m "workflowsSucceeded"; wf ← field 0%Z m "workflowsFailed";
  rp ← field [] m "requiredPromises"; rb ← field [] m "requiredBy"; l ← field None m "lastAvailableTime";
  Some {| prst_conditions := c; prst_version := v; prst_observedGeneration := g; prst_kind := k;
          prst_apiVersion := a; prst_status := st; prst_workflows := w; prst_workflowsSucceeded := ws;
          prst_workflowsFailed := wf; prst_requiredPromises := rp; prst_requiredBy := rb;
          prst_lastAvailableTime := l |}.

Definition sim_decode_status (u : UnstructuredStatus) : error + PromiseStatus :=
  match sim_decode_fields (default ∅ u) with
  | Some st => inr st
  | None => inl (ErrorMsg "cannot decode the status of the Promise")
  end.

#[global] Instance Sim_PromiseCodec : PromiseCodec := {|
  encode_spec := sim_encode_spec; decode_spec := sim_decode_spec;
  encode_status := sim_encode_status; decode_status := sim_decode_status |}.

#[global] Instance Sim_PromiseCodecLaws : PromiseCodecLaws.
Proof.
split.
- intros []. unfold decode_spec, encode_spec. cbn -[to_json of_json].
  unfold sim_decode_spec. cbn -[to_json of_json]. by rewrite of_to_json.
- intros []. unfold decode_status, encode_status. cbn -[to_json of_json].
  unfold sim_decode_status, sim_decode_fields, field. cbn -[to_json of_json].
  repeat first
    [ rewrite lookup_insert_eq | rewrite lookup_insert_ne by done | rewrite lookup_singleton_eq
    | rewrite of_to_json; cbn -[to_json of_json] ].
  done.
- eexists. vm_compute. reflexivity.
Qed.
