(* ===== verification/PromiseFacts.v ===== *)
(** * Facts about Promises: selectors, the schema of requests, parsing pipelines *)

From S2P Require Import Prelude GoLib Meta Api Kube Client Shared ResourceUtil Promise.

(** ** Destination selectors *)

(** The two ways the repository folds a list of selectors into one label set. *)
Lemma squash_fold scheduling :
  SquashPromiseScheduling scheduling = foldr (λ s acc, ps_matchLabels s ∪ acc) ∅ scheduling.
Proof.
unfold SquashPromiseScheduling. induction scheduling as [|s l IH]; [done|].
cbn [rev foldr]. rewrite foldl_app_one, IH. apply assign_all_union.
Qed.

Section selectors.
Context `{Lib, !LibLaws}.

Lemma selectors_fold scheduling acc :
  foldl (λ acc s, labels_Merge (ps_matchLabels s) acc) acc scheduling =
  acc ∪ foldr (λ s acc, ps_matchLabels s ∪ acc) ∅ scheduling.
Proof.
revert acc. induction scheduling as [|s l IH]; intros acc; cbn; [by rewrite (right_id_L ∅ (∪))|].
by rewrite IH, merge_spec, (assoc_L (∪)).
Qed.

(** The scheduler and the Promise agree on destination selectors: squashing a
    list of selectors from the last to the first and merging it from the first to
    the last give the same label set, in which the first selector that mentions
    a label decides its value. *)
Theorem selectors_first_wins (scheduling : list PromiseScheduling) (k : string) :
  SquashPromiseScheduling scheduling = generateLabelSelectorsFromScheduling scheduling ∧
  SquashPromiseScheduling scheduling !! k = head (omap (λ s, ps_matchLabels s !! k) scheduling).
Proof.
split.
- unfold generateLabelSelectorsFromScheduling. by rewrite squash_fold, selectors_fold, (left_id_L ∅ (∪)).
- rewrite squash_fold. induction scheduling as [|s l IH]; cbn; [apply lookup_empty|].
  rewrite lookup_union, IH. by destruct (ps_matchLabels s !! k); [rewrite union_Some_l|rewrite (left_id_L None _)].
Qed.
End selectors.

(** ** The schema of resource requests *)
Definition props_of (s : JSONSchemaProps) : list (string * JSONSchemaProps) :=
  default [] (schema_properties s).
Definition property (k : string) (s : JSONSchemaProps) : option JSONSchemaProps :=
  prop_get k (props_of s).

Lemma prop_get_set k k' v ps :
  prop_get k (prop_set k' v ps) = if bool_decide (k = k') then Some v else prop_get k ps.
Proof.
induction ps as [|[k1 v1] ps IH]; cbn.
- by case_bool_decide; subst.
- destruct (decide (k' = k1)) as [->|Hne].
  + rewrite (bool_decide_true (k1 = k1)) by done. cbn. by case_bool_decide.
  + rewrite (bool_decide_false (k' = k1)) by done. cbn. rewrite IH.
    repeat case_bool_decide; congruence.
Qed.


(** ** Parsing pipelines *)
Section parse.
Context `{Lib, PromiseLib}.

(** One pipeline object. *)
Definition parse_one (p : Unstructured) : option Pipeline :=
  if bool_decide (us_kind (r_spec p) = "Pipeline") &&
     bool_decide (us_apiVersion (r_spec p) = "platform.kratix.io/v1alpha1")
  then match MarshalJSON p with
       | inr j => match decode_Pipeline j with inr pl => Some pl | inl _ => None end
       | inl _ => None
       end
  else None.

(** Pipelines are parsed all or none, in order: the result is the list of the
    decoded objects, of the same length, exactly when every object is a v1alpha1
    Pipeline that decodes; otherwise the call fails. *)
Theorem pipelines_parsed_in_order (objs : list Unstructured) :
  match PipelinesFromUnstructured objs with
  | inr pls => parse_one <$> objs = Some <$> pls
  | inl _ => Exists (λ o, parse_one o = None) objs
  end.
Proof.
induction objs as [|o objs IH]; [done|]. cbn [PipelinesFromUnstructured].
destruct (_ && _) eqn:Ek; [|left; unfold parse_one; by rewrite Ek].
destruct (MarshalJSON o) as [e|j] eqn:Ej; [left; unfold parse_one; by rewrite Ek, Ej|].
destruct (decode_Pipeline j) as [e|pl] eqn:Ed; [left; unfold parse_one; by rewrite Ek, Ej, Ed|].
assert (parse_one o = Some pl) as Hone by (unfold parse_one; by rewrite Ek, Ej, Ed).
destruct (PipelinesFromUnstructured objs) as [e|pls]; [by right|].
rewrite !fmap_cons, Hone. by rewrite IH.
Qed.
End parse.
