(* ===== verification/WorkCreator.v ===== *)
(** * The work creator: [work-creator/pipeline/work_creator.go]

    The program that runs in the last container of a pipeline.  It turns the files
    the pipeline wrote into the workload groups of a Work, one group per directory
    with destination selectors of its own and one for the rest. *)

From S2P Require Import Prelude GoLib Files Codec Meta Api Kube Client Shared ResourceUtil Promise.

(** [v1alpha1.WorkflowDestinationSelectors] *)
Record WorkflowDestinationSelectors := {
  wds_matchLabels : Labels;
  wds_directory : string;
}.

(** [yaml.Unmarshal] into the two kinds of selectors, and [%v] of a list of them. *)
Class WorkCreatorLib := {
  unmarshal_destination_selectors : string → error + list WorkflowDestinationSelectors;
  unmarshal_promise_scheduling : string → error + list WorkloadGroupScheduling;
  print_selectors : list WorkflowDestinationSelectors → string;
}.

(** ** Destination selectors *)

(** Assumes the directory has been cleaned. *)
Definition isRootDirectory (dir : string) : bool :=
  bool_decide (dir = DefaultWorkloadGroupDirectory).

Fixpoint containsDuplicateScheduling_from (directoriesSeen : list string)
    (schedulingConfig : list WorkflowDestinationSelectors) : bool :=
  match schedulingConfig with
  | [] => false
  | selector :: rest =>
      if bool_decide (wds_directory selector ∈ directoriesSeen) then true
      else containsDuplicateScheduling_from (directoriesSeen ++ [wds_directory selector]) rest
  end.

Definition containsDuplicateScheduling : list WorkflowDestinationSelectors → bool :=
  containsDuplicateScheduling_from [].

Fixpoint containsSubDirectory (schedulingConfig : list WorkflowDestinationSelectors)
    : option string :=
  match schedulingConfig with
  | [] => None
  | selector :: rest =>
      let directory := wds_directory selector in
      if bool_decide (Filepath.Base directory ≠ directory) then Some directory
      else containsSubDirectory rest
  end.

Definition clean_directory (s : WorkflowDestinationSelectors) : WorkflowDestinationSelectors :=
  {| wds_matchLabels := wds_matchLabels s; wds_directory := Filepath.Clean (wds_directory s) |}.

(** The first entry without selectors, by its index. *)
Definition entry_without_selectors (cfg : list WorkflowDestinationSelectors) : option nat :=
  fst <$> list_find (λ s, wds_matchLabels s = ∅) cfg.

Section selectors.
Context `{WorkCreatorLib}.

Definition ParseDestinationSelectors (bytes : string)
    : error + list WorkflowDestinationSelectors :=
  match unmarshal_destination_selectors bytes with
  | inl e => inl (ErrorWrap "invalid destination-selectors.yaml" e)
  | inr parsed =>
      let schedulingConfig := clean_directory <$> parsed in
      match entry_without_selectors schedulingConfig with
      | Some i => inl (ErrorMsg ("invalid destination-selectors.yaml: entry with index " +:+
                                 pretty i +:+ " has no selectors"))
      | None =>
          if containsDuplicateScheduling schedulingConfig
          then inl (ErrorMsg ("duplicate entries in destination-selectors.yaml: " +:+
                              print_selectors schedulingConfig))
          else
            match containsSubDirectory schedulingConfig with
            | Some path => inl (ErrorMsg ("invalid directory in destination-selectors.yaml: " +:+
                                 path +:+ ", sub-directories are not allowed"))
            | None => inr schedulingConfig
            end
      end
  end.

Definition getWorkflowScheduling (fs : Entry) (rootDirectory : string)
    : error + list WorkflowDestinationSelectors :=
  let destinationFile := Filepath.Join [rootDirectory; "metadata"; "destination-selectors.yaml"] in
  match ReadFile fs destinationFile with
  | inl e => if IsNotExist e then inr [] else inl e
  | inr fileContents => ParseDestinationSelectors fileContents
  end.

Definition getPromiseScheduling (fs : Entry) (rootDirectory : string)
    : error + list WorkloadGroupScheduling :=
  let kratixSystemDirectory := Filepath.Join [rootDirectory; "kratix-system"] in
  let file := Filepath.Join [kratixSystemDirectory; "promise-scheduling"] in
  match ReadFile fs file with
  | inl e => if IsNotExist e then inr [] else inl e
  | inr fileContents => unmarshal_promise_scheduling fileContents
  end.
End selectors.

(** ** Workloads *)

(** The results of a loop that appends, up to the first error. *)
Section gather.
Context {A B : Type} (f : A → error + list B).
Fixpoint gather (l : list A) : error + list B :=
  match l with
  | [] => inr []
  | a :: l' =>
      match f a with
      | inl e => inl e
      | inr bs => match gather l' with inl e => inl e | inr bs' => inr (bs ++ bs') end
      end
  end.
End gather.

Section workloads.
Context `{Codec}.

Definition file_workload (prefixToTrimFromWorkloadFilepath filePath : string) (file : Entry)
    : error + list Workload :=
  match read_entry file with
  | inl e => inl e
  | inr byteValue =>
      match Filepath.Rel prefixToTrimFromWorkloadFilepath filePath with
      | inl e => inl e
      | inr path => inr [{| wl_filepath := path; wl_content := CompressContent byteValue |}]
      end
  end.

(** The body of [getWorkloadsFromDir], on the directory its path names; an entry of
    the directory is what the path joined with its name would open. *)
Fixpoint workloads_in (prefix rootDir : string) (ignore : list string) (dir : Entry)
    : error + list Workload :=
  match dir with
  | File _ => inl errNotDir
  | Unreadable _ e => inl e
  | Dir filesAndDirs =>
      gather (λ info,
        match info with
        | (name, entry) =>
            if IsDir entry then
              if bool_decide (name ∈ ignore) then inr []
              else workloads_in prefix (Filepath.Join [rootDir; name]) [] entry
            else file_workload prefix (Filepath.Join [rootDir; name]) entry
        end) filesAndDirs
  end.

Definition getWorkloadsFromDir (fs : Entry) (prefixToTrimFromWorkloadFilepath rootDir : string)
    (directoriesToIgnoreAtTheRootLevel : list string) : error + list Workload :=
  match lookup_file fs rootDir with
  | inl e => inl e
  | inr dir => workloads_in prefixToTrimFromWorkloadFilepath rootDir
                 directoriesToIgnoreAtTheRootLevel dir
  end.

(** The same loop where an iteration may not have ended ([None]). *)
Fixpoint gather_some {A B} (f : A → option (error + list B)) (l : list A) : option (error + list B) :=
  match l with
  | [] => Some (inr [])
  | a :: l' =>
      match f a with
      | None => None
      | Some (inl e) => Some (inl e)
      | Some (inr bs) =>
          match gather_some f l' with
          | Some (inr bs') => Some (inr (bs ++ bs'))
          | r => r
          end
      end
  end.

(** [getWorkloadsFromDir] as it is written, going from path to path, for at most [fuel]
    nested calls. *)
Fixpoint walkWorkloads (fuel : nat) (fs : Entry) (prefixToTrimFromWorkloadFilepath rootDir : string)
    (directoriesToIgnoreAtTheRootLevel : list string) : option (error + list Workload) :=
  match fuel with
  | 0 => None
  | S fuel =>
      match ReadDir fs rootDir with
      | inl e => Some (inl e)
      | inr filesAndDirs =>
          gather_some (λ info,
            if IsDir info.2 then
              if bool_decide (info.1 ∈ directoriesToIgnoreAtTheRootLevel) then Some (inr [])
              else walkWorkloads fuel fs prefixToTrimFromWorkloadFilepath
                     (Filepath.Join [rootDir; info.1]) []
            else
              let filePath := Filepath.Join [rootDir; info.1] in
              Some match ReadFile fs filePath with
                   | inl e => inl e
                   | inr byteValue =>
                       match Filepath.Rel prefixToTrimFromWorkloadFilepath filePath with
                       | inl e => inl e
                       | inr path => inr [{| wl_filepath := path; wl_content := CompressContent byteValue |}]
                       end
                   end) filesAndDirs
      end
  end.
End workloads.

(** ** The Work *)
Section execute.
Context {S : Type} `{World S, Lib, Codec, WorkCreatorLib}.

Definition workflow_selector (workflowType : string) (matchLabels : Labels)
    : WorkloadGroupScheduling :=
  {| wgs_matchLabels := matchLabels; wgs_source := workflowType +:+ "-" +:+ "workflow" |}.

(** The loop over the selectors of the workflow: the groups of their directories,
    the directories to leave out of the default group, and the selectors of the
    default group. *)
Record SelectorLoop := {
  sl_groups : list WorkloadGroup;
  sl_ignored : list string;
  sl_default : option Labels;
}.

Fixpoint selector_loop (fs : Entry) (pipelineOutputDir workflowType : string)
    (selectors : list WorkflowDestinationSelectors) (acc : SelectorLoop) : error + SelectorLoop :=
  match selectors with
  | [] => inr acc
  | selector :: rest =>
      let directory := wds_directory selector in
      if negb (isRootDirectory directory) then
        match getWorkloadsFromDir fs pipelineOutputDir
                (Filepath.Join [pipelineOutputDir; directory]) [] with
        | inl e => inl e
        | inr workloads =>
            selector_loop fs pipelineOutputDir workflowType rest {|
              sl_groups := sl_groups acc ++ [{|
                wg_workloads := workloads;
                wg_directory := directory;
                wg_id := md5_hex directory;
                wg_destinationSelectors :=
                  [workflow_selector workflowType (wds_matchLabels selector)] |}];
              sl_ignored := sl_ignored acc ++ [directory];
              sl_default := sl_default acc |}
        end
      else
        selector_loop fs pipelineOutputDir workflowType rest {|
          sl_groups := sl_groups acc; sl_ignored := sl_ignored acc;
          sl_default := Some (wds_matchLabels selector) |}
  end.

(** The selectors of the Promise and of its workflow, squashed by source. *)
Definition scheduling_of_source (source : string) (selectors : list WorkloadGroupScheduling)
    : list PromiseScheduling :=
  (λ s, {| ps_matchLabels := wgs_matchLabels s |}) <$>
    filter (λ s, wgs_source s = source) selectors.

Definition squashed (source : string) (selectors : list WorkloadGroupScheduling)
    : list WorkloadGroupScheduling :=
  match scheduling_of_source source selectors with
  | [] => []
  | p => [{| wgs_matchLabels := SquashPromiseScheduling p; wgs_source := source |}]
  end.

Definition default_group (workflowType : string) (workloads : list Workload)
    (defaultDestinationSelectors : option Labels)
    (destinationSelectors : list WorkloadGroupScheduling) : WorkloadGroup := {|
  wg_workloads := workloads;
  wg_directory := DefaultWorkloadGroupDirectory;
  wg_id := ComputeHash DefaultWorkloadGroupDirectory;
  wg_destinationSelectors :=
    match defaultDestinationSelectors with
    | Some ls => [workflow_selector workflowType ls]
    | None => []
    end ++ squashed "promise-workflow" destinationSelectors
        ++ squashed "promise" destinationSelectors |}.

(** Everything up to the Work: the workload groups of the output. *)
Definition workload_groups (fs : Entry) (rootDirectory workflowType : string)
    : error + list WorkloadGroup :=
  match getWorkflowScheduling fs rootDirectory with
  | inl e => inl e
  | inr workflowScheduling =>
      let pipelineOutputDir := Filepath.Join [rootDirectory; "input"] in
      match selector_loop fs pipelineOutputDir workflowType workflowScheduling
              {| sl_groups := []; sl_ignored := []; sl_default := None |} with
      | inl e => inl e
      | inr loop =>
          match getWorkloadsFromDir fs pipelineOutputDir pipelineOutputDir (sl_ignored loop) with
          | inl e => inl e
          | inr workloads =>
              if bool_decide (0 < length workloads) then
                match getPromiseScheduling fs rootDirectory with
                | inl e => inl e
                | inr destinationSelectors =>
                    inr (sl_groups loop ++
                         [default_group workflowType workloads (sl_default loop)
                            destinationSelectors])
                end
              else inr (sl_groups loop)
          end
      end
  end.

Definition is_resource_workflow (workflowType : string) : bool :=
  Strings.HasPrefix workflowType WorkflowTypeResource.

Definition work_labels (promiseName resourceName pipelineName workflowType : string) : Labels :=
  labels_Merge
    (if is_resource_workflow workflowType then ∅ else GenerateSharedLabelsForPromise promiseName)
    (GetWorkLabels promiseName resourceName pipelineName workflowType).

Definition Execute (fs : Entry)
    (rootDirectory promiseName namespace resourceName workflowType pipelineName : string)
    : M S unit :=
  let identifier :=
    if is_resource_workflow workflowType
    then promiseName +:+ "-" +:+ resourceName +:+ "-" +:+ pipelineName
    else promiseName +:+ "-" +:+ pipelineName in
  let namespace := if bool_decide (namespace = "") then "kratix-platform-system" else namespace in
  let! workloadGroups := of_sum (workload_groups fs rootDirectory workflowType) in
  let! name := GenerateObjectName identifier in
  let spec := {| ws_workloadGroups := workloadGroups; ws_promiseName := promiseName;
                 ws_resourceName := resourceName |} in
  let workNamespace := if is_resource_workflow workflowType then namespace else SystemNamespace in
  let ls := work_labels promiseName resourceName pipelineName workflowType in
  let work : Work := mkResource (om_set_labels ls (new_meta workNamespace name)) spec zero_status in
  let! currentWork := GetWork namespace (GetLabels work) in
  match currentWork with
  | None => Create work ;;; ret tt
  | Some current => Update (set_spec spec current) ;;; ret tt
  end.
End execute.
