(* ===== verification/StatusUpdater.v ===== *)
(** * The status updater: [work-creator/pipeline/lib/status_updater.go] and its command

    The container that runs after the last step of a pipeline: it merges the status
    the pipeline wrote to a file into the status of the object, and marks the
    workflow as completed after its last pipeline. *)

From S2P Require Import Prelude GoLib Files Meta Api Kube Client Shared ResourceUtil.

Definition PipelinesExecutedSuccessfully := "PipelinesExecutedSuccessfully".

(** [helpers.Parameters], and reading it from the environment; an unset variable
    reads as the empty string. *)
Record Parameters := {
  p_objectGroup : string;
  p_objectName : string;
  p_objectVersion : string;
  p_objectNamespace : string;
  p_promiseName : string;
  p_crdPlural : string;
  p_clusterScoped : bool;
  p_isLastPipeline : bool;
  p_inputDir : string;
  p_outputDir : string;
}.

Definition or_default (value default : string) : string :=
  if bool_decide (value = "") then default else value.

Definition getParametersFromEnv (Getenv : string → string) : Parameters :=
  let clusterScoped := bool_decide (Getenv "KRATIX_CLUSTER_SCOPED" = "true") in
  {| p_objectGroup := Getenv "KRATIX_OBJECT_GROUP";
     p_objectVersion := Getenv "KRATIX_OBJECT_VERSION";
     p_objectName := Getenv "KRATIX_OBJECT_NAME";
     p_objectNamespace :=
       if clusterScoped then "" else or_default (Getenv "KRATIX_OBJECT_NAMESPACE") "default";
     p_crdPlural := Getenv "KRATIX_CRD_PLURAL";
     p_clusterScoped := clusterScoped;
     p_promiseName := Getenv "KRATIX_PROMISE_NAME";
     p_isLastPipeline := bool_decide (Getenv "IS_LAST_PIPELINE" = "true");
     p_inputDir := or_default (Getenv "INPUT_DIR") "/kratix/input";
     p_outputDir := or_default (Getenv "OUTPUT_DIR") "/kratix/output" |}.

Definition GetPromisePath (p : Parameters) : string := Filepath.Join [p_inputDir p; "promise.yaml"].
Definition GetObjectPath (p : Parameters) : string := Filepath.Join [p_inputDir p; "object.yaml"].

(** [yaml.Unmarshal] of a status, and the JSON form of a time. *)
Class StatusLib := {
  unmarshal_status : string → error + gmap string JSON;
  marshal_time : Z → string;
}.

(** [m[key]] of a JSON object. *)
Definition json_field (key : string) (fields : list (string * JSON)) : option JSON :=
  snd <$> (snd <$> list_find (λ kv, kv.1 = key) fields).

(** [condMap["type"].(string)], when the condition is a map. *)
Definition condition_type (cond : JSON) : option string :=
  match cond with
  | JObj fields => match json_field "type" fields with Some (JStr t) => Some t | _ => None end
  | _ => None
  end.

Definition add_conditions (merged : gmap string JSON) (conds : list JSON) : gmap string JSON :=
  foldl (λ merged cond,
    match condition_type cond with Some t => <[t := cond]> merged | None => merged end) merged conds.

Section updater.
Context {S : Type} `{World S, StatusLib}.

Definition mergeConditions (existing incoming : list JSON) : M S (list JSON) :=
  let merged := add_conditions (add_conditions ∅ existing) incoming in
  let! items := Range merged in
  ret items.*2.

Definition merge_field (result : gmap string JSON) (kv : string * JSON) : M S (gmap string JSON) :=
  let '(k, v) := kv in
  if bool_decide (k = "conditions") then
    match result !! k, v with
    | Some (JArr existingConditions), JArr incomingConditions =>
        let! conds := mergeConditions existingConditions incomingConditions in
        ret (<[k := JArr conds]> result)
    | _, _ => ret (<[k := v]> result)
    end
  else ret (<[k := v]> result).

Definition mergeRecursive (existing incoming : gmap string JSON) : M S (gmap string JSON) :=
  let! order := Range incoming in
  foldM merge_field order existing.

Definition MergeStatuses (existing incoming : gmap string JSON) : M S (gmap string JSON) :=
  mergeRecursive existing incoming.

Definition condition_json (c : Condition) : JSON :=
  JObj [("lastTransitionTime", JStr (marshal_time (cond_lastTransitionTime c)));
        ("message", JStr (cond_message c)); ("reason", JStr (cond_reason c));
        ("status", JStr (cond_status c)); ("type", JStr (cond_type c))].

(** The first condition of the type is replaced, or the new one appended. *)
Fixpoint replace_first (t : string) (new : JSON) (conditions : list JSON) : option (list JSON) :=
  match conditions with
  | [] => None
  | cond :: rest =>
      if bool_decide (condition_type cond = Some t) then Some (new :: rest)
      else cons cond <$> replace_first t new rest
  end.

Definition updateConditions (conditions : list JSON) (newCondition : Condition) : list JSON :=
  let newCondMap := condition_json newCondition in
  match replace_first (cond_type newCondition) newCondMap conditions with
  | Some conditions' => conditions'
  | None => conditions ++ [newCondMap]
  end.

Definition conditions_of (status : gmap string JSON) : list JSON :=
  match status !! "conditions" with Some (JArr l) => l | _ => [] end.

Definition MarkAsCompleted (status : gmap string JSON) : M S (gmap string JSON) :=
  let status := match status !! "message" with
                | Some (JStr currentMessage) =>
                    if bool_decide (currentMessage = "Pending")
                    then <["message" := JStr "Resource requested"]> status else status
                | _ => status
                end in
  let! newCondition := stamped ConfigureWorkflowCompletedCondition ConditionTrue
                         PipelinesExecutedSuccessfully "Pipelines completed" in
  ret (<["conditions" := JArr (updateConditions (conditions_of status) newCondition)]> status).

(** ** The command [update-status] *)
Definition wrapped {A} (msg : string) (m : M S A) : M S A :=
  let! r := try m in
  match r with inl e => fail (ErrorWrap msg e) | inr a => ret a end.

Definition readStatusFile (fs : Entry) (statusFile : string) : error + gmap string JSON :=
  match lookup_file fs statusFile with
  | inl _ => inr ∅
  | inr e =>
      match read_entry e with
      | inl err => inl (ErrorWrap "failed to read status file" err)
      | inr bytes =>
          match unmarshal_status bytes with
          | inl err => inl (ErrorWrap "failed to unmarshal incoming status" err)
          | inr incoming => inr incoming
          end
      end
  end.

(** [PC] is the kind of the object, a resource request or a Promise. *)
Definition run {PC : Collection UnstructuredSpec UnstructuredStatus} (fs : Entry)
    (params : Parameters) : M S unit :=
  let workspaceDir := "/work-creator-files" in
  let statusFile := Filepath.Join [workspaceDir; "metadata"; "status.yaml"] in
  let! existingObj := wrapped "failed to get existing object"
    (Get (Sp:=UnstructuredSpec) (St:=UnstructuredStatus)
       (p_objectNamespace params, p_objectName params)) in
  let existingStatus := default ∅ (r_status existingObj) in
  let! incomingStatus := wrapped "failed to load incoming status"
    (of_sum (readStatusFile fs statusFile)) in
  let! mergedStatus := MergeStatuses existingStatus incomingStatus in
  let! mergedStatus := if p_isLastPipeline params then MarkAsCompleted mergedStatus
                       else ret mergedStatus in
  wrapped "failed to update status" (StatusUpdate (set_status (Some mergedStatus) existingObj)) ;;;
  ret tt.
End updater.
