(* ===== verification/PipelineFactory.v ===== *)
(** * From pipelines to Kubernetes objects: [api/v1alpha1/pipeline_factory.go]

    Builds the job of a pipeline, its service account, config map and RBAC
    objects, and generates them for all pipelines of a Promise. *)

From S2P Require Import Prelude GoLib Meta Api Kube Client Shared ResourceUtil Promise.

(** ** Operator configuration: environment variables and package variables *)
Class Config := {
  PIPELINE_ADAPTER_IMG : string;
  PIPELINE_ADAPTER_PULL_SECRET : string;
  DefaultUserProvidedContainersSecurityContext : option SecurityContext;
  DefaultImagePullPolicy : string;
  DefaultJobBackoffLimit : option Z;
}.

Definition kratixSecurityContext : SecurityContext := {|
  sc_allowPrivilegeEscalation := Some false; sc_capabilitiesDrop := ["ALL"];
  sc_runAsNonRoot := Some true; sc_seccompProfile := "RuntimeDefault";
  sc_privileged := Some false; sc_other := "" |}.

Definition rbacGroup := "rbac.authorization.k8s.io".
Definition platformGroup := "platform.kratix.io".
Definition PromisePlural := "promises".
Definition ClusterScopedScope := "Cluster".

(** ** The factory *)
Record PipelineFactory := {
  pf_id : string;
  pf_promise : Promise;
  pf_pipeline : Pipeline;
  pf_namespace : string;
  pf_resourceRequest : option Unstructured;
  pf_resourceWorkflow : bool;
  pf_workflowAction : string;
  pf_workflowType : string;
  pf_clusterScoped : bool;
  pf_crdPlural : string;
}.

Section factory.
Context `{Lib, PromiseLib, Config}.

Definition ForPromise (p : Pipeline) (promise : Promise) (action : string) : PipelineFactory := {|
  pf_id := GetName promise +:+ "-promise-" +:+ action +:+ "-" +:+ pl_name p;
  pf_promise := promise; pf_pipeline := p; pf_namespace := SystemNamespace;
  pf_resourceRequest := None; pf_resourceWorkflow := false;
  pf_workflowAction := action; pf_workflowType := WorkflowTypePromise;
  pf_clusterScoped := true; pf_crdPlural := "promises" |}.

Definition ForResource (p : Pipeline) (promise : Promise) (action : string) (rr : Unstructured)
    : outcome PipelineFactory :=
  let build plural scoped := Ok {|
    pf_id := GetName promise +:+ "-resource-" +:+ action +:+ "-" +:+ pl_name p;
    pf_promise := promise; pf_pipeline := p; pf_namespace := GetNamespace rr;
    pf_resourceRequest := Some rr; pf_resourceWorkflow := true;
    pf_workflowAction := action; pf_workflowType := WorkflowTypeResource;
    pf_clusterScoped := scoped; pf_crdPlural := plural |} in
  match GetAPI promise with
  | Ok (_, crd) => build (crd_plural (r_spec crd)) (bool_decide (crd_scope (r_spec crd) = ClusterScopedScope))
  | Fail _ => build "" false
  | Panicked => Panicked
  end.

(** The name of the resource request; only read for resource workflows. *)
Definition rr_name_or_panic (f : PipelineFactory) : outcome string :=
  match pf_resourceRequest f with Some rr => Ok (GetName rr) | None => Panicked end.

Definition serviceAccount (f : PipelineFactory) : ServiceAccount :=
  let sa := rbac_serviceAccount (pls_rbac (pl_spec (pf_pipeline f))) in
  let name := if bool_decide (sa ≠ "") then sa else pf_id f in
  mkResource (om_set_labels (promiseNameLabel (GetName (pf_promise f)))
                (new_meta (pf_namespace f) name)) SASpec tt.

Definition configMap (f : PipelineFactory) (scheduling : list WorkloadGroupScheduling)
    : outcome (option ConfigMap) :=
  if bool_decide (pf_workflowAction f ≠ WorkflowActionConfigure) then Ok None
  else
    let cmName := "destination-selectors-" +:+ GetName (pf_promise f) in
    let name :=
      if bool_decide (pf_workflowType f ≠ WorkflowTypePromise ∧
                      pf_workflowType f ≠ WorkflowTypeResource)
      then GenerateDeterministicObjectName (cmName +:+ "-" +:+ pf_workflowType f)
      else Ok cmName in
    match name, yaml_scheduling scheduling with
    | Ok n, inr y =>
        Ok (Some (mkResource (om_set_labels (promiseNameLabel (GetName (pf_promise f)))
                                (new_meta (pf_namespace f) n))
                    {| cm_data := <["destinationSelectors" := y]> ∅ |} tt))
    | Ok _, inl e => Fail (ErrorWrap "error marshalling destinationSelectors to yaml" e)
    | Fail e, _ => Fail e
    | Panicked, _ => Panicked
    end.

(** The config map is nil exactly for a delete action, where it is not read. *)
Definition defaultVolumes (f : PipelineFactory) (cm : option ConfigMap) : list Volume :=
  if bool_decide (pf_workflowAction f ≠ WorkflowActionConfigure) then []
  else [{| vol_name := "promise-scheduling";
           vol_source := VolConfigMap (match cm with Some c => GetName c | None => "" end)
                           [("destinationSelectors", "promise-scheduling")] |}].

Definition defaultPipelineVolumes : list Volume * list VolumeMount :=
  ([{| vol_name := "shared-input"; vol_source := VolEmptyDir |};
    {| vol_name := "shared-output"; vol_source := VolEmptyDir |};
    {| vol_name := "shared-metadata"; vol_source := VolEmptyDir |}],
   [{| vm_mountPath := "/kratix/input"; vm_name := "shared-input"; vm_readOnly := true |};
    {| vm_mountPath := "/kratix/output"; vm_name := "shared-output"; vm_readOnly := false |};
    {| vm_mountPath := "/kratix/metadata"; vm_name := "shared-metadata"; vm_readOnly := false |}]).

Definition show_bool (b : bool) : string := if b then "true" else "false".

(** Group, name, version, namespace and kind of the object the workflow is for. *)
Definition workflow_object (f : PipelineFactory) : string * string * string * string * string :=
  match pf_resourceWorkflow f, pf_resourceRequest f with
  | true, Some rr =>
      let '(g, v) := ParseGroupVersion (us_apiVersion (r_spec rr)) in
      (g, GetName rr, v, GetNamespace rr, us_kind (r_spec rr))
  | _, _ =>
      let '(g, v) := ParseGroupVersion (prs_apiVersion (r_spec (pf_promise f))) in
      (g, GetName (pf_promise f), v, "", prs_kind (r_spec (pf_promise f)))
  end.

Definition env (n v : string) : EnvVar := {| env_name := n; env_value := v |}.

Definition defaultEnvVars (f : PipelineFactory) : list EnvVar :=
  let '(g, n, v, ns, k) := workflow_object f in
  [ env "KRATIX_WORKFLOW_ACTION" (pf_workflowAction f);
    env "KRATIX_WORKFLOW_TYPE" (pf_workflowType f);
    env "KRATIX_PROMISE_NAME" (GetName (pf_promise f));
    env "KRATIX_PIPELINE_NAME" (pl_name (pf_pipeline f));
    env "KRATIX_OBJECT_KIND" k; env "KRATIX_OBJECT_GROUP" g; env "KRATIX_OBJECT_VERSION" v;
    env "KRATIX_OBJECT_NAME" n; env "KRATIX_OBJECT_NAMESPACE" ns;
    env "KRATIX_CRD_PLURAL" (pf_crdPlural f);
    env "KRATIX_CLUSTER_SCOPED" (show_bool (pf_clusterScoped f)) ].

Definition mount (path name : string) : VolumeMount :=
  {| vm_mountPath := path; vm_name := name; vm_readOnly := false |}.

Definition readerContainer (f : PipelineFactory) : PodContainer := {|
  pc_name := "reader"; pc_image := PIPELINE_ADAPTER_IMG; pc_command := ["sh"; "-c"; "reader"];
  pc_args := []; pc_env := defaultEnvVars f; pc_envFrom := [];
  pc_volumeMounts := [mount "/kratix/input" "shared-input"; mount "/kratix/output" "shared-output"];
  pc_imagePullPolicy := DefaultImagePullPolicy; pc_securityContext := Some kratixSecurityContext |}.

Definition workCreatorContainer (f : PipelineFactory) : PodContainer :=
  let args := ["-input-directory"; "/work-creator-files"; "-promise-name"; GetName (pf_promise f);
               "-pipeline-name"; pl_name (pf_pipeline f); "-namespace"; pf_namespace f;
               "-workflow-type"; pf_workflowType f] in
  let args := match pf_resourceWorkflow f, pf_resourceRequest f with
              | true, Some rr => args ++ ["-resource-name"; GetName rr]
              | _, _ => args
              end in
  {| pc_name := "work-writer"; pc_image := PIPELINE_ADAPTER_IMG;
     pc_command := ["sh"; "-c"; "work-creator " +:+ Strings.Join args " "];
     pc_args := []; pc_env := []; pc_envFrom := [];
     pc_volumeMounts := [mount "/work-creator-files/input" "shared-output";
                         mount "/work-creator-files/metadata" "shared-metadata";
                         mount "/work-creator-files/kratix-system" "promise-scheduling"];
     pc_imagePullPolicy := DefaultImagePullPolicy;
     pc_securityContext := Some kratixSecurityContext |}.

Definition pipelineContainer (f : PipelineFactory) (c : Container) : PodContainer := {|
  pc_name := ct_name c; pc_image := ct_image c; pc_command := ct_command c; pc_args := ct_args c;
  pc_env := defaultEnvVars f ++ ct_env c; pc_envFrom := ct_envFrom c;
  pc_volumeMounts := defaultPipelineVolumes.2 ++ ct_volumeMounts c;
  pc_imagePullPolicy := if bool_decide (ct_imagePullPolicy c = "") then DefaultImagePullPolicy
                        else ct_imagePullPolicy c;
  pc_securityContext := match ct_securityContext c with
                        | None => DefaultUserProvidedContainersSecurityContext
                        | sc => sc
                        end |}.

Definition pipelineContainers (f : PipelineFactory) : list PodContainer * list Volume :=
  (pipelineContainer f <$> pls_containers (pl_spec (pf_pipeline f)),
   defaultPipelineVolumes.1 ++ pls_volumes (pl_spec (pf_pipeline f))).

Definition statusWriterContainer (f : PipelineFactory) (obj : Unstructured) (jobEnv : list EnvVar)
    : PodContainer :=
  let '(g, v) := ParseGroupVersion (us_apiVersion (r_spec obj)) in
  {| pc_name := "status-writer"; pc_image := PIPELINE_ADAPTER_IMG;
     pc_command := ["sh"; "-c"; "update-status"]; pc_args := [];
     pc_env := jobEnv ++
       [ env "KRATIX_OBJECT_KIND" (Strings.ToLower (us_kind (r_spec obj)));
         env "KRATIX_OBJECT_GROUP" g; env "KRATIX_OBJECT_VERSION" v;
         env "KRATIX_OBJECT_NAME" (GetName obj); env "KRATIX_OBJECT_NAMESPACE" (pf_namespace f);
         env "KRATIX_CRD_PLURAL" (pf_crdPlural f);
         env "KRATIX_CLUSTER_SCOPED" (show_bool (pf_clusterScoped f)) ];
     pc_envFrom := []; pc_volumeMounts := [mount "/work-creator-files/metadata" "shared-metadata"];
     pc_imagePullPolicy := DefaultImagePullPolicy;
     pc_securityContext := Some kratixSecurityContext |}.

(** ** The job *)

Definition pipelineJobLabels (f : PipelineFactory) (requestSHA : string) : Labels :=
  let ls := labels_Merge (promiseNameLabel (GetName (pf_promise f)))
              (workflowLabels (pf_workflowType f) (pf_workflowAction f) (pl_name (pf_pipeline f))) in
  let ls := labels_Merge ls managedByKratixLabel in
  let ls := match pf_resourceWorkflow f, pf_resourceRequest f with
            | true, Some rr => labels_Merge ls (resourceNameLabel (GetName rr))
            | _, _ => ls
            end in
  let ls := if bool_decide (requestSHA ≠ "")
            then <[KratixResourceHashLabel := requestSHA]> ls else ls in
  labels_Merge ls (om_labels (pl_meta (pf_pipeline f))).

Definition getObjAndHash (f : PipelineFactory) : outcome (Unstructured * string) :=
  match ToUnstructured (pf_promise f) with
  | inl e => Fail e
  | inr uPromise =>
      match ComputeHashForResource uPromise with
      | inl e => Fail e
      | inr promiseHash =>
          if negb (pf_resourceWorkflow f) then Ok (uPromise, promiseHash)
          else
            match pf_resourceRequest f with
            | None => Panicked
            | Some rr =>
                match ComputeHashForResource rr with
                | inl e => Fail e
                | inr resourceHash =>
                    Ok (rr, ComputeHash (promiseHash +:+ "-" +:+ resourceHash))
                end
            end
      end
  end.

(** The init containers and containers of the pod; a delete pipeline without
    containers panics. *)
Definition job_containers (f : PipelineFactory) (obj : Unstructured) (jobEnv : list EnvVar)
    : outcome (list PodContainer * list PodContainer) :=
  let pcs := (pipelineContainers f).1 in
  if bool_decide (pf_workflowAction f = WorkflowActionConfigure) then
    Ok ([readerContainer f] ++ pcs ++ [workCreatorContainer f],
        [statusWriterContainer f obj jobEnv])
  else if bool_decide (pf_workflowAction f = WorkflowActionDelete) then
    match last pcs with
    | None => Panicked
    | Some c => Ok ([readerContainer f] ++ removelast pcs, [c])
    end
  else Ok ([readerContainer f], []).

(** ** RBAC *)

Definition userPermissionPipelineLabels (f : PipelineFactory) : Labels :=
  UserPermissionPipelineResourcesLabels (GetName (pf_promise f)) (pl_name (pf_pipeline f))
    (pf_namespace f) (pf_workflowType f) (pf_workflowAction f).

Definition permissions (f : PipelineFactory) : list Permission :=
  rbac_permissions (pls_rbac (pl_spec (pf_pipeline f))).

(** The rules the user wants in the pipeline's own namespace. *)
Definition namespaced_rules (f : PipelineFactory) : list PolicyRule :=
  perm_rule <$> filter (λ r, perm_resourceNamespace r = "") (permissions f).

Definition role (f : PipelineFactory) : outcome (list Role) :=
  let workflow_role :=
    if pf_resourceWorkflow f then
      match GetAPI (pf_promise f) with
      | Ok (_, crd) =>
          Ok [mkResource (om_set_labels (promiseNameLabel (GetName (pf_promise f)))
                            (new_meta (pf_namespace f) (pf_id f)))
                {| role_rules :=
                     [ {| rule_apiGroups := [crd_group (r_spec crd)];
                          rule_resources := [pf_crdPlural f; pf_crdPlural f +:+ "/status"];
                          rule_verbs := ["get"; "list"; "update"; "create"; "patch"];
                          rule_resourceNames := [] |};
                       {| rule_apiGroups := [platformGroup]; rule_resources := ["works"];
                          rule_verbs := ["*"]; rule_resourceNames := [] |} ] |} tt]
      | Fail e => Fail e
      | Panicked => Panicked
      end
    else Ok [] in
  match workflow_role with
  | Ok roles =>
      if hasUserPermissions (pf_pipeline f) && bool_decide (0 < length (namespaced_rules f)) then
        match GenerateDeterministicObjectName (pf_id f) with
        | Ok name =>
            Ok (roles ++ [mkResource (om_set_labels (userPermissionPipelineLabels f)
                                        (new_meta (pf_namespace f) name))
                            {| role_rules := namespaced_rules f |} tt])
        | Fail e => Fail e
        | Panicked => Panicked
        end
      else Ok roles
  | r => r
  end.

Definition sa_subject (sa : ServiceAccount) : Subject :=
  {| sub_kind := "ServiceAccount"; sub_name := GetName sa; sub_namespace := GetNamespace sa |}.

Definition role_binding (f : PipelineFactory) (sa : ServiceAccount) (r : Role) : RoleBinding :=
  mkResource (om_set_labels (GetLabels r) (new_meta (pf_namespace f) (GetName r)))
    {| rb_roleRef := {| rr_apiGroup := rbacGroup; rr_kind := "Role"; rr_name := GetName r |};
       rb_subjects := [sa_subject sa] |} tt.

(** The name of the bindings to a cluster role. *)
Definition user_binding_name (f : PipelineFactory) (sa : ServiceAccount) : outcome string :=
  GenerateDeterministicObjectName (pf_id f +:+ "-" +:+ GetNamespace sa).

(** A sequence of steps that may panic. *)
Fixpoint collect {A B} (g : A → outcome (option B)) (l : list A) : outcome (list B) :=
  match l with
  | [] => Ok []
  | a :: l' =>
      match g a with
      | Ok b =>
          match collect g l' with
          | Ok bs => Ok (match b with Some b => b :: bs | None => bs end)
          | r => r
          end
      | Fail e => Fail e
      | Panicked => Panicked
      end
  end.

Definition roleBindings (f : PipelineFactory) (roles : list Role) (clusterRoles : list ClusterRole)
    (sa : ServiceAccount) : outcome (list RoleBinding) :=
  let scoped := collect (λ cr : ClusterRole,
    match GetLabels cr !! UserPermissionResourceNamespaceLabel with
    | Some ns =>
        if bool_decide (ns ≠ userPermissionResourceNamespaceLabelAll) then
          match user_binding_name f sa with
          | Ok name =>
              Ok (Some (mkResource (om_set_labels (GetLabels cr) (new_meta ns name))
                          {| rb_roleRef := {| rr_apiGroup := rbacGroup; rr_kind := "ClusterRole";
                                              rr_name := GetName cr |};
                             rb_subjects := [sa_subject sa] |} tt))
          | Fail e => Fail e
          | Panicked => Panicked
          end
        else Ok None
    | None => Ok None
    end) clusterRoles in
  match scoped with
  | Ok bs => Ok ((role_binding f sa <$> roles) ++ bs)
  | r => r
  end.

(** The rules the user wants elsewhere, by namespace. *)
Definition namespaceRulesMap (f : PipelineFactory) : gmap string (list PolicyRule) :=
  foldl (λ m r,
      if bool_decide (perm_resourceNamespace r ≠ "")
      then <[perm_resourceNamespace r :=
               default [] (m !! perm_resourceNamespace r) ++ [perm_rule r]]> m
      else m) ∅ (permissions f).

Definition user_cluster_role (f : PipelineFactory) (nr : string * list PolicyRule)
    : outcome (option ClusterRole) :=
  let '(namespace, rules) := nr in
  let all := bool_decide (namespace = "*") in
  let suffix := if all then "kratix-all-namespaces" else namespace in
  match GenerateDeterministicObjectName (pf_id f +:+ "-" +:+ suffix) with
  | Ok name =>
      Ok (Some (mkResource
        (om_set_labels
           (<[UserPermissionResourceNamespaceLabel :=
                if all then userPermissionResourceNamespaceLabelAll else namespace]>
              (userPermissionPipelineLabels f)) (new_meta "" name))
        {| crole_rules := rules |} tt))
  | Fail e => Fail e
  | Panicked => Panicked
  end.

Definition promise_cluster_role (f : PipelineFactory) : ClusterRole :=
  mkResource (om_set_labels (promiseNameLabel (GetName (pf_promise f))) (new_meta "" (pf_id f)))
    {| crole_rules :=
         [{| rule_apiGroups := [platformGroup];
             rule_resources := [PromisePlural; PromisePlural +:+ "/status"; "works"];
             rule_verbs := ["get"; "list"; "update"; "create"; "patch"];
             rule_resourceNames := [] |}] |} tt.

Definition clusterRoleBinding (f : PipelineFactory) (clusterRoles : list ClusterRole)
    (sa : ServiceAccount) : outcome (list ClusterRoleBinding) :=
  let binding name labels (cr : ClusterRole) : ClusterRoleBinding :=
    mkResource (om_set_labels labels (new_meta "" name))
      {| crb_roleRef := {| rr_apiGroup := rbacGroup; rr_kind := "ClusterRole";
                           rr_name := GetName cr |};
         crb_subjects := [sa_subject sa] |} tt in
  collect (λ cr : ClusterRole,
    match GetLabels cr !! UserPermissionResourceNamespaceLabel with
    | None => Ok (Some (binding (GetName cr) (promiseNameLabel (GetName (pf_promise f))) cr))
    | Some ns =>
        if bool_decide (ns = userPermissionResourceNamespaceLabelAll) then
          match user_binding_name f sa with
          | Ok name => Ok (Some (binding name (userPermissionPipelineLabels f) cr))
          | Fail e => Fail e
          | Panicked => Panicked
          end
        else Ok None
    end) clusterRoles.
End factory.

(** ** Effects: the random suffix of the job and the order of the namespaces *)
Section resources.
Context {S : Type} `{World S, Lib, PromiseLib, Config}.

Definition pipelineJobName (f : PipelineFactory) : M S string :=
  let name := "kratix-" +:+ GetName (pf_promise f) in
  let! name := if pf_resourceWorkflow f
               then let! rr := lift (rr_name_or_panic f) in ret (name +:+ "-" +:+ rr)
               else ret name in
  GenerateObjectName (name +:+ "-" +:+ pl_name (pf_pipeline f)).

Definition clusterRole (f : PipelineFactory) : M S (list ClusterRole) :=
  let base := if pf_resourceWorkflow f then [] else [promise_cluster_role f] in
  if hasUserPermissions (pf_pipeline f) then
    let! order := Range (namespaceRulesMap f) in
    let! crs := lift (collect (user_cluster_role f) order) in
    ret (base ++ crs)
  else ret base.

Definition pipelineJob (f : PipelineFactory) (cm : option ConfigMap) (sa : ServiceAccount)
    (jobEnv : list EnvVar) : M S Job :=
  let! oh := lift (getObjAndHash f) in
  let '(obj, objHash) := oh in
  let spec := pl_spec (pf_pipeline f) in
  let secrets := (if bool_decide (PIPELINE_ADAPTER_PULL_SECRET ≠ "")
                  then [PIPELINE_ADAPTER_PULL_SECRET] else []) ++ pls_imagePullSecrets spec in
  let volumes := defaultVolumes f cm ++ (pipelineContainers f).2 in
  let backoffLimit := match jo_backoffLimit (pls_jobOptions spec) with
                      | None => DefaultJobBackoffLimit
                      | b => b
                      end in
  let! cs := lift (job_containers f obj jobEnv) in
  let! name := pipelineJobName f in
  let ls := pipelineJobLabels f objHash in
  let job : Job := mkResource
    (om_set_labels ls (new_meta (pf_namespace f) name))
    {| jsp_suspend := None; jsp_backoffLimit := backoffLimit;
       jsp_template := {| pt_labels := ls; pt_annotations := om_annotations (pl_meta (pf_pipeline f));
         pt_spec := {| pod_restartPolicy := "OnFailure"; pod_serviceAccountName := GetName sa;
                       pod_containers := cs.2; pod_imagePullSecrets := secrets;
                       pod_initContainers := cs.1; pod_volumes := volumes;
                       pod_nodeSelector := pls_nodeSelector spec;
                       pod_tolerations := pls_tolerations spec |} |} |} empty_job_status in
  let! m := of_sum (SetControllerReference (us_kind (r_spec obj)) (r_meta obj) (r_meta job)) in
  ret (set_meta m job).

Definition Resources (f : PipelineFactory) (jobEnv : list EnvVar) : M S PipelineJobResources :=
  let! cm := lift (configMap f (Promise_GetWorkloadGroupScheduling (pf_promise f))) in
  let sa := serviceAccount f in
  let! job := pipelineJob f cm sa jobEnv in
  let! clusterRoles := clusterRole f in
  let! crbs := lift (clusterRoleBinding f clusterRoles sa) in
  let! roles := lift (role f) in
  let! rbs := lift (roleBindings f roles clusterRoles sa) in
  ret {| pjr_name := pl_name (pf_pipeline f); pjr_pipelineID := pf_id f; pjr_job := job;
         pjr_workflowType := pf_workflowType f; pjr_workflowAction := pf_workflowAction f;
         pjr_shared := {| sh_serviceAccount := Some sa; sh_configMap := cm; sh_roles := roles;
                          sh_roleBindings := rbs; sh_clusterRoles := clusterRoles;
                          sh_clusterRoleBindings := crbs |} |}.

(** ** All pipelines of a Promise *)

Definition unstructuredMap (p : Promise) : gmap string (gmap string (list Unstructured)) :=
  let w := prs_workflows (r_spec p) in
  <[WorkflowTypeResource := <[WorkflowActionConfigure := wt_configure (wf_resource w)]>
                              (<[WorkflowActionDelete := wt_delete (wf_resource w)]> ∅)]>
    (<[WorkflowTypePromise := <[WorkflowActionConfigure := wt_configure (wf_promise w)]>
                                (<[WorkflowActionDelete := wt_delete (wf_promise w)]> ∅)]> ∅).

(** One action of one workflow type. *)
Definition parse_action (typ : string) (acc : gmap string (list Pipeline))
    (au : string * list Unstructured) : M S (gmap string (list Pipeline)) :=
  match PipelinesFromUnstructured au.2 with
  | inl e => fail (ErrorWrap ("failed parsing " +:+ typ +:+ "." +:+ au.1 +:+ " pipeline") e)
  | inr ps => ret (<[au.1 := ps]> acc)
  end.

Definition parse_type (acc : gmap string (gmap string (list Pipeline)))
    (ta : string * gmap string (list Unstructured)) : M S (gmap string (gmap string (list Pipeline))) :=
  let! order := Range ta.2 in
  let! m := foldM (parse_action ta.1) order ∅ in
  ret (<[ta.1 := m]> acc).

Definition NewPipelinesMap (p : Promise) : M S (gmap string (gmap string (list Pipeline))) :=
  let! order := Range (unstructuredMap p) in
  foldM parse_type order ∅.

(** The loop over the pipelines, with the index of the last one. *)
Fixpoint generate_from (p : Promise) (workflowType workflowAction : string)
    (rr : option Unstructured) (pipelines : list Pipeline) : M S (list PipelineJobResources) :=
  match pipelines with
  | [] => ret []
  | pipe :: rest =>
      let isLast := bool_decide (rest = []) in
      let jobEnv := [env "IS_LAST_PIPELINE" (show_bool isLast)] in
      let! f :=
        if bool_decide (workflowType = WorkflowTypeResource) then
          match rr with
          | Some rr => lift (ForResource pipe p workflowAction rr)
          | None => panic
          end
        else ret (ForPromise pipe p workflowAction) in
      let! r := Resources f jobEnv in
      let! rs := generate_from p workflowType workflowAction rr rest in
      ret (r :: rs)
  end.

Definition generatePipelinesObjects (p : Promise) (workflowType workflowAction : string)
    (rr : option Unstructured) : M S (list PipelineJobResources) :=
  let! pm := NewPipelinesMap p in
  let pipelines := default [] (default ∅ (pm !! workflowType) !! workflowAction) in
  generate_from p workflowType workflowAction rr pipelines.

Definition GeneratePromisePipelines (p : Promise) (action : string) : M S (list PipelineJobResources) :=
  generatePipelinesObjects p WorkflowTypePromise action None.

Definition GenerateResourcePipelines (p : Promise) (action : string) (rr : Unstructured)
    : M S (list PipelineJobResources) :=
  generatePipelinesObjects p WorkflowTypeResource action (Some rr).
End resources.
