(* ===== verification/Purge.v ===== *)
(** * Deleting a selection of the objects of a collection

    The loop that several controllers run: look at some stored objects and
    request the deletion of those that satisfy a predicate. *)

From S2P Require Import Prelude GoLib Meta Api Kube Client Shared.

(** The keys of a list of stored objects are distinct. *)
Lemma NoDup_keys {Sp St} (m : gmap Key (Resource Sp St)) (P : Resource Sp St → Prop)
    `{∀ o, Decision (P o)} l :
  keyed m → l ≡ₚ filter P (map_values m) → NoDup (key <$> l).
Proof.
intros Hk ->. unfold map_values.
assert (∀ ps, NoDup ps.*1 → (∀ k o, (k, o) ∈ ps → key o = k) →
  NoDup (key <$> filter P ps.*2)) as Hgen.
{ induction ps as [|[k o] ps IH]; simpl; [constructor|].
  intros [Hni Hnd]%NoDup_cons Hps. rewrite filter_cons.
  specialize (IH Hnd ltac:(intros; apply Hps; by right)).
  case_decide; [|done]. simpl. constructor; [|done].
  rewrite (Hps k o) by (by left).
  rewrite list_elem_of_fmap. intros (o' & Hk' & [_ Ho']%list_elem_of_filter).
  apply list_elem_of_fmap in Ho' as ([k2 o2] & -> & Hin2). simpl in Hk'.
  apply Hni. rewrite Hk', (Hps k2 o2) by (by right).
  apply list_elem_of_fmap. by exists (k2, o2). }
apply Hgen; [apply NoDup_fst_map_to_list|].
intros k o. rewrite elem_of_map_to_list. apply Hk.
Qed.

Section purge.
Context {Sp St : Type}.
Implicit Types (m : gmap Key (Resource Sp St)) (o p : Resource Sp St).

(** A delete request was accepted for [o]: it is gone, or marked. *)
Definition delete_requested o (r : option (Resource Sp St)) : Prop :=
  (GetFinalizers o = [] ∧ r = None) ∨ ∃ t, r = Some (mark_deleting t o).

Lemma on_delete_requested t p m :
  delete_requested p (on_delete t (key p) p m !! key p) ∧
  ∀ k, k ≠ key p → on_delete t (key p) p m !! k = m !! k.
Proof.
unfold on_delete, delete_requested. case_bool_decide.
- rewrite lookup_delete_eq. split; [by left|]. intros k Hk. by rewrite lookup_delete_ne.
- rewrite lookup_insert_eq. split; [eauto|]. intros k Hk. by rewrite lookup_insert_ne.
Qed.

Context (P : Resource Sp St → Prop) `{∀ o, Decision (P o)}.

(** After the objects [done] were looked at. *)
Record cleaned m0 (done : list (Resource Sp St)) m : Prop := {
  cl_outside : ∀ k, k ∉ key <$> done → m !! k = m0 !! k;
  cl_selected : ∀ p, p ∈ done → P p → delete_requested p (m !! key p);
  cl_kept : ∀ p, p ∈ done → ¬ P p → m !! key p = Some p;
}.

Lemma cleaned_nil m0 : cleaned m0 [] m0.
Proof. split; set_solver. Qed.

Lemma cleaned_snoc m0 done m p m' :
  key p ∉ key <$> done → cleaned m0 done m →
  (∀ k, k ≠ key p → m' !! k = m !! k) →
  (P p → delete_requested p (m' !! key p)) →
  (¬ P p → m' !! key p = Some p) →
  cleaned m0 (done ++ [p]) m'.
Proof.
intros Hnew [Ho Hd Hkp] Hm Hd' Hk'.
assert (∀ q, q ∈ done → key q ≠ key p) as Hne
  by (intros q Hq Heq; apply Hnew; rewrite <-Heq; by apply list_elem_of_fmap_2).
split.
- intros k. rewrite fmap_app, not_elem_of_app. simpl. intros [Hk1 Hk2].
  rewrite Hm by set_solver. auto.
- intros q [Hq| ->%list_elem_of_singleton]%elem_of_app Hdq; [rewrite Hm by auto|]; auto.
- intros q [Hq| ->%list_elem_of_singleton]%elem_of_app Hdq; [rewrite Hm by auto|]; auto.
Qed.

Lemma cleaned_dom m0 done m :
  (∀ p, p ∈ done → m0 !! key p = Some p) → cleaned m0 done m → dom m ⊆ dom m0.
Proof.
intros Hin [Ho _ _] k Hdk. destruct (decide (k ∈ key <$> done)) as [Hka|Hka].
- apply list_elem_of_fmap in Hka as (p & -> & Hp'%Hin). by apply elem_of_dom_2 in Hp'.
- apply elem_of_dom. rewrite <-Ho by done. by apply elem_of_dom.
Qed.

(** Looking a stored object up after a partial clean-up. *)
Lemma cleaned_lookup m0 done m k p :
  keyed m0 → (∀ p, p ∈ done → m0 !! key p = Some p) → cleaned m0 done m →
  m0 !! k = Some p →
  (p ∈ done ∧ P p ∧ delete_requested p (m !! k)) ∨
  ((p ∉ done ∨ ¬ P p) ∧ m !! k = Some p).
Proof.
intros Hk Hin [Ho Hd Hkp] Hp'. pose proof (Hk _ _ Hp') as <-.
destruct (decide (key p ∈ key <$> done)) as [Ha|Ha].
- apply list_elem_of_fmap in Ha as (p' & Heq & Ha). apply Hin in Ha as Hp''.
  rewrite <-Heq in Hp''. simplify_eq. destruct (decide (P p)); [left|right]; auto.
- right. split; [|by rewrite Ho]. left. intros Hd'. by apply Ha, list_elem_of_fmap_2.
Qed.

Section loop.
Context {S : Type} `{World S, Viewed S, !WorldLaws S} `{!Collection Sp St}.
Implicit Types s : S.

(** The objects of the kind are now [m]; nothing else changed. *)
Definition becomes m s s' : Prop := view s' = set_coll m (view s).

Lemma becomes_coll m s s' : becomes m s s' → coll (view s') = m.
Proof. unfold becomes. intros ->. apply coll_set. Qed.

Lemma becomes_refl s s' : view s' = view s → becomes (coll (view s)) s s'.
Proof. unfold becomes. intros ->. by rewrite set_coll_coll. Qed.

Lemma becomes_trans m m' s s' s'' : becomes m s s' → becomes m' s' s'' → becomes m' s s''.
Proof. unfold becomes. intros E1 E2. by rewrite E2, E1, set_coll_set. Qed.

Lemma becomes_view m s s' s'' : becomes m s s' → view s'' = view s' → becomes m s s''.
Proof. unfold becomes. by intros <-. Qed.

(** One round of the loop, whatever the body does with errors. *)
Lemma wp_purge_step m0 done m p todo (Q : outcome unit → S → Prop) s s1 :
  NoDup (key <$> done ++ p :: todo) → m0 !! key p = Some p → P p →
  becomes m s s1 → cleaned m0 done m →
  (∀ m' s', becomes m' s s' → cleaned m0 (done ++ [p]) m' → Q (Ok tt) s') →
  (∀ e s', IsNotFound e = false → becomes m s s' → Q (Fail e) s') →
  wp (Delete p) Q s1.
Proof.
intros Hnd Hp HP Hb Hcl HO HE.
rewrite fmap_app, NoDup_app in Hnd. destruct Hnd as (_ & Hdisj & _).
assert (key p ∉ key <$> done) as Hnew by (intros ?%Hdisj; set_solver).
assert (m !! key p = Some p) as Hmp by (by rewrite (cl_outside _ _ _ Hcl)).
pose proof (becomes_coll _ _ _ Hb) as Hm. apply wp_Delete.
- intros old t s2 Hold Hv2. rewrite Hm in Hold, Hv2. assert (old = p) as -> by congruence.
  destruct (on_delete_requested t p m) as [Hreq Hoth].
  apply (HO (on_delete t (key p) p m)); [by eapply becomes_trans|]. by eapply cleaned_snoc.
- intros e s2 Hv2 Hnf. apply HE; [|by eapply becomes_view].
  destruct (IsNotFound e); [|done]. rewrite Hm in Hnf. by rewrite Hnf in Hmp.
Qed.
End loop.
End purge.

(** ** [deleteAllResourcesWithKindMatchingLabel] *)
Section delete_all.
Context {S : Type} `{World S, Viewed S, !WorldLaws S, Lib, !LibLaws}.
Context {Sp St : Type} `{Collection Sp St}.
Implicit Types s : S.

Definition carries (ls : Labels) (o : Resource Sp St) : Prop := ls ⊆ GetLabels o.
#[global] Instance carries_dec ls o : Decision (carries ls o).
Proof. unfold carries. apply _. Defined.

(** What became of each object [o] stored at [k]. *)
Definition purged (ls : Labels) (m0 m : gmap Key (Resource Sp St)) : Prop :=
  dom m ⊆ dom m0 ∧
  ∀ k o, m0 !! k = Some o →
    (carries ls o → delete_requested o (m !! k)) ∧ (¬ carries ls o → m !! k = Some o).

Definition partly_purged (ls : Labels) (m0 m : gmap Key (Resource Sp St)) : Prop :=
  dom m ⊆ dom m0 ∧
  ∀ k o, m0 !! k = Some o →
    m !! k = Some o ∨ (carries ls o ∧ delete_requested o (m !! k)).

Lemma key_mark_deleting t (o : Resource Sp St) : key (mark_deleting t o) = key o.
Proof. unfold mark_deleting. by destruct (deleting o). Qed.

Lemma purged_keyed ls m0 m : keyed m0 → purged ls m0 m → keyed m.
Proof.
intros Hk [Hdom Hp] k o Ho.
destruct (m0 !! k) as [o0|] eqn:E0; [|apply not_elem_of_dom in E0; apply elem_of_dom_2, Hdom in Ho; done].
destruct (Hp k o0 E0) as [Hc Hn]. rewrite Ho in Hc, Hn. rewrite <-(Hk k o0 E0).
destruct (decide (carries ls o0)) as [C|C]; [|by specialize (Hn C) as [= ->]].
destruct (Hc C) as [[_ ?]|[t [= ->]]]; [done|]. apply key_mark_deleting.
Qed.

Lemma wp_deleteAllResources ls (Q : outcome bool → S → Prop) s :
  keyed (coll (Spec:=Sp) (Status:=St) (view s)) →
  (∀ s', view s' = view s →
     (∀ k (o : Resource Sp St), coll (view s) !! k = Some o → ¬ carries ls o) → Q (Ok false) s') →
  (∀ m s', becomes m s s' → purged ls (coll (view s)) m → Q (Ok true) s') →
  (∀ e m s', becomes m s s' → partly_purged ls (coll (view s)) m → Q (Fail e) s') →
  wp (deleteAllResourcesWithKindMatchingLabel Sp St ls) Q s.
Proof.
intros Hk HF HT HE. set (m0 := coll (view s)) in *.
apply wp_bind, wp_List.
2:{ intros e s1 Hv. apply (HE e m0); [by apply becomes_refl|]. split; [done|]. by left. }
intros items s1 Hv1 Hitems.
assert (items ≡ₚ filter (carries ls) (map_values m0)) as Hit.
{ rewrite Hitems. apply Permutation_refl', list_filter_iff. intros o.
  unfold lo_match. simpl. rewrite selector_from_set, bool_decide_eq_true. done. }
assert (∀ p, p ∈ items ↔ m0 !! key p = Some p ∧ carries ls p) as Hin.
{ intros p. rewrite Hit, list_elem_of_filter, elem_of_map_values. split.
  - intros [Hc [k Hp]]. by rewrite (Hk _ _ Hp).
  - intros [Hp Hc]. eauto. }
pose proof (NoDup_keys _ _ _ Hk Hit) as Hnd.
assert (∀ p, p ∈ items → m0 !! key p = Some p) as Hst by (intros p Hp; by apply Hin).
assert (∀ k o, m0 !! k = Some o → carries ls o → o ∈ items) as Hcar
  by (intros k o Ho Hc; apply Hin; by rewrite (Hk _ _ Ho)).
clear Hitems Hit. destruct items as [|o items].
{ apply wp_ret, HF; [done|]. intros k o Ho Hc. by apply Hcar in Ho; [apply elem_of_nil in Ho|]. }
apply wp_bind.
apply (wp_foldM _ (λ done _ _ s', ∃ m, becomes m s s' ∧ cleaned (carries ls) m0 done m)).
- exists m0. split; [by apply becomes_refl|apply cleaned_nil].
- intros done p todo _ s2 Hl (m & Hb & Hcl). apply wp_bind, wp_try. rewrite Hl in *.
  eapply (wp_purge_step _ m0); [exact Hnd|by apply Hst; set_solver|by apply Hin; set_solver
    |done|done| |].
  + intros m' s3 Hb' Hcl'. apply wp_ret. by exists m'.
  + intros e s3 -> Hb3. apply wp_fail, (HE e m); [done|].
    assert (∀ q, q ∈ done → m0 !! key q = Some q) as Hst' by (intros; apply Hst; set_solver).
    split; [by eapply cleaned_dom|]. intros k q Hq.
    destruct (cleaned_lookup _ _ _ _ _ _ Hk Hst' Hcl Hq) as [(_ & ? & ?)|[_ ?]]; auto.
- intros [] s2 (m & Hb & Hcl). apply wp_ret, (HT m); [done|].
  split; [by eapply cleaned_dom|]. intros k q Hq.
  destruct (cleaned_lookup _ _ _ _ _ _ Hk Hst Hcl Hq) as [(_ & ? & ?)|[[?|?] ?]]; [tauto|..].
  + split; [|done]. intros Hc. by apply Hcar in Hq.
  + tauto.
Qed.

(** Twice, for two sets of labels; the second run looks at what the first left. *)
Lemma wp_deleteTwice {B} ls ls' (k : bool → bool → M S B) (Q : outcome B → S → Prop) s :
  keyed (coll (Spec:=Sp) (Status:=St) (view s)) →
  (∀ b b' m s', becomes m s s' →
     (b = false → ∀ k (o : Resource Sp St), coll (view s) !! k = Some o → ¬ carries ls o) →
     (b' = false → ∀ k (o : Resource Sp St), coll (view s') !! k = Some o → ¬ carries ls' o) →
     wp (k b b') Q s') →
  (∀ e (m : gmap Key (Resource Sp St)) s', becomes m s s' → Q (Fail e) s') →
  wp (let! b := deleteAllResourcesWithKindMatchingLabel Sp St ls in
      let! b' := deleteAllResourcesWithKindMatchingLabel Sp St ls' in k b b') Q s.
Proof.
intros Hk HO HE. apply wp_bind, wp_deleteAllResources; [done|..].
- intros s1 Hv1 Hno. apply wp_bind, wp_deleteAllResources; [by rewrite Hv1|..].
  + intros s2 Hv2 Hno'. apply (HO false false (coll (view s))).
    * apply becomes_refl. congruence.
    * done.
    * by rewrite Hv2.
  + intros m s2 Hb _. apply (HO false true m); [unfold becomes; by rewrite <-Hv1|done|done].
  + intros e m s2 Hb _. apply (HE e m). unfold becomes. by rewrite <-Hv1.
- intros m s1 Hb Hpur. assert (coll (view s1) = m) as Hm by by eapply becomes_coll.
  apply wp_bind, wp_deleteAllResources.
  + rewrite Hm. by eapply purged_keyed.
  + intros s2 Hv2 Hno. apply (HO true false m); [by eapply becomes_view|done|]. by rewrite Hv2.
  + intros m' s2 Hb' _. by apply (HO true true m'); [eapply becomes_trans|..].
  + intros e m' s2 Hb' _. apply (HE e m'). by eapply becomes_trans.
- intros e m s1 Hb _. by apply (HE e m).
Qed.
End delete_all.
