(* ===== verification/ResourceFacts.v ===== *)
(** * Facts about status fields, conditions and generated names

    What [SetStatus] and the Mark functions write, what the getters read back,
    and the shape of the names [objectutil] generates. *)

From S2P Require Import Prelude GoLib Meta Api Kube Client Shared ResourceUtil.
From Stdlib Require Import Ascii.

(** ** Status fields *)

(** The variadic argument for a list of pairs. *)
Definition pairs (kvs : list (string * JSON)) : list JSON :=
  kvs ≫= λ kv, [JStr kv.1; kv.2].

Lemma length_pairs kvs : length (pairs kvs) = 2 * length kvs.
Proof. unfold pairs. induction kvs as [|kv kvs IH]; [done|]. cbn in *. rewrite IH. lia. Qed.

Lemma assign_pairs_fold kvs m :
  assign_pairs (pairs kvs) m = foldl (λ m kv, <[kv.1 := kv.2]> m) m kvs.
Proof. revert m. induction kvs as [|[k v] kvs IH]; intros m; [done|]. apply IH. Qed.

Lemma foldl_insert_lookup (kvs : list (string * JSON)) (m : gmap string JSON) k :
  foldl (λ m kv, <[kv.1 := kv.2]> m) m kvs !! k =
  match last (filter (λ kv, kv.1 = k) kvs) with Some kv => Some kv.2 | None => m !! k end.
Proof.
induction kvs as [|[k' v] kvs IH] using rev_ind; [done|].
rewrite foldl_snoc, filter_app, filter_cons, filter_nil. cbn [fst snd].
destruct (decide (k' = k)) as [->|Hne].
- by rewrite last_snoc, lookup_insert_eq.
- by rewrite app_nil_r, lookup_insert_ne.
Qed.

Lemma SetStatus_pairs rr kvs :
  kvs ≠ [] →
  SetStatus rr (pairs kvs) =
  set_status (Some (foldl (λ m kv, <[kv.1 := kv.2]> m) (default ∅ (r_status rr)) kvs)) rr.
Proof.
intros Hne. unfold SetStatus. rewrite length_pairs, Nat.even_mul, assign_pairs_fold; cbn [Nat.even orb].
rewrite bool_decide_false by (destruct kvs; cbn; [done|lia]).
rewrite bool_decide_false; [done|]. intros Hsz%map_size_empty_inv.
destruct kvs as [|[k v] kvs _] using rev_ind; [done|].
rewrite foldl_snoc in Hsz. by apply insert_non_empty in Hsz.
Qed.

(** What [SetStatus] writes is what the getters read: after a call with a
    list of key/value pairs, a field has the last value given for it and every
    other field is as before; metadata and spec do not change.  An argument list
    of odd length changes nothing. *)
Theorem set_status_fields (rr : Unstructured) (kvs : list (string * JSON)) (k : string) :
  let rr' := SetStatus rr (pairs kvs) in
  status_field rr' k =
    match last (filter (λ kv, kv.1 = k) kvs) with
    | Some (_, JNull) => None
    | Some (_, v) => Some v
    | None => status_field rr k
    end ∧
  r_meta rr' = r_meta rr ∧ r_spec rr' = r_spec rr ∧
  ∀ v, SetStatus rr (pairs kvs ++ [v]) = rr.
Proof.
intros rr'. subst rr'. split; [|split_and!].
- destruct (decide (kvs = [])) as [->|Hne]; [done|]. rewrite SetStatus_pairs by done.
  unfold status_field; cbn. rewrite foldl_insert_lookup.
  destruct (last _) as [[k' v]|]; [by destruct v|]. by destruct (r_status rr).
- destruct (decide (kvs = [])) as [->|Hne]; [done|]. by rewrite SetStatus_pairs.
- destruct (decide (kvs = [])) as [->|Hne]; [done|]. by rewrite SetStatus_pairs.
- intros v. unfold SetStatus. rewrite length_app, length_pairs. cbn [length].
  rewrite bool_decide_false by lia. by rewrite Nat.even_add, Nat.even_mul.
Qed.

(** One field at a time, as the controllers use it. *)
Lemma SetStatus_one rr k v :
  SetStatus rr [JStr k; v] = set_status (Some (<[k := v]> (default ∅ (r_status rr)))) rr.
Proof. exact (SetStatus_pairs rr [(k, v)] ltac:(done)). Qed.

Lemma counter_set_same rr k v : GetWorkflowsCounterStatus (SetStatus rr [JStr k; JInt v]) k = v.
Proof.
rewrite SetStatus_one. unfold GetWorkflowsCounterStatus, status_field; cbn.
by rewrite lookup_insert_eq.
Qed.

Lemma status_field_set_other rr k k' v :
  k ≠ k' → status_field (SetStatus rr [JStr k; v]) k' = status_field rr k'.
Proof.
intros Hk. rewrite SetStatus_one. unfold status_field; cbn. rewrite lookup_insert_ne by done.
by destruct (r_status rr).
Qed.

(** ** Conditions *)
Section conditions.
Context {S : Type} `{World S, Viewed S, !WorldLaws S, Lib, !LibLaws}.
Implicit Types s : S.

(** [obj'] is [obj] with one condition set. *)
Record marked (obj : Unstructured) (type status message reason : string) (obj' : Unstructured)
    : Prop := {
  mk_meta : r_meta obj' = r_meta obj;
  mk_spec : r_spec obj' = r_spec obj;
  mk_cond_set : ∃ c, GetCondition obj' type = Some c ∧ cond_status c = status ∧
                     cond_reason c = reason ∧ cond_message c = message;
  mk_cond_others : ∀ t, t ≠ type → GetCondition obj' t = GetCondition obj t;
  mk_fields : ∀ k, k ≠ "conditions" → status_field obj' k = status_field obj k;
}.

Lemma wp_mark obj t st m r (Q : outcome Unstructured → S → Prop) s :
  (∀ obj' s', view s' = view s → marked obj t st m r obj' → Q (Ok obj') s') →
  wp (mark obj t st m r) Q s.
Proof.
intros HO. unfold mark, SetCondition. do 2 (wp_step; cbn beta iota). apply wp_bind. wp_step.
wp_step. apply HO; [congruence|].
match goal with |- context [conditions_Set ?now _ ?c] =>
  pose proof (conditions_get_set now (r_status obj) c) as (d & Hd & _ & Hst & Hr & Hm);
  pose proof (conditions_get_set_other now (r_status obj) c) as Hother;
  pose proof (conditions_set_fields now (r_status obj) c) as Hfields
end. cbn in *. split; cbn.
- done.
- done.
- exists d. done.
- intros t' Ht'. by apply Hother.
- intros k Hk. specialize (Hfields k Hk). unfold status_field; cbn.
  destruct (conditions_Set _ _ _), (r_status obj); cbn in Hfields;
    rewrite ?lookup_empty in Hfields; by rewrite ?Hfields, <-?Hfields.
Qed.
End conditions.

(** ** Generated names *)
Lemma trim_end_spec l :
  match trim_end l with
  | Ok r => ∃ c r' cut, r = c :: r' ∧ isAlphanumeric c = true ∧ l = cut ++ r
  | Fail _ => False
  | Panicked => Forall (λ c, isAlphanumeric c = false) l
  end.
Proof.
induction l as [|c l IH]; cbn; [done|]. destruct (isAlphanumeric c) eqn:Hc.
- by exists c, l, [].
- destruct (trim_end l) as [r|e|]; [|done|by constructor].
  destruct IH as (c' & r' & cut & -> & ? & ->). by exists c', r', (c :: cut).
Qed.

(** The bytes of the name that are kept: all of them up to 57, else the first
    56. *)
Definition kept_name (name : string) : string :=
  if maxNameLength <? String.length name
  then String.substring 0 (maxNameLength - 1) name else name.

Lemma kept_name_length name : String.length (kept_name name) ≤ maxNameLength.
Proof.
unfold kept_name. destruct (Nat.ltb_spec maxNameLength (String.length name)); [|done].
rewrite substring_length; unfold maxNameLength in *; lia.
Qed.

Definition alphanumeric_in (s : string) : Prop :=
  Exists (λ c, isAlphanumeric c = true) (String.list_ascii_of_string s).

Lemma string_of_list_app a b :
  String.string_of_list_ascii (a ++ b) = String.string_of_list_ascii a +:+ String.string_of_list_ascii b.
Proof. induction a as [|c a IH]; [done|]. exact (f_equal (String c) IH). Qed.

Lemma processName_spec name :
  match processName name with
  | Ok n => (∃ cut, kept_name name = n +:+ cut) ∧
            ∃ pre c, n = pre +:+ String c "" ∧ isAlphanumeric c = true
  | Fail _ => False
  | Panicked => ¬ alphanumeric_in (kept_name name)
  end.
Proof.
unfold processName. fold (kept_name name).
pose proof (trim_end_spec (rev (String.list_ascii_of_string (kept_name name)))) as Hs.
destruct (trim_end _) as [r|e|]; [|done|].
- destruct Hs as (c & r' & cut & -> & Hc & Hl). split.
  + exists (String.string_of_list_ascii (rev cut)). rewrite <-string_of_list_app, <-rev_app_distr, <-Hl.
    by rewrite rev_involutive, String.string_of_list_ascii_of_string.
  + exists (String.string_of_list_ascii (rev r')), c. split; [|done]. cbn [rev].
    by rewrite string_of_list_app.
- unfold alphanumeric_in. rewrite Exists_exists. intros (c & Hin & Hc).
  rewrite Forall_forall in Hs. rewrite (Hs c) in Hc; [done|].
  rewrite list_elem_of_In, <-in_rev, <-list_elem_of_In. done.
Qed.

Lemma with_suffix_spec name id :
  5 ≤ String.length id →
  match with_suffix name id with
  | Ok n => String.length n ≤ 63 ∧
      ∃ pre c cut, n = (pre +:+ String c "") +:+ "-" +:+ String.substring 0 5 id ∧
        isAlphanumeric c = true ∧ kept_name name = (pre +:+ String c "") +:+ cut
  | Fail _ => False
  | Panicked => ¬ alphanumeric_in (kept_name name)
  end.
Proof.
intros Hid. unfold with_suffix. rewrite Strings.slice_ok by lia. cbn [Nat.sub].
pose proof (processName_spec name) as Hp. pose proof (kept_name_length name) as Hl.
destruct (processName name) as [n|e|]; [|done|done].
destruct Hp as [[cut Hcut] (pre & c & -> & Hc)]. split.
- rewrite Hcut in Hl. rewrite !string_length_app, substring_length in * by lia.
  cbn in *. unfold maxNameLength in Hl. lia.
- by exists pre, c, cut.
Qed.

(** A generated object name fits a Kubernetes label: it is at most 63 bytes
    long and consists of a part of the given name that ends in an alphanumeric
    byte, a dash, and the first five digits of the name's hash; the part taken is
    the whole name with trailing separators removed, or a prefix of its first 56
    bytes when it is longer than 57.  The function panics exactly on names that
    have no alphanumeric byte among those. *)
Theorem generated_name_fits `{Lib, !LibLaws} (name : string) :
  match GenerateDeterministicObjectName name with
  | Ok n => String.length n ≤ 63 ∧ alphanumeric_in (kept_name name) ∧
      ∃ pre c cut, n = (pre +:+ String c "") +:+ "-" +:+ String.substring 0 5 (ComputeHash name) ∧
        isAlphanumeric c = true ∧ kept_name name = (pre +:+ String c "") +:+ cut
  | Fail _ => False
  | Panicked => ¬ alphanumeric_in (kept_name name)
  end.
Proof.
pose proof (with_suffix_spec name (ComputeHash name)) as Hs.
unfold GenerateDeterministicObjectName. destruct (with_suffix _ _) as [n|e|]; [|apply Hs..];
  [|unfold ComputeHash; rewrite md5_length; lia..].
destruct Hs as [Hlen (pre & c & cut & Hn & Hc & Hk)];
  [unfold ComputeHash; rewrite md5_length; lia|].
split_and!; [done| |by exists pre, c, cut].
unfold alphanumeric_in. rewrite Hk, Exists_exists. exists c. split; [|done].
clear. induction pre as [|d pre IH]; cbn; [left|by right].
Qed.
