(* ===== verification/Frame.v ===== *)
(** * What a program leaves alone

    [keeps R m]: [m] does not panic and, whether it succeeds or fails, the
    cluster before and after are related by [R], a preorder.  A kind of object is [Harmless] for [R] when any
    change to its collection is allowed; the rules for the writes of such a kind
    need no proof about the objects written. *)

From S2P Require Import Prelude GoLib Meta Api Kube Client Shared ResourceUtil.

Definition keeps {S} `{Viewed S} (R : Cluster → Cluster → Prop) {A} (m : M S A) : Prop :=
  ∀ s, wp m (post (λ _ s', R (view s) (view s')) (λ _ s', R (view s) (view s'))) s.

Class Harmless (R : Cluster → Cluster → Prop) (Sp St : Type) `{Collection Sp St} : Prop :=
  harmless : ∀ (m : gmap Key (Resource Sp St)) c, R c (set_coll m c).

Section keeps.
Context {S : Type} `{World S, Viewed S, !WorldLaws S}.
Context (R : Cluster → Cluster → Prop) `{!PreOrder R}.
Implicit Types s : S.

Local Ltac same := intros; simpl; match goal with Hv : view _ = view _ |- _ => by rewrite Hv end.

Lemma keeps_ret {A} (a : A) : keeps (S:=S) R (ret a).
Proof. intros s. apply wp_ret. simpl. done. Qed.
Lemma keeps_fail {A} e : keeps (S:=S) R (fail (A:=A) e).
Proof. intros s. apply wp_fail. simpl. done. Qed.
Lemma keeps_lift {A} (r : outcome A) : r ≠ Panicked → keeps (S:=S) R (lift r).
Proof. intros Hr s. apply wp_lift. destruct r; simpl; done. Qed.
Lemma keeps_of_sum {A} (r : error + A) : keeps (S:=S) R (of_sum r).
Proof. destruct r; [apply keeps_fail|apply keeps_ret]. Qed.

Lemma keeps_bind {A B} (m : M S A) (k : A → M S B) :
  keeps R m → (∀ a, keeps R (k a)) → keeps R (bind m k).
Proof.
intros Hm Hk s. apply wp_bind. eapply wp_mono; [apply Hm|].
intros [a|e|] s' Hs; [|exact Hs|exact Hs]. simpl in Hs. eapply wp_mono; [apply Hk|].
intros [] s'' Hs'; simpl in *; [by etrans..|done].
Qed.
Lemma keeps_try {A} (m : M S A) : keeps R m → keeps R (try m).
Proof. intros Hm s. apply wp_try. eapply wp_mono; [apply Hm|]. intros [] s' Hs; exact Hs. Qed.
Lemma keeps_foldM {A B} (f : B → A → M S B) l b :
  (∀ acc a, a ∈ l → keeps R (f acc a)) → keeps R (foldM f l b).
Proof.
revert b. induction l as [|a l IH]; intros b Hf; [apply keeps_ret|].
apply keeps_bind; [apply Hf; left|]. intros b'. apply IH. intros. apply Hf. by right.
Qed.
Lemma keeps_iterM {A} (f : A → M S unit) l :
  (∀ a, a ∈ l → keeps R (f a)) → keeps R (iterM f l).
Proof. intros Hf. apply keeps_foldM. auto. Qed.

(** Reads *)
Lemma keeps_Get {Sp St} `{Collection Sp St} k : keeps (S:=S) R (Get (Sp:=Sp) (St:=St) k).
Proof. intros s. apply wp_Get; same. Qed.
Lemma keeps_List {Sp St} `{Collection Sp St} lo : keeps (S:=S) R (List (Sp:=Sp) (St:=St) lo).
Proof. intros s. apply wp_List; same. Qed.
Lemma keeps_Now : keeps (S:=S) R Now.
Proof. intros s. apply wp_Now; same. Qed.
Lemma keeps_NewUUID : keeps (S:=S) R NewUUID.
Proof. intros s. apply wp_NewUUID; same. Qed.
Lemma keeps_Range {V} (m : gmap string V) : keeps (S:=S) R (Range m).
Proof. intros s. apply wp_Range; same. Qed.
Lemma keeps_Eventf {Sp St} (o : Resource Sp St) t r msg : keeps (S:=S) R (Eventf o t r msg).
Proof. intros s. apply wp_Eventf; same. Qed.

(** A panic excluded by what is known of the value. *)
Lemma keeps_lift_bind {A B} (r : outcome A) (k : A → M S B) :
  r ≠ Panicked → (∀ a, r = Ok a → keeps R (k a)) → keeps R (bind (lift r) k).
Proof.
intros Hr Hk s. apply wp_bind, wp_lift. destruct r; [by apply Hk|simpl; done..].
Qed.

(** Writes of a harmless kind *)
Section writes.
Context {Sp St : Type} `{!Collection Sp St, !Harmless R Sp St}.
Implicit Types o : Resource Sp St.

Local Ltac write :=
  intros; simpl; match goal with Hv : view _ = _ |- _ => rewrite Hv end; first [done | apply harmless].

Lemma keeps_Create o : keeps (S:=S) R (Create o).
Proof. intros s. apply wp_Create; write. Qed.
Lemma keeps_Update o : keeps (S:=S) R (Update o).
Proof. intros s. apply wp_Update; write. Qed.
Lemma keeps_StatusUpdate o : keeps (S:=S) R (StatusUpdate o).
Proof. intros s. apply wp_StatusUpdate; write. Qed.
Lemma keeps_Delete o : keeps (S:=S) R (Delete o).
Proof. intros s. apply wp_Delete; write. Qed.
Lemma keeps_CreateOrUpdate o f : keeps (S:=S) R (CreateOrUpdate o f).
Proof. intros s. apply wp_CreateOrUpdate; write. Qed.
End writes.
End keeps.

Create HintDb keeps.
#[export] Hint Resolve keeps_ret keeps_fail keeps_of_sum keeps_Get keeps_List keeps_Now
  keeps_NewUUID keeps_Range keeps_Eventf keeps_Create keeps_Update keeps_StatusUpdate
  keeps_Delete keeps_CreateOrUpdate : keeps.

(** Walks through a program, one rule per construct. *)
Ltac keeps :=
  repeat first
    [ solve [auto with keeps typeclass_instances]
    | apply keeps_bind; [exact _| |intros ?]
    | apply keeps_try
    | apply keeps_iterM; [exact _|intros ? ?]
    | apply keeps_foldM; [exact _|intros ? ? ?]
    | case_match ].

(** ** What a program answers when it succeeds *)
Definition answers {S A} (P : A → Prop) (m : M S A) : Prop :=
  ∀ s a, (m s).1 = Ok a → P a.

Lemma answers_ret {S A} (P : A → Prop) a : P a → answers (S:=S) P (ret a).
Proof. intros HP s ?. by intros [= <-]. Qed.
Lemma answers_fail {S A} (P : A → Prop) e : answers (S:=S) P (fail e).
Proof. by intros s ?. Qed.
Lemma answers_bind {S A B} (P : B → Prop) (m : M S A) k :
  (∀ a, answers P (k a)) → answers P (bind m k).
Proof. intros Hk s b. unfold bind. destruct (m s) as [[a|e|] s']; [apply Hk|done..]. Qed.

Lemma answers_bind_strong {S A B} (P : A → Prop) (Q : B → Prop) (m : M S A) k :
  answers P m → (∀ a, P a → answers Q (k a)) → answers Q (bind m k).
Proof.
intros Hm Hk s b. specialize (Hm s). unfold bind.
destruct (m s) as [[a|e|] s'] eqn:E; [|done..]. apply Hk. by apply Hm.
Qed.

Lemma keeps_answers {S A} `{Viewed S} R (P : A → Prop) (m : M S A) s :
  keeps R m → answers P m →
  wp m (post (λ a s', P a ∧ R (view s) (view s')) (λ _ s', R (view s) (view s'))) s.
Proof.
intros Hk HP. specialize (Hk s). specialize (HP s).
destruct (m s) as [r s'] eqn:E. apply (wp_intro _ _ _ _ _ E) in Hk.
apply (wp_elim _ _ _ _ _ E). simpl in HP. destruct r; simpl in *; auto.
Qed.

Lemma keeps_bind_answers {S A B} `{Viewed S} R `{!PreOrder R} (P : A → Prop) (m : M S A)
    (k : A → M S B) :
  keeps R m → answers P m → (∀ a, P a → keeps R (k a)) → keeps R (bind m k).
Proof.
intros Hm HP Hk s. apply wp_bind. eapply wp_mono; [by apply keeps_answers|].
intros [a|e|] s' Hs; [|exact Hs..]. destruct Hs as [Ha Hs].
eapply wp_mono; [by apply Hk|]. intros [] s'' Hs'; simpl in *; [by etrans..|done].
Qed.

(** Walks to the results of a program. *)
Ltac answers :=
  repeat first
    [ solve [auto using answers_fail]
    | apply answers_ret
    | apply answers_bind; intros ?
    | case_match ].

Section shared.
Context {S : Type} `{World S, Viewed S, !WorldLaws S, Lib}.
Context (R : Cluster → Cluster → Prop) `{!PreOrder R}.

Lemma keeps_mark obj t st m r : keeps (S:=S) R (mark obj t st m r).
Proof. unfold mark, stamped, SetCondition. keeps. Qed.
Lemma keeps_getExistingWorks ns ls : keeps (S:=S) R (getExistingWorks ns ls).
Proof. unfold getExistingWorks. keeps. Qed.
End shared.
#[export] Hint Resolve keeps_mark keeps_getExistingWorks : keeps.

(** ** Programs that only read *)
Section reads.
Context {S : Type} `{World S, Viewed S, !WorldLaws S}.
Implicit Types s : S.

(** The cluster is only read; [P] holds of the result if there is one. *)
Definition reads {A} (s0 : S) (P : A → Prop) (r : outcome A) (s' : S) : Prop :=
  view s' = view s0 ∧ match r with Ok a => P a | _ => True end.

Lemma wp_reads_bind {A B} (m : M S A) (k : A → M S B) P Q s0 s :
  wp m (reads s0 P) s → (∀ a s', view s' = view s0 → P a → wp (k a) (reads s0 Q) s') →
  wp (bind m k) (reads s0 Q) s.
Proof.
intros Hm Hk. apply wp_bind. eapply wp_mono; [exact Hm|].
intros [a|e|] s' [Hv Ha]; [by apply Hk|done|done].
Qed.

Lemma wp_reads_lift {A} (r : outcome A) s0 s :
  view s = view s0 → wp (lift r) (reads s0 (λ a, r = Ok a)) s.
Proof. intros Hv. apply wp_lift. split; [done|]. by destruct r. Qed.

Lemma wp_reads_ret {A} (a : A) (P : A → Prop) s0 s :
  view s = view s0 → P a → wp (ret a) (reads s0 P) s.
Proof. intros Hv Ha. by apply wp_ret. Qed.

Lemma wp_reads_iterM {A} (f : A → M S unit) (P : A → Prop) l s0 s :
  view s = view s0 → (∀ a s1, a ∈ l → view s1 = view s0 → wp (f a) (reads s0 (λ _, P a)) s1) →
  wp (iterM f l) (reads s0 (λ _, ∀ a, a ∈ l → P a)) s.
Proof.
intros Hv Hf. apply (wp_foldM _ (λ done _ _ s', view s' = view s0 ∧ ∀ a, a ∈ done → P a)).
- split; [done|]. intros a. by rewrite elem_of_nil.
- intros done a todo [] s1 -> [Hv1 Hd]. eapply wp_mono; [apply Hf; [set_solver|done]|].
  intros [[]|e|] s2 [Hv2 Ha]; [|done|done]. split; [done|]. set_solver.
- done.
Qed.

Lemma wp_GenerateObjectName name s0 s :
  view s = view s0 → wp (GenerateObjectName name) (reads s0 (λ _, True)) s.
Proof.
intros Hv. eapply wp_reads_bind; [by apply wp_reads_lift|]. intros n s1 Hv1 _.
apply wp_bind, wp_NewUUID. intros id s2 Hv2.
eapply wp_reads_bind; [apply wp_reads_lift; congruence|]. intros i s3 Hv3 _. by apply wp_reads_ret.
Qed.
End reads.

(** ** What a program may do, however it ends

    [frames R m]: the cluster before and after [m] are related by [R], also when
    [m] fails or panics.  A kind of object is [Allowed] by [R] when every request
    the API server accepts for that kind is a step of [R]; then all programs that
    only write allowed kinds have the frame, and walking through them is
    automatic. *)
Definition frames {S} `{Viewed S} (R : Cluster → Cluster → Prop) {A} (m : M S A) : Prop :=
  ∀ s, wp m (λ _ s', R (view s) (view s')) s.

Class Allowed (R : Cluster → Cluster → Prop) {Sp St : Type} (C : Collection Sp St) : Prop := {
  allow_create : ∀ c uid t gen (o : Resource Sp St), coll c !! key o = None →
    R c (set_coll (<[key o := on_create uid t gen o]> (coll c)) c);
  allow_update : ∀ c gen (old o : Resource Sp St), coll c !! key o = Some old →
    R c (set_coll (put_or_reap (on_update gen old o) (coll c)) c);
  allow_status : ∀ c (old o : Resource Sp St), coll c !! key o = Some old →
    R c (set_coll (<[key o := on_status_update old o]> (coll c)) c);
  allow_delete : ∀ c t k (old : Resource Sp St), coll c !! k = Some old →
    R c (set_coll (on_delete t k old (coll c)) c);
}.

#[global] Instance harmless_allowed R Sp St (C : Collection Sp St) : Harmless R Sp St → Allowed R C.
Proof. intros HR. split; intros; apply HR. Qed.

Section frames.
Context {S : Type} `{World S, Viewed S, !WorldLaws S}.
Context (R : Cluster → Cluster → Prop) `{!PreOrder R}.
Implicit Types s : S.

Local Ltac unchanged := intros; match goal with Hv : view _ = view _ |- _ => by rewrite Hv end.

Lemma frames_ret {A} (a : A) : frames (S:=S) R (ret a).
Proof. intros s. by apply wp_ret. Qed.
Lemma frames_fail {A} e : frames (S:=S) R (fail (A:=A) e).
Proof. intros s. by apply wp_fail. Qed.
Lemma frames_panic {A} : frames (S:=S) R (panic (A:=A)).
Proof. intros s. by apply wp_panic. Qed.
Lemma frames_lift {A} (r : outcome A) : frames (S:=S) R (lift r).
Proof. intros s. by apply wp_lift. Qed.
Lemma frames_of_sum {A} (r : error + A) : frames (S:=S) R (of_sum r).
Proof. destruct r; [apply frames_fail|apply frames_ret]. Qed.
Lemma frames_bind {A B} (m : M S A) (k : A → M S B) :
  frames R m → (∀ a, frames R (k a)) → frames R (bind m k).
Proof.
intros Hm Hk s. apply wp_bind. eapply wp_mono; [apply Hm|].
intros [a|e|] s' Hs; [|done..]. eapply wp_mono; [apply Hk|]. intros r s'' Hs'. by etrans.
Qed.
Lemma frames_try {A} (m : M S A) : frames R m → frames R (try m).
Proof. intros Hm s. apply wp_try. eapply wp_mono; [apply Hm|]. by intros []. Qed.
Lemma frames_foldM {A B} (f : B → A → M S B) l b :
  (∀ acc a, frames R (f acc a)) → frames R (foldM f l b).
Proof.
intros Hf. revert b. induction l as [|a l IH]; intros b; [apply frames_ret|].
by apply frames_bind.
Qed.
Lemma frames_iterM {A} (f : A → M S unit) l : (∀ a, frames R (f a)) → frames R (iterM f l).
Proof. intros Hf. by apply frames_foldM. Qed.

Lemma frames_Get {Sp St} `{Collection Sp St} k : frames (S:=S) R (Get (Sp:=Sp) (St:=St) k).
Proof. intros s. apply wp_Get; unchanged. Qed.
Lemma frames_List {Sp St} `{Collection Sp St} lo : frames (S:=S) R (List (Sp:=Sp) (St:=St) lo).
Proof. intros s. apply wp_List; unchanged. Qed.
Lemma frames_Now : frames (S:=S) R Now.
Proof. intros s. apply wp_Now; unchanged. Qed.
Lemma frames_NewUUID : frames (S:=S) R NewUUID.
Proof. intros s. apply wp_NewUUID; unchanged. Qed.
Lemma frames_Intn n : frames (S:=S) R (Intn n).
Proof. intros s. apply wp_Intn; unchanged. Qed.
Lemma frames_Range {V} (m : gmap string V) : frames (S:=S) R (Range m).
Proof. intros s. apply wp_Range; unchanged. Qed.
Lemma frames_Eventf {Sp St} (o : Resource Sp St) t r msg : frames (S:=S) R (Eventf o t r msg).
Proof. intros s. apply wp_Eventf; unchanged. Qed.

Section writes.
Context {Sp St : Type} `{C : !Collection Sp St} {HA : Allowed R C}.
Implicit Types o : Resource Sp St.
Local Ltac step law := intros; match goal with Hv : view _ = _ |- _ => rewrite Hv end; first [done | by eapply law].

Lemma frames_Create o : frames (S:=S) R (Create o).
Proof. intros s. apply wp_Create; step @allow_create. Qed.
Lemma frames_Update o : frames (S:=S) R (Update o).
Proof. intros s. apply wp_Update; step @allow_update. Qed.
Lemma frames_StatusUpdate o : frames (S:=S) R (StatusUpdate o).
Proof. intros s. apply wp_StatusUpdate; step @allow_status. Qed.
Lemma frames_Patch orig o : frames (S:=S) R (Patch orig o).
Proof. intros s. apply wp_Patch_any; step @allow_update. Qed.
Lemma frames_Delete o : frames (S:=S) R (Delete o).
Proof. intros s. apply wp_Delete; step @allow_delete. Qed.
Lemma frames_CreateOrUpdate o f : frames (S:=S) R (CreateOrUpdate o f).
Proof.
intros s. apply wp_CreateOrUpdate.
- intros o1 uid t gen op s' Hn _ Hk Hv. rewrite Hv. rewrite <-Hk in Hn |- *. by apply allow_create.
- intros old o1 gen op s' Hold _ Hk Hv. rewrite Hv. rewrite <-Hk in Hold. by apply allow_update.
- intros e s' Hv. by rewrite Hv.
Qed.
End writes.
End frames.

(** *** Controllers with memory of their own *)
#[global] Instance viewed_memory {S} `{Viewed S} T : Viewed (S * T) := λ st, view st.1.

Section memory.
Context {S T : Type} `{Viewed S} (R : Cluster → Cluster → Prop) `{!PreOrder R}.

Lemma frames_zoom {A} (m : M S A) : frames R m → frames (S:=S*T) R (zoom m).
Proof. intros Hm [s t]. apply wp_zoom. exact (Hm s). Qed.
Lemma frames_recall : frames (S:=S*T) R recall.
Proof. intros [s t]. by apply wp_recall. Qed.
Lemma frames_remember (t : T) : frames (S:=S*T) R (remember t).
Proof. intros [s t']. by apply wp_remember. Qed.
End memory.

Create HintDb frames.
#[export] Hint Resolve frames_ret frames_fail frames_panic frames_lift frames_of_sum frames_Get
  frames_List frames_Now frames_NewUUID frames_Intn frames_Range frames_Eventf frames_Create
  frames_Update frames_StatusUpdate frames_Patch frames_Delete frames_CreateOrUpdate
  frames_recall frames_remember : frames.

Ltac frames :=
  repeat first
    [ solve [auto with frames typeclass_instances]
    | apply frames_bind; [exact _| |intros ?]
    | apply frames_try
    | apply frames_zoom
    | apply frames_iterM; [exact _|intros ?]
    | apply frames_foldM; [exact _|intros ? ?]
    | case_match ].
