(* ===== verification/WorkCreatorFacts.v ===== *)
(** * The work creator collects every output file once *)

From S2P Require Import Prelude GoLib Files Codec Meta Api Kube Client Shared ResourceUtil Promise.
From S2P Require Import WorkCreator Frame.

(** ** Directory trees *)
Section entry_ind.
Context (P : Entry → Prop).
Context (Hfile : ∀ c, P (File c)) (Hbad : ∀ b e, P (Unreadable b e)).
Context (Hdir : ∀ l, Forall (λ ne, P ne.2) l → P (Dir l)).
Fixpoint entry_ind (e : Entry) : P e :=
  match e with
  | File c => Hfile c
  | Unreadable b x => Hbad b x
  | Dir l => Hdir l ((fix go (l : list (string * Entry)) : Forall (λ ne, P ne.2) l :=
      match l with
      | [] => List.Forall_nil _
      | ne :: l' => List.Forall_cons _ _ _ (entry_ind ne.2) (go l')
      end) l)
  end.
End entry_ind.

(** Names in a directory are proper and distinct. *)
Inductive tree_ok : Entry → Prop :=
  | file_ok c : tree_ok (File c)
  | unreadable_ok b e : tree_ok (Unreadable b e)
  | dir_ok l : NoDup l.*1 → Forall (λ ne, name_ok ne.1) l → Forall (λ ne, tree_ok ne.2) l →
      tree_ok (Dir l).

(** Everything below an entry can be read. *)
Fixpoint readable (e : Entry) : bool :=
  match e with
  | File _ => true
  | Unreadable _ _ => false
  | Dir l => forallb (λ ne, readable ne.2) l
  end.

(** The files below an entry: the elements of the path, and the content. *)
Fixpoint files_below (e : Entry) : list (list string * string) :=
  match e with
  | File c => [([], c)]
  | Unreadable _ _ => []
  | Dir l => flat_map (λ ne, map (λ pc, (ne.1 :: pc.1, pc.2)) (files_below ne.2)) l
  end.

(** The entries of a directory that are not among the ignored directories. *)
Definition not_ignored (ignore : list string) (ne : string * Entry) : Prop :=
  ¬ (IsDir ne.2 = true ∧ ne.1 ∈ ignore).
#[global] Instance not_ignored_dec ignore ne : Decision (not_ignored ignore ne).
Proof. unfold not_ignored. apply _. Defined.

Section facts.
Context `{Codec}.

(** The workload a file below [sub] becomes. *)
Definition workload_of (sub : list string) (pc : list string * string) : Workload :=
  {| wl_filepath := Strings.Join (sub ++ pc.1) "/"; wl_content := CompressContent pc.2 |}.

Lemma gather_ok {A B} (f : A → error + list B) (g : A → list B) (ok : A → bool) l ws :
  Forall (λ a, ∀ bs, f a = inr bs ↔ ok a = true ∧ bs = g a) l →
  gather f l = inr ws ↔ forallb ok l = true ∧ ws = flat_map g l.
Proof.
intros Hf. revert ws. induction Hf as [|a l Ha _ IH]; intros ws; cbn.
- split; [by intros [= <-]|by intros [_ ->]].
- destruct (f a) as [e|bs] eqn:Ea.
  + split; [done|]. intros [[Hok _]%andb_true_iff _].
    assert (inl e = inr (g a)) by (by apply Ha). done.
  + destruct (proj1 (Ha bs) eq_refl) as [-> ->]. cbn. destruct (gather f l) as [e|bs] eqn:Eg.
    * split; [done|]. intros [Hok _]. assert (inl e = inr (flat_map g l)) by (by apply IH). done.
    * destruct (proj1 (IH bs) eq_refl) as [Hok ->]. rewrite Hok. naive_solver.
Qed.

Lemma not_ignored_nil (l : list (string * Entry)) : filter (not_ignored []) l = l.
Proof. apply filter_id, Forall_forall. unfold not_ignored. set_solver. Qed.

Lemma files_in_sub sub name e :
  workload_of (sub ++ [name]) <$> files_below e =
  workload_of sub <$> map (λ pc, (name :: pc.1, pc.2)) (files_below e).
Proof.
change (map ?f ?m) with (f <$> m). rewrite <-list_fmap_compose. apply list_fmap_ext.
intros i [p c] _. unfold workload_of. cbn. by rewrite <-(assoc_L (++)).
Qed.

(** What is collected below a directory [pre/sub]: an entry as long as everything
    that is not ignored can be read. *)
Lemma workloads_in_spec pre e : ∀ sub ignore ws,
  Forall name_ok pre → Forall name_ok sub → tree_ok e →
  workloads_in (abs_path pre) (abs_path (pre ++ sub)) ignore e = inr ws ↔
  ∃ l, e = Dir l ∧ readable (Dir (filter (not_ignored ignore) l)) = true ∧
    ws = workload_of sub <$> files_below (Dir (filter (not_ignored ignore) l)).
Proof.
induction e as [c|b x|l IH] using entry_ind; intros sub ignore ws Hpre Hsub Hok; cbn [workloads_in].
1,2: split; [done|by intros (? & ? & _)].
inversion Hok as [| |l' _ Hnames Htrees]; subst l'.
set (ok := λ ne : string * Entry,
  if decide (not_ignored ignore ne) then readable ne.2 else true).
set (g := λ ne : string * Entry, if decide (not_ignored ignore ne)
  then workload_of sub <$> map (λ pc, (ne.1 :: pc.1, pc.2)) (files_below ne.2) else []).
rewrite (gather_ok _ g ok).
- assert (forallb ok l = readable (Dir (filter (not_ignored ignore) l)) ∧
    flat_map g l = workload_of sub <$> files_below (Dir (filter (not_ignored ignore) l))) as [-> ->].
  { clear. split; (induction l as [|ne l IHl]; [done|]); cbn -[filter];
      rewrite filter_cons; unfold ok, g in *; case_decide; cbn -[filter] in *.
    - by rewrite IHl.
    - done.
    - by rewrite IHl, fmap_app.
    - done. }
  split; [intros [? ->]; by exists l|intros (? & [= <-] & ? & ->); done].
- rewrite Forall_forall in IH, Hnames, Htrees. apply Forall_forall. intros [name entry] Hin bs.
  specialize (IH _ Hin). specialize (Hnames _ Hin). specialize (Htrees _ Hin).
  cbn [fst snd] in *. unfold ok, g. cbn [fst snd].
  rewrite join_abs, <-(assoc_L (++)) by (done || by apply Forall_app).
  assert (Forall name_ok (sub ++ [name])) as Hsub'
    by (apply Forall_app; split; [done|by constructor]).
  destruct (decide (not_ignored ignore (name, entry))) as [Hn|Hn]; unfold not_ignored in Hn;
    cbn [fst snd] in Hn.
  + destruct (IsDir entry) eqn:Ed.
    * rewrite bool_decide_false by tauto. rewrite IH by done.
      destruct entry as [|l'|[] x]; [done| |naive_solver|done].
      rewrite <-files_in_sub. split; [intros (? & [= <-] & ? & ->)|intros [? ->]; exists l'];
        rewrite not_ignored_nil in *; done.
    * unfold file_workload. destruct entry as [c| |[] x]; [|done|done|naive_solver]. cbn.
      rewrite rel_abs by (done || by destruct sub). naive_solver.
  + apply dec_stable in Hn as [-> Hi]. rewrite bool_decide_true by done. naive_solver.
Qed.

(** ** The recursion of the source *)
Lemma gather_ext {A B} (f g : A → error + list B) l :
  (∀ a, a ∈ l → f a = g a) → gather f l = gather g l.
Proof.
intros Hfg. induction l as [|a l IH]; [done|]. cbn. rewrite Hfg by left. rewrite IH; [done|].
intros. apply Hfg. by right.
Qed.

Lemma entry_named_elem l name e : NoDup l.*1 → (name, e) ∈ l → entry_named name l = Some e.
Proof.
intros Hnd Hin. unfold entry_named. destruct (list_find _ l) as [[i ne]|] eqn:E.
- apply list_find_Some in E as (Hi & Hne & _). apply list_elem_of_lookup_2 in Hi. cbn.
  destruct ne as [n e']. cbn in Hne. subst n.
  pose proof (elem_of_list_to_map_1 (M:=gmap string) l name e' Hnd Hi).
  pose proof (elem_of_list_to_map_1 (M:=gmap string) l name e Hnd Hin). cbn. congruence.
- apply list_find_None in E. rewrite Forall_forall in E. by destruct (E _ Hin).
Qed.

Lemma resolve_ok es e d : tree_ok e → resolve es e = inr d → tree_ok d.
Proof.
revert e. induction es as [|n es IH]; intros e Hok; cbn; [by intros [= <-]|].
destruct Hok as [| |l _ _ Hl]; [done..|]. unfold entry_named.
destruct (list_find _ l) as [[i ne]|] eqn:E; [|done]. cbn.
apply list_find_Some in E as (Hi & _). rewrite Forall_forall in Hl.
apply IH, Hl. by eapply list_elem_of_lookup_2.
Qed.

(** The definition satisfies the recursive equation of [getWorkloadsFromDir], with
    directories listed and files opened by their paths. *)
Lemma getWorkloadsFromDir_unfold fs prefix es ignore :
  tree_ok fs → Forall name_ok es →
  getWorkloadsFromDir fs prefix (abs_path es) ignore =
  match ReadDir fs (abs_path es) with
  | inl e => inl e
  | inr filesAndDirs => gather (λ info,
      let path := Filepath.Join [abs_path es; info.1] in
      if IsDir info.2 then
        if bool_decide (info.1 ∈ ignore) then inr [] else getWorkloadsFromDir fs prefix path []
      else
        match ReadFile fs path with
        | inl e => inl e
        | inr byteValue =>
            match Filepath.Rel prefix path with
            | inl e => inl e
            | inr rel => inr [{| wl_filepath := rel; wl_content := CompressContent byteValue |}]
            end
        end) filesAndDirs
  end.
Proof.
intros Hok Hes. unfold getWorkloadsFromDir, ReadDir. rewrite lookup_abs by done.
destruct (resolve es fs) as [e|d] eqn:Er; [done|]. destruct d as [|l|]; [done| |done].
assert (tree_ok (Dir l)) as Hd by (by eapply resolve_ok). cbn [workloads_in].
inversion Hd as [| |l' Hnd Hnames _]; subst l'. apply gather_ext. intros [name e] Hin.
rewrite Forall_forall in Hnames. specialize (Hnames _ Hin). cbn in Hnames |- *.
assert (lookup_file fs (Filepath.Join [abs_path es; name]) = inr e) as Hl.
{ rewrite join_abs by done.
  rewrite lookup_abs by (apply Forall_app; split; [done|by constructor]). rewrite resolve_app, Er. cbn. by rewrite (entry_named_elem l name e). }
unfold file_workload, ReadFile. by rewrite Hl.
Qed.

Lemma gather_some_total {A B} (f : A → option (error + list B)) g l :
  (∀ a, a ∈ l → f a = Some (g a)) → gather_some f l = Some (gather g l).
Proof.
intros Hf. induction l as [|a l IH]; [done|]. cbn. rewrite Hf by left.
destruct (g a); [done|]. rewrite IH by (intros; apply Hf; by right). by destruct (gather g l).
Qed.

(** How deep directories are nested. *)
Fixpoint depth (e : Entry) : nat :=
  match e with
  | Dir l => S (foldr (λ ne n, depth ne.2 `max` n) 0 l)
  | _ => 0
  end.

Lemma depth_entry l name e : (name, e) ∈ l → depth e < depth (Dir l).
Proof.
intros Hin. cbn. induction l as [|ne l IH]; [by apply elem_of_nil in Hin|].
apply elem_of_cons in Hin as [<-|Hin]; cbn; [lia|]. specialize (IH Hin). lia.
Qed.

Lemma walk_total n fs prefix es ignore d :
  tree_ok fs → Forall name_ok es → resolve es fs = inr d → depth d < n →
  walkWorkloads n fs prefix (abs_path es) ignore =
    Some (getWorkloadsFromDir fs prefix (abs_path es) ignore).
Proof.
intros Hok. revert es ignore d. induction n as [|n IH]; intros es ignore d Hes Hd Hn; [lia|].
rewrite getWorkloadsFromDir_unfold by done. cbn [walkWorkloads]. unfold ReadDir.
rewrite lookup_abs by done. rewrite Hd. destruct d as [|l|]; [done| |done].
apply gather_some_total. intros [name e] Hin. cbn [fst snd]. destruct (IsDir e); [|done].
case_bool_decide; [done|]. pose proof (resolve_ok _ _ _ Hok Hd) as Hdir.
inversion Hdir as [| |l' Hnd Hnames _]; subst l'. rewrite Forall_forall in Hnames.
specialize (Hnames _ Hin). cbn in Hnames. rewrite join_abs by done. apply (IH _ _ e).
- apply Forall_app. split; [done|by constructor].
- rewrite resolve_app, Hd. cbn. by rewrite (entry_named_elem l name e).
- pose proof (depth_entry l name e Hin). lia.
Qed.

(** C29: Collecting the output of a pipeline ends: the function as it is written, which lists
    a directory by its path and calls itself on the paths of its subdirectories,
    returns after at most as many nested calls as directories are nested, with an
    error or with what the definition by recursion on the tree gives; a path that names
    nothing is an error at once. *)
Theorem walk_terminates fs prefix es ignore n :
  tree_ok fs → Forall name_ok es → depth fs < n →
  walkWorkloads n fs prefix (abs_path es) ignore =
    Some (getWorkloadsFromDir fs prefix (abs_path es) ignore).
Proof.
intros Hok Hes Hn. destruct (resolve es fs) as [e|d] eqn:Hd.
- destruct n; [lia|]. unfold getWorkloadsFromDir. cbn [walkWorkloads]. unfold ReadDir.
  by rewrite lookup_abs, Hd.
- apply (walk_total _ _ _ _ _ d); [done..|]. clear Hok Hes. revert fs d Hd Hn.
  induction es as [|name es IH]; intros fs d Hd Hn; cbn in Hd; [by simplify_eq|].
  destruct fs as [|l|]; [done| |done]. unfold entry_named in Hd.
  destruct (list_find _ l) as [[i [m e]]|] eqn:E; [|done]. cbn in Hd.
  apply list_find_Some in E as (Hi & _). apply (IH e); [done|].
  pose proof (depth_entry l m e (list_elem_of_lookup_2 _ _ _ Hi)). lia.
Qed.
End facts.

(** ** Which selectors are accepted *)

(** The directories the check of [containsSubDirectory] lets through. *)
Definition plain_directory (d : string) : Prop := d = "." ∨ d = ".." ∨ d = "/" ∨ name_ok d.

Lemma base_fixed d : Filepath.Base d = d ↔ plain_directory d.
Proof.
split.
- intros Hb. destruct (decide (d = "/")) as [->|Hsl]; [by right; right; left|].
  assert (d ≠ "") as Hne by (by intros ->).
  destruct (decide (d = ".")) as [->|?]; [by left|].
  destruct (decide (d = "..")) as [->|?]; [by right; left|]. right; right; right.
  split_and!; [done..|]. unfold Filepath.Base in Hb. rewrite bool_decide_false in Hb by done.
  destruct (rev _) as [|x l] eqn:E; [congruence|]. subst x.
  assert (d ∈ filter (λ e, e ≠ "") (Filepath.split d)) as Hin.
  { apply list_elem_of_In, in_rev, list_elem_of_In. rewrite E. left. }
  apply list_elem_of_filter in Hin as [_ Hin]. apply (split_aux_no_slash d "" d); [|done].
  unfold no_slash. set_solver.
- intros [->|[->|[->|(Hne & _ & _ & Hs)]]]; [done..|].
  unfold Filepath.Base. rewrite bool_decide_false by done.
  by rewrite split_name, filter_cons_True, filter_nil by done.
Qed.

Lemma containsSubDirectory_spec cfg :
  containsSubDirectory cfg = None ↔ ∀ s, s ∈ cfg → plain_directory (wds_directory s).
Proof.
induction cfg as [|s cfg IH]; cbn; [set_solver|]. case_bool_decide as Hb.
- split; [done|]. intros Hall. destruct Hb. apply base_fixed, Hall. left.
- apply base_fixed in Hb. rewrite IH. set_solver.
Qed.

Lemma containsDuplicate_from_spec seen cfg :
  containsDuplicateScheduling_from seen cfg = false ↔
  NoDup (wds_directory <$> cfg) ∧ ∀ s, s ∈ cfg → wds_directory s ∉ seen.
Proof.
revert seen. induction cfg as [|s cfg IH]; intros seen; cbn.
- split; [|done]. intros _. split; [constructor|set_solver].
- rewrite NoDup_cons. case_bool_decide as Hs; [split; [done|set_solver]|]. rewrite IH. split.
  + intros [Hnd Hseen]. split_and!; [|done|set_solver].
    intros (s' & E & Hin)%list_elem_of_fmap. apply (Hseen s' Hin). rewrite E. set_solver.
  + intros [[Hn Hnd] Hseen]. split; [done|]. intros s' Hin [Hi|Hi]%elem_of_app; [set_solver|].
    apply list_elem_of_singleton in Hi. apply Hn, list_elem_of_fmap. eauto.
Qed.

Section parse.
Context `{WorkCreatorLib}.

Lemma parse_accepts bytes cfg :
  ParseDestinationSelectors bytes = inr cfg ↔
  ∃ parsed, unmarshal_destination_selectors bytes = inr parsed ∧ cfg = clean_directory <$> parsed ∧
    (∀ s, s ∈ cfg → wds_matchLabels s ≠ ∅) ∧ NoDup (wds_directory <$> cfg) ∧
    (∀ s, s ∈ cfg → plain_directory (wds_directory s)).
Proof.
unfold ParseDestinationSelectors. destruct (unmarshal_destination_selectors bytes) as [e|parsed];
  [naive_solver|]. cbv zeta.
assert (entry_without_selectors (clean_directory <$> parsed) = None ↔
  ∀ s, s ∈ clean_directory <$> parsed → wds_matchLabels s ≠ ∅) as He.
{ unfold entry_without_selectors. rewrite fmap_None, list_find_None, Forall_forall. done. }
pose proof (containsDuplicate_from_spec [] (clean_directory <$> parsed)) as Hd.
pose proof (containsSubDirectory_spec (clean_directory <$> parsed)) as Hs.
unfold containsDuplicateScheduling. destruct (entry_without_selectors _) as [i|].
{ split; [done|]. intros (? & [= <-] & -> & Hm & _). by apply He in Hm. }
destruct (containsDuplicateScheduling_from _ _).
{ split; [done|]. intros (? & [= <-] & -> & _ & Hnd & _).
  assert (true = false); [apply Hd; split; [done|set_solver]|done]. }
destruct (containsSubDirectory _) as [p|].
- split; [done|]. intros (? & [= <-] & -> & _ & _ & Hp). by apply Hs in Hp.
- split; [intros [= <-]; exists parsed; naive_solver|]. by intros (? & [= <-] & -> & _).
Qed.

(** The file [destination-selectors.yaml] is accepted exactly when every entry has
    selectors and the directories, once cleaned, are distinct and without a
    slash.  Besides the names of directories of the output this lets [..] and
    [/] through, which are not below the output. *)
Theorem selectors_accepted bytes cfg :
  ParseDestinationSelectors bytes = inr cfg ↔
  ∃ parsed, unmarshal_destination_selectors bytes = inr parsed ∧ cfg = clean_directory <$> parsed ∧
    (∀ s, s ∈ cfg → wds_matchLabels s ≠ ∅) ∧ NoDup (wds_directory <$> cfg) ∧
    (∀ s, s ∈ cfg → plain_directory (wds_directory s)).
Proof. apply parse_accepts. Qed.
End parse.

(** ** The groups partition the output *)
Definition files_of (ne : string * Entry) : list (list string * string) :=
  map (λ pc, (ne.1 :: pc.1, pc.2)) (files_below ne.2).

(** Taking some directories of a listing out, and putting them back. *)
Lemma ignored_partition l es :
  NoDup l.*1 → NoDup es.*1 → Forall (λ ne, ne ∈ l ∧ IsDir ne.2 = true) es →
  l ≡ₚ filter (not_ignored es.*1) l ++ es.
Proof.
intros Hl Hes Hin. rewrite Forall_forall in Hin.
assert (NoDup l) as Hnd by (by eapply NoDup_fmap_1).
apply NoDup_Permutation; [done| |].
- apply NoDup_app. split_and!; [by apply NoDup_filter| |by eapply NoDup_fmap_1].
  intros ne [Hn Hne]%list_elem_of_filter Hi. apply Hn. split; [by apply Hin|].
  by apply list_elem_of_fmap_2.
- intros ne. rewrite elem_of_app, list_elem_of_filter. split.
  + intros Hne. destruct (decide (not_ignored es.*1 ne)) as [|Hn]; [by left|]. right.
    apply dec_stable in Hn as [_ ([n e] & En & He)%list_elem_of_fmap].
    destruct ne as [n' e']. cbn in En. subst n'.
    pose proof (elem_of_list_to_map_1 (M:=gmap string) l n e' Hl Hne) as H1.
    pose proof (elem_of_list_to_map_1 (M:=gmap string) l n e Hl (proj1 (Hin _ He))) as H2.
    rewrite H1 in H2. by injection H2 as ->.
  + intros [[_ ?]|He]; [done|]. by apply Hin.
Qed.

Section groups.
Context `{Lib, Codec, WorkCreatorLib}.
Context (fs : Entry) (out : list string) (l : list (string * Entry)).
Context (Hfs : tree_ok fs) (Hout : Forall name_ok out) (Hl : resolve out fs = inr (Dir l)).

Lemma out_ok : NoDup l.*1 ∧ Forall (λ ne, name_ok ne.1) l.
Proof. assert (tree_ok (Dir l)) as Hd by (by eapply resolve_ok). by inversion Hd. Qed.

Lemma root_workloads ignore ws :
  getWorkloadsFromDir fs (abs_path out) (abs_path out) ignore = inr ws →
  ws = workload_of [] <$> files_below (Dir (filter (not_ignored ignore) l)).
Proof.
unfold getWorkloadsFromDir. rewrite lookup_abs, Hl by done. intros Hw.
rewrite <-(app_nil_r out) in Hw at 2.
apply workloads_in_spec in Hw; [|done|constructor|by eapply resolve_ok].
by destruct Hw as (? & [= <-] & _ & ->).
Qed.

Lemma directory_workloads d ws :
  name_ok d →
  getWorkloadsFromDir fs (abs_path out) (Filepath.Join [abs_path out; d]) [] = inr ws →
  ∃ e, (d, e) ∈ l ∧ IsDir e = true ∧ ws = workload_of [] <$> files_of (d, e).
Proof.
intros Hd. assert (Forall name_ok (out ++ [d])) as Hod
  by (apply Forall_app; split; [done|by constructor]).
rewrite join_abs by done. unfold getWorkloadsFromDir. rewrite lookup_abs by done.
rewrite resolve_app, Hl. cbn. destruct (entry_named d l) as [e|] eqn:En; [|done].
assert ((d, e) ∈ l) as Hin.
{ unfold entry_named in En. destruct (list_find _ l) as [[i [d' e']]|] eqn:E; [|done].
  apply list_find_Some in E as (Hi & Hd' & _). cbn in *. simplify_eq.
  by eapply list_elem_of_lookup_2. }
intros Hw. apply workloads_in_spec in Hw; [|done|by constructor|].
- destruct Hw as (l' & -> & _ & ->). exists (Dir l'). split_and!; [done..|].
  rewrite not_ignored_nil. by rewrite (files_in_sub [] d).
- apply (resolve_ok (out ++ [d]) fs); [done|]. rewrite resolve_app, Hl. cbn. by rewrite En.
Qed.

Definition own_directories (sel : list WorkflowDestinationSelectors) : list string :=
  filter (λ d, d ≠ ".") (wds_directory <$> sel).

Lemma selector_loop_spec wt sel acc loop :
  (∀ s, s ∈ sel → wds_directory s = "." ∨ name_ok (wds_directory s)) →
  selector_loop fs (abs_path out) wt sel acc = inr loop →
  ∃ es, es.*1 = own_directories sel ∧ Forall (λ ne, ne ∈ l ∧ IsDir ne.2 = true) es ∧
    sl_ignored loop = sl_ignored acc ++ es.*1 ∧
    wg_workloads <$> sl_groups loop =
      (wg_workloads <$> sl_groups acc) ++ ((λ ne, workload_of [] <$> files_of ne) <$> es) ∧
    wg_directory <$> sl_groups loop = (wg_directory <$> sl_groups acc) ++ es.*1.
Proof.
revert acc. induction sel as [|s sel IH]; intros acc Hsel; cbn [selector_loop].
- intros [= <-]. exists []. rewrite !app_nil_r. split_and!; done.
- assert (∀ s', s' ∈ sel → wds_directory s' = "." ∨ name_ok (wds_directory s')) as Hsel'
    by set_solver. unfold isRootDirectory, DefaultWorkloadGroupDirectory, own_directories.
  cbn [fmap list_fmap]. destruct (decide (wds_directory s = ".")) as [Hd|Hd].
  + rewrite bool_decide_true, filter_cons_False by auto. cbn [negb].
    intros Hloop. destruct (IH _ Hsel' Hloop) as (es & Hes). by exists es.
  + rewrite bool_decide_false, filter_cons_True by done. cbn [negb].
    destruct (Hsel s) as [|Hname]; [left|done|].
    destruct (getWorkloadsFromDir _ _ _ _) as [e|ws] eqn:Hw; [done|].
    apply directory_workloads in Hw as (e & Hin & He & ->); [|done]. intros Hloop.
    destruct (IH _ Hsel' Hloop) as (es & E1 & E2 & E3 & E4 & E5).
    exists ((wds_directory s, e) :: es). cbn in E3, E4, E5 |- *. rewrite E3, E4, E5, E1.
    rewrite !fmap_app, <-!(assoc_L (++)). split_and!; [done|by constructor|done..].
Qed.
End groups.

Section once.
Context `{Lib, Codec, !CodecLaws, WorkCreatorLib}.

Lemma flat_files l : files_below (Dir l) = flat_map files_of l.
Proof. done. Qed.

Lemma concat_files es :
  concat ((λ ne, workload_of [] <$> files_of ne) <$> es) = workload_of [] <$> flat_map files_of es.
Proof. induction es as [|ne es IH]; [done|]. cbn. by rewrite IH, fmap_app. Qed.

Lemma scheduling_distinct fs dir sel :
  getWorkflowScheduling fs dir = inr sel → NoDup (wds_directory <$> sel) ∧
    ∀ s, s ∈ sel → plain_directory (wds_directory s).
Proof.
unfold getWorkflowScheduling. cbv zeta. destruct (ReadFile fs _) as [e|c].
- destruct (IsNotExist e); [intros [= <-]|done]. split; [constructor|set_solver].
- intros (? & _ & _ & _ & Hnd & Hp)%parse_accepts. done.
Qed.

(** C20: The Work carries every file the pipeline wrote exactly once: over all its
    groups, the paths (relative to the output) and the decompressed contents
    are those of the output tree, one group per directory with selectors of its
    own and each with a different directory, provided the selectors name
    directories of the output. *)
Theorem output_collected_once fs root wt l sel groups :
  tree_ok fs → Forall name_ok root → resolve (root ++ ["input"]) fs = inr (Dir l) →
  getWorkflowScheduling fs (abs_path root) = inr sel →
  (∀ s, s ∈ sel → wds_directory s ≠ ".." ∧ wds_directory s ≠ "/") →
  workload_groups fs (abs_path root) wt = inr groups →
  (λ w, (wl_filepath w, DecompressContent (wl_content w))) <$> concat (wg_workloads <$> groups)
    ≡ₚ (λ pc, (Strings.Join pc.1 "/", inr pc.2)) <$> files_below (Dir l) ∧
  (∃ default, wg_directory <$> groups = own_directories sel ++ default ∧
     (default = [] ∨ default = ["."])) ∧
  NoDup (wg_directory <$> groups).
Proof.
intros Hfs Hroot Hl Hsel Hdirs Hg. destruct (scheduling_distinct _ _ _ Hsel) as [Hnd Hplain].
unfold workload_groups in Hg. rewrite Hsel in Hg. cbv zeta in Hg.
assert (name_ok "input") as Hinput by (by vm_compute; set_solver).
assert (Forall name_ok (root ++ ["input"])) as Hout
  by (apply Forall_app; split; [done|by constructor]).
rewrite join_abs in Hg by done. destruct (selector_loop _ _ _ _ _) as [e|loop] eqn:Hloop; [done|].
apply (selector_loop_spec fs _ l Hfs Hout Hl) in Hloop as (es & E1 & E2 & E3 & E4 & E5).
2: { intros s Hs. specialize (Hplain s Hs) as [?|[?|[?|?]]]; auto; destruct (Hdirs s Hs); done. }
cbn in E3, E4, E5. destruct (getWorkloadsFromDir _ _ _ _) as [e|ws] eqn:Hw; [done|].
apply (root_workloads fs _ l Hfs Hout Hl) in Hw. rewrite E3 in Hw.
destruct (out_ok fs _ l Hfs Hl) as [Hndl _].
assert (NoDup es.*1) as Hndes by (rewrite E1; by apply NoDup_filter).
assert (concat (wg_workloads <$> groups) ≡ₚ workload_of [] <$> files_below (Dir l) ∧
  (wg_directory <$> groups = es.*1 ∨ wg_directory <$> groups = es.*1 ++ ["."])) as [Hperm Hdir].
{ assert (concat (wg_workloads <$> sl_groups loop) ++ ws ≡ₚ workload_of [] <$> files_below (Dir l))
    as Hall.
  { rewrite E4, Hw, concat_files, !flat_files, <-fmap_app, <-flat_map_app.
    rewrite (ignored_partition l es Hndl Hndes E2) at 2. by rewrite (comm (++)). }
  case_bool_decide as Hlen.
  - destruct (getPromiseScheduling _ _) as [e|ds]; [done|]. injection Hg as <-.
    rewrite !fmap_app, concat_app. cbn. rewrite app_nil_r, E5. auto.
  - injection Hg as <-. destruct ws; [|cbn in Hlen; lia]. rewrite app_nil_r in Hall. auto. }
split_and!.
- rewrite Hperm, <-list_fmap_compose. apply reflexive_eq, list_fmap_ext. intros i [p c] _.
  cbn. by rewrite decompress_compressed.
- rewrite <-E1. destruct Hdir as [->| ->]; [exists []; rewrite app_nil_r|exists ["."]]; auto.
- destruct Hdir as [->| ->]; [done|]. apply NoDup_app. split_and!; [done| |apply NoDup_singleton].
  rewrite E1. unfold own_directories. intros d [Hd _]%list_elem_of_filter. set_solver.
Qed.
End once.

(** ** The Work in the cluster *)

(** The Works after the program: one with the labels, with this spec, and the
    others as they were. *)
Record one_work (ns : string) (ls : Labels) (spec : WorkSpec) (c c' : Cluster) (w : Work) : Prop := {
  ow_stored : c_works c' !! key w = Some w;
  ow_matches : work_matches ns ls w;
  ow_spec : r_spec w = spec;
  ow_only : ∀ k w', c_works c' !! k = Some w' → work_matches ns ls w' → w' = w;
  ow_others : ∀ k, k ≠ key w → c_works c' !! k = c_works c !! k;
  ow_rest : c' = set_coll (c_works c') c;
}.

Lemma one_work_created ns ls (w : Work) c uid t gen :
  work_matches ns ls w → (∀ k w', c_works c !! k = Some w' → ¬ work_matches ns ls w') →
  one_work ns ls (r_spec w) c (set_coll (<[key w := on_create uid t gen w]> (c_works c)) c)
    (on_create uid t gen w).
Proof.
intros Hm Hnone. split; cbn.
- apply lookup_insert_eq.
- exact Hm.
- done.
- intros k w' Hk Hm'. apply lookup_insert_Some in Hk as [[_ <-]|[_ Hk]]; [done|].
  by destruct (Hnone _ _ Hk).
- intros k Hk. by rewrite lookup_insert_ne.
- done.
Qed.

(** [w'] is the only matching Work with a new spec, and perhaps other annotations. *)
Lemma one_work_updated ns ls (w w' : Work) c gen :
  keyed (c_works c) → no_zombies (c_works c) → c_works c !! key w = Some w → work_matches ns ls w →
  (∀ k o, c_works c !! k = Some o → work_matches ns ls o → o = w) →
  key w' = key w → GetLabels w' = GetLabels w → GetFinalizers w' = GetFinalizers w →
  one_work ns ls (r_spec w') c
    (set_coll (put_or_reap (on_update gen w w') (c_works c)) c) (on_update gen w w').
Proof.
intros Hkey Hzomb Hk Hm Honly Hkw Hl Hf. unfold put_or_reap.
match goal with |- context [if ?b then _ else _] => destruct b eqn:Eb end.
{ apply andb_true_iff in Eb as [Ed Ef%bool_decide_eq_true]. destruct (Hzomb _ _ Hk Ed).
  by rewrite <-Hf. }
change (key (on_update gen w w')) with (key w'). rewrite Hkw.
split; change (key (on_update gen w w')) with (key w'); rewrite ?Hkw; cbn.
- apply lookup_insert_eq.
- destruct Hm as [Hns Hls]. split; [|by change (ls ⊆ GetLabels w'); rewrite Hl].
  destruct Hns as [?|Hns]; [by left|right]. unfold key in Hkw. rewrite <-Hns. by injection Hkw.
- done.
- intros k o Ho Hmo. apply lookup_insert_Some in Ho as [[_ <-]|[Hne Ho]]; [done|].
  pose proof (Honly _ _ Ho Hmo) as ->. by destruct (Hne (Hkey _ _ Ho)).
- intros k Hne. by rewrite lookup_insert_ne.
- done.
Qed.

Section execute.
Context {S : Type} `{World S, Viewed S, !WorldLaws S, Lib, !LibLaws, Codec, WorkCreatorLib}.
Implicit Types s : S.

Lemma work_labels_nonempty promise resource pipe wt : work_labels promise resource pipe wt ≠ ∅.
Proof.
unfold work_labels, GetWorkLabels. rewrite merge_spec. intros Hemp.
assert (Hl : (∅ : Labels) !! WorkTypeLabel = Some wt); [|by rewrite lookup_empty in Hl].
rewrite <-Hemp. apply lookup_union_Some_l.
repeat case_bool_decide; rewrite ?(lookup_insert_ne _ ResourceNameLabel WorkTypeLabel),
  ?(lookup_insert_ne _ PipelineNameLabel WorkTypeLabel) by done; apply lookup_insert_eq.
Qed.

(** C21: The work creator leaves exactly one Work with the labels of the pipeline,
    carrying the workload groups of the output: it creates it, or replaces the
    spec of the one that is there; every other Work and everything else stays as
    it is, and when it fails nothing has changed.  So running a pipeline again
    updates its Work instead of adding another one. *)
Theorem execute_leaves_one_work fs root promise ns resource wt pipe s :
  keyed (c_works (view s)) → no_zombies (c_works (view s)) →
  (is_resource_workflow wt = true ∨ ns = "" ∨ ns = SystemNamespace) →
  wp (Execute fs root promise ns resource wt pipe) (λ r s',
    match r with
    | Ok _ => ∃ groups w, workload_groups fs root wt = inr groups ∧
        one_work (if bool_decide (ns = "") then SystemNamespace else ns)
          (work_labels promise resource pipe wt)
          {| ws_workloadGroups := groups; ws_promiseName := promise; ws_resourceName := resource |}
          (view s) (view s') w
    | _ => view s' = view s
    end) s.
Proof.
intros Hkey Hzomb Hns. unfold Execute. cbv zeta. apply wp_bind. unfold of_sum.
change "kratix-platform-system" with SystemNamespace.
set (ns' := if bool_decide (ns = "") then SystemNamespace else ns).
assert ((if is_resource_workflow wt then ns' else SystemNamespace) = ns') as ->.
{ subst ns'. destruct (is_resource_workflow wt); [done|].
  destruct Hns as [?|[->| ->]]; [done|by rewrite bool_decide_true|by case_bool_decide]. }
set (ls := work_labels promise resource pipe wt).
destruct (workload_groups fs root wt) as [e|groups]; [by apply wp_fail|]. apply wp_ret, wp_bind.
eapply wp_mono; [by apply wp_GenerateObjectName|]. intros [name|e|] s1 [Hv1 _]; [|done..].
apply wp_bind, wp_GetWork; [apply work_labels_nonempty| | |congruence].
- intros s2 Hv2 Hnone. rewrite Hv1 in Hnone. apply wp_bind, wp_Create; [|congruence].
  intros uid t gen s3 _ Hv3. apply wp_ret. rewrite Hv3, Hv2, Hv1.
  eexists groups, _. split; [done|]. apply (one_work_created _ _ (mkResource _ _ _)); [|done].
  split; [by right|done].
- intros k w s2 Hv2 Hk Hm Honly. rewrite Hv1 in Hk, Honly. apply wp_bind, wp_Update; [|congruence].
  intros old gen s3 Hold Hv3. apply wp_ret. rewrite Hv3, Hv2, Hv1. rewrite Hv2, Hv1 in Hold.
  assert (key w = k) as <- by (by apply Hkey).
  change (c_works (view s) !! key w = Some old) in Hold. rewrite Hk in Hold. injection Hold as <-.
  eexists groups, _. split; [done|]. by apply (one_work_updated _ _ w (set_spec _ w)).
Qed.
End execute.
