(* ===== verification/StatusUpdaterFacts.v ===== *)
(** * Merging the status of a pipeline into the status of an object *)

From S2P Require Import Prelude GoLib Files Meta Api Kube Client Shared ResourceUtil.
From S2P Require Import StatusUpdater Frame.

(** The last condition of a type, the one that counts when the code looks one up by
    type in a map. *)
Definition last_of_type (t : string) (conds : list JSON) : option JSON :=
  last (filter (λ c, condition_type c = Some t) conds).

Lemma add_conditions_lookup m conds t :
  add_conditions m conds !! t =
  match last_of_type t conds with Some c => Some c | None => m !! t end.
Proof.
unfold last_of_type. induction conds as [|c conds IH] using rev_ind; [done|].
unfold add_conditions in *. rewrite foldl_app, filter_app. cbn [foldl].
destruct (decide (condition_type c = Some t)) as [E|E].
- rewrite E, lookup_insert_eq, (filter_cons_True _ c), filter_nil, last_snoc by done. done.
- rewrite (filter_cons_False _ c), filter_nil, app_nil_r by done. rewrite <-IH.
  destruct (condition_type c) as [t'|]; [|done]. by rewrite lookup_insert_ne by congruence.
Qed.

Lemma last_of_type_type t conds c : last_of_type t conds = Some c → condition_type c = Some t.
Proof.
unfold last_of_type. intros Hl. apply last_Some_elem_of in Hl.
by apply list_elem_of_filter in Hl as [? _].
Qed.

(** The values of a map listed in any order, by the key they carry. *)
Lemma filter_by_key (m : gmap string JSON) (items : list (string * JSON)) t :
  items ≡ₚ map_to_list m → (∀ k c, m !! k = Some c → condition_type c = Some k) →
  filter (λ c, condition_type c = Some t) items.*2 = option_list (m !! t).
Proof.
intros Hp Hm. assert (NoDup items.*1) as Hnd.
{ rewrite Hp. apply NoDup_fst_map_to_list. }
assert (∀ k c, (k, c) ∈ items ↔ m !! k = Some c) as Hin.
{ intros k c. by rewrite Hp, elem_of_map_to_list. }
assert (∀ k c, (k, c) ∈ items → condition_type c = Some k) as Ht by (intros; by apply Hm, Hin).
assert (∀ c, m !! t = Some c ↔ (t, c) ∈ items) as Hmt by (intros; by rewrite Hin).
clear Hp Hm Hin. revert Hmt. generalize (m !! t) as o. induction items as [|[k c] items IH]; intros o Ho.
- destruct o as [c|]; [|done]. assert ((t, c) ∈ []) as Hc by (by apply Ho). by apply elem_of_nil in Hc.
- cbn in Hnd. apply NoDup_cons in Hnd as [Hk Hnd]. cbn [fmap list_fmap].
  assert (condition_type c = Some k) as Hc by (apply Ht; left). cbn [snd]. rewrite filter_cons.
  destruct (decide (k = t)) as [->|Hne].
  + rewrite decide_True by done. assert (o = Some c) as -> by (apply Ho; left). cbn.
    f_equal. rewrite (IH Hnd (λ k' c' H', Ht k' c' (list_elem_of_further _ _ _ H')) None); [done|].
    intros c'. split; [done|]. intros Hc'. destruct Hk. apply list_elem_of_fmap. by exists (t, c').
  + cbn. rewrite decide_False by congruence. apply IH; [done| |].
    * intros k' c' H'. apply Ht. by right.
    * intros c'. rewrite Ho, elem_of_cons. split; [intros [?|?]; [congruence|done]|by right].
Qed.

(** Conditions merged by type: the incoming one if there is one, else the existing
    one, and one of each type. *)
Definition conditions_merged (existing incoming result : list JSON) : Prop :=
  ∀ t, filter (λ c, condition_type c = Some t) result =
    option_list (match last_of_type t incoming with
                 | Some c => Some c
                 | None => last_of_type t existing
                 end).

(** What a merged status holds. *)
Definition field_merged (existing : gmap string JSON) (k : string) (v : JSON)
    (result : option JSON) : Prop :=
  match existing !! k, v with
  | Some (JArr ec), JArr ic =>
      if bool_decide (k = "conditions")
      then ∃ conds, result = Some (JArr conds) ∧ conditions_merged ec ic conds
      else result = Some v
  | _, _ => result = Some v
  end.

Record status_merged (existing incoming result : gmap string JSON) : Prop := {
  sm_incoming : ∀ k v, incoming !! k = Some v → field_merged existing k v (result !! k);
  sm_existing : ∀ k, incoming !! k = None → result !! k = existing !! k;
}.

(** What marking the workflow as completed changes. *)
Record status_completed `{StatusLib} (old new : gmap string JSON) : Prop := {
  sc_completed : ∃ now, list_find (λ c, condition_type c = Some ConfigureWorkflowCompletedCondition)
      (conditions_of new) ≫= (λ ic, Some ic.2) =
    Some (condition_json {|
      cond_type := ConfigureWorkflowCompletedCondition; cond_status := ConditionTrue;
      cond_reason := PipelinesExecutedSuccessfully; cond_message := "Pipelines completed";
      cond_lastTransitionTime := now |});
  sc_conditions : ∀ t, t ≠ ConfigureWorkflowCompletedCondition →
    filter (λ c, condition_type c = Some t) (conditions_of new) =
    filter (λ c, condition_type c = Some t) (conditions_of old);
  sc_message : new !! "message" =
    match old !! "message" with
    | Some (JStr "Pending") => Some (JStr "Resource requested")
    | m => m
    end;
  sc_fields : ∀ k, k ≠ "conditions" → k ≠ "message" → new !! k = old !! k;
}.

Section facts.
Context {S : Type} `{World S, Viewed S, !WorldLaws S, StatusLib}.
Implicit Types s : S.

Lemma wp_mergeConditions ec ic s :
  wp (mergeConditions ec ic) (post (λ conds s', view s' = view s ∧ conditions_merged ec ic conds)
    (λ _ s', view s' = view s)) s.
Proof.
unfold mergeConditions. cbv zeta. apply wp_bind, wp_Range. intros items s' Hv Hp.
apply wp_ret. cbn [post]. split; [done|]. intros t. rewrite (filter_by_key _ _ t Hp).
- rewrite !add_conditions_lookup, lookup_empty.
  by destruct (last_of_type t ic), (last_of_type t ec).
- intros k c. rewrite !add_conditions_lookup, lookup_empty.
  destruct (last_of_type k ic) eqn:E1; [intros [= <-]; by eapply last_of_type_type|].
  destruct (last_of_type k ec) eqn:E2; [intros [= <-]; by eapply last_of_type_type|done].
Qed.

Lemma wp_merge_field existing result k v s :
  result !! k = existing !! k →
  wp (merge_field result (k, v)) (post
    (λ r s', view s' = view s ∧ field_merged existing k v (r !! k) ∧
       ∀ k', k' ≠ k → r !! k' = result !! k') (λ _ s', view s' = view s)) s.
Proof.
intros Hk. unfold merge_field, field_merged. rewrite Hk.
assert (∀ x, ∀ k', k' ≠ k → (<[k := x]> result : gmap string JSON) !! k' = result !! k') as Hother
  by (intros; by rewrite lookup_insert_ne).
destruct (decide (k = "conditions")) as [->|Hne].
- rewrite !bool_decide_true by done. destruct (existing !! _) as [[]|], v.
  all: try (apply wp_ret; cbn [post]; rewrite lookup_insert_eq; split_and!; [done..|by apply Hother]).
  apply wp_bind. eapply wp_mono; [apply wp_mergeConditions|].
  intros [conds|e|] s1; cbn [post]; [|done|done]. intros [Hv1 Hc].
  apply wp_ret. cbn [post]. split_and!; [done| |by apply Hother].
  exists conds. by rewrite lookup_insert_eq.
- rewrite !bool_decide_false by done. apply wp_ret. cbn [post].
  rewrite lookup_insert_eq. split_and!; [done| |by apply Hother]. by destruct (existing !! k) as [[]|], v.
Qed.

Lemma wp_MergeStatuses existing incoming s :
  wp (MergeStatuses existing incoming) (post
    (λ r s', view s' = view s ∧ status_merged existing incoming r) (λ _ s', view s' = view s)) s.
Proof.
unfold MergeStatuses, mergeRecursive. apply wp_bind, wp_Range. intros order s1 Hv1 Hp.
assert (NoDup order.*1) as Hnd by (rewrite Hp; apply NoDup_fst_map_to_list).
assert (∀ k v, (k, v) ∈ order ↔ incoming !! k = Some v) as Hin
  by (intros k v; by rewrite Hp, elem_of_map_to_list).
apply (wp_foldM _ (λ done todo acc s', view s' = view s ∧
  (∀ k v, (k, v) ∈ done → field_merged existing k v (acc !! k)) ∧
  (∀ k, k ∉ done.*1 → acc !! k = existing !! k))).
- split_and!; [done|set_solver|done].
- intros done [k v] todo acc s2 -> (Hv2 & Hdone & Htodo).
  rewrite fmap_app in Hnd. cbn in Hnd. apply NoDup_app in Hnd as (_ & Hdisj & _).
  assert (k ∉ done.*1) as Hk by (intros Hi; apply (Hdisj _ Hi); left).
  eapply wp_mono; [apply wp_merge_field; by apply Htodo|].
  intros [r|e|] s3; cbn [post]; [|congruence|done]. intros (Hv3 & Hf & Hother).
  split_and!; [congruence| |].
  + intros k' v' [Hi|Hi]%elem_of_app.
    * rewrite Hother; [by apply Hdone|]. intros ->. apply Hk, list_elem_of_fmap. by exists (k, v').
    * apply list_elem_of_singleton in Hi. by simplify_eq.
  + intros k'. rewrite fmap_app. intros [Hn1 Hn2]%not_elem_of_app. cbn in Hn2.
    rewrite Hother by set_solver. by apply Htodo.
- intros acc s2 (Hv2 & Hdone & Htodo). split; [done|]. split.
  + intros k v Hk. by apply Hdone, Hin.
  + intros k Hk. apply Htodo. intros ([k' v] & -> & Hi)%list_elem_of_fmap.
    apply Hin in Hi. cbn in Hk. congruence.
Qed.

Lemma replace_first_spec t new l :
  condition_type new = Some t →
  match replace_first t new l with
  | Some l' => ∃ l1 c l2, l = l1 ++ c :: l2 ∧ l' = l1 ++ new :: l2 ∧ condition_type c = Some t ∧
      Forall (λ c, condition_type c ≠ Some t) l1
  | None => Forall (λ c, condition_type c ≠ Some t) l
  end.
Proof.
intros Hnew. induction l as [|c l IH]; cbn; [constructor|]. case_bool_decide as Hc.
- exists [], c, l. split_and!; [done..|constructor].
- destruct (replace_first t new l) as [l'|]; cbn; [|by constructor].
  destruct IH as (l1 & c' & l2 & -> & -> & Hc' & Hl1).
  exists (c :: l1), c', l2. split_and!; [done..|by constructor].
Qed.

Lemma updateConditions_spec l c :
  list_find (λ x, condition_type x = Some (cond_type c)) (updateConditions l c) ≫= (λ ic, Some ic.2)
    = Some (condition_json c) ∧
  ∀ t, t ≠ cond_type c →
    filter (λ x, condition_type x = Some t) (updateConditions l c) =
    filter (λ x, condition_type x = Some t) l.
Proof.
assert (condition_type (condition_json c) = Some (cond_type c)) as Hc by done.
assert (∀ l1 l2, Forall (λ x, condition_type x ≠ Some (cond_type c)) l1 →
  list_find (λ x, condition_type x = Some (cond_type c)) (l1 ++ condition_json c :: l2)
    ≫= (λ ic, Some ic.2) = Some (condition_json c)) as Hfind.
{ intros l1 l2 Hl1. rewrite list_find_app_r by (by apply list_find_None). cbn.
  by rewrite decide_True. }
unfold updateConditions. cbv zeta. pose proof (replace_first_spec _ _ l Hc) as Hr.
destruct (replace_first _ _ l) as [l'|].
- destruct Hr as (l1 & c' & l2 & -> & -> & Hc' & Hl1). split; [by apply Hfind|].
  intros t Ht. rewrite !filter_app, !filter_cons, !decide_False by congruence. done.
- split; [by apply Hfind|]. intros t Ht.
  by rewrite filter_app, filter_cons, decide_False, filter_nil, app_nil_r by congruence.
Qed.

Lemma wp_MarkAsCompleted status s :
  wp (MarkAsCompleted status) (post
    (λ r s', view s' = view s ∧ status_completed status r) (λ _ s', view s' = view s)) s.
Proof.
unfold MarkAsCompleted. cbv zeta.
match goal with |- context [conditions_of ?m] => set (status1 := m) end.
apply wp_bind, wp_stamped. intros now s' Hv. apply wp_ret. cbn [post]. split; [done|].
assert (status1 !! "message" = match status !! "message" with
  | Some (JStr "Pending") => Some (JStr "Resource requested") | m => m end ∧
  ∀ k, k ≠ "message" → status1 !! k = status !! k) as [Hmsg Hother].
{ subst status1. destruct (status !! "message") as [[| | | |m| |]|] eqn:E; try (by rewrite E).
  case_bool_decide as Hm; [subst m; rewrite lookup_insert_eq; split; [done|]|].
  - intros. by rewrite lookup_insert_ne.
  - rewrite E. split; [|done]. repeat (case_match; try done). }
assert (conditions_of status1 = conditions_of status) as Hc
  by (unfold conditions_of; by rewrite Hother).
split.
- exists now. unfold conditions_of at 1. rewrite lookup_insert_eq.
  apply (updateConditions_spec _ {| cond_type := ConfigureWorkflowCompletedCondition |}).
- intros t Ht. unfold conditions_of at 1. rewrite lookup_insert_eq, <-Hc.
  by apply (updateConditions_spec _ {| cond_type := ConfigureWorkflowCompletedCondition |}).
- by rewrite lookup_insert_ne.
- intros k Hk1 Hk2. rewrite lookup_insert_ne by done. by apply Hother.
Qed.

Lemma wp_wrapped {A} msg (m : M S A) (a : A → S → Prop) (f : error → S → Prop) s :
  (∀ e s', f e s' → f (ErrorWrap msg e) s') → wp m (post a f) s → wp (wrapped msg m) (post a f) s.
Proof.
intros Hf Hm. apply wp_bind, wp_try. eapply wp_mono; [exact Hm|].
intros [x|e|] s'; cbn [post]; [by intros; apply wp_ret|by intros; apply wp_fail, Hf|done].
Qed.

(** C30: After a pipeline the status of the object is its old status merged with what
    the pipeline wrote to its status file: a field of the file wins, a field not
    in the file is kept, and the two lists of conditions are merged by type, with
    one condition of each type.  After the last pipeline the workflow is also
    marked as completed, and a pending message replaced, with the conditions of
    other types and the other fields unchanged.  Nothing else in the cluster changes, and
    nothing at all when the program fails. *)
Theorem status_update_merges {PC : Collection UnstructuredSpec UnstructuredStatus} fs params s :
  wp (run fs params) (post
    (λ _ s', ∃ obj incoming merged status,
       coll (view s) !! (p_objectNamespace params, p_objectName params) = Some obj ∧
       readStatusFile fs (Filepath.Join ["/work-creator-files"; "metadata"; "status.yaml"]) =
         inr incoming ∧
       status_merged (default ∅ (r_status obj)) incoming merged ∧
       (if p_isLastPipeline params then status_completed merged status else status = merged) ∧
       ∃ old, coll (view s) !! key obj = Some old ∧
         view s' = set_coll (<[key obj := set_status (Some status) old]> (coll (view s))) (view s))
    (λ _ s', view s' = view s)) s.
Proof.
unfold run. cbv zeta. apply wp_bind. eapply wp_mono.
{ apply (wp_wrapped _ _ (λ obj s', view s' = view s ∧
    coll (view s) !! (p_objectNamespace params, p_objectName params) = Some obj)
    (λ _ s', view s' = view s)); [done|]. apply wp_Get; intros; by cbn [post]. }
intros [obj|e|] s1; cbn [post]; [|done|done]. intros [Hv1 Hobj]. apply wp_bind.
unfold wrapped at 1. apply wp_bind, wp_try. unfold of_sum.
destruct (readStatusFile fs _) as [e|incoming]; [by apply wp_fail, wp_fail|].
apply wp_ret, wp_ret, wp_bind. eapply wp_mono; [apply wp_MergeStatuses|].
intros [merged|e|] s2; cbn [post]; [|congruence|done]. intros [Hv2 Hmerged]. apply wp_bind.
apply (wp_mono _ (post (λ status s', view s' = view s ∧
    if p_isLastPipeline params then status_completed merged status else status = merged)
    (λ _ s', view s' = view s))).
{ destruct (p_isLastPipeline params); [|apply wp_ret; cbn [post]; split; [congruence|done]].
  eapply wp_mono; [apply wp_MarkAsCompleted|].
  intros [x|e|] s3; cbn [post]; [intros [? ?]; split; [congruence|done]|congruence|done]. }
intros [status|e|] s3; cbn [post]; [|done|done]. intros [Hv3 Hst]. apply wp_bind.
eapply wp_mono.
{ apply (wp_wrapped _ _ (λ _ s', ∃ old, coll (view s) !! key obj = Some old ∧
    view s' = set_coll (<[key obj := set_status (Some status) old]> (coll (view s))) (view s))
    (λ _ s', view s' = view s)); [done|].
  apply wp_StatusUpdate; [|intros; cbn [post]; congruence].
  intros old s4 Hold Hv4. cbn [post]. rewrite Hv3 in *. by exists old. }
intros [x|e|] s4; cbn [post]; [|done|done]. intros Hfin. apply wp_ret. cbn [post].
by exists obj, incoming, merged, status.
Qed.
End facts.
