(* ===== verification/WorkCreatorWitness.v ===== *)
(** * The work creator and the status updater on concrete files *)

From S2P Require Import Prelude GoLib Files Codec Meta Api Kube Client Sim Shared ResourceUtil Promise.
From S2P Require Import WorkCreator WorkCreatorFacts StatusUpdater StatusUpdaterFacts Frame.

(** Selectors for one directory, whatever the file says. *)
Definition selectors_for (directory : string) : WorkCreatorLib := {|
  unmarshal_destination_selectors _ :=
    inr [{| wds_matchLabels := {["env" := "dev"]}; wds_directory := directory |}];
  unmarshal_promise_scheduling _ := inr [];
  print_selectors _ := "";
|}.

#[local] Instance foo_selectors : WorkCreatorLib := selectors_for "foo/".

#[global] Instance status_lib : StatusLib := {|
  unmarshal_status _ := inr {["endpoint" := JStr "redis.default"]};
  marshal_time t := pretty t;
|}.

Definition pod_files : Entry :=
  Dir [("work-creator-files", Dir [
    ("input", Dir [("a.yaml", File "A"); ("foo", Dir [("b.yaml", File "B")])]);
    ("metadata", Dir [("destination-selectors.yaml", File "..."); ("status.yaml", File "...")])])].

Lemma pod_files_ok : tree_ok pod_files.
Proof.
repeat match goal with
| |- tree_ok _ => constructor
| |- Forall _ _ => constructor
| |- NoDup _ => apply (bool_decide_unpack _); vm_compute; exact I
| |- name_ok _ => apply (bool_decide_unpack _); vm_compute; exact I
| |- _ => cbn [fst snd fmap list_fmap]
end.
Qed.

Lemma output_collected_once_witness :
  let groups := [
    {| wg_workloads := [{| wl_filepath := "foo/b.yaml"; wl_content := "Qg==" |}];
       wg_directory := "foo"; wg_id := "foo00000000000000000000000000000";
       wg_destinationSelectors := [{| wgs_matchLabels := {["env" := "dev"]};
                                      wgs_source := "resource-workflow" |}] |};
    {| wg_workloads := [{| wl_filepath := "a.yaml"; wl_content := "QQ==" |}];
       wg_directory := "."; wg_id := ".0000000000000000000000000000000";
       wg_destinationSelectors := [] |}] in
  workload_groups pod_files "/work-creator-files" "resource" =
    inr groups ∧
  (λ w, (wl_filepath w, DecompressContent (wl_content w))) <$> concat (wg_workloads <$> groups)
    ≡ₚ [("a.yaml", inr "A"); ("foo/b.yaml", inr "B")].
Proof.
intros groups.
assert (workload_groups pod_files "/work-creator-files"
  "resource" = inr groups) as Hg by (vm_compute; reflexivity).
split; [exact Hg|].
refine (proj1 (output_collected_once pod_files
  ["work-creator-files"] "resource"
  [("a.yaml", File "A"); ("foo", Dir [("b.yaml", File "B")])]
  [{| wds_matchLabels := {["env" := "dev"]}; wds_directory := "foo" |}] groups _ _ _ _ _ Hg)).
- exact pod_files_ok.
- constructor; [apply (bool_decide_unpack _); vm_compute; exact I|constructor].
- reflexivity.
- vm_compute. reflexivity.
- intros s ->%list_elem_of_singleton. done.
Defined.

(** The selector [..] passes the check for sub-directories, and makes the work creator
    collect the files next to the output, under paths that leave the directory of
    the placement. *)
Lemma dotdot_collects_metadata :
  ∃ g rest, @workload_groups _ _ (selectors_for "..") pod_files "/work-creator-files" "resource" =
      inr (g :: rest) ∧
    wl_filepath <$> wg_workloads g =
      ["a.yaml"; "foo/b.yaml"; "../metadata/destination-selectors.yaml"; "../metadata/status.yaml"].
Proof. vm_compute. eauto. Qed.

Definition one_work_cluster (works : list Work) : Sim := sim_of {|
  c_works := of_list works; c_workplacements := ∅; c_destinations := ∅; c_jobs := ∅;
  c_parents := of_list [mkResource (new_meta "default" "db")
    {| us_kind := "Redis"; us_apiVersion := "v1"; us_spec := JObj [] |}
    (Some {["message" := JStr "Pending"; "size" := JStr "small"]})];
  c_serviceaccounts := ∅; c_configmaps := ∅; c_roles := ∅; c_rolebindings := ∅;
  c_clusterroles := ∅; c_clusterrolebindings := ∅;
  c_bucketstores := ∅; c_gitstores := ∅; c_secrets := ∅; c_releases := ∅; c_healthrecords := ∅;
  c_promises := ∅; c_crds := ∅ |}.

Definition old_work : Work := mkResource
  (om_set_labels (work_labels "redis" "db" "pipe" "resource") (new_meta "default" "redis-db-pipe-abcde"))
  {| ws_workloadGroups := []; ws_promiseName := "redis"; ws_resourceName := "db" |} zero_status.

Lemma execute_leaves_one_work_witness :
  let s := one_work_cluster [old_work] in
  let s' := (Execute pod_files "/work-creator-files" "redis" "default" "db" "resource" "pipe" s).2 in
  ∃ groups w, workload_groups pod_files "/work-creator-files" "resource" = inr groups ∧
    one_work "default" (work_labels "redis" "db" "pipe" "resource")
      {| ws_workloadGroups := groups; ws_promiseName := "redis"; ws_resourceName := "db" |}
      (view s) (view s') w.
Proof.
cbv zeta.
assert (no_zombies (c_works (view (one_work_cluster [old_work])))) as Hz
  by (apply of_list_no_zombies; constructor; [done|constructor]).
pose proof (execute_leaves_one_work pod_files "/work-creator-files" "redis" "default" "db" "resource"
  "pipe" (one_work_cluster [old_work]) (of_list_keyed _) Hz (or_introl eq_refl)) as Hwp.
read_off Hwp. destruct Hwp as (x & _ & groups & w & Hg & Hw). exists groups, w.
split; [exact Hg|exact Hw].
Defined.

Definition last_pipeline : Parameters := getParametersFromEnv (λ v,
  if bool_decide (v = "KRATIX_OBJECT_NAME") then "db"
  else if bool_decide (v = "IS_LAST_PIPELINE") then "true" else "").

Lemma status_update_merges_witness :
  let s := one_work_cluster [] in
  let s' := (run (PC:=parents_coll) pod_files last_pipeline s).2 in
  ∃ merged status,
    status_merged {["message" := JStr "Pending"; "size" := JStr "small"]}
      {["endpoint" := JStr "redis.default"]} merged ∧
    status_completed merged status ∧
    r_status <$> c_parents (view s') !! ("default", "db") = Some (Some status).
Proof.
cbv zeta. pose proof (status_update_merges (PC:=parents_coll) pod_files last_pipeline (one_work_cluster [])) as Hwp.
read_off Hwp. destruct Hwp as (x & _ & obj & incoming & merged & status & Hobj & Hin & Hm & Hc & old & Ho & Hv).
assert (c_parents (view (one_work_cluster [])) !! ("default", "db") = Some (mkResource (new_meta "default" "db")
    {| us_kind := "Redis"; us_apiVersion := "v1"; us_spec := JObj [] |}
    (Some {["message" := JStr "Pending"; "size" := JStr "small"]}))) as Hobj' by (vm_compute; reflexivity).
pose proof (eq_trans (eq_sym Hobj') Hobj) as Heq. injection Heq as <-.
assert (readStatusFile pod_files (Filepath.Join ["/work-creator-files"; "metadata"; "status.yaml"]) =
  inr {["endpoint" := JStr "redis.default"]}) as Hin' by (vm_compute; reflexivity).
rewrite Hin' in Hin. injection Hin as <-.
exists merged, status. split; [exact Hm|]. split; [exact Hc|]. rewrite Hv.
change (coll ?m) with (c_parents m). cbn. by rewrite lookup_insert_eq.
Defined.

Lemma walk_terminates_witness :
  walkWorkloads 5 pod_files "/work-creator-files/input" "/work-creator-files/input" [] =
    Some (getWorkloadsFromDir pod_files "/work-creator-files/input" "/work-creator-files/input" []) ∧
  depth pod_files = 4.
Proof.
split; [|reflexivity].
apply (walk_terminates pod_files "/work-creator-files/input" ["work-creator-files"; "input"] [] 5 pod_files_ok).
- apply (bool_decide_eq_true_1 _). vm_compute. reflexivity.
- cbn. lia.
Defined.
