(* ===== verification/Workflow.v ===== *)
(** * Running workflows: [lib/workflow/reconciler.go] and [rbac.go]

    Runs the pipelines of a workflow one after the other as jobs, and removes
    what earlier runs left behind.  The parent object, a resource request or a
    Promise, is unstructured; the collection it is stored in is a parameter. *)

From S2P Require Import Prelude GoLib Meta Api Kube Client Shared ResourceUtil Promise.

#[global] Instance PolicyRule_eq_dec : EqDecision PolicyRule.
Proof. solve_decision. Defined.
#[global] Instance RoleRef_eq_dec : EqDecision RoleRef.
Proof. solve_decision. Defined.
#[global] Instance Subject_eq_dec : EqDecision Subject.
Proof. solve_decision. Defined.

(** [workflow.Opts]; the parent object is passed and returned separately,
    because the calls update it in place. *)
Record Opts := {
  op_resources : list PipelineJobResources;
  op_workflowType : string;
  op_numberOfJobsToKeep : nat;
  op_skipConditions : bool;
}.

(** ** Questions about labels and jobs *)

Definition isLabelSetToTrue (ls : Labels) (key : string) : bool :=
  match ls !! key with Some v => bool_decide (v = "true") | None => false end.
Definition isManualReconciliation (ls : Labels) : bool :=
  isLabelSetToTrue ls ManualReconciliationLabel.

Definition isFailed (job : option Job) : bool :=
  match job with
  | None => false
  | Some j => existsb (λ c, bool_decide (jc_type c = JobFailed) ||
                            bool_decide (jc_type c = JobSuspended))
                (js_conditions (r_status j))
  end.

Definition isRunning (job : option Job) : bool :=
  match job with
  | None => false
  | Some j =>
      if bool_decide (0 < js_active (r_status j))%Z then true
      else negb (existsb (λ c, bool_decide (jc_type c = JobComplete) ||
                               bool_decide (jc_type c = JobSuspended) ||
                               bool_decide (jc_type c = JobFailed))
                   (js_conditions (r_status j)))
  end.

(** The labels that tie a job to a pipeline at a given spec. *)
Definition jobIsForPipeline (pipeline : PipelineJobResources) (job : option Job) : bool :=
  match job with
  | None => false
  | Some j =>
      let same key := bool_decide (label (GetLabels j) key = label (GetLabels (pjr_job pipeline)) key) in
      same KratixResourceHashLabel && same WorkflowTypeLabel && same WorkflowActionLabel &&
      same KratixPipelineHashLabel && same PipelineNameLabel
  end.

(** The reverse loop of [nextPipelineIndex] over the pipelines with an index
    below [i]. *)
Fixpoint next_index_from (resources : list PipelineJobResources) (job : Job) (i : nat) : nat :=
  match i with
  | 0 => 0
  | S i' =>
      match resources !! i' with
      | Some p =>
          if jobIsForPipeline p (Some job) then
            if isFailed (Some job) || isRunning (Some job) then i' else S i'
          else next_index_from resources job i'
      | None => next_index_from resources job i'
      end
  end.

Definition nextPipelineIndex (opts : Opts) (parent : Unstructured) (mostRecentJob : option Job)
    : nat :=
  match mostRecentJob with
  | None => 0
  | Some job =>
      if isManualReconciliation (GetLabels parent) then 0
      else next_index_from (op_resources opts) job (length (op_resources opts))
  end.

Definition labelsForJobs (opts : Opts) (parent : Unstructured) : Labels :=
  let l := <[WorkflowTypeLabel := op_workflowType opts]> ∅ in
  let '(promiseName, l) :=
    if Strings.HasPrefix (op_workflowType opts) WorkflowTypeResource
    then (label (GetLabels parent) PromiseNameLabel, <[ResourceNameLabel := GetName parent]> l)
    else (GetName parent, l) in
  <[PromiseNameLabel := promiseName]> l.

Definition legacyLabelsForJobs (opts : Opts) (parent : Unstructured) : Labels :=
  let l := <[WorkTypeLabel := op_workflowType opts]> ∅ in
  let '(promiseName, l) :=
    if bool_decide (op_workflowType opts = WorkTypeResource)
    then (label (GetLabels parent) PromiseNameLabel, <[ResourceNameLabel := GetName parent]> l)
    else (GetName parent, l) in
  <[PromiseNameLabel := promiseName]> l.

Definition labelsForAllPipelineJobs (pipeline : PipelineJobResources) : Labels :=
  let pl := GetLabels (pjr_job pipeline) in
  let ls := <[PromiseNameLabel := label pl PromiseNameLabel]> ∅ in
  if bool_decide (label pl ResourceNameLabel ≠ "")
  then <[ResourceNameLabel := label pl ResourceNameLabel]> ls else ls.

Definition getLabelsForPipelineJob (pipeline : PipelineJobResources) : Labels :=
  GetLabels (pjr_job pipeline).

(** ** rbac.go: what matches the desired objects *)

Definition rolesMatch (existing desired : Role) : bool :=
  bool_decide (role_rules (r_spec existing) = role_rules (r_spec desired)).
Definition clusterRolesMatch (existing desired : ClusterRole) : bool :=
  bool_decide (crole_rules (r_spec existing) = crole_rules (r_spec desired)).
Definition roleBindingsMatch (existing desired : RoleBinding) : bool :=
  bool_decide (rb_subjects (r_spec existing) = rb_subjects (r_spec desired)) &&
  bool_decide (rb_roleRef (r_spec existing) = rb_roleRef (r_spec desired)).
Definition clusterRoleBindingsMatch (existing desired : ClusterRoleBinding) : bool :=
  bool_decide (crb_subjects (r_spec existing) = crb_subjects (r_spec desired)) &&
  bool_decide (crb_roleRef (r_spec existing) = crb_roleRef (r_spec desired)).

Definition getPipelineResourcesLabels `{Lib} (pipeline : PipelineJobResources) : Labels :=
  let jl := GetLabels (pjr_job pipeline) in
  let legacy := UserPermissionPipelineResourcesLegacyLabels (label jl PromiseNameLabel)
    (pjr_name pipeline) (GetNamespace (pjr_job pipeline)) (label jl WorkTypeLabel)
    (label jl WorkActionLabel) in
  if bool_decide (size legacy ≠ 0) then legacy
  else UserPermissionPipelineResourcesLabels (label jl PromiseNameLabel)
    (pjr_name pipeline) (GetNamespace (pjr_job pipeline)) (label jl WorkflowTypeLabel)
    (label jl WorkflowActionLabel).

(** The parent of a workflow is a resource request or a Promise. *)
Class ParentKind (PC : Collection UnstructuredSpec UnstructuredStatus) : Prop :=
  parent_kind : PC = parents_coll ∨ PC = promises_coll.
#[global] Instance requests_are_parents : ParentKind parents_coll.
Proof. by left. Qed.
#[global] Instance promises_are_parents : ParentKind promises_coll.
Proof. by right. Qed.

Section parents.
Context (PC : Collection UnstructuredSpec UnstructuredStatus) `{!ParentKind PC}.
Implicit Types c : Cluster.

(** Writing it leaves other kinds alone. *)
Lemma parent_jobs m c : c_jobs (set_coll m c) = c_jobs c.
Proof. by destruct parent_kind as [->| ->]. Qed.
Lemma parent_serviceaccounts m c : c_serviceaccounts (set_coll m c) = c_serviceaccounts c.
Proof. by destruct parent_kind as [->| ->]. Qed.
Lemma parent_works m c : c_works (set_coll m c) = c_works c.
Proof. by destruct parent_kind as [->| ->]. Qed.
End parents.

Section workflow.
Context {S : Type} `{World S, Lib} {PC : Collection UnstructuredSpec UnstructuredStatus}.

(** ** Objects of any kind *)

Definition createObject (o : Object) : M S unit :=
  match o with
  | OServiceAccount o => Create o ;;; ret tt
  | OConfigMap o => Create o ;;; ret tt
  | ORole o => Create o ;;; ret tt
  | ORoleBinding o => Create o ;;; ret tt
  | OClusterRole o => Create o ;;; ret tt
  | OClusterRoleBinding o => Create o ;;; ret tt
  | OJob o => Create o ;;; ret tt
  end.
Definition updateObject (o : Object) : M S unit :=
  match o with
  | OServiceAccount o => Update o ;;; ret tt
  | OConfigMap o => Update o ;;; ret tt
  | ORole o => Update o ;;; ret tt
  | ORoleBinding o => Update o ;;; ret tt
  | OClusterRole o => Update o ;;; ret tt
  | OClusterRoleBinding o => Update o ;;; ret tt
  | OJob o => Update o ;;; ret tt
  end.
Definition deleteObject (o : Object) : M S unit :=
  match o with
  | OServiceAccount o => Delete o
  | OConfigMap o => Delete o
  | ORole o => Delete o
  | ORoleBinding o => Delete o
  | OClusterRole o => Delete o
  | OClusterRoleBinding o => Delete o
  | OJob o => Delete o
  end.

(** An existing service account is updated only when Kratix created it. *)
Definition mayUpdate (o : Object) : M S bool :=
  match o with
  | OServiceAccount sa =>
      let! r := try (Get (Sp:=ServiceAccountSpec) (key sa)) in
      match r with
      | inl _ => ret false
      | inr existing =>
          ret (match GetLabels existing !! PromiseNameLabel with Some _ => true | None => false end)
      end
  | _ => ret true
  end.

(** Errors are only logged. *)
Definition applyResource (o : Object) : M S unit :=
  let! r := try (createObject o) in
  match r with
  | inr _ => ret tt
  | inl e =>
      if IsAlreadyExists e then
        let! ok := mayUpdate o in
        if ok then try (updateObject o) ;;; ret tt else ret tt
      else ret tt
  end.
Definition applyResources (resources : list Object) : M S unit := iterM applyResource resources.

Definition deleteResources (resources : list Object) : M S unit :=
  iterM (λ o, try (deleteObject o) ;;; ret tt) resources.

(** ** rbac.go: what is left over from earlier specs *)

(** A list that fails with NotFound counts as empty. *)
Definition list_or_empty (Sp St : Type) `{Collection Sp St} (lo : ListOptions)
    : M S (list (Resource Sp St)) :=
  let! r := try (List lo) in
  match r with
  | inr l => ret l
  | inl e => if IsNotFound e then ret [] else fail e
  end.

Definition unmatched {A} (matches : A → A → bool) (desired : list A) (existing : list A) : list A :=
  filter (λ e, existsb (matches e) desired = false) existing.

Definition getRolesToDelete (desired : list Role) (lo : ListOptions) : M S (list Object) :=
  let! existing := list_or_empty RoleSpec unit lo in
  ret (ORole <$> unmatched rolesMatch desired existing).
Definition getClusterRolesToDelete (desired : list ClusterRole) (lo : ListOptions)
    : M S (list Object) :=
  let! existing := list_or_empty ClusterRoleSpec unit lo in
  ret (OClusterRole <$> unmatched clusterRolesMatch desired existing).
Definition getRoleBindingsToDelete (desired : list RoleBinding) (lo : ListOptions)
    : M S (list Object) :=
  let! existing := list_or_empty RoleBindingSpec unit lo in
  ret (ORoleBinding <$> unmatched roleBindingsMatch desired existing).
Definition getClusterRoleBindingsToDelete (desired : list ClusterRoleBinding) (lo : ListOptions)
    : M S (list Object) :=
  let! existing := list_or_empty ClusterRoleBindingSpec unit lo in
  ret (OClusterRoleBinding <$> unmatched clusterRoleBindingsMatch desired existing).

Definition getObjectsToDelete (pipeline : PipelineJobResources) : M S (list Object) :=
  let lo := {| lo_namespace := "";
               lo_selector := Some (SelectorFromSet (getPipelineResourcesLabels pipeline)) |} in
  let sh := pjr_shared pipeline in
  let! roles := getRolesToDelete (sh_roles sh) lo in
  let! croles := getClusterRolesToDelete (sh_clusterRoles sh) lo in
  let! rbs := getRoleBindingsToDelete (sh_roleBindings sh) lo in
  let! crbs := getClusterRoleBindingsToDelete (sh_clusterRoleBindings sh) lo in
  ret (roles ++ croles ++ rbs ++ crbs).

(** ** Jobs *)

Definition getJobsWithLabels (jobLabels : Labels) (namespace : string) : M S (list Job) :=
  match labels_Parse (FormatLabels jobLabels) with
  | inl e => fail (ErrorWrap "error parsing labels" e)
  | inr selector => List {| lo_namespace := namespace; lo_selector := Some selector |}
  end.

Definition set_suspend (j : Job) : Job :=
  set_spec {| jsp_suspend := Some true; jsp_backoffLimit := jsp_backoffLimit (r_spec j);
              jsp_template := jsp_template (r_spec j) |} j.
Definition suspendJob (job : Job) : M S unit := Patch job (set_suspend job) ;;; ret tt.

(** Deletes the oldest jobs; the loop stops silently at an error other than
    NotFound. *)
Fixpoint deleteJobs (jobs : list Job) : M S unit :=
  match jobs with
  | [] => ret tt
  | j :: js =>
      let! r := try (Delete j) in
      match r with
      | inl e => if IsNotFound e then deleteJobs js else ret tt
      | inr _ => deleteJobs js
      end
  end.
Definition cleanupJobs (opts : Opts) (jobs : list Job) : M S unit :=
  if bool_decide (length jobs ≤ op_numberOfJobsToKeep opts) then ret tt
  else deleteJobs (take (length jobs - op_numberOfJobsToKeep opts)
                     (SortJobsByCreationDateTime jobs true)).

Definition cleanup (opts : Opts) (parent : Unstructured) (namespace : string) : M S unit :=
  iterM (λ pipeline,
    let l := <[PipelineNameLabel := pjr_name pipeline]> (labelsForAllPipelineJobs pipeline) in
    let! r := try (getJobsWithLabels l namespace) in
    cleanupJobs opts (match r with inl _ => [] | inr jobs => jobs end)) (op_resources opts) ;;;
  let! works := GetWorksByType (op_workflowType opts) parent in
  iterM (λ work : Work,
    if bool_decide (label (GetLabels work) PipelineNameLabel ∈ pjr_name <$> op_resources opts)
    then ret tt else Delete work) works.

(** ** The parent object *)

Definition removeManualReconciliationLabel (parent : Unstructured) : M S Unstructured :=
  Update (SetLabels (base.delete ManualReconciliationLabel (GetLabels parent)) parent).

(** Whether the status was updated, and the object as it is afterwards. *)
Definition setConfigureWorkflowCompletedConditionStatus (opts : Opts) (isTheFirstPipeline : bool)
    (obj : Unstructured) : M S (bool * Unstructured) :=
  if op_skipConditions opts then ret (false, obj)
  else
    let st := GetConfigureWorkflowCompletedConditionStatus obj in
    if bool_decide (st = ConditionTrue ∨ st = ConditionUnknown) then
      let! currentMessage := lift (GetStatus obj "message") in
      let obj := if isTheFirstPipeline || bool_decide (currentMessage = "") ||
                    bool_decide (currentMessage = "Resource requested")
                 then SetStatus obj [JStr "message"; JStr "Pending"] else obj in
      let! obj := MarkConfigureWorkflowAsRunning obj in
      let! obj := MarkReconciledPending obj "WorkflowPending" in
      let! obj := StatusUpdate obj in
      ret (true, obj)
    else ret (false, obj).

Definition createConfigurePipeline (opts : Opts) (parent : Unstructured) (pipelineIndex : nat)
    (resources : PipelineJobResources) : M S (bool * Unstructured) :=
  let! u := setConfigureWorkflowCompletedConditionStatus opts (bool_decide (pipelineIndex = 0)) parent in
  let '(updated, parent) := u in
  if updated : bool then ret (true, parent)
  else
    let! objectsToDelete := getObjectsToDelete resources in
    let! parent := if isManualReconciliation (GetLabels parent)
                   then removeManualReconciliationLabel parent else ret parent in
    deleteResources objectsToDelete ;;;
    applyResources (GetObjects resources ++ [OJob (pjr_job resources)]) ;;;
    Eventf parent "Normal" "PipelineStarted"
      ("Configure Pipeline started: " +:+ pjr_name resources) ;;;
    ret (true, parent).

(** ** ReconcileConfigure *)

(** Marks the parent as failed. *)
Definition failWorkflow (parent : Unstructured) (pipeline : PipelineJobResources)
    : M S (bool * Unstructured) :=
  let! parent := MarkConfigureWorkflowAsFailed parent (pjr_name pipeline) in
  let! parent := MarkReconciledFailing parent ConfigureWorkflowCompletedFailedReason in
  let parent := SetStatus parent [JStr "workflowsFailed"; JInt 1] in
  let! parent := StatusUpdate parent in
  Eventf parent EventTypeWarning ConfigureWorkflowCompletedFailedReason
    ("A Configure Pipeline has failed: " +:+ pjr_name pipeline) ;;;
  ret (true, parent).

(** The counters of succeeded and failed pipelines in the status. *)
Definition updateCounters (parent : Unstructured) (pipelineIndex : nat) : M S Unstructured :=
  let reset := bool_decide (pipelineIndex = 0) &&
               bool_decide (GetWorkflowsCounterStatus parent "workflowsFailed" ≠ 0%Z) in
  let parent := if reset then SetStatus parent [JStr "workflowsFailed"; JInt 0] else parent in
  if reset || bool_decide (GetWorkflowsCounterStatus parent "workflowsSucceeded" ≠ Z.of_nat pipelineIndex)
  then StatusUpdate (SetStatus parent [JStr "workflowsSucceeded"; JInt (Z.of_nat pipelineIndex)])
  else ret parent.

(** What to do with the pipeline whose turn it is. *)
Definition reconcilePipeline (opts : Opts) (parent : Unstructured) (namespace : string)
    (mostRecentJob : option Job) (pipelineIndex : nat) (pipeline : PipelineJobResources)
    : M S (bool * Unstructured) :=
  let manual := isManualReconciliation (GetLabels parent) in
  match mostRecentJob with
  | Some job =>
      if jobIsForPipeline pipeline (Some job) then
        if isRunning (Some job) then
          if manual then suspendJob job ;;; ret (true, parent)
          else ret (true, parent)
        else if manual then createConfigurePipeline opts parent pipelineIndex pipeline
        else if isFailed (Some job) then failWorkflow parent pipeline
        else cleanup opts parent namespace ;;; ret (false, parent)
      else if isRunning (Some job) then
        try (suspendJob job) ;;; ret (true, parent)
      else createConfigurePipeline opts parent pipelineIndex pipeline
  | None => createConfigurePipeline opts parent pipelineIndex pipeline
  end.

(** Returns whether the caller must stop here and wait, and the parent object. *)
Definition ReconcileConfigure (opts : Opts) (parent : Unstructured) : M S (bool * Unstructured) :=
  let namespace := if bool_decide (GetNamespace parent = "") then SystemNamespace
                   else GetNamespace parent in
  let! allJobs := getJobsWithLabels (labelsForJobs opts parent) namespace in
  let! allLegacyJobs := getJobsWithLabels (legacyLabelsForJobs opts parent) namespace in
  let allJobs := allJobs ++ allLegacyJobs in
  let mostRecentJob := head (SortJobsByCreationDateTime allJobs false) in
  let pipelineIndex := nextPipelineIndex opts parent mostRecentJob in
  let! parent := updateCounters parent pipelineIndex in
  let n := length (op_resources opts) in
  let pipelineIndex := if n <=? pipelineIndex then n - 1 else pipelineIndex in
  match op_resources opts !! pipelineIndex with
  | None => ret (false, parent)
  | Some pipeline => reconcilePipeline opts parent namespace mostRecentJob pipelineIndex pipeline
  end.

(** ** ReconcileDelete *)

Definition getMostRecentDeletePipelineJob (namespace : string) (pipeline : PipelineJobResources)
    : M S (option Job) :=
  let! jobs := getJobsWithLabels (getLabelsForPipelineJob pipeline) namespace in
  ret (head (SortJobsByCreationDateTime jobs false)).

Definition createDeletePipeline (parent : Unstructured) (first pipeline : PipelineJobResources)
    : M S (bool * Unstructured) :=
  let! parent := if isManualReconciliation (GetLabels parent)
                 then removeManualReconciliationLabel parent else ret parent in
  applyResources (GetObjects pipeline ++ [OJob (pjr_job pipeline)]) ;;;
  Eventf parent "Normal" "PipelineStarted" ("Delete Pipeline started: " +:+ pjr_name first) ;;;
  ret (true, parent).

Definition ReconcileDelete (opts : Opts) (parent : Unstructured) : M S (bool * Unstructured) :=
  match op_resources opts with
  | [] => ret (false, parent)
  | pipeline :: _ =>
      let manual := isManualReconciliation (GetLabels parent) in
      let! mostRecentJob := getMostRecentDeletePipelineJob (GetNamespace parent) pipeline in
      match mostRecentJob with
      | Some job =>
          if isRunning (Some job) then
            if manual then
              let! r := try (suspendJob job) in
              Eventf parent "Normal" "PipelineSuspended"
                ("Delete Pipeline suspended: " +:+ pjr_name pipeline) ;;;
              match r with inl e => fail e | inr _ => ret (true, parent) end
            else ret (true, parent)
          else if manual then createDeletePipeline parent pipeline pipeline
          else if bool_decide (0 < js_succeeded (r_status job))%Z then ret (false, parent)
          else if bool_decide (0 < js_failed (r_status job))%Z then fail ErrDeletePipelineFailed
          else ret (true, parent)
      | None => createDeletePipeline parent pipeline pipeline
      end
  end.
End workflow.
