(* ===== verification/DynamicController.v ===== *)
(** * The controller for resource requests: [internal/controller/dynamic_resource_request_controller.go]

    One such controller runs per Promise that has an API.  It runs the resource
    workflows of a request, reports on the Works they produced, and cleans up
    when the request is deleted. *)

From S2P Require Import Prelude GoLib Meta Api Kube Client Shared ResourceUtil Promise PromiseStore.
From S2P Require Import StatusUpdater PipelineFactory Workflow.

Definition removeAllWorkflowJobsFinalizer := KratixPrefix +:+ "workflows-cleanup".
Definition runDeleteWorkflowsFinalizer := KratixPrefix +:+ "delete-workflows".
Definition workFinalizer := KratixPrefix +:+ "work-cleanup".
Definition rrFinalizers : list string :=
  [workFinalizer; removeAllWorkflowJobsFinalizer; runDeleteWorkflowsFinalizer].
Definition pauseReconciliationLabel := KratixPrefix +:+ "paused".

(** [time.Time.Format(time.RFC3339)] and [time.Time.Local().String()] *)
Class TimeLib := {
  Format_RFC3339 : Z → string;
  Local_String : Z → string;
}.

(** The controller; the pointers it shares with the Promise controller are read
    when it runs. *)
Record DynamicResourceRequestController := {
  dc_gvk : GVK;
  dc_promiseIdentifier : string;
  dc_uid : string;
  dc_enabled : bool;
  dc_crd : CRD;
  dc_promiseDestinationSelectors : list PromiseScheduling;
  dc_canCreateResources : bool;
  dc_numberOfJobsToKeep : nat;
  dc_reconciliationInterval : Z;
}.

(** [workflow.NewOpts] *)
Definition NewOpts (resources : list PipelineJobResources) (workflowType : string)
    (numberOfJobsToKeep : nat) : Opts := {|
  op_resources := resources; op_workflowType := workflowType;
  op_numberOfJobsToKeep := numberOfJobsToKeep; op_skipConditions := false |}.

(** ** Works by what they report

    The message of the Ready condition decides; a Work without one is dereferenced
    all the same. *)
Record WorksStatus := {
  ws_failed : list string;
  ws_misplaced : list string;
  ws_pending : list string;
  ws_ready : list string;
}.
Definition noWorks : WorksStatus :=
  {| ws_failed := []; ws_misplaced := []; ws_pending := []; ws_ready := [] |}.

Definition add_work (message name : string) (w : WorksStatus) : WorksStatus :=
  if bool_decide (message = "Failing") then
    {| ws_failed := ws_failed w ++ [name]; ws_misplaced := ws_misplaced w;
       ws_pending := ws_pending w; ws_ready := ws_ready w |}
  else if bool_decide (message = "Misplaced") then
    {| ws_failed := ws_failed w; ws_misplaced := ws_misplaced w ++ [name];
       ws_pending := ws_pending w; ws_ready := ws_ready w |}
  else if bool_decide (message = "Pending") then
    {| ws_failed := ws_failed w; ws_misplaced := ws_misplaced w;
       ws_pending := ws_pending w ++ [name]; ws_ready := ws_ready w |}
  else if bool_decide (message = "Ready") then
    {| ws_failed := ws_failed w; ws_misplaced := ws_misplaced w;
       ws_pending := ws_pending w; ws_ready := ws_ready w ++ [name] |}
  else w.

Fixpoint sort_works `{Lib} (works : list Work) (acc : WorksStatus) : outcome WorksStatus :=
  match works with
  | [] => Ok acc
  | work :: rest =>
      match FindStatusCondition (wst_conditions (r_status work)) "Ready" with
      | None => Panicked
      | Some readyCond => sort_works rest (add_work (cond_message readyCond) (GetName work) acc)
      end
  end.

Module DynamicReconciler.
Section controller.
Context {S : Type} `{World S, Lib, PromiseLib, Config, PromiseCodec, TimeLib}.
Implicit Types rr : Unstructured.
Implicit Types r : DynamicResourceRequestController.

(** ** Conditions *)
Definition getWorksStatus r rr : M S WorksStatus :=
  let! works := getExistingWorks (GetNamespace rr)
    (GetWorkLabels (dc_promiseIdentifier r) (GetName rr) "" WorkTypeResource) in
  lift (sort_works works noWorks).

Definition updateReconciledCondition rr : M S (bool * Unstructured) :=
  let worksSucceeded := GetCondition rr WorksSucceededCondition in
  let workflowCompleted := GetCondition rr ConfigureWorkflowCompletedCondition in
  let reconciled := GetCondition rr ReconciledCondition in
  if status_is workflowCompleted ConditionFalse &&
     reason_is workflowCompleted "PipelinesInProgress" then
    if negb (status_is reconciled ConditionUnknown)
    then let! rr := MarkReconciledPending rr "WorkflowPending" in ret (true, rr)
    else ret (false, rr)
  else if status_is workflowCompleted ConditionFalse then
    if negb (status_is reconciled ConditionFalse) ||
       negb (reason_is reconciled ConfigureWorkflowCompletedFailedReason)
    then let! rr := MarkReconciledFailing rr ConfigureWorkflowCompletedFailedReason in ret (true, rr)
    else ret (false, rr)
  else if status_is worksSucceeded ConditionUnknown then
    if negb (status_is reconciled ConditionUnknown)
    then let! rr := MarkReconciledPending rr "WorksPending" in ret (true, rr)
    else ret (false, rr)
  else if status_is worksSucceeded ConditionFalse then
    if negb (status_is reconciled ConditionFalse)
    then let! rr := MarkReconciledFailing rr "WorksFailing" in ret (true, rr)
    else ret (false, rr)
  else if status_is workflowCompleted ConditionTrue && status_is worksSucceeded ConditionTrue then
    if negb (status_is reconciled ConditionTrue) then
      let! rr := MarkReconciledTrue rr in
      Eventf rr EventTypeNormal "ReconcileSucceeded" "Successfully reconciled" ;;;
      ret (true, rr)
    else ret (false, rr)
  else ret (false, rr).

Definition updateWorksSucceededCondition rr (w : WorksStatus) : M S (bool * Unstructured) :=
  let cond := GetCondition rr WorksSucceededCondition in
  if bool_decide (0 < length (ws_failed w)) then
    if bool_decide (cond = None) || status_is cond ConditionTrue then
      let! rr := MarkResourceRequestAsWorksFailed rr (ws_failed w) in
      Eventf rr EventTypeWarning "WorksFailing"
        ("Some works associated with this resource failed: [" +:+
         Strings.Join (ws_failed w) "," +:+ "]") ;;;
      ret (true, rr)
    else ret (false, rr)
  else if bool_decide (0 < length (ws_pending w)) then
    if negb (status_is cond ConditionUnknown)
    then let! rr := MarkResourceRequestAsWorksPending rr (ws_pending w) in ret (true, rr)
    else ret (false, rr)
  else if bool_decide (0 < length (ws_misplaced w)) then
    if negb (status_is cond ConditionFalse) || negb (reason_is cond "WorksMisplaced") then
      let! rr := MarkResourceRequestAsWorksMisplaced rr (ws_misplaced w) in
      Eventf rr EventTypeWarning "WorksMisplaced"
        ("Some works associated with this resource are misplaced: [" +:+
         Strings.Join (ws_misplaced w) "," +:+ "]") ;;;
      ret (true, rr)
    else ret (false, rr)
  else if negb (status_is cond ConditionTrue) then
    let! rr := MarkResourceRequestAsWorksSucceeded rr in
    Eventf rr EventTypeNormal "WorksSucceeded" "All works associated with this resource are ready" ;;;
    ret (true, rr)
  else ret (false, rr).

Definition generateWorkflowsCounterStatus rr (numOfPipelines : Z) : bool * Unstructured :=
  let completedCond := GetCondition rr ConfigureWorkflowCompletedCondition in
  let desiredWorkflowsSucceeded :=
    if status_is completedCond ConditionTrue then numOfPipelines else 0%Z in
  if bool_decide (GetWorkflowsCounterStatus rr "workflows" ≠ numOfPipelines) ||
     bool_decide (GetWorkflowsCounterStatus rr "workflowsSucceeded" ≠ desiredWorkflowsSucceeded)
  then (true, SetStatus rr [JStr "workflows"; JInt numOfPipelines;
                            JStr "workflowsSucceeded"; JInt desiredWorkflowsSucceeded;
                            JStr "workflowsFailed"; JInt 0])
  else (false, rr).

Definition generateResourceStatus r rr (numberOfPipelines : Z) : M S (bool * Unstructured) :=
  let! w := getWorksStatus r rr in
  let! u1 := updateWorksSucceededCondition rr w in
  let '(worksSucceededUpdate, rr) := u1 in
  let! u2 := updateReconciledCondition rr in
  let '(reconciledUpdate, rr) := u2 in
  let '(workflowsCounterStatusUpdate, rr) := generateWorkflowsCounterStatus rr numberOfPipelines in
  ret (worksSucceededUpdate || reconciledUpdate || workflowsCounterStatusUpdate, rr).

Definition updateWorkflowStatusCountersToZero rr : M S unit :=
  if bool_decide (GetWorkflowsCounterStatus rr "workflows" ≠ 0%Z) ||
     bool_decide (GetWorkflowsCounterStatus rr "workflowsSucceeded" ≠ 0%Z) ||
     bool_decide (GetWorkflowsCounterStatus rr "workflowsFailed" ≠ 0%Z)
  then StatusUpdate (SetStatus rr [JStr "workflows"; JInt 0; JStr "workflowsSucceeded"; JInt 0;
                                   JStr "workflowsFailed"; JInt 0]) ;;; ret tt
  else ret tt.

Definition setPausedReconciliationStatusConditions rr : M S unit :=
  match GetCondition rr ReconciledCondition with
  | Some c =>
      if bool_decide (cond_status c ≠ "Unknown") || bool_decide (cond_message c ≠ "Paused")
      then let! rr := MarkReconciledPaused rr in StatusUpdate rr ;;; ret tt
      else ret tt
  | None => let! rr := MarkReconciledPaused rr in StatusUpdate rr ;;; ret tt
  end.

Definition ensurePromiseIsUnavailable rr : M S Result :=
  if negb (IsPromiseMarkedAsUnavailable rr) then
    let! rr := MarkPromiseConditionAsNotAvailable rr in
    StatusUpdate rr ;;; ret noRequeue
  else ret slowRequeue.

Definition ensurePromiseIsAvailable rr : M S Result :=
  let! rr := MarkPromiseConditionAsAvailable rr in
  StatusUpdate rr ;;; ret noRequeue.

Definition updateObservedGeneration rr : M S unit :=
  StatusUpdate (SetStatus rr [JStr "observedGeneration"; JInt (om_generation (r_meta rr))]) ;;; ret tt.

Definition workflowsCompletedSuccessfully (c : option Condition) : bool :=
  status_is c ConditionTrue && reason_is c PipelinesExecutedSuccessfully.

Definition shouldForcePipelineRun (completedCond : option Condition) (reconciliationInterval : Z)
    : M S bool :=
  match completedCond with
  | None => ret false
  | Some c =>
      if bool_decide (cond_status c = ConditionTrue) then
        let! now := Now in
        ret (bool_decide (reconciliationInterval < now - cond_lastTransitionTime c)%Z)
      else ret false
  end.

Definition shouldUpdateLastSuccessfulConfigureWorkflowTime (c : Condition) rr : outcome bool :=
  match GetStatus rr "lastSuccessfulConfigureWorkflowTime" with
  | Ok lastSuccessfulTime =>
      Ok (bool_decide (Format_RFC3339 (cond_lastTransitionTime c) ≠ lastSuccessfulTime))
  | Fail e => Fail e
  | Panicked => Panicked
  end.

Definition updateLastSuccessfulConfigureWorkflowTime (c : Condition) rr : M S Result :=
  StatusUpdate (SetStatus rr [JStr "lastSuccessfulConfigureWorkflowTime";
                              JStr (Format_RFC3339 (cond_lastTransitionTime c))]) ;;;
  ret noRequeue.

(** ** Labels *)
Definition manualReconciliationLabelSet rr : bool :=
  bool_decide (label (GetLabels rr) ManualReconciliationLabel = "true").

Definition updateManualReconciliationLabel rr : M S Result :=
  Update (SetLabels (<[ManualReconciliationLabel := "true"]> (GetLabels rr)) rr) ;;; ret noRequeue.

Definition setPromiseLabels (promiseName : string) rr : M S Result :=
  Update (SetLabels (<[PromiseNameLabel := promiseName]> (GetLabels rr)) rr) ;;; ret noRequeue.

(** ** Deletion *)
Definition remove_finalizer rr (finalizer : string) : Unstructured :=
  SetFinalizers (RemoveFinalizer (GetFinalizers rr) finalizer) rr.

Definition deleteWork r rr (finalizer : string) : M S unit :=
  let! works := GetAllWorksForResource (GetNamespace rr) (dc_promiseIdentifier r) (GetName rr) in
  match works with
  | [] => Update (remove_finalizer rr finalizer) ;;; ret tt
  | _ => iterM (λ work : Work, Delete work) works
  end.

Definition job_labels r rr : Labels :=
  <[WorkflowTypeLabel := WorkflowTypeResource]> (<[ResourceNameLabel := GetName rr]>
    (<[PromiseNameLabel := dc_promiseIdentifier r]> ∅)).
Definition job_legacy_labels r rr : Labels :=
  <[WorkTypeLabel := WorkTypeResource]> (<[ResourceNameLabel := GetName rr]>
    (<[PromiseNameLabel := dc_promiseIdentifier r]> ∅)).

Definition deleteWorkflows r rr (finalizer : string) : M S unit :=
  let! resourcesRemaining := deleteAllResourcesWithKindMatchingLabel JobSpec JobStatus (job_labels r rr) in
  let! legacyResourcesRemaining :=
    deleteAllResourcesWithKindMatchingLabel JobSpec JobStatus (job_legacy_labels r rr) in
  if negb resourcesRemaining || negb legacyResourcesRemaining
  then Update (remove_finalizer rr finalizer) ;;; ret tt
  else ret tt.

Definition run_delete_workflows r (promise : Promise) rr : M S Result :=
  let! pipelineResources := GenerateResourcePipelines promise WorkflowActionDelete rr in
  let! d := try (ReconcileDelete
    (NewOpts pipelineResources "resource" (dc_numberOfJobsToKeep r)) rr) in
  match d with
  | inl e =>
      (if bool_decide (root_cause e = ErrDeletePipelineFailed) then
         Eventf rr "Warning" "Failed Pipeline" "The Delete Pipeline has failed" ;;;
         let! rr := MarkDeleteWorkflowAsFailed rr in
         try (StatusUpdate rr) ;;; ret tt
       else ret tt) ;;;
      fail e
  | inr (requeue, rr) =>
      if requeue : bool then ret defaultRequeue
      else Update (remove_finalizer rr runDeleteWorkflowsFinalizer) ;;; ret noRequeue
  end.

Definition deleteResources r (promise : Promise) rr : M S Result :=
  if FinalizersAreDeleted (GetFinalizers rr) rrFinalizers then ret noRequeue
  else if ContainsFinalizer (GetFinalizers rr) runDeleteWorkflowsFinalizer then
    run_delete_workflows r promise rr
  else if ContainsFinalizer (GetFinalizers rr) workFinalizer then
    deleteWork r rr workFinalizer ;;; ret fastRequeue
  else if ContainsFinalizer (GetFinalizers rr) removeAllWorkflowJobsFinalizer then
    deleteWorkflows r rr removeAllWorkflowJobsFinalizer ;;; ret fastRequeue
  else ret fastRequeue.

(** ** Reconcile *)
Definition nextReconciliation r : Result := {| requeueAfter := dc_reconciliationInterval r |}.

(** After the workflows of the request have completed. *)
Definition report r (promise : Promise) rr (numberOfPipelines : Z) : M S Result :=
  let! observed := lift (GetObservedGeneration rr) in
  if bool_decide (om_generation (r_meta rr) ≠ observed) then
    updateObservedGeneration rr ;;; ret noRequeue
  else if negb (HasPipeline promise WorkflowTypeResource WorkflowActionConfigure) then
    updateWorkflowStatusCountersToZero rr ;;; ret (nextReconciliation r)
  else
    let! u := generateResourceStatus r rr numberOfPipelines in
    let '(statusUpdate, rr) := u in
    if statusUpdate : bool then StatusUpdate rr ;;; ret noRequeue
    else
      match GetCondition rr ConfigureWorkflowCompletedCondition with
      | Some c =>
          if workflowsCompletedSuccessfully (Some c) then
            let! should := lift (shouldUpdateLastSuccessfulConfigureWorkflowTime c rr) in
            if should : bool then updateLastSuccessfulConfigureWorkflowTime c rr
            else ret (nextReconciliation r)
          else ret noRequeue
      | None => ret noRequeue
      end.

Definition configure r (promise : Promise) rr : M S Result :=
  let completedCond := GetCondition rr ConfigureWorkflowCompletedCondition in
  let! force := shouldForcePipelineRun completedCond (dc_reconciliationInterval r) in
  if force && negb (manualReconciliationLabelSet rr) then updateManualReconciliationLabel rr
  else
    let! pipelineResources := GenerateResourcePipelines promise WorkflowActionConfigure rr in
    let n := Z.of_nat (length pipelineResources) in
    if bool_decide (GetWorkflowsCounterStatus rr "workflows" ≠ n) then
      StatusUpdate (SetStatus rr [JStr "workflows"; JInt n]) ;;; ret noRequeue
    else
      let! u := ReconcileConfigure
        (NewOpts pipelineResources "resource" (dc_numberOfJobsToKeep r)) rr in
      let '(abort, rr) := u in
      if abort : bool then ret noRequeue else report r promise rr n.

Definition reconcileRequest r (promise : Promise) rr : M S Result :=
  if bool_decide (label (GetLabels promise) pauseReconciliationLabel = "true") then
    setPausedReconciliationStatusConditions rr ;;; ret noRequeue
  else if bool_decide (label (GetLabels rr) PromiseNameLabel ≠ dc_promiseIdentifier r) then
    setPromiseLabels (GetName promise) rr
  else if deleting rr then deleteResources r promise rr
  else if negb (dc_canCreateResources r) then ensurePromiseIsUnavailable rr
  else if IsPromiseMarkedAsUnavailable rr then ensurePromiseIsAvailable rr
  else if FinalizersAreMissing (GetFinalizers rr)
            [workFinalizer; removeAllWorkflowJobsFinalizer; runDeleteWorkflowsFinalizer] then
    addFinalizers rr [workFinalizer; removeAllWorkflowJobsFinalizer; runDeleteWorkflowsFinalizer]
  else configure r promise rr.

Definition Reconcile r (req : Key) : M S Result :=
  if negb (dc_enabled r) then ret noRequeue
  else
    let! promise := GetPromise ("", dc_promiseIdentifier r) in
    let! g := try (Get (Sp:=UnstructuredSpec) (St:=UnstructuredStatus) req) in
    match g with
    | inl e => if IsNotFound e then ret noRequeue else ret defaultRequeue
    | inr rr => reconcileRequest r promise rr
    end.
End controller.
End DynamicReconciler.
