(* ===== verification/WorkflowPlan.v ===== *)
(** * What a workflow is to do next

    The decision [ReconcileConfigure] takes, as a function of the most recent
    job, and the facts about [nextPipelineIndex] it rests on. *)

From S2P Require Import Prelude GoLib Meta Api Kube Client Shared ResourceUtil Promise Workflow.

(** ** The next pipeline *)

(** [i] is the last pipeline the job belongs to. *)
Definition last_match (resources : list PipelineJobResources) (job : Job) (i : nat) : Prop :=
  (∃ p, resources !! i = Some p ∧ jobIsForPipeline p (Some job) = true) ∧
  ∀ k p, i < k → resources !! k = Some p → jobIsForPipeline p (Some job) = false.

Definition no_match (resources : list PipelineJobResources) (job : Job) : Prop :=
  ∀ p, p ∈ resources → jobIsForPipeline p (Some job) = false.

Definition unfinished (job : Job) : bool := isFailed (Some job) || isRunning (Some job).

Lemma next_index_from_spec resources job n :
  n ≤ length resources →
  (∀ k p, n ≤ k → resources !! k = Some p → jobIsForPipeline p (Some job) = false) →
  (no_match resources job ∧ next_index_from resources job n = 0) ∨
  ∃ i, last_match resources job i ∧
    next_index_from resources job n = if unfinished job then i else S i.
Proof.
induction n as [|n IH]; intros Hn Hafter; cbn [next_index_from].
- left. split; [|done]. intros p [k Hk]%list_elem_of_lookup. apply (Hafter k p); [lia|exact Hk].
- destruct (lookup_lt_is_Some_2 resources n) as [p Hp]; [lia|]. rewrite Hp.
  destruct (jobIsForPipeline p (Some job)) eqn:Hj.
  + right. exists n. split; [|done]. split; [eauto|]. intros k q Hk. by apply Hafter.
  + apply IH; [lia|]. intros k q Hk Hq. destruct (decide (k = n)) as [->|]; [by simplify_eq|].
    apply (Hafter k); [lia|done].
Qed.

(** The pipeline to run next: the first one when there is no job or a manual
    reconciliation is requested; otherwise the one the most recent job belongs
    to while that job is running or failed, and the one after it once it has
    finished; the first one again when the job belongs to no pipeline of the
    workflow.  Where several pipelines match the job the last one counts, and
    the result is at most the number of pipelines. *)
Theorem next_pipeline_index (opts : Opts) (parent : Unstructured) (job : Job) :
  let next := nextPipelineIndex opts parent in
  next None = 0 ∧
  next (Some job) ≤ length (op_resources opts) ∧
  if isManualReconciliation (GetLabels parent) then next (Some job) = 0
  else (no_match (op_resources opts) job ∧ next (Some job) = 0) ∨
       ∃ i, last_match (op_resources opts) job i ∧
         next (Some job) = if unfinished job then i else S i.
Proof.
intros next. subst next. unfold nextPipelineIndex.
destruct (isManualReconciliation _) eqn:Em; [split_and!; [done|lia|done]|].
destruct (next_index_from_spec (op_resources opts) job (length (op_resources opts)))
  as [[Hn ->]|(i & Hi & ->)]; [lia|intros k p Hk Hl%lookup_lt_Some; lia| |].
- split_and!; [done|lia|by left].
- destruct (Hi) as [(p & Hp%lookup_lt_Some & _) _].
  split_and!; [done|destruct (unfinished job); lia|]. right. by exists i.
Qed.

Lemma last_match_unique resources job i k :
  last_match resources job i → last_match resources job k → i = k.
Proof.
intros [(p & Hp & Hj) Ha] [(p' & Hp' & Hj') Ha'].
destruct (lt_eq_lt_dec k i) as [[Hlt|]|Hlt]; [|done|].
- by rewrite (Ha' _ _ Hlt Hp) in Hj.
- by rewrite (Ha _ _ Hlt Hp') in Hj'.
Qed.

Lemma next_after opts parent job i :
  isManualReconciliation (GetLabels parent) = false →
  last_match (op_resources opts) job i →
  nextPipelineIndex opts parent (Some job) = if unfinished job then i else S i.
Proof.
intros Hm Hi. unfold nextPipelineIndex. rewrite Hm.
destruct (next_index_from_spec (op_resources opts) job (length (op_resources opts)))
  as [[Hn _]|(i' & Hi' & ->)]; [lia|intros k p Hk Hl%lookup_lt_Some; lia| |].
- destruct Hi as [(p & Hp%list_elem_of_lookup_2 & Hj) _]. by rewrite Hn in Hj.
- by rewrite (last_match_unique _ _ _ _ Hi Hi').
Qed.

(** ** The decision *)
Inductive WorkflowStep :=
  | Idle  (** there is no pipeline *)
  | Await  (** a job of the pipeline is running *)
  | Suspend (job : Job)
  | Start (i : nat) (p : PipelineJobResources)
  | Halt (p : PipelineJobResources)  (** the pipeline has failed *)
  | Complete.

Definition clamp (n i : nat) : nat := if n <=? i then n - 1 else i.

(** What to do about pipeline [p], whose turn it is. *)
Definition step_for (manual : bool) (mostRecentJob : option Job) (i : nat)
    (p : PipelineJobResources) : WorkflowStep :=
  match mostRecentJob with
  | None => Start i p
  | Some job =>
      match jobIsForPipeline p (Some job), isRunning (Some job), manual, isFailed (Some job) with
      | true, true, false, _ => Await
      | _, true, _, _ => Suspend job
      | true, false, false, true => Halt p
      | true, false, false, false => Complete
      | _, false, _, _ => Start i p
      end
  end.

Definition plan (opts : Opts) (manual : bool) (next : nat) (mostRecentJob : option Job)
    : WorkflowStep :=
  let i := clamp (length (op_resources opts)) next in
  match op_resources opts !! i with
  | None => Idle
  | Some p => step_for manual mostRecentJob i p
  end.

(** A workflow whose newest job is running starts nothing. *)
Lemma plan_running opts manual next job :
  isRunning (Some job) = true →
  plan opts manual next (Some job) = Idle ∨ plan opts manual next (Some job) = Await ∨
  plan opts manual next (Some job) = Suspend job.
Proof.
unfold plan, step_for. intros ->. destruct (_ !! _) as [p|]; [|by left].
destruct (jobIsForPipeline p _), manual, (isFailed (Some job)); auto.
Qed.

(** With one job at a time, the plan follows the pipelines in order: it
    completes only after the last one, and starts [S i] only after [i]. *)
Lemma plan_after opts parent job i :
  isManualReconciliation (GetLabels parent) = false →
  last_match (op_resources opts) job i →
  plan opts false (nextPipelineIndex opts parent (Some job)) (Some job) =
  match op_resources opts !! i with
  | None => Idle
  | Some p =>
    if isRunning (Some job) then Await
    else if isFailed (Some job) then Halt p
    else match op_resources opts !! S i with
         | Some p' => Start (S i) p'
         | None => Complete
         end
  end.
Proof.
intros Hm Hi. rewrite (next_after _ _ _ _ Hm Hi).
destruct Hi as [(p & Hp & Hj) Ha]. rewrite Hp. pose proof (lookup_lt_Some _ _ _ Hp) as Hlt.
unfold plan, step_for, clamp, unfinished. destruct (isRunning (Some job)) eqn:Hr; [|destruct (isFailed (Some job)) eqn:Hf].
- rewrite orb_true_r, (proj2 (Nat.leb_gt _ _) Hlt), Hp, Hj. done.
- cbn [orb]. rewrite (proj2 (Nat.leb_gt _ _) Hlt), Hp, Hj. done.
- cbn [orb]. destruct (op_resources opts !! S i) as [p'|] eqn:Hp'.
  + pose proof (lookup_lt_Some _ _ _ Hp'). rewrite (proj2 (Nat.leb_gt _ _)) by done.
    rewrite Hp', (Ha (S i) p') by (done || lia). done.
  + apply lookup_ge_None in Hp'. rewrite (proj2 (Nat.leb_le _ _)) by done.
    replace (length (op_resources opts) - 1) with i by lia. rewrite Hp, Hj. done.
Qed.
