(* ===== verification/WorkflowFacts.v ===== *)
(** * Configure workflows follow their plan

    [ReconcileConfigure] takes the step [plan] computes from the most recent job
    and has only that step's effect on the jobs of the cluster. *)

From S2P Require Import Prelude GoLib Meta Api Kube Client Shared ResourceUtil Promise Purge.
From S2P Require Import ResourceFacts Frame Workflow WorkflowPlan.

(** ** The jobs a workflow looks at *)
Definition in_namespace (ns : string) (j : Job) : Prop := ns = "" ∨ ns = GetNamespace j.

Definition job_namespace (parent : Unstructured) : string :=
  if bool_decide (GetNamespace parent = "") then SystemNamespace else GetNamespace parent.

(** The stored jobs that carry the labels of the workflow, or the legacy ones. *)
Definition candidate (opts : Opts) (parent : Unstructured) (c : Cluster) (j : Job) : Prop :=
  j ∈ map_values (c_jobs c) ∧ in_namespace (job_namespace parent) j ∧
  (labelsForJobs opts parent ⊆ GetLabels j ∨ legacyLabelsForJobs opts parent ⊆ GetLabels j).

(** [mj] is one of the most recently created candidates, if there is any. *)
Definition newest (opts : Opts) (parent : Unstructured) (c : Cluster) (mj : option Job) : Prop :=
  match mj with
  | None => ∀ j, ¬ candidate opts parent c j
  | Some j => candidate opts parent c j ∧
              ∀ j', candidate opts parent c j' → (created j' ≤ created j)%Z
  end.

(** ** The effect of a step on the jobs *)

(** Every job is as before, or its deletion was requested. *)
Definition only_deletes (m m' : gmap Key Job) : Prop :=
  ∀ k, m' !! k = m !! k ∨
       ∃ j, m !! k = Some j ∧ (m' !! k = None ∨ ∃ t, m' !! k = Some (mark_deleting t j)).

Definition job_effect (step : WorkflowStep) (m m' : gmap Key Job) : Prop :=
  match step with
  | Idle | Await | Halt _ => m' = m
  | Suspend j => m' = m ∨ ∃ gen, m' = put_or_reap (on_update gen j (set_suspend j)) m
  | Start _ p => ∀ k, k ≠ key (pjr_job p) → m' !! k = m !! k
  | Complete => only_deletes m m'
  end.

(** Whether the caller must wait. *)
Definition answer (step : WorkflowStep) : bool :=
  match step with Idle | Complete => false | _ => true end.

(** ** Relations between clusters *)
Definition same_jobs (c c' : Cluster) : Prop := c_jobs c' = c_jobs c.
Definition same_jobs_but (k : Key) (c c' : Cluster) : Prop :=
  ∀ k', k' ≠ k → c_jobs c' !! k' = c_jobs c !! k'.
Definition jobs_only_deleted (c c' : Cluster) : Prop := only_deletes (c_jobs c) (c_jobs c').

#[global] Instance same_jobs_preorder : PreOrder same_jobs.
Proof. split; [done|]. intros a b c. unfold same_jobs. congruence. Qed.
#[global] Instance same_jobs_but_preorder k : PreOrder (same_jobs_but k).
Proof. split; [done|]. intros a b c H1 H2 k' Hk. by rewrite H2, H1. Qed.

Lemma mark_deleting_idem t t' (j : Job) : mark_deleting t' (mark_deleting t j) = mark_deleting t j.
Proof.
unfold mark_deleting. destruct (deleting j) eqn:E; [by rewrite E|done].
Qed.

#[global] Instance jobs_only_deleted_preorder : PreOrder jobs_only_deleted.
Proof.
split; [by left|]. intros a b c H1 H2 k.
destruct (H2 k) as [->|(j & Hj & H3)]; [apply H1|]. right.
destruct (H1 k) as [H1'|(j' & Hj' & [H1'|(t & H1')])].
- exists j. by rewrite <-H1'.
- congruence.
- exists j'. split; [done|]. assert (j = mark_deleting t j') as -> by congruence.
  destruct H3 as [H3|(t' & H3)]; [by left|]. right. exists t. by rewrite mark_deleting_idem in H3.
Qed.

#[global] Hint Extern 1 (Harmless same_jobs _ _) => intros ? ?; reflexivity : typeclass_instances.
#[global] Hint Extern 1 (Harmless (same_jobs_but _) _ _) =>
  intros ? ? ? ?; reflexivity : typeclass_instances.
#[global] Hint Extern 1 (Harmless jobs_only_deleted _ _) =>
  intros ? ? ?; left; reflexivity : typeclass_instances.

(** Writing the parent object touches no job. *)
Section parents.
Context (PC : Collection UnstructuredSpec UnstructuredStatus) `{!ParentKind PC}.
#[export] Instance parents_same_jobs : Harmless same_jobs UnstructuredSpec UnstructuredStatus.
Proof. intros m c. apply (parent_jobs PC). Qed.
#[export] Instance parents_same_jobs_but k :
  Harmless (same_jobs_but k) UnstructuredSpec UnstructuredStatus.
Proof. intros m c k' _. by rewrite (parent_jobs PC). Qed.
#[export] Instance parents_jobs_only_deleted :
  Harmless jobs_only_deleted UnstructuredSpec UnstructuredStatus.
Proof. intros m c k. left. by rewrite (parent_jobs PC). Qed.
End parents.

Section facts.
Context {S : Type} `{World S, Viewed S, !WorldLaws S, Lib, !LibLaws}.
Context {PC : Collection UnstructuredSpec UnstructuredStatus} `{!ParentKind PC}.
Implicit Types s : S.

(** ** Listing *)
Lemma wp_getJobsWithLabels ls ns (Q : outcome (list Job) → S → Prop) s :
  ls ≠ ∅ →
  (∀ l s', view s' = view s →
     (∀ j, j ∈ l ↔ j ∈ map_values (c_jobs (view s)) ∧ in_namespace ns j ∧ ls ⊆ GetLabels j) →
     Q (Ok l) s') →
  (∀ e s', view s' = view s → Q (Fail e) s') →
  wp (getJobsWithLabels ls ns) Q s.
Proof.
intros Hls HO HE. unfold getJobsWithLabels.
destruct (labels_Parse _) as [e|sel] eqn:E; [by apply wp_fail, HE|].
apply wp_List; [|done]. intros l s' Hv Hl. apply HO; [done|]. intros j.
rewrite Hl, list_elem_of_filter. unfold lo_match; cbn.
rewrite (parse_format _ _ Hls E), andb_true_iff, orb_true_iff, !bool_decide_eq_true.
unfold in_namespace. change (om_labels (r_meta j)) with (GetLabels j). tauto.
Qed.

Lemma keeps_getJobsWithLabels R `{!PreOrder R} ls ns : keeps (S:=S) R (getJobsWithLabels ls ns).
Proof. unfold getJobsWithLabels. keeps. Qed.
#[local] Hint Resolve keeps_getJobsWithLabels : keeps.

Lemma labelsForJobs_nonempty opts parent : labelsForJobs opts parent ≠ ∅.
Proof. unfold labelsForJobs. case_match. apply insert_non_empty. Qed.
Lemma legacyLabelsForJobs_nonempty opts parent : legacyLabelsForJobs opts parent ≠ ∅.
Proof. unfold legacyLabelsForJobs. case_match. apply insert_non_empty. Qed.

(** Sorting puts a newest job first. *)
Lemma sort_newest_first (l : list Job) :
  match head (SortJobsByCreationDateTime l false) with
  | None => l = []
  | Some j => j ∈ l ∧ ∀ j', j' ∈ l → (created j' ≤ created j)%Z
  end.
Proof.
unfold SortJobsByCreationDateTime.
set (less := λ i j : Job, bool_decide (created j < created i)%Z). cbn.
pose proof (sort_slice_perm _ less l) as Hp.
assert (StronglySorted (λ x y, - created x ≤ - created y)%Z (sort_Slice less l)) as Hs.
{ apply sort_slice_sorted. intros x y. apply bool_decide_ext. lia. }
change (λ i j : Job, bool_decide (created j < created i)%Z) with less.
destruct (sort_Slice less l) as [|j l'] eqn:E; cbn.
- by apply Permutation_nil_l in Hp.
- split; [rewrite <-Hp; left|]. intros j'. rewrite <-Hp.
  apply StronglySorted_inv in Hs as [_ Hs]. rewrite Forall_forall in Hs.
  intros [->|Hj]%elem_of_cons; [done|]. apply Hs in Hj. lia.
Qed.

(** ** Writing the objects of a pipeline *)
Definition is_job (o : Object) : bool := match o with OJob _ => true | _ => false end.

Lemma keeps_applyResource_other R `{!PreOrder R} o :
  Harmless R ServiceAccountSpec unit → Harmless R ConfigMapSpec unit →
  Harmless R RoleSpec unit → Harmless R RoleBindingSpec unit →
  Harmless R ClusterRoleSpec unit → Harmless R ClusterRoleBindingSpec unit →
  is_job o = false → keeps (S:=S) R (applyResource o).
Proof.
intros. unfold applyResource, mayUpdate, createObject, updateObject. destruct o; [keeps..|done].
Qed.

Lemma keeps_applyResource_job j : keeps (S:=S) (same_jobs_but (key j)) (applyResource (OJob j)).
Proof.
assert (keeps (S:=S) (same_jobs_but (key j)) (Create j)) as HC.
{ intros s. apply wp_Create; simpl.
  - intros uid t gen s' _ -> k Hk. cbn. by rewrite lookup_insert_ne.
  - by intros e s' ->. }
assert (keeps (S:=S) (same_jobs_but (key j)) (Update j)) as HU.
{ intros s. apply wp_Update; simpl.
  - intros old gen s' _ -> k Hk. cbn. unfold put_or_reap.
    case_match; [by rewrite lookup_delete_ne|by rewrite lookup_insert_ne].
  - by intros e s' ->. }
unfold applyResource, mayUpdate. keeps.
Qed.

Lemma GetObjects_not_jobs p o : o ∈ GetObjects p → is_job o = false.
Proof.
unfold GetObjects. rewrite !elem_of_app, !list_elem_of_fmap.
intros [Ho|[Ho|[(?&->&_)|[(?&->&_)|[(?&->&_)|(?&->&_)]]]]]; try done;
  case_match; set_solver.
Qed.

Lemma keeps_applyPipeline p :
  keeps (S:=S) (same_jobs_but (key (pjr_job p))) (applyResources (GetObjects p ++ [OJob (pjr_job p)])).
Proof.
apply keeps_iterM; [exact _|].
intros o [Ho%GetObjects_not_jobs| ->%list_elem_of_singleton]%elem_of_app.
- by apply keeps_applyResource_other; try exact _.
- apply keeps_applyResource_job.
Qed.

(** The leftovers removed before a run are roles and bindings. *)
Lemma keeps_getObjectsToDelete R `{!PreOrder R} p : keeps (S:=S) R (getObjectsToDelete p).
Proof.
unfold getObjectsToDelete, getRolesToDelete, getClusterRolesToDelete, getRoleBindingsToDelete,
  getClusterRoleBindingsToDelete, list_or_empty. keeps.
Qed.
#[local] Hint Resolve keeps_getObjectsToDelete : keeps.

Definition is_rbac (o : Object) : bool :=
  match o with
  | ORole _ | ORoleBinding _ | OClusterRole _ | OClusterRoleBinding _ => true
  | _ => false
  end.

Lemma getObjectsToDelete_rbac p :
  answers (S:=S) (Forall (λ o, is_rbac o = true)) (getObjectsToDelete p).
Proof.
set (P := Forall (λ o, is_rbac o = true)).
assert (∀ {A} (f : A → Object) (m : M S (list A)) g, (∀ a, is_rbac (f a) = true) →
  answers P (let! l := m in ret (f <$> g l))) as Hk.
{ intros A f m g Hf. apply answers_bind. intros l. apply answers_ret, Forall_forall.
  intros o (a & -> & _)%list_elem_of_fmap. auto. }
unfold getObjectsToDelete, getRolesToDelete, getClusterRolesToDelete, getRoleBindingsToDelete,
  getClusterRoleBindingsToDelete.
do 4 (eapply answers_bind_strong; [by apply Hk|intros ? ?]).
apply answers_ret. by repeat apply Forall_app_2.
Qed.

Lemma keeps_deleteResources R `{!PreOrder R} objs :
  Harmless R RoleSpec unit → Harmless R RoleBindingSpec unit →
  Harmless R ClusterRoleSpec unit → Harmless R ClusterRoleBindingSpec unit →
  Forall (λ o, is_rbac o = true) objs → keeps (S:=S) R (deleteResources objs).
Proof.
rewrite Forall_forall. intros ???? Ho. unfold deleteResources. apply keeps_iterM; [exact _|].
intros o Hin%Ho. destruct o; try done; unfold deleteObject; keeps.
Qed.

(** ** Starting a pipeline *)
Definition message_is_string (parent : Unstructured) : Prop := GetStatus parent "message" ≠ Panicked.

Lemma keeps_setConfigureWorkflowCompletedConditionStatus R `{!PreOrder R} opts first parent :
  Harmless R UnstructuredSpec UnstructuredStatus → message_is_string parent →
  keeps (S:=S) R (setConfigureWorkflowCompletedConditionStatus opts first parent).
Proof.
intros HR Hm. unfold setConfigureWorkflowCompletedConditionStatus.
case_match; [keeps|]. case_bool_decide; [|keeps]. apply keeps_lift_bind; [exact _|done|].
intros msg _. unfold MarkConfigureWorkflowAsRunning, MarkReconciledPending. keeps.
Qed.

(** A run that reports having started a pipeline wrote no job but that
    pipeline's. *)
Lemma wp_createConfigurePipeline opts parent i p s :
  message_is_string parent →
  wp (createConfigurePipeline opts parent i p)
    (post (λ r s', r.1 = true ∧ same_jobs_but (key (pjr_job p)) (view s) (view s'))
          (λ _ s', same_jobs_but (key (pjr_job p)) (view s) (view s'))) s.
Proof.
intros Hm. apply keeps_answers.
- unfold createConfigurePipeline. apply keeps_bind; [exact _| |intros [[] parent']].
  + by apply keeps_setConfigureWorkflowCompletedConditionStatus; try exact _.
  + keeps.
  + eapply keeps_bind_answers; [exact _|keeps|apply getObjectsToDelete_rbac|intros objs Ho].
    unfold removeManualReconciliationLabel.
    apply keeps_bind; [exact _|keeps|intros parent''].
    apply keeps_bind; [exact _|by apply keeps_deleteResources; try exact _|intros _].
    apply keeps_bind; [exact _|apply keeps_applyPipeline|intros _]. keeps.
- unfold createConfigurePipeline. apply answers_bind. intros [[] parent']; [by apply answers_ret|].
  answers.
Qed.

(** ** Failing, cleaning up, suspending *)
Lemma wp_failWorkflow_jobs parent p s :
  wp (failWorkflow parent p)
    (post (λ r s', r.1 = true ∧ same_jobs (view s) (view s'))
          (λ _ s', same_jobs (view s) (view s'))) s.
Proof.
apply keeps_answers; unfold failWorkflow, MarkConfigureWorkflowAsFailed, MarkReconciledFailing;
  [keeps|answers].
Qed.

Lemma keeps_Delete_job (j : Job) : keeps (S:=S) jobs_only_deleted (Delete j).
Proof.
intros s. apply wp_Delete; simpl.
- intros old t s' Hold -> k. cbn. unfold on_delete. destruct (decide (k = key j)) as [->|Hk].
  + right. exists old. split; [done|]. case_bool_decide;
      [left; apply lookup_delete_eq|right; exists t; apply lookup_insert_eq].
  + left. case_bool_decide; [by rewrite lookup_delete_ne|by rewrite lookup_insert_ne].
- by intros e s' ->.
Qed.

Lemma keeps_cleanupJobs opts jobs : keeps (S:=S) jobs_only_deleted (cleanupJobs opts jobs).
Proof.
unfold cleanupJobs. case_bool_decide; [keeps|].
generalize (take (length jobs - op_numberOfJobsToKeep opts) (SortJobsByCreationDateTime jobs true)).
intros l. induction l as [|j l IH]; simpl; pose proof (keeps_Delete_job); keeps.
Qed.
#[local] Hint Resolve keeps_cleanupJobs : keeps.

Lemma keeps_cleanup opts parent ns : keeps (S:=S) jobs_only_deleted (cleanup opts parent ns).
Proof. unfold cleanup, GetWorksByType. keeps. Qed.

Lemma wp_suspendJob (j : Job) s :
  c_jobs (view s) !! key j = Some j →
  wp (suspendJob j)
    (post (λ _ s', job_effect (Suspend j) (c_jobs (view s)) (c_jobs (view s')))
          (λ _ s', view s' = view s)) s.
Proof.
intros Hj. unfold suspendJob. apply wp_bind, wp_Patch; [done| |].
- intros gen s' Hv. apply wp_ret. simpl. rewrite Hv. right. by exists gen.
- intros e s' Hv. done.
Qed.

Lemma wp_suspendJob_keeps R `{!PreOrder R} (j : Job) s :
  Harmless R JobSpec JobStatus → c_jobs (view s) !! key j = Some j →
  wp (suspendJob j)
    (post (λ _ s', R (view s) (view s')) (λ _ s', R (view s) (view s'))) s.
Proof.
intros HR Hj. unfold suspendJob. apply wp_bind, wp_Patch; [done| |].
- intros gen s' Hv. apply wp_ret. cbn [post]. rewrite Hv. apply harmless.
- intros e s' Hv. cbn [post]. by rewrite Hv.
Qed.

(** ** One reconciliation *)
Lemma wp_reconcilePipeline opts parent ns mj i p s :
  message_is_string parent →
  (∀ j, mj = Some j → c_jobs (view s) !! key j = Some j) →
  let step := step_for (isManualReconciliation (GetLabels parent)) mj i p in
  let effect s' := job_effect step (c_jobs (view s)) (c_jobs (view s')) in
  wp (reconcilePipeline opts parent ns mj i p)
    (post (λ r s', r.1 = answer step ∧ effect s') (λ _ s', effect s')) s.
Proof.
intros Hm Hstored. unfold reconcilePipeline, step_for.
destruct mj as [j|]; [|by apply wp_createConfigurePipeline].
specialize (Hstored j eq_refl).
destruct (jobIsForPipeline p (Some j)), (isRunning (Some j)),
  (isManualReconciliation (GetLabels parent)).
- apply wp_bind. eapply wp_mono; [by apply wp_suspendJob|].
  intros [x|e|] s' Hs; simpl in Hs; [by apply wp_ret|by left; rewrite Hs|done].
- by apply wp_ret.
- by apply wp_createConfigurePipeline.
- destruct (isFailed (Some j)); [apply wp_failWorkflow_jobs|].
  apply wp_bind. eapply wp_mono; [apply keeps_cleanup|].
  intros [x|e|] s' Hs; [by apply wp_ret|done|done].
- apply wp_bind, wp_try. eapply wp_mono; [by apply wp_suspendJob|].
  intros [x|e|] s' Hs; simpl in Hs; [by apply wp_ret|apply wp_ret|done].
  split; [done|]. by left; rewrite Hs.
- apply wp_bind, wp_try. eapply wp_mono; [by apply wp_suspendJob|].
  intros [x|e|] s' Hs; simpl in Hs; [by apply wp_ret|apply wp_ret|done].
  split; [done|]. by left; rewrite Hs.
- by apply wp_createConfigurePipeline.
- by apply wp_createConfigurePipeline.
Qed.

(** The counters are written back before the pipeline is looked at. *)
Record counted (parent : Unstructured) (i : nat) (c : Cluster) (parent' : Unstructured)
    (c' : Cluster) : Prop := {
  ct_same : ∃ st, parent' = set_status st parent;
  ct_view : c' = set_coll (<[key parent := parent']> (coll c)) c;
  ct_succeeded : GetWorkflowsCounterStatus parent' "workflowsSucceeded" = Z.of_nat i;
  ct_failed : i = 0 → GetWorkflowsCounterStatus parent' "workflowsFailed" = 0%Z;
  ct_fields : ∀ k, k ≠ "workflowsSucceeded" → k ≠ "workflowsFailed" →
    status_field parent' k = status_field parent k;
}.

Lemma counter_set_other rr k k' v :
  k ≠ k' → GetWorkflowsCounterStatus (SetStatus rr [JStr k; v]) k' = GetWorkflowsCounterStatus rr k'.
Proof. intros Hk. unfold GetWorkflowsCounterStatus. by rewrite status_field_set_other. Qed.

Lemma set_status_twice (rr : Unstructured) a b : set_status a (set_status b rr) = set_status a rr.
Proof. done. Qed.

Lemma wp_updateCounters parent i s :
  coll (view s) !! key parent = Some parent →
  wp (updateCounters parent i)
    (post (λ parent' s', counted parent i (view s) parent' (view s'))
          (λ _ s', view s' = view s)) s.
Proof.
intros Hp. unfold updateCounters. set (reset := _ && _).
set (parent1 := if reset then _ else _).
assert (∃ st, parent1 = set_status st parent) as [st1 Hst1].
{ subst parent1. destruct reset; [rewrite SetStatus_one; eauto|]. exists (r_status parent). by destruct parent. }
assert (∀ k, k ≠ "workflowsFailed" → status_field parent1 k = status_field parent k) as Hf1.
{ intros k Hk. subst parent1. destruct reset; [by rewrite status_field_set_other|done]. }
assert (i = 0 → GetWorkflowsCounterStatus parent1 "workflowsFailed" = 0%Z) as Hz.
{ intros ->. clear Hst1 Hf1. subst parent1 reset. cbn [andb].
  destruct (bool_decide (GetWorkflowsCounterStatus _ _ ≠ 0%Z)) eqn:Hc; [apply counter_set_same|].
  by apply bool_decide_eq_false, dec_stable in Hc. }
destruct (reset || _) eqn:E.
- apply wp_StatusUpdate; [|done]. rewrite SetStatus_one, Hst1. change (key (set_status _ _)) with (key parent).
  intros old s' Hold Hv. assert (old = parent) as -> by (change (coll (view s)) with (coll (view s)) in Hold; congruence).
  simpl. change (on_status_update parent _) with
    (set_status (Some (<["workflowsSucceeded" := JInt (Z.of_nat i)]> (default ∅ st1))) parent) in *.
  assert (set_status (Some (<["workflowsSucceeded" := JInt (Z.of_nat i)]> (default ∅ st1))) parent
    = SetStatus parent1 [JStr "workflowsSucceeded"; JInt (Z.of_nat i)]) as ->.
  { by rewrite SetStatus_one, Hst1. }
  split.
  + rewrite SetStatus_one, Hst1. eauto.
  + rewrite Hv. by rewrite SetStatus_one, Hst1.
  + apply counter_set_same.
  + intros Hi. by rewrite counter_set_other, Hz.
  + intros k H1' H2'. rewrite status_field_set_other by done. auto.
- apply orb_false_iff in E as [Hr Hc]. apply bool_decide_eq_false, dec_stable in Hc.
  apply wp_ret. simpl. subst parent1. rewrite Hr in *. split; [eauto| |done|done|done].
  rewrite insert_id by done. symmetry. apply set_coll_coll.
Qed.

Lemma counted_stored parent i c parent' c' :
  counted parent i c parent' c' →
  coll c' !! key parent = Some parent' ∧ c_jobs c' = c_jobs c ∧
  GetLabels parent' = GetLabels parent ∧ key parent' = key parent ∧
  (message_is_string parent → message_is_string parent').
Proof.
intros [[st Hst] -> _ _ Hf]. split_and!; [rewrite coll_set; apply lookup_insert_eq|apply (parent_jobs PC)|by subst|by subst|].
unfold message_is_string, GetStatus. by rewrite Hf.
Qed.

(** The most recent job, the counters, then the pipeline whose turn it is. *)
Lemma wp_ReconcileConfigure opts parent (Q : outcome (bool * Unstructured) → S → Prop) s :
  coll (view s) !! key parent = Some parent →
  (∀ e s', view s' = view s → Q (Fail e) s') →
  (∀ mj parent' s', newest opts parent (view s) mj →
     let next := nextPipelineIndex opts parent mj in
     let i := clamp (length (op_resources opts)) next in
     counted parent next (view s) parent' (view s') →
     match op_resources opts !! i with
     | None => Q (Ok (false, parent')) s'
     | Some p => wp (reconcilePipeline opts parent' (job_namespace parent) mj i p) Q s'
     end) →
  wp (ReconcileConfigure opts parent) Q s.
Proof.
intros Hp HE HO. unfold ReconcileConfigure. fold (job_namespace parent).
apply wp_bind, wp_getJobsWithLabels; [apply labelsForJobs_nonempty| |done].
intros l1 s1 Hv1 Hl1. apply wp_bind, wp_getJobsWithLabels; [apply legacyLabelsForJobs_nonempty| |];
  [|intros e s2 Hv2; apply HE; congruence].
intros l2 s2 Hv2 Hl2. rewrite Hv1 in Hl2, Hv2.
pose proof (sort_newest_first (l1 ++ l2)) as Hs.
set (mj := head _) in *. cbv zeta.
assert (newest opts parent (view s) mj) as Hnew.
{ assert (∀ j, candidate opts parent (view s) j ↔ j ∈ l1 ++ l2) as Hc.
  { intros j. unfold candidate. rewrite elem_of_app, Hl1, Hl2. tauto. }
  unfold newest. destruct mj as [j|].
  - rewrite Hc. split; [apply Hs|]. intros j'. rewrite Hc. apply Hs.
  - intros j. rewrite Hc, Hs. apply not_elem_of_nil. }
apply wp_bind. eapply wp_mono; [apply wp_updateCounters; by rewrite Hv2|].
intros [parent'|e|] s3 Hs3; [|simpl in Hs3; apply HE; congruence|done].
simpl in Hs3. rewrite Hv2 in Hs3. specialize (HO mj parent' s3 Hnew Hs3).
fold (clamp (length (op_resources opts)) (nextPipelineIndex opts parent mj)).
destruct (op_resources opts !! _); [exact HO|apply wp_ret; exact HO].
Qed.

Lemma newest_stored opts parent c mj j :
  keyed (c_jobs c) → newest opts parent c mj → mj = Some j → c_jobs c !! key j = Some j.
Proof.
intros Hk Hn ->. destruct Hn as [[(k & Hj)%elem_of_map_values _] _]. by rewrite (Hk _ _ Hj).
Qed.

Definition planned_effect opts parent (c c' : Cluster) (b : option bool) : Prop :=
  ∃ mj, newest opts parent c mj ∧
    let step := plan opts (isManualReconciliation (GetLabels parent))
                  (nextPipelineIndex opts parent mj) mj in
    (∀ x, b = Some x → x = answer step) ∧ job_effect step (c_jobs c) (c_jobs c').

Lemma wp_ReconcileConfigure_plan opts parent s :
  coll (view s) !! key parent = Some parent → keyed (c_jobs (view s)) →
  message_is_string parent →
  wp (ReconcileConfigure opts parent)
    (post (λ r s', planned_effect opts parent (view s) (view s') (Some r.1))
          (λ _ s', view s' = view s ∨ planned_effect opts parent (view s) (view s') None)) s.
Proof.
intros Hp Hk Hm. apply wp_ReconcileConfigure; [done|by left|].
intros mj parent' s' Hnew next i Hc. apply counted_stored in Hc as (_ & Hj & Hl & _ & Hm').
assert (planned_effect opts parent (view s) (view s') (Some (answer Idle)) ∨
        ∃ p, op_resources opts !! i = Some p) as Hcase.
{ destruct (op_resources opts !! i) as [p|] eqn:E; [eauto|]. left. exists mj.
  split; [done|]. unfold plan. fold next i. rewrite E. split; [by intros x [= <-]|done]. }
destruct (op_resources opts !! i) as [p|] eqn:E.
- eapply wp_mono.
  { apply (wp_reconcilePipeline opts parent' (job_namespace parent) mj i p s'); [auto|].
    intros j Hmj. rewrite Hj. by eapply newest_stored. }
  rewrite Hl, Hj.
  assert (plan opts (isManualReconciliation (GetLabels parent)) next mj =
          step_for (isManualReconciliation (GetLabels parent)) mj i p) as Hplan
    by (unfold plan; fold i; by rewrite E).
  intros [r|e|] s'' Hs; simpl in Hs; [|right|done]; exists mj; fold next; rewrite Hplan;
    (split; [done|split; [|apply Hs]]); [intros x [= <-]; apply Hs|done].
- destruct Hcase as [Hcase|[p Hp']]; [exact Hcase|done].
Qed.


(** Never two jobs at a time: while the newest job of a workflow is running, a
    reconciliation creates no job and deletes none; the only change it may make
    to the jobs is to suspend that one.  It tells the caller to wait, unless the
    workflow has no pipelines. *)
Theorem configure_one_job_at_a_time opts parent job s :
  coll (view s) !! key parent = Some parent → keyed (c_jobs (view s)) →
  message_is_string parent →
  (∀ mj, newest opts parent (view s) mj → mj = Some job) →
  isRunning (Some job) = true →
  let unchanged s' :=
    c_jobs (view s') = c_jobs (view s) ∨
    ∃ gen, c_jobs (view s') = put_or_reap (on_update gen job (set_suspend job)) (c_jobs (view s)) in
  wp (ReconcileConfigure opts parent)
    (post (λ r s', unchanged s' ∧ (r.1 = true ∨ op_resources opts = []))
          (λ _ s', unchanged s')) s.
Proof.
intros Hp Hk Hm Huniq Hrun unchanged.
assert (∀ s' b, planned_effect opts parent (view s) (view s') b →
  unchanged s' ∧ (b = Some false → op_resources opts = [])) as Heff.
{ intros s' b (mj & Hnew & Hb & He). apply Huniq in Hnew as ->.
  destruct (plan_running opts (isManualReconciliation (GetLabels parent))
    (nextPipelineIndex opts parent (Some job)) job Hrun) as [Hpl|[Hpl|Hpl]].
  all: rewrite Hpl in He, Hb; split; [first [by left|exact He]|intros ->].
  - unfold plan, clamp in Hpl. destruct (op_resources opts) as [|p ps] eqn:Eres; [done|exfalso].
    destruct ((p :: ps) !! _) eqn:E; [unfold step_for in Hpl; rewrite Hrun in Hpl; by repeat case_match|].
    apply lookup_ge_None in E. destruct (Nat.leb_spec (length (p :: ps)) (nextPipelineIndex opts parent (Some job))); simpl in *; lia.
  - specialize (Hb _ eq_refl). done.
  - specialize (Hb _ eq_refl). done. }
eapply wp_mono; [by apply wp_ReconcileConfigure_plan|].
intros [[b p']|e|] s' Hs; simpl in *; [|destruct Hs as [Hs|Hs]|done].
- destruct (Heff _ _ Hs) as [Hu Hb]. split; [done|]. destruct b; [by left|right; auto].
- left. by rewrite Hs.
- by eapply Heff.
Qed.
End facts.
