(* ===== verification/WorkflowOrder.v ===== *)
(** * Configure workflows: order, failure, completion *)

From S2P Require Import Prelude GoLib Meta Api Kube Client Shared ResourceUtil Promise Purge.
From S2P Require Import ResourceFacts Frame Workflow WorkflowPlan WorkflowFacts.

Section order.
Context {S : Type} `{World S, Viewed S, !WorldLaws S, Lib, !LibLaws}.
Context {PC : Collection UnstructuredSpec UnstructuredStatus} `{!ParentKind PC}.
Implicit Types s : S.

(** C32: Pipelines run in order.  Without a manual reconciliation, and with the
    newest job belonging to pipeline [i]: while the job runs or has failed no
    job is touched and the caller waits; once it has finished, the only job
    written is that of pipeline [i + 1], or, after the last pipeline, jobs are
    only deleted and the caller is told to go on. *)
Theorem configure_runs_in_order opts parent job i s :
  coll (view s) !! key parent = Some parent → keyed (c_jobs (view s)) →
  message_is_string parent → isManualReconciliation (GetLabels parent) = false →
  (∀ mj, newest opts parent (view s) mj → mj = Some job) →
  last_match (op_resources opts) job i →
  let jobs := c_jobs (view s) in
  wp (ReconcileConfigure opts parent)
    (post (λ r s',
       let jobs' := c_jobs (view s') in
       if unfinished job then r.1 = true ∧ jobs' = jobs
       else match op_resources opts !! Datatypes.S i with
            | Some p => r.1 = true ∧ ∀ k, k ≠ key (pjr_job p) → jobs' !! k = jobs !! k
            | None => r.1 = false ∧ only_deletes jobs jobs'
            end) (λ _ _, True)) s.
Proof.
intros Hp Hk Hm Hman Huniq Hi jobs. eapply wp_mono; [by apply wp_ReconcileConfigure_plan|].
intros [[b p']|e|] s' Hs; [|done|done]. destruct Hs as (mj & Hnew & Hb & He).
apply Huniq in Hnew as ->. specialize (Hb b eq_refl). rewrite Hman in Hb, He.
rewrite (plan_after _ _ _ _ Hman Hi) in Hb, He.
destruct Hi as [(p & Hpi & _) _]. rewrite Hpi in Hb, He. unfold unfinished.
cbn [post fst].
destruct (isRunning (Some job)); [rewrite orb_true_r; done|].
destruct (isFailed (Some job)); [done|]. cbn [orb].
by destruct (op_resources opts !! Datatypes.S i).
Qed.

(** ** Failure *)
Record reported_failed (q : Unstructured) (pipeline : string) : Prop := {
  rf_configure : ∃ c, GetCondition q ConfigureWorkflowCompletedCondition = Some c ∧
    cond_status c = ConditionFalse ∧ cond_reason c = ConfigureWorkflowCompletedFailedReason ∧
    cond_message c = "A Configure Pipeline has failed: " +:+ pipeline;
  rf_reconciled : ∃ c, GetCondition q ReconciledCondition = Some c ∧
    cond_status c = ConditionFalse ∧ cond_reason c = ConfigureWorkflowCompletedFailedReason ∧
    cond_message c = "Failing";
  rf_counter : GetWorkflowsCounterStatus q "workflowsFailed" = 1%Z;
}.

Lemma GetCondition_SetStatus (rr : Unstructured) k v t :
  k ≠ "conditions" → GetCondition (SetStatus rr [JStr k; v]) t = GetCondition rr t.
Proof.
intros Hk. rewrite SetStatus_one. apply conditions_get_field. cbn. by rewrite lookup_insert_ne.
Qed.

Lemma wp_failWorkflow parent p s :
  coll (view s) !! key parent = Some parent →
  wp (failWorkflow parent p)
    (post (λ r s', r.1 = true ∧
             view s' = set_coll (<[key parent := r.2]> (coll (view s))) (view s) ∧
             reported_failed r.2 (pjr_name p) ∧
             ∀ k, k ≠ "conditions" → k ≠ "workflowsFailed" →
               status_field r.2 k = status_field parent k)
          (λ _ s', view s' = view s)) s.
Proof.
intros Hp. unfold failWorkflow. apply wp_bind, wp_mark. intros p1 s1 Hv1 M1.
apply wp_bind, wp_mark. intros p2 s2 Hv2 M2.
assert (key p2 = key parent) as Hkey.
{ unfold key. by rewrite (mk_meta _ _ _ _ _ _ M2), (mk_meta _ _ _ _ _ _ M1). }
cbv zeta. set (p3 := SetStatus p2 _).
assert (set_status (r_status p3) parent = p3) as Hp3.
{ subst p3. rewrite SetStatus_one. clear Hkey. destruct M1 as [Hm1 Hs1 _ _ _], M2 as [Hm2 Hs2 _ _ _].
  rewrite Hm1 in Hm2. rewrite Hs1 in Hs2. destruct p2 as [m2 sp2 st2]. cbn in Hm2, Hs2. by subst. }
assert (key p3 = key parent) as Hkey3 by (subst p3; by rewrite SetStatus_one).
assert (reported_failed p3 (pjr_name p)) as Hrep.
{ subst p3. split.
  - rewrite GetCondition_SetStatus, (mk_cond_others _ _ _ _ _ _ M2) by done.
    apply (mk_cond_set _ _ _ _ _ _ M1).
  - rewrite GetCondition_SetStatus by done. apply (mk_cond_set _ _ _ _ _ _ M2).
  - apply counter_set_same. }
apply wp_bind, wp_StatusUpdate; [|intros e s3 Hv3; simpl; congruence].
rewrite Hkey3. intros old s3 Hold Hv3.
assert (old = parent) as -> by (cbn in Hold; congruence).
unfold on_status_update in *. rewrite Hp3 in *.
apply wp_bind, wp_Eventf. intros s4 Hv4. apply wp_ret. cbn [post fst snd].
split_and!; [done| |done|].
- rewrite Hv4, Hv3, Hv2, Hv1. done.
- intros k Hk1 Hk2. subst p3. rewrite status_field_set_other by done.
  by rewrite (mk_fields _ _ _ _ _ _ M2), (mk_fields _ _ _ _ _ _ M1).
Qed.

(** C38: A failed pipeline is reported.  When the newest job belongs to pipeline
    [i] and has failed, and no manual reconciliation is asked for, a successful
    reconciliation leaves in the stored parent object the condition
    ConfigureWorkflowCompleted=False that names the pipeline, Reconciled=False,
    one failed workflow and [i] succeeded ones, changes no other object, and
    tells the caller to wait. *)
Theorem configure_failure_reported opts parent job i p s :
  coll (view s) !! key parent = Some parent →
  isManualReconciliation (GetLabels parent) = false →
  (∀ mj, newest opts parent (view s) mj → mj = Some job) →
  last_match (op_resources opts) job i → op_resources opts !! i = Some p →
  isRunning (Some job) = false → isFailed (Some job) = true →
  wp (ReconcileConfigure opts parent)
    (post (λ r s', r.1 = true ∧ ∃ q,
             view s' = set_coll (<[key parent := q]> (coll (view s))) (view s) ∧
             reported_failed q (pjr_name p) ∧
             GetWorkflowsCounterStatus q "workflowsSucceeded" = Z.of_nat i) (λ _ _, True)) s.
Proof.
intros Hp Hman Huniq Hi Hpi Hrun Hfail. apply wp_ReconcileConfigure; [done|done|].
intros mj parent' s' ->%Huniq next i' Hc.
assert (plan opts false next (Some job) = Halt p) as Hplan.
{ subst next. rewrite (plan_after _ _ _ _ Hman Hi). by rewrite Hpi, Hrun, Hfail. }
assert (next = i) as Hnext.
{ unfold next. rewrite (next_after _ _ _ _ Hman Hi). unfold unfinished. by rewrite Hfail. }
assert (i' = i) as Hi'.
{ unfold i', clamp. rewrite Hnext. apply lookup_lt_Some in Hpi.
  by rewrite (proj2 (Nat.leb_gt _ _) Hpi). }
rewrite Hi', Hpi. unfold plan in Hplan. fold i' in Hplan. rewrite Hi', Hpi in Hplan.
destruct (counted_stored _ _ _ _ _ Hc) as (Hst & _ & Hl & Hkey & _).
unfold reconcilePipeline. destruct Hi as [(q & Hq & Hj) _].
assert (q = p) as -> by congruence. rewrite Hj, Hrun, Hl, Hman, Hfail.
eapply wp_mono; [apply wp_failWorkflow; by rewrite Hkey|].
intros [[b q]|e|] s'' Hs; [|done|done]. destruct Hs as (Hb & Hv & Hrep & Hf). cbn in *.
split; [done|]. exists q. split_and!; [|done|].
- rewrite Hv, Hkey. rewrite (ct_view _ _ _ _ _ Hc). by rewrite set_coll_set, coll_set, insert_insert_eq.
- pose proof (ct_succeeded _ _ _ _ _ Hc) as Hcount. rewrite Hnext in Hcount.
  unfold GetWorkflowsCounterStatus in *. by rewrite Hf.
Qed.
End order.
