(* ===== verification/WorkflowDelete.v ===== *)
(** * Delete workflows, retention of jobs, and what workflows never touch *)

From S2P Require Import Prelude GoLib Meta Api Kube Client Shared ResourceUtil Promise Purge.
From S2P Require Import ResourceFacts Frame Workflow WorkflowPlan WorkflowFacts.

Section delete.
Context {S : Type} `{World S, Viewed S, !WorldLaws S, Lib, !LibLaws}.
Context {PC : Collection UnstructuredSpec UnstructuredStatus} `{!ParentKind PC}.
Implicit Types s : S.

(** ** The delete pipeline *)

(** The stored jobs of the delete pipeline, and the newest of them. *)
Definition delete_candidate (parent : Unstructured) (p : PipelineJobResources) (c : Cluster)
    (j : Job) : Prop :=
  j ∈ map_values (c_jobs c) ∧ in_namespace (GetNamespace parent) j ∧
  GetLabels (pjr_job p) ⊆ GetLabels j.

Definition delete_newest parent p (c : Cluster) (mj : option Job) : Prop :=
  match mj with
  | None => ∀ j, ¬ delete_candidate parent p c j
  | Some j => delete_candidate parent p c j ∧
              ∀ j', delete_candidate parent p c j' → (created j' ≤ created j)%Z
  end.

Lemma wp_getMostRecentDeletePipelineJob parent p (Q : outcome (option Job) → S → Prop) s :
  GetLabels (pjr_job p) ≠ ∅ →
  (∀ mj s', view s' = view s → delete_newest parent p (view s) mj → Q (Ok mj) s') →
  (∀ e s', view s' = view s → Q (Fail e) s') →
  wp (getMostRecentDeletePipelineJob (GetNamespace parent) p) Q s.
Proof.
intros Hl HO HE. apply wp_bind, wp_getJobsWithLabels; [done| |done].
intros l s' Hv Hin. apply wp_ret, HO; [done|].
pose proof (sort_newest_first l) as Hs. unfold delete_newest, delete_candidate.
destruct (head _) as [j|].
- rewrite <-Hin. split; [apply Hs|]. intros j'. rewrite <-Hin. apply Hs.
- intros j. rewrite <-Hin, Hs. apply not_elem_of_nil.
Qed.

Lemma wp_createDeletePipeline parent first p s :
  wp (createDeletePipeline parent first p)
    (post (λ r s', r.1 = true ∧ same_jobs_but (key (pjr_job p)) (view s) (view s'))
          (λ _ s', same_jobs_but (key (pjr_job p)) (view s) (view s'))) s.
Proof.
apply keeps_answers; unfold createDeletePipeline, removeManualReconciliationLabel.
- apply keeps_bind; [exact _|keeps|intros parent'].
  apply keeps_bind; [exact _|apply keeps_applyPipeline|intros _]. keeps.
- answers.
Qed.

(** What a delete workflow does, by its newest job. *)
Inductive DeleteStep := DAwait | DSuspend (j : Job) | DStart | DDone | DFailed.

Definition delete_plan (manual : bool) (mj : option Job) : DeleteStep :=
  match mj with
  | None => DStart
  | Some j =>
      if isRunning (Some j) then if manual then DSuspend j else DAwait
      else if manual then DStart
      else if bool_decide (0 < js_succeeded (r_status j))%Z then DDone
      else if bool_decide (0 < js_failed (r_status j))%Z then DFailed
      else DAwait
  end.

(** The answer of a step, and its effect on the jobs. *)
Definition delete_effect (p : PipelineJobResources) (step : DeleteStep) (r : error + bool)
    (m m' : gmap Key Job) : Prop :=
  match step with
  | DAwait => r = inr true ∧ m' = m
  | DSuspend j => r ≠ inr false ∧ job_effect (Suspend j) m m'
  | DStart => r ≠ inr false ∧ ∀ k, k ≠ key (pjr_job p) → m' !! k = m !! k
  | DDone => r = inr false ∧ m' = m
  | DFailed => r = inl ErrDeletePipelineFailed ∧ m' = m
  end.

(** "Done" is answered only when the newest job has succeeded. *)
Lemma delete_over p manual mj m m' :
  delete_effect p (delete_plan manual mj) (inr false) m m' →
  ∃ j, mj = Some j ∧ isRunning (Some j) = false ∧ (0 < js_succeeded (r_status j))%Z.
Proof.
destruct mj as [j|]; [|by intros [? _]]. unfold delete_plan.
destruct (isRunning (Some j)) eqn:Er, manual; try by intros [? _].
case_bool_decide; [by exists j|]. by case_bool_decide; intros [? _].
Qed.

(** What a reconciliation of a delete workflow that answers [r] has done. *)
Definition delete_done (opts : Opts) (parent : Unstructured) (c : Cluster) (r : error + bool)
    (c' : Cluster) : Prop :=
  match head (op_resources opts) with
  | None => r = inr false ∧ c' = c
  | Some p => ∃ mj, delete_newest parent p c mj ∧
      delete_effect p (delete_plan (isManualReconciliation (GetLabels parent)) mj) r
        (c_jobs c) (c_jobs c')
  end.

Lemma wp_ReconcileDelete opts parent s :
  keyed (c_jobs (view s)) →
  (∀ p, head (op_resources opts) = Some p → GetLabels (pjr_job p) ≠ ∅) →
  wp (ReconcileDelete opts parent)
    (post (λ r s', delete_done opts parent (view s) (inr r.1) (view s'))
          (λ e s', view s' = view s ∨ delete_done opts parent (view s) (inl e) (view s'))) s.
Proof.
intros Hk Hl. unfold ReconcileDelete, delete_done.
destruct (op_resources opts) as [|p ps] eqn:Eres; [by apply wp_ret|]. cbn [head] in *.
apply wp_bind, wp_getMostRecentDeletePipelineJob; [by apply Hl| |by left].
intros mj s1 Hv Hnew.
set (effect r s' := delete_effect p (delete_plan (isManualReconciliation (GetLabels parent)) mj) r
  (c_jobs (view s)) (c_jobs (view s'))).
eapply wp_mono with (Q := post (λ r s', effect (inr r.1) s') (λ e s', effect (inl e) s'));
  [|intros [r|e|] s' Hs; [by exists mj|right; by exists mj|done]].
assert (∀ j, mj = Some j → c_jobs (view s1) !! key j = Some j) as Hst.
{ intros j ->. rewrite Hv. destruct Hnew as [[(k & Hj)%elem_of_map_values _] _]. by rewrite (Hk _ _ Hj). }
clear Hnew Hl Hk. subst effect. rewrite <-Hv. clear Hv s. unfold delete_plan.
assert (wp (createDeletePipeline parent p p)
  (post (λ r s', delete_effect p DStart (inr r.1) (c_jobs (view s1)) (c_jobs (view s')))
        (λ e s', delete_effect p DStart (inl e) (c_jobs (view s1)) (c_jobs (view s')))) s1) as Hstart.
{ eapply wp_mono; [apply wp_createDeletePipeline|].
  intros [[b q]|e|] s' Hs; [|done|done]. destruct Hs as [Hb Hs]. cbn in Hb. subst b. by split. }
destruct mj as [j|]; [|done]. specialize (Hst j eq_refl).
destruct (isRunning (Some j)), (isManualReconciliation (GetLabels parent)).
- apply wp_bind, wp_try. eapply wp_mono; [by apply wp_suspendJob|].
  intros [x|e|] s' Hs; [| |done]; cbn [post] in Hs;
    (apply wp_bind, wp_Eventf; intros s2 Hv2); [apply wp_ret|apply wp_fail]; cbn [post];
    rewrite Hv2; (split; [done|]); [done|left; by rewrite Hs].
- by apply wp_ret.
- exact Hstart.
- case_bool_decide; [by apply wp_ret|]. case_bool_decide; [by apply wp_fail|by apply wp_ret].
Qed.

(** C37: The delete workflow: nothing to do without pipelines; otherwise only the
    first pipeline counts.  Its job is started when there is none or a manual
    reconciliation is asked for, a running job is waited for (or suspended, for
    a manual reconciliation), a failed one is an error, and the workflow is
    reported complete only when the newest job is no longer running and has
    succeeded.  No job but the pipeline's own is written. *)
Theorem delete_follows_plan opts parent s :
  keyed (c_jobs (view s)) →
  (∀ p, head (op_resources opts) = Some p → GetLabels (pjr_job p) ≠ ∅) →
  wp (ReconcileDelete opts parent)
    (post (λ r s', delete_done opts parent (view s) (inr r.1) (view s'))
          (λ e s', view s' = view s ∨ delete_done opts parent (view s) (inl e) (view s'))) s.
Proof. apply wp_ReconcileDelete. Qed.

(** ** What the delete workflow leaves alone *)
Definition same_parents (c c' : Cluster) : Prop :=
  coll (Collection:=PC) c' = coll c ∧ c_works c' = c_works c.
#[local] Instance same_parents_preorder : PreOrder same_parents.
Proof. split; [done|]. intros a b c [??] [??]. split; congruence. Qed.
#[local] Hint Extern 1 (Harmless same_parents _ _) =>
  (intros ? ?; unfold same_parents; destruct (parent_kind (PC:=PC)) as [E|E]; rewrite E; done)
  : typeclass_instances.

Lemma keeps_applyPipeline_parents p :
  keeps (S:=S) same_parents (applyResources (GetObjects p ++ [OJob (pjr_job p)])).
Proof.
apply keeps_iterM; [exact _|]. intros o _.
unfold applyResource, mayUpdate, createObject, updateObject. destruct o; keeps.
Qed.

(** The parent is stored, with the finalizers of this copy. *)
Definition parent_stored (parent : Unstructured) (c : Cluster) : Prop :=
  ∃ p', coll (Collection:=PC) c !! key parent = Some p' ∧ GetFinalizers p' = GetFinalizers parent.

(** The parent is still stored, with its finalizers; no Work was touched. *)
Definition parent_held (parent : Unstructured) (c c' : Cluster) : Prop :=
  parent_stored parent c' ∧ c_works c' = c_works c.

Lemma parent_held_same parent c c' :
  parent_stored parent c → same_parents c c' → parent_held parent c c'.
Proof. intros Hp [Hc Hw]. split; [unfold parent_stored; by rewrite Hc|done]. Qed.

Lemma parent_stored_self parent c :
  coll (Collection:=PC) c !! key parent = Some parent → parent_stored parent c.
Proof. intros Hp. by exists parent. Qed.

Lemma wp_removeManualReconciliationLabel parent s :
  parent_stored parent (view s) → GetFinalizers parent ≠ [] →
  wp (removeManualReconciliationLabel parent)
    (post (λ _ s', parent_held parent (view s) (view s')) (λ _ s', view s' = view s)) s.
Proof.
intros Hp Hf. apply wp_Update; [|done]. intros old gen s' Hold Hv. cbn [post]. rewrite Hv.
split; [|apply (parent_works PC)]. unfold parent_stored. rewrite coll_set. unfold put_or_reap.
rewrite (bool_decide_false (GetFinalizers _ = [])) by done. rewrite andb_false_r.
eexists. by rewrite lookup_insert_eq.
Qed.

Lemma wp_createDeletePipeline_held parent first p s :
  parent_stored parent (view s) → GetFinalizers parent ≠ [] →
  wp (createDeletePipeline parent first p)
    (post (λ r s', r.1 = true ∧ parent_held parent (view s) (view s'))
          (λ _ s', parent_held parent (view s) (view s'))) s.
Proof.
intros Hp Hf.
assert (∀ c c', parent_held parent (view s) c → same_parents c c' → parent_held parent (view s) c') as Htr.
{ intros c c' [Hh Hw] [Hc Hw']. split; [unfold parent_stored; by rewrite Hc|congruence]. }
assert (parent_held parent (view s) (view s)) as Hrefl by by apply parent_held_same.
unfold createDeletePipeline. apply wp_bind. eapply (wp_mono _ (post (λ _ s', parent_held parent (view s) (view s'))
  (λ _ s', parent_held parent (view s) (view s')))).
{ destruct (isManualReconciliation _); [|by apply wp_ret].
  eapply wp_mono; [by apply wp_removeManualReconciliationLabel|].
  intros [|e|] s' Hs; [done| |done]. cbn [post] in *. by rewrite Hs. }
intros [parent'|e|] s1 Hs1; [|done|done]. cbn [post] in Hs1. apply wp_bind.
eapply wp_mono; [apply keeps_applyPipeline_parents|].
intros [[]|e|] s2 Hs2; [|by eapply Htr|done]. cbn [post] in Hs2.
apply wp_bind, wp_Eventf. intros s3 Hv3. apply wp_ret. split; [done|].
rewrite Hv3. by eapply Htr.
Qed.

Lemma wp_ReconcileDelete_held opts parent s :
  keyed (c_jobs (view s)) →
  (∀ p, head (op_resources opts) = Some p → GetLabels (pjr_job p) ≠ ∅) →
  parent_stored parent (view s) → GetFinalizers parent ≠ [] →
  wp (ReconcileDelete opts parent)
    (post (λ r s', parent_held parent (view s) (view s') ∧
             (r.1 = false → r.2 = parent ∧ view s' = view s))
          (λ _ s', parent_held parent (view s) (view s'))) s.
Proof.
intros Hk Hl Hp Hf.
assert (∀ s', view s' = view s → parent_held parent (view s) (view s')) as Hsame
  by (intros s' Hv; apply parent_held_same; [done|by rewrite Hv]).
unfold ReconcileDelete.
destruct (op_resources opts) as [|p ps]; [apply wp_ret; by split; [apply Hsame|]|].
apply wp_bind, wp_getMostRecentDeletePipelineJob; [by apply Hl| |intros; by apply Hsame].
intros mj s1 Hv Hnew.
assert (wp (createDeletePipeline parent p p)
  (post (λ r s', parent_held parent (view s) (view s') ∧ (r.1 = false → r.2 = parent ∧ view s' = view s))
        (λ _ s', parent_held parent (view s) (view s'))) s1) as Hstart.
{ rewrite <-Hv. eapply wp_mono; [apply wp_createDeletePipeline_held; by rewrite ?Hv|].
  intros [[b q]|e|] s' Hs; [|done|done]. destruct Hs as [Hb Hs]. cbn in Hb. by subst b. }
destruct mj as [j|]; [|done].
assert (c_jobs (view s1) !! key j = Some j) as Hst.
{ rewrite Hv. destruct Hnew as [[(k & Hj)%elem_of_map_values _] _]. by rewrite (Hk _ _ Hj). }
destruct (isRunning (Some j)), (isManualReconciliation (GetLabels parent)).
- apply wp_bind, wp_try. eapply wp_mono; [apply (wp_suspendJob_keeps same_parents); [exact _|done]|].
  intros [x|e|] s' Hs; [| |done]; cbn [post] in Hs; rewrite Hv in Hs;
    (apply wp_bind, wp_Eventf; intros s2 Hv2); [apply wp_ret; cbn [post]; split; [|done]|apply wp_fail; cbn [post]];
    rewrite Hv2; by apply parent_held_same.
- apply wp_ret. split; [by apply Hsame|done].
- exact Hstart.
- case_bool_decide; [apply wp_ret; split; [by apply Hsame|done]|].
  case_bool_decide; [by apply wp_fail, Hsame|apply wp_ret; split; [by apply Hsame|done]].
Qed.

(** ** Retention *)

(** Of the jobs [l], those up to [done] were deleted in order, oldest first. *)
Record retained (keep : nat) (l : list Job) (m m' : gmap Key Job) : Prop := {
  rt_split : ∃ done rest new, l ≡ₚ done ++ rest ++ new ∧ length new = keep `min` length l ∧
    (∀ o n, o ∈ done ++ rest → n ∈ new → (created o ≤ created n)%Z) ∧
    (∀ j, j ∈ done → delete_requested j (m' !! key j)) ∧
    (∀ j, j ∈ rest ++ new → m' !! key j = m !! key j);
  rt_outside : ∀ k, k ∉ key <$> l → m' !! k = m !! k;
}.

Lemma wp_deleteJobs l s :
  NoDup (key <$> l) → (∀ j, j ∈ l → c_jobs (view s) !! key j = Some j) →
  wp (deleteJobs l) (post (λ _ s', ∃ done rest, l = done ++ rest ∧
    (∀ j, j ∈ done → delete_requested j (c_jobs (view s') !! key j)) ∧
    (∀ k, k ∉ key <$> done → c_jobs (view s') !! k = c_jobs (view s) !! k)) (λ _ _, False)) s.
Proof.
revert s. induction l as [|j l IH]; intros s Hnd Hst; cbn [deleteJobs].
{ apply wp_ret. exists [], []. split_and!; [done|set_solver|done]. }
rewrite fmap_cons, NoDup_cons in Hnd. destruct Hnd as [Hni Hnd].
assert (∀ s1, delete_requested j (c_jobs (view s1) !! key j) →
  (∀ k, k ≠ key j → c_jobs (view s1) !! k = c_jobs (view s) !! k) →
  wp (deleteJobs l) (post (λ _ s', ∃ done rest, j :: l = done ++ rest ∧
    (∀ j, j ∈ done → delete_requested j (c_jobs (view s') !! key j)) ∧
    (∀ k, k ∉ key <$> done → c_jobs (view s') !! k = c_jobs (view s) !! k)) (λ _ _, False)) s1) as Hnext.
{ intros s1 Hj Hrest. eapply wp_mono; [apply (IH s1); [done|]|].
  { intros j' Hj'. rewrite Hrest by (intros Heq; apply Hni; rewrite <-Heq; by apply list_elem_of_fmap_2).
    apply Hst. by right. }
  intros [[]|e|] s' Hs; [|done|done]. destruct Hs as (done & rest & -> & Hd & Ho).
  exists (j :: done), rest. split_and!; [done| |].
  - intros j' [->|Hj']%elem_of_cons; [|by apply Hd].
    rewrite Ho; [done|]. intros Hin. apply Hni. rewrite fmap_app. apply elem_of_app. by left.
  - intros k. rewrite fmap_cons, not_elem_of_cons. intros [Hk Hk']. by rewrite Ho, Hrest. }
apply wp_bind, wp_try, wp_Delete.
- intros old t s1 Hold Hv. cbn beta iota.
  assert (old = j) as ->.
  { specialize (Hst j ltac:(left)). cbn in Hold. congruence. }
  destruct (on_delete_requested t j (c_jobs (view s))) as [Hr Ho].
  apply Hnext; rewrite Hv; done.
- intros e s1 Hv Hnf. cbn beta iota. destruct (IsNotFound e) eqn:Enf.
  + specialize (Hst j ltac:(left)). specialize (Hnf eq_refl). cbn in Hnf. congruence.
  + apply wp_ret. exists [], (j :: l). split_and!; [done|set_solver|]. intros. by rewrite Hv.
Qed.

(** Old jobs are removed oldest first.  Cleaning up a list of stored jobs
    never fails; it keeps the configured number of jobs (or all, when there are
    fewer), each at least as recent as every job it tries to delete, leaves the
    kept ones and all other jobs of the cluster untouched, and stops silently at
    the first request that fails. *)
Theorem cleanup_keeps_newest_jobs opts l s :
  NoDup (key <$> l) → (∀ j, j ∈ l → c_jobs (view s) !! key j = Some j) →
  wp (cleanupJobs opts l)
    (post (λ _ s', retained (op_numberOfJobsToKeep opts) l (c_jobs (view s)) (c_jobs (view s')))
          (λ _ _, False)) s.
Proof.
intros Hnd Hst. unfold cleanupJobs. set (n := op_numberOfJobsToKeep opts).
case_bool_decide as Hle.
{ apply wp_ret. split; [|done]. exists [], [], l. split_and!; [done|lia|set_solver|set_solver|done]. }
set (sorted := SortJobsByCreationDateTime l true).
assert (sorted ≡ₚ l) as Hperm by apply sort_slice_perm.
assert (StronglySorted (λ x y, created x ≤ created y)%Z sorted) as Hsorted.
{ apply sort_slice_sorted. by intros x y. }
set (old := take (length l - n) sorted). set (new := drop (length l - n) sorted).
assert (old ++ new = sorted) as Hon by apply take_drop.
assert (NoDup (key <$> old ++ new)) as Hnd' by (rewrite Hon, Hperm; done).
eapply wp_mono; [apply wp_deleteJobs|].
- rewrite fmap_app in Hnd'. by apply NoDup_app in Hnd' as [? _].
- intros j Hj. apply Hst. rewrite <-Hperm, <-Hon. apply elem_of_app. by left.
- intros [[]|e|] s' Hs; [|done|done]. destruct Hs as (done & rest & Hold & Hd & Ho). fold old in Hold.
  rewrite Hold, <-(assoc_L (++)) in Hnd', Hon. split.
  + exists done, rest, new. split_and!.
    * by rewrite Hon.
    * unfold new. rewrite length_drop, Hperm. lia.
    * rewrite <-Hon, (assoc_L (++)) in Hsorted. intros o x Hino Hinx.
      by eapply (StronglySorted_app_1_elem_of (λ x y, created x ≤ created y)%Z).
    * done.
    * intros j Hj. apply Ho. rewrite fmap_app in Hnd'. apply NoDup_app in Hnd' as (_ & Hdisj & _).
      intros Hin. apply (Hdisj _ Hin). by apply list_elem_of_fmap_2.
  + intros k Hk. apply Ho. intros Hin. apply Hk. rewrite <-Hperm, <-Hon, fmap_app.
    apply elem_of_app. by left.
Qed.

(** ** Service accounts Kratix did not create *)
Definition foreign (sa : ServiceAccount) : Prop := GetLabels sa !! PromiseNameLabel = None.
Definition foreign_accounts_kept (c c' : Cluster) : Prop :=
  ∀ k sa, c_serviceaccounts c !! k = Some sa → foreign sa → c_serviceaccounts c' !! k = Some sa.

#[local] Instance foreign_accounts_preorder : PreOrder foreign_accounts_kept.
Proof. split; [by intros c k sa|]. intros a b c H1' H2' k sa Hk Hf. auto. Qed.
#[local] Hint Extern 1 (Harmless foreign_accounts_kept _ _) =>
  (let Hsa := fresh in intros ? ? ? ? Hsa _; exact Hsa) : typeclass_instances.
#[local] Instance parents_foreign_accounts :
  Harmless foreign_accounts_kept UnstructuredSpec UnstructuredStatus.
Proof. intros m c k sa Hsa _. by rewrite (parent_serviceaccounts PC). Qed.

Lemma keeps_applyResource_accounts o :
  keeps (S:=S) foreign_accounts_kept (applyResource o).
Proof.
destruct o as [sa| | | | | |]; try (unfold applyResource, mayUpdate, createObject, updateObject; keeps; fail).
intros s. unfold applyResource, mayUpdate, createObject, updateObject.
apply wp_bind, wp_try, wp_bind, wp_Create.
{ intros uid t gen s1 Hnone Hv. apply wp_ret, wp_ret. cbn [post]. rewrite Hv.
  intros k sa' Hk _. cbn. rewrite lookup_insert_ne; [done|]. intros <-. cbn in Hnone. congruence. }
intros e s1 Hv. destruct (IsAlreadyExists e); [|apply wp_ret; cbn [post]; by rewrite Hv].
apply wp_bind, wp_bind, wp_try, wp_Get; [|intros e' s2 Hv2 _; by apply wp_ret, wp_ret; cbn [post]; rewrite Hv2, Hv].
intros existing s2 Hv2 Hex. apply wp_ret. destruct (GetLabels existing !! PromiseNameLabel) eqn:El;
  [|apply wp_ret; cbn [post]; by rewrite Hv2, Hv].
apply wp_bind, wp_try, wp_bind, wp_Update.
- intros old gen s3 Hold Hv3. apply wp_ret, wp_ret. cbn [post]. rewrite Hv3, Hv2, Hv.
  intros k sa' Hk Hf. cbn. unfold put_or_reap, on_update; cbn.
  destruct (decide (k = key sa)) as [->|Hne].
  + cbn in Hex. rewrite Hv in Hex. unfold foreign in Hf. congruence.
  + change (key (mkResource _ _ _)) with (key sa).
    case_match; [by rewrite lookup_delete_ne|by rewrite lookup_insert_ne].
- intros e' s3 Hv3. apply wp_ret. cbn [post]. by rewrite Hv3, Hv2, Hv.
Qed.

Lemma keeps_applyResources_accounts objs :
  keeps (S:=S) foreign_accounts_kept (applyResources objs).
Proof. apply keeps_iterM; [exact _|]. intros o _. apply keeps_applyResource_accounts. Qed.
#[local] Hint Resolve keeps_applyResources_accounts : keeps.

Lemma keeps_createConfigurePipeline_accounts opts parent i p :
  message_is_string parent →
  keeps (S:=S) foreign_accounts_kept (createConfigurePipeline opts parent i p).
Proof.
intros Hm. unfold createConfigurePipeline. apply keeps_bind; [exact _| |intros [[] parent']].
- by apply keeps_setConfigureWorkflowCompletedConditionStatus; try exact _.
- keeps.
- eapply keeps_bind_answers; [exact _|apply keeps_getObjectsToDelete; exact _|apply getObjectsToDelete_rbac|].
  intros objs Ho. pose proof (keeps_deleteResources foreign_accounts_kept objs) as Hd.
  unfold removeManualReconciliationLabel.
  apply keeps_bind; [exact _|keeps|intros parent''].
  apply keeps_bind; [exact _|by apply Hd; try exact _|intros _]. keeps.
Qed.

Lemma keeps_cleanup_accounts opts parent ns :
  keeps (S:=S) foreign_accounts_kept (cleanup opts parent ns).
Proof.
assert (∀ l, keeps (S:=S) foreign_accounts_kept (deleteJobs l)) as Hd
  by (induction l; cbn [deleteJobs]; keeps).
assert (∀ jobs, keeps (S:=S) foreign_accounts_kept (cleanupJobs opts jobs)) as Hc
  by (intros jobs; unfold cleanupJobs; keeps).
unfold cleanup, GetWorksByType. keeps.
apply keeps_getJobsWithLabels; exact _.
Qed.

(** Ends a branch that changes nothing more. *)
Local Ltac finish := first [apply wp_ret | apply wp_fail]; cbn [post] in *; done.

(** The two programs, once the newest job is known. *)
Lemma wp_reconcilePipeline_accounts opts parent ns mj i p s :
  message_is_string parent → (∀ j, mj = Some j → c_jobs (view s) !! key j = Some j) →
  wp (reconcilePipeline opts parent ns mj i p)
    (post (λ _ s', foreign_accounts_kept (view s) (view s'))
          (λ _ s', foreign_accounts_kept (view s) (view s'))) s.
Proof.
intros Hm Hst. unfold reconcilePipeline.
destruct mj as [j|]; [specialize (Hst j eq_refl)|by apply keeps_createConfigurePipeline_accounts].
assert (wp (suspendJob j) (post (λ _ s', foreign_accounts_kept (view s) (view s'))
    (λ _ s', foreign_accounts_kept (view s) (view s'))) s) as Hsus
  by (by apply wp_suspendJob_keeps; try exact _).
destruct (jobIsForPipeline p (Some j)), (isRunning (Some j)).
- destruct (isManualReconciliation _); [|finish].
  apply wp_bind. eapply wp_mono; [exact Hsus|]. intros [] s' Hs; [finish|exact Hs..].
- destruct (isManualReconciliation _); [by apply keeps_createConfigurePipeline_accounts|].
  destruct (isFailed (Some j)).
  + unfold failWorkflow, MarkConfigureWorkflowAsFailed, MarkReconciledFailing. revert s Hst Hsus.
    intros s _ _. revert s. change (keeps (S:=S) foreign_accounts_kept (failWorkflow parent p)).
    unfold failWorkflow, MarkConfigureWorkflowAsFailed, MarkReconciledFailing. keeps.
  + revert s Hst Hsus. intros s _ _. apply (keeps_bind foreign_accounts_kept);
      [apply keeps_cleanup_accounts|intros; keeps].
- apply wp_bind, wp_try. eapply wp_mono; [exact Hsus|]. intros [] s' Hs; [finish..|exact Hs].
- by apply keeps_createConfigurePipeline_accounts.
Qed.

(** A service account that Kratix did not create (one without the promise
    label) is never changed or removed by a workflow: neither reconciling a
    configure workflow nor a delete workflow touches it, on any branch and also
    when the call fails, even when a pipeline asks for an account of the same
    name. *)
Theorem foreign_service_accounts_kept opts parent s :
  keyed (c_jobs (view s)) → coll (view s) !! key parent = Some parent →
  message_is_string parent →
  (∀ p, head (op_resources opts) = Some p → GetLabels (pjr_job p) ≠ ∅) →
  let kept := λ r s', r ≠ Panicked ∧ foreign_accounts_kept (view s) (view s') in
  wp (ReconcileConfigure opts parent) kept s ∧ wp (ReconcileDelete opts parent) kept s.
Proof.
intros Hk Hp Hm Hl kept.
assert (∀ (m : M S (bool * Unstructured)) s1, foreign_accounts_kept (view s) (view s1) →
  wp m (post (λ _ s', foreign_accounts_kept (view s1) (view s'))
             (λ _ s', foreign_accounts_kept (view s1) (view s'))) s1 → wp m kept s1) as Hpost.
{ intros m s1 H01 Hwp. eapply wp_mono; [exact Hwp|].
  intros [r|e|] s' Hs; cbn [post] in Hs; [split; [done|by etrans]..|done]. }
split.
- apply wp_ReconcileConfigure; [done|intros e s' Hv; split; [done|by rewrite Hv]|].
  intros mj parent' s' Hnew next i Hc.
  assert (foreign_accounts_kept (view s) (view s')) as H01
    by (rewrite (ct_view _ _ _ _ _ Hc); intros k sa Hsa _; by rewrite (parent_serviceaccounts PC)).
  apply counted_stored in Hc as (_ & Hj & _ & _ & Hm').
  destruct (op_resources opts !! i); [|by split].
  apply Hpost; [done|]. apply wp_reconcilePipeline_accounts; [by apply Hm'|].
  intros j Hmj. rewrite Hj. by eapply newest_stored.
- unfold ReconcileDelete. destruct (op_resources opts) as [|p ps]; [finish|].
  apply wp_bind, wp_getMostRecentDeletePipelineJob; [by apply Hl| |].
  2:{ intros e s' Hv. split; [done|by rewrite Hv]. }
  intros mj s1 Hv Hnew. apply Hpost; [by rewrite Hv|].
  assert (wp (createDeletePipeline parent p p)
    (post (λ _ s', foreign_accounts_kept (view s1) (view s'))
          (λ _ s', foreign_accounts_kept (view s1) (view s'))) s1) as Hstart.
  { revert s1 Hv Hnew. intros s1 _ _. revert s1.
    change (keeps (S:=S) foreign_accounts_kept (createDeletePipeline parent p p)).
    unfold createDeletePipeline, removeManualReconciliationLabel. keeps. }
  destruct mj as [j|]; [|exact Hstart].
  assert (c_jobs (view s1) !! key j = Some j) as Hst.
  { rewrite Hv. destruct Hnew as [[(k & Hj)%elem_of_map_values _] _]. by rewrite (Hk _ _ Hj). }
  destruct (isRunning (Some j)), (isManualReconciliation _); [|finish|exact Hstart|].
  + apply wp_bind, wp_try. eapply wp_mono; [by apply (wp_suspendJob_keeps foreign_accounts_kept); try exact _|].
    intros [] s' Hs; [| |exact Hs]; (apply wp_bind, wp_Eventf; intros s2 Hv2);
      [apply wp_ret|apply wp_fail]; cbn [post] in *; by rewrite Hv2.
  + case_bool_decide; [finish|]. case_bool_decide; [finish|finish].
Qed.
End delete.
