(* ===== verification/WorkflowWitness.v ===== *)
(** * Workflows on concrete clusters

    A workflow of two pipelines for the resource request [default/db], with one
    job in the states the properties speak about. *)

From S2P Require Import Prelude GoLib Meta Api Kube Client Sim Shared ResourceUtil Promise Purge.
From S2P Require Import ResourceFacts Frame Workflow WorkflowPlan WorkflowFacts WorkflowOrder.
From S2P Require Import WorkflowDelete.

Definition job_labels (pipeline : string) : Labels :=
  list_to_map [(WorkflowTypeLabel, "resource"); (PromiseNameLabel, "redis");
               (ResourceNameLabel, "db"); (PipelineNameLabel, pipeline);
               (KratixResourceHashLabel, "hash"); (WorkflowActionLabel, "configure")].

Definition no_pod : PodTemplate := {|
  pt_labels := ∅; pt_annotations := ∅;
  pt_spec := {| pod_restartPolicy := ""; pod_serviceAccountName := ""; pod_containers := [];
    pod_imagePullSecrets := []; pod_initContainers := []; pod_volumes := [];
    pod_nodeSelector := ∅; pod_tolerations := [] |} |}.

Definition job_of (pipeline name : string) (conditions : list JobCondition) : Job :=
  mkResource (om_set_labels (job_labels pipeline) (new_meta "default" name))
    {| jsp_suspend := None; jsp_backoffLimit := None; jsp_template := no_pod |}
    {| js_active := 0; js_succeeded := 0; js_failed := 0; js_conditions := conditions |}.

Definition sa_of (name : string) (ls : Labels) : ServiceAccount :=
  mkResource (om_set_labels ls (new_meta "default" name)) SASpec tt.

Definition pipeline_of (name jobName : string) : PipelineJobResources := {|
  pjr_name := name; pjr_pipelineID := name; pjr_job := job_of name jobName [];
  pjr_shared := {| sh_serviceAccount := Some (sa_of "runner" {[PromiseNameLabel := "redis"]});
    sh_configMap := None; sh_roles := []; sh_roleBindings := []; sh_clusterRoles := [];
    sh_clusterRoleBindings := [] |};
  pjr_workflowType := "resource"; pjr_workflowAction := "configure" |}.

Definition two_pipelines : Opts := {|
  op_resources := [pipeline_of "first" "first-1"; pipeline_of "second" "second-1"];
  op_workflowType := "resource"; op_numberOfJobsToKeep := 1; op_skipConditions := false |}.

Definition request : Unstructured :=
  mkResource (om_set_labels {[PromiseNameLabel := "redis"]} (new_meta "default" "db"))
    {| us_kind := "Redis"; us_apiVersion := "example.com/v1"; us_spec := JObj [] |} None.

Definition own_account : ServiceAccount := sa_of "runner" ∅.

Definition with_jobs (jobs : list Job) : Sim := sim_of {|
  c_works := ∅; c_workplacements := ∅; c_destinations := ∅; c_jobs := of_list jobs;
  c_parents := of_list [request]; c_serviceaccounts := of_list [own_account]; c_configmaps := ∅;
  c_roles := ∅; c_rolebindings := ∅; c_clusterroles := ∅; c_clusterrolebindings := ∅;
  c_bucketstores := ∅; c_gitstores := ∅; c_secrets := ∅; c_releases := ∅; c_healthrecords := ∅;
  c_promises := ∅; c_crds := ∅ |}.

Definition running_job : Job := job_of "first" "first-0" [].
Definition failed_job : Job := job_of "first" "first-0" [{| jc_type := JobFailed; jc_status := "True" |}].
Definition finished_job : Job :=
  job_of "first" "first-0" [{| jc_type := JobComplete; jc_status := "True" |}].

(** With a single stored job that carries the labels, it is the newest one. *)
Lemma only_job_newest opts parent (j : Job) c :
  c_jobs c = {[key j := j]} → in_namespace (job_namespace parent) j →
  labelsForJobs opts parent ⊆ GetLabels j →
  ∀ mj, newest opts parent c mj → mj = Some j.
Proof.
intros Hc Hns Hl mj Hn.
assert (map_values (c_jobs c) = [j]) as Hv by (unfold map_values; by rewrite Hc, map_to_list_singleton).
destruct mj as [j'|]; simpl in Hn.
- destruct Hn as [[Hin _] _]. rewrite Hv in Hin. apply list_elem_of_singleton in Hin. by subst.
- exfalso. apply (Hn j). split_and!; [rewrite Hv; by left|done|by left].
Qed.

Lemma request_stored jobs : c_parents (view (with_jobs jobs)) !! key request = Some request.
Proof. vm_compute. reflexivity. Qed.
Lemma jobs_keyed jobs : keyed (c_jobs (view (with_jobs jobs))).
Proof. apply of_list_keyed. Qed.
Lemma request_message : message_is_string request.
Proof. vm_compute. discriminate. Qed.
Lemma request_automatic : isManualReconciliation (GetLabels request) = false.
Proof. vm_compute. reflexivity. Qed.

Lemma labels_selected : labelsForJobs two_pipelines request ⊆ job_labels "first".
Proof. apply (bool_decide_unpack _). vm_compute. exact I. Qed.

Lemma first_job_newest conditions mj :
  let j := job_of "first" "first-0" conditions in
  newest two_pipelines request (view (with_jobs [j])) mj → mj = Some j.
Proof.
intros j. apply only_job_newest; [reflexivity|by right|apply labels_selected].
Qed.


Lemma configure_one_job_at_a_time_witness :
  let s := with_jobs [running_job] in
  let run := ReconcileConfigure two_pipelines request s in
  isRunning (Some running_job) = true ∧
  ∃ r, run.1 = Ok r ∧ r.1 = true ∧
    (c_jobs (view run.2) = c_jobs (view s) ∨
     ∃ gen, c_jobs (view run.2) =
       put_or_reap (on_update gen running_job (set_suspend running_job)) (c_jobs (view s))).
Proof.
cbv zeta. split; [done|].
pose proof (first_job_newest (js_conditions (r_status running_job))) as Hnew.
pose proof (configure_one_job_at_a_time two_pipelines request running_job (with_jobs [running_job])
  (request_stored _) (jobs_keyed _) request_message Hnew eq_refl) as Hwp.
read_off Hwp.
destruct Hwp as (r & Hr & Hu & [Hb|Hn]); [|discriminate Hn]. exists r. exact (conj Hr (conj Hb Hu)).
Defined.

Lemma first_matches job :
  GetLabels job = job_labels "first" → last_match (op_resources two_pipelines) job 0.
Proof.
intros Hj. unfold last_match, jobIsForPipeline. rewrite Hj. split.
- eexists; split; [reflexivity|vm_compute; reflexivity].
- intros [|[|k]] p; [lia| |done]. intros _ [= <-]. vm_compute. reflexivity.
Qed.

Lemma configure_runs_in_order_witness :
  let s := with_jobs [finished_job] in
  let run := ReconcileConfigure two_pipelines request s in
  ∃ r, run.1 = Ok r ∧ r.1 = true ∧
    ∀ k, k ≠ ("default", "second-1") → c_jobs (view run.2) !! k = c_jobs (view s) !! k.
Proof.
cbv zeta.
pose proof (first_job_newest (js_conditions (r_status finished_job))) as Hnew.
pose proof (configure_runs_in_order two_pipelines request finished_job 0 (with_jobs [finished_job])
  (request_stored _) (jobs_keyed _) request_message request_automatic Hnew
  (first_matches finished_job eq_refl)) as Hwp.
read_off Hwp. destruct Hwp as (r & Hr & Hp). exists r. split; [exact Hr|exact Hp].
Defined.

Lemma configure_failure_reported_witness :
  let s := with_jobs [failed_job] in
  let run := ReconcileConfigure two_pipelines request s in
  ∃ r, run.1 = Ok r ∧ r.1 = true ∧ ∃ q,
    view run.2 = set_coll (<[key request := q]> (c_parents (view s))) (view s) ∧
    reported_failed q "first" ∧ GetWorkflowsCounterStatus q "workflowsSucceeded" = 0%Z.
Proof.
cbv zeta.
pose proof (first_job_newest (js_conditions (r_status failed_job))) as Hnew.
pose proof (configure_failure_reported two_pipelines request failed_job 0
  (pipeline_of "first" "first-1") (with_jobs [failed_job]) (request_stored _)
  request_automatic Hnew
  (first_matches failed_job eq_refl) eq_refl eq_refl eq_refl) as Hwp.
read_off Hwp. destruct Hwp as (r & Hr & Hp). exists r. split; [exact Hr|exact Hp].
Defined.

Lemma delete_follows_plan_witness :
  let s := with_jobs [] in
  let run := ReconcileDelete two_pipelines request s in
  ∃ r, run.1 = Ok r ∧ ∃ mj, delete_newest request (pipeline_of "first" "first-1") (view s) mj ∧
    delete_effect (pipeline_of "first" "first-1") (delete_plan false mj) (inr r.1)
      (c_jobs (view s)) (c_jobs (view run.2)).
Proof.
cbv zeta. pose proof (delete_follows_plan two_pipelines request (with_jobs [])
  (jobs_keyed _) ltac:(intros p [= <-]; by apply insert_non_empty)) as Hwp.
read_off Hwp. destruct Hwp as (r & Hr & Hp). exists r. split; [exact Hr|exact Hp].
Defined.

Lemma foreign_service_accounts_kept_witness :
  let s := with_jobs [] in
  foreign own_account ∧
  let run := ReconcileConfigure two_pipelines request s in
  foreign_accounts_kept (view s) (view run.2) ∧
  foreign_accounts_kept (view s) (view (ReconcileDelete two_pipelines request s).2).
Proof.
cbv zeta. split; [reflexivity|].
destruct (foreign_service_accounts_kept (PC:=parents_coll) two_pipelines request (with_jobs [])
  (jobs_keyed _) (request_stored _) request_message
  ltac:(intros p [= <-]; by apply insert_non_empty)) as [H1 H2].
read_off H1. read_off H2. destruct H1 as (r1 & _ & _ & H1), H2 as (r2 & _ & _ & H2).
exact (conj H1 H2).
Defined.

Definition old_jobs : list Job :=
  [job_of "first" "a" []; job_of "first" "b" []; job_of "first" "c" []].

Lemma cleanup_keeps_newest_jobs_witness :
  let s := with_jobs old_jobs in
  retained 1 old_jobs (c_jobs (view s)) (c_jobs (view (cleanupJobs two_pipelines old_jobs s).2)).
Proof.
cbv zeta.
assert (NoDup (key <$> old_jobs)) as Hnd by (apply (bool_decide_unpack _); vm_compute; exact I).
assert (∀ j, j ∈ old_jobs → c_jobs (view (with_jobs old_jobs)) !! key j = Some j) as Hst.
{ intros j Hj. repeat (apply elem_of_cons in Hj as [->|Hj]; [vm_compute; reflexivity|]).
  by apply elem_of_nil in Hj. }
pose proof (cleanup_keeps_newest_jobs two_pipelines old_jobs (with_jobs old_jobs) Hnd Hst) as Hwp.
read_off Hwp. destruct Hwp as (r & _ & Hp). exact Hp.
Defined.

Lemma generated_name_fits_witness :
  GenerateDeterministicObjectName "redis-" = Ok "redis-redis" ∧ String.length "redis-redis" ≤ 63.
Proof.
split; [vm_compute; reflexivity|]. exact (proj1 (generated_name_fits "redis-")).
Defined.
