(* ===== verification/FactoryFacts.v ===== *)
(** * Facts about the objects generated for a pipeline *)

From S2P Require Import Prelude GoLib Meta Api Kube Client Sim Shared ResourceUtil Promise.
From S2P Require Import PromiseFacts.
From S2P Require Import PipelineFactory ResourceFacts Frame Workflow WorkflowPlan WorkflowFacts.

(** ** Labels of the job *)

(** [parent] is the object whose workflow the factory builds. *)
Definition parent_of (f : PipelineFactory) (parent : Unstructured) : Prop :=
  if pf_resourceWorkflow f
  then pf_resourceRequest f = Some parent ∧ pf_workflowType f = WorkflowTypeResource ∧
       label (GetLabels parent) PromiseNameLabel = GetName (pf_promise f)
  else GetName parent = GetName (pf_promise f) ∧ pf_workflowType f = WorkflowTypePromise.

(** The author of the pipeline did not set the labels Kratix uses. *)
Definition leaves_labels (f : PipelineFactory) : Prop :=
  ∀ k, k ∈ [WorkflowTypeLabel; ResourceNameLabel; PromiseNameLabel] →
    om_labels (pl_meta (pf_pipeline f)) !! k = None.

Section labels.
Context `{Lib, !LibLaws}.

Lemma job_label f sha k v :
  leaves_labels f → k ∈ [WorkflowTypeLabel; ResourceNameLabel; PromiseNameLabel] →
  (match pf_resourceWorkflow f, pf_resourceRequest f with
   | true, Some rr => resourceNameLabel (GetName rr)
   | _, _ => ∅
   end ∪ managedByKratixLabel ∪
   workflowLabels (pf_workflowType f) (pf_workflowAction f) (pl_name (pf_pipeline f)) ∪
   promiseNameLabel (GetName (pf_promise f))) !! k = Some v →
  pipelineJobLabels f sha !! k = Some v.
Proof.
intros Hl Hk Hv. unfold pipelineJobLabels. rewrite !merge_spec, lookup_union_r by (by apply Hl).
assert (k ≠ KratixResourceHashLabel) as Hne by (intros ->; set_unfold in Hk; naive_solver).
assert (∀ m : Labels, (if bool_decide (sha ≠ "") then <[KratixResourceHashLabel := sha]> m else m) !! k = m !! k)
  as -> by (intros m; case_bool_decide; [by rewrite lookup_insert_ne|done]).
rewrite <-Hv. rewrite !(assoc_L (∪)).
destruct (pf_resourceWorkflow f), (pf_resourceRequest f); rewrite ?merge_spec, ?(left_id_L ∅ (∪)), ?(assoc_L (∪)); done.
Qed.

Lemma workflowLabels_type t a p : t ≠ "" → workflowLabels t a p !! WorkflowTypeLabel = Some t.
Proof.
intros Ht. unfold workflowLabels, merge_unless_empty. rewrite (bool_decide_true (t ≠ "")) by done.
assert (labels_Merge ∅ (<[WorkflowTypeLabel := t]> (∅ : Labels)) !! WorkflowTypeLabel = Some t) as E.
{ rewrite merge_spec, (right_id_L ∅ (∪)). apply lookup_insert_eq. }
repeat case_bool_decide; rewrite ?merge_spec, ?insert_empty;
  rewrite ?lookup_union_r by (by rewrite ?lookup_union, ?lookup_singleton_ne);
  rewrite <-?merge_spec; rewrite ?insert_empty in *; try done.
Qed.

Lemma workflowLabels_other t a p k :
  k ≠ WorkflowTypeLabel → k ≠ WorkflowActionLabel → k ≠ PipelineNameLabel →
  workflowLabels t a p !! k = None.
Proof.
intros H1 H2 H3. unfold workflowLabels, merge_unless_empty.
repeat case_bool_decide; rewrite ?merge_spec, ?insert_empty;
  rewrite ?lookup_union, ?lookup_singleton_ne, ?lookup_empty by done; done.
Qed.

(** The workflow finds its own jobs: the job generated for a pipeline carries
    every label by which [ReconcileConfigure] selects the jobs of the workflow,
    whatever the hash, provided the labels the author put on the pipeline do not
    override them. *)
Theorem generated_job_is_found (opts : Opts) (f : PipelineFactory) (parent : Unstructured) (sha : string) :
  op_workflowType opts = pf_workflowType f → parent_of f parent → leaves_labels f →
  labelsForJobs opts parent ⊆ pipelineJobLabels f sha.
Proof.
intros Htype Hparent Hleave. apply map_subseteq_spec. intros k v Hk.
assert (k ∈ [WorkflowTypeLabel; ResourceNameLabel; PromiseNameLabel] ∧
  (match pf_resourceWorkflow f, pf_resourceRequest f with
   | true, Some rr => resourceNameLabel (GetName rr)
   | _, _ => ∅
   end ∪ managedByKratixLabel ∪
   workflowLabels (pf_workflowType f) (pf_workflowAction f) (pl_name (pf_pipeline f)) ∪
   promiseNameLabel (GetName (pf_promise f))) !! k = Some v) as [Hin Hv];
  [|by apply job_label].
unfold labelsForJobs in Hk. rewrite Htype in Hk. unfold parent_of in Hparent.
destruct (pf_resourceWorkflow f).
- destruct Hparent as (-> & Ht & Hl). rewrite Ht in *.
  rewrite (eq_refl : Strings.HasPrefix WorkflowTypeResource WorkflowTypeResource = true) in Hk.
  rewrite Hl in Hk. apply lookup_insert_Some in Hk as [[<- <-]|[_ Hk]].
  { split; [set_solver|]. rewrite lookup_union_r; [apply lookup_insert_eq|].
    rewrite lookup_union_r; [by apply workflowLabels_other|]. by apply lookup_union_None. }
  apply lookup_insert_Some in Hk as [[<- <-]|[_ Hk]].
  { split; [set_solver|]. by do 3 (apply lookup_union_Some_l). }
  apply lookup_insert_Some in Hk as [[<- <-]|[_ Hk]]; [|by rewrite lookup_empty in Hk].
  split; [set_solver|]. apply lookup_union_Some_l.
  rewrite lookup_union_r; [by apply workflowLabels_type|]. by apply lookup_union_None.
- destruct Hparent as (Hn & Ht). rewrite Ht in *.
  rewrite (eq_refl : Strings.HasPrefix WorkflowTypePromise WorkflowTypeResource = false) in Hk.
  rewrite Hn in Hk. rewrite (left_id_L ∅ (∪)).
  apply lookup_insert_Some in Hk as [[<- <-]|[_ Hk]].
  { split; [set_solver|]. rewrite lookup_union_r; [apply lookup_insert_eq|].
    rewrite lookup_union_r; [by apply workflowLabels_other|done]. }
  apply lookup_insert_Some in Hk as [[<- <-]|[_ Hk]]; [|by rewrite lookup_empty in Hk].
  split; [set_solver|]. apply lookup_union_Some_l.
  rewrite lookup_union_r; [by apply workflowLabels_type|done].
Qed.
End labels.

(** ** Permissions *)
Lemma elem_of_collect {A B} (g : A → outcome (option B)) l bs b :
  collect g l = Ok bs → b ∈ bs ↔ ∃ a, a ∈ l ∧ g a = Ok (Some b).
Proof.
revert bs. induction l as [|a l IH]; intros bs; cbn.
- intros [= <-]. set_solver.
- destruct (g a) as [o|e|] eqn:Ea; [|done..]. destruct (collect g l) as [bs'|e|] eqn:E; [|done..].
  intros [= <-]. specialize (IH bs' eq_refl).
  assert (b ∈ match o with Some x => x :: bs' | None => bs' end ↔ o = Some b ∨ b ∈ bs') as ->
    by (destruct o; set_solver).
  rewrite IH. split.
  + intros [->|(a' & Ha' & Hg)]; [exists a; split; [left|done]|exists a'; split; [by right|done]].
  + intros (a' & [->|Ha']%elem_of_cons & Hg); [left; congruence|right; eauto].
Qed.

Lemma collect_all {A B} (g : A → outcome (option B)) l bs a :
  collect g l = Ok bs → a ∈ l → ∃ o, g a = Ok o.
Proof.
revert bs. induction l as [|a' l IH]; intros bs; cbn; [set_solver|].
destruct (g a') as [o|e|] eqn:Ea; [|done..]. destruct (collect g l) as [bs'|e|] eqn:E; [|done..].
intros _ [->|Ha]%elem_of_cons; eauto.
Qed.

Lemma collect_gives {A B} (g : A → outcome (option B)) l bs a :
  collect g l = Ok bs → a ∈ l → ∃ o, g a = Ok o ∧ ∀ b, o = Some b → b ∈ bs.
Proof.
intros Hc Ha. destruct (collect_all _ _ _ a Hc Ha) as [o Ho]. exists o. split; [done|].
intros b ->. apply (elem_of_collect _ _ _ _ Hc). eauto.
Qed.

Lemma namespaceRulesMap_lookup f ns :
  namespaceRulesMap f !! ns =
  let rules := perm_rule <$> filter (λ r, perm_resourceNamespace r = ns) (permissions f) in
  if bool_decide (ns = "" ∨ rules = []) then None else Some rules.
Proof.
unfold namespaceRulesMap. cbv zeta. induction (permissions f) as [|r l IH] using rev_ind.
- rewrite bool_decide_true by (by right). apply lookup_empty.
- rewrite foldl_app_one, filter_app, filter_cons, filter_nil, fmap_app.
  destruct (decide (perm_resourceNamespace r = ns)) as [<-|Hne].
  + cbn [fmap list_fmap]. destruct (decide (perm_resourceNamespace r = "")) as [Hn|Hn].
    * rewrite (bool_decide_false (_ ≠ "")) by tauto. rewrite IH. rewrite !bool_decide_true by (by left). done.
    * rewrite (bool_decide_true (_ ≠ "")) by done. rewrite lookup_insert_eq.
      rewrite (bool_decide_false (_ ∨ _)) by (intros [?|?%app_eq_nil]; naive_solver).
      rewrite IH. destruct (perm_rule <$> _) eqn:E;
        [rewrite bool_decide_true by (by right)|rewrite bool_decide_false by naive_solver]; done.
  + rewrite fmap_nil, app_nil_r, <-IH. clear IH. case_bool_decide; [|done].
    by rewrite lookup_insert_ne.
Qed.

(** What a permission amounts to: a rule in a role that is bound to the account. *)
Definition bound_role (sh : SharedPipelineResources) (sa : ServiceAccount) (ns : string)
    (r : Role) : Prop :=
  r ∈ sh_roles sh ∧ ∃ b, b ∈ sh_roleBindings sh ∧ GetNamespace b = ns ∧
    rb_roleRef (r_spec b) = {| rr_apiGroup := rbacGroup; rr_kind := "Role"; rr_name := GetName r |} ∧
    rb_subjects (r_spec b) = [sa_subject sa].
Definition bound_in_namespace (sh : SharedPipelineResources) (sa : ServiceAccount) (ns : string)
    (cr : ClusterRole) : Prop :=
  cr ∈ sh_clusterRoles sh ∧ ∃ b, b ∈ sh_roleBindings sh ∧ GetNamespace b = ns ∧
    rb_roleRef (r_spec b) =
      {| rr_apiGroup := rbacGroup; rr_kind := "ClusterRole"; rr_name := GetName cr |} ∧
    rb_subjects (r_spec b) = [sa_subject sa].
Definition bound_everywhere (sh : SharedPipelineResources) (sa : ServiceAccount)
    (cr : ClusterRole) : Prop :=
  cr ∈ sh_clusterRoles sh ∧ ∃ b, b ∈ sh_clusterRoleBindings sh ∧
    crb_roleRef (r_spec b) =
      {| rr_apiGroup := rbacGroup; rr_kind := "ClusterRole"; rr_name := GetName cr |} ∧
    crb_subjects (r_spec b) = [sa_subject sa].

(** Everything asked for is granted in the right place, and what is granted was
    asked for, apart from what the workflow itself needs. *)
Record granted (f : PipelineFactory) (sh : SharedPipelineResources) (sa : ServiceAccount) : Prop := {
  gr_own : ∀ p, p ∈ permissions f → perm_resourceNamespace p = "" →
    ∃ r, bound_role sh sa (pf_namespace f) r ∧ perm_rule p ∈ role_rules (r_spec r);
  gr_elsewhere : ∀ p ns, p ∈ permissions f → perm_resourceNamespace p = ns → ns ≠ "" → ns ≠ "*" →
    ∃ cr, bound_in_namespace sh sa ns cr ∧ perm_rule p ∈ crole_rules (r_spec cr);
  gr_everywhere : ∀ p, p ∈ permissions f → perm_resourceNamespace p = "*" →
    ∃ cr, bound_everywhere sh sa cr ∧ perm_rule p ∈ crole_rules (r_spec cr);
  gr_only_bindings : ∀ b, b ∈ sh_roleBindings sh →
    rb_subjects (r_spec b) = [sa_subject sa] ∧
    ((∃ r, r ∈ sh_roles sh ∧ GetNamespace b = pf_namespace f ∧
        rb_roleRef (r_spec b) = {| rr_apiGroup := rbacGroup; rr_kind := "Role"; rr_name := GetName r |}) ∨
     (∃ cr, cr ∈ sh_clusterRoles sh ∧
        rb_roleRef (r_spec b) =
          {| rr_apiGroup := rbacGroup; rr_kind := "ClusterRole"; rr_name := GetName cr |} ∧
        ∀ rule, rule ∈ crole_rules (r_spec cr) → ∃ p, p ∈ permissions f ∧ perm_rule p = rule ∧
          perm_resourceNamespace p = GetNamespace b));
  gr_only_cluster : ∀ b, b ∈ sh_clusterRoleBindings sh →
    crb_subjects (r_spec b) = [sa_subject sa] ∧
    ∃ cr, cr ∈ sh_clusterRoles sh ∧
      crb_roleRef (r_spec b) =
        {| rr_apiGroup := rbacGroup; rr_kind := "ClusterRole"; rr_name := GetName cr |} ∧
      (pf_resourceWorkflow f = false ∧ cr = promise_cluster_role f ∨
       ∀ rule, rule ∈ crole_rules (r_spec cr) → ∃ p, p ∈ permissions f ∧ perm_rule p = rule ∧
         perm_resourceNamespace p = "*");
}.

Section rbac.
Context `{Lib, PromiseLib, Config}.

(** The cluster roles of the user's permissions. *)
Definition user_role_of (f : PipelineFactory) (ns : string) (cr : ClusterRole) : Prop :=
  namespaceRulesMap f !! ns = Some (crole_rules (r_spec cr)) ∧
  GetLabels cr !! UserPermissionResourceNamespaceLabel =
    Some (if bool_decide (ns = "*") then userPermissionResourceNamespaceLabelAll else ns).

Definition user_roles (f : PipelineFactory) (crs : list ClusterRole) : Prop :=
  (∀ cr, cr ∈ crs → ∃ ns, user_role_of f ns cr) ∧
  (∀ ns rules, namespaceRulesMap f !! ns = Some rules →
     ∃ cr, cr ∈ crs ∧ user_role_of f ns cr ∧ crole_rules (r_spec cr) = rules).

Lemma user_cluster_role_spec f ns rules o :
  namespaceRulesMap f !! ns = Some rules → user_cluster_role f (ns, rules) = Ok o →
  ∃ cr, o = Some cr ∧ user_role_of f ns cr ∧ crole_rules (r_spec cr) = rules.
Proof.
intros Hm. unfold user_cluster_role. destruct (GenerateDeterministicObjectName _); [|done..].
intros [= <-]. eexists. split; [done|]. split; [|done]. split; [done|]. apply lookup_insert_eq.
Qed.

Lemma collect_user_roles f order crs :
  order ≡ₚ map_to_list (namespaceRulesMap f) →
  collect (user_cluster_role f) order = Ok crs → user_roles f crs.
Proof.
intros Ho Hc.
assert (∀ nr, nr ∈ order ↔ namespaceRulesMap f !! nr.1 = Some nr.2) as Hin.
{ intros [ns rules]. by rewrite Ho, elem_of_map_to_list. }
split.
- intros cr Hcr. apply (elem_of_collect _ _ _ _ Hc) in Hcr as ([ns rules] & Hnr%Hin & Hg).
  apply user_cluster_role_spec in Hg as (cr' & [= <-] & Hu & _); [eauto|done].
- intros ns rules Hm. destruct (collect_all _ _ _ (ns, rules) Hc) as [o Hg]; [by apply Hin|].
  destruct (user_cluster_role_spec _ _ _ _ Hm Hg) as (cr & -> & Hu & Hr).
  exists cr. split; [|done]. apply (elem_of_collect _ _ _ _ Hc). exists (ns, rules).
  by rewrite Hin.
Qed.

Lemma rule_requested f ns rules rule :
  namespaceRulesMap f !! ns = Some rules → rule ∈ rules →
  ∃ p, p ∈ permissions f ∧ perm_rule p = rule ∧ perm_resourceNamespace p = ns.
Proof.
rewrite namespaceRulesMap_lookup. cbv zeta. case_bool_decide; [done|]. intros [= <-].
intros (p & -> & [Hp Hin]%list_elem_of_filter)%list_elem_of_fmap. eauto.
Qed.

Lemma rule_in_map f p :
  p ∈ permissions f → perm_resourceNamespace p ≠ "" →
  ∃ rules, namespaceRulesMap f !! perm_resourceNamespace p = Some rules ∧ perm_rule p ∈ rules.
Proof.
intros Hp Hns. rewrite namespaceRulesMap_lookup. cbv zeta.
assert (perm_rule p ∈ perm_rule <$>
  filter (λ r, perm_resourceNamespace r = perm_resourceNamespace p) (permissions f)) as Hin.
{ apply list_elem_of_fmap_2, list_elem_of_filter. done. }
case_bool_decide as Hc; [|eauto]. destruct Hc as [?|Hc]; [done|]. rewrite Hc in Hin. set_solver.
Qed.

(** The rules for the pipeline's own namespace end up in one of the roles. *)
Lemma role_own_rules f roles p :
  role f = Ok roles → p ∈ permissions f → perm_resourceNamespace p = "" →
  ∃ r, r ∈ roles ∧ perm_rule p ∈ role_rules (r_spec r).
Proof.
intros Hr Hp Hns. unfold role in Hr.
destruct (if pf_resourceWorkflow f then _ else _) as [base|e|]; [|done..].
assert (perm_rule p ∈ namespaced_rules f) as Hin.
{ apply list_elem_of_fmap_2, list_elem_of_filter. done. }
assert (hasUserPermissions (pf_pipeline f) && bool_decide (0 < length (namespaced_rules f)) = true) as E.
{ unfold hasUserPermissions. fold (permissions f).
  rewrite !bool_decide_true; [done|destruct (namespaced_rules f)|destruct (permissions f)];
    cbn; try lia; set_solver. }
rewrite E in Hr. destruct (GenerateDeterministicObjectName _); [|done..].
injection Hr as <-. eexists. split; [apply elem_of_app; right; left|]. done.
Qed.

(** What the bindings built from the roles give, with the roles as the factory
    makes them. *)
Section bindings.
Context (f : PipelineFactory) (sa : ServiceAccount) (base crs : list ClusterRole).
Context (Hall : ∀ p, p ∈ permissions f →
  perm_resourceNamespace p ≠ userPermissionResourceNamespaceLabelAll).
Context (Hbase : base = [] ∨ pf_resourceWorkflow f = false ∧ base = [promise_cluster_role f]).
Context (Hcrs : user_roles f crs).

(** The label of a cluster role says where its rules were asked for. *)
Lemma label_requested cr ns rule :
  cr ∈ base ++ crs → GetLabels cr !! UserPermissionResourceNamespaceLabel = Some ns →
  rule ∈ crole_rules (r_spec cr) →
  ∃ p, p ∈ permissions f ∧ perm_rule p = rule ∧
    perm_resourceNamespace p =
      (if bool_decide (ns = userPermissionResourceNamespaceLabelAll) then "*" else ns).
Proof.
intros [Hcr|Hcr]%elem_of_app El Hrule.
- destruct Hbase as [->|[_ ->]]; [set_solver|].
  apply list_elem_of_singleton in Hcr as ->. done.
- destruct Hcrs as [Hu _]. destruct (Hu cr Hcr) as (ns' & Hm & Hlab).
  destruct (rule_requested _ _ _ _ Hm Hrule) as (p & Hp & Hpr & Hpn). exists p. split_and!; [done..|].
  rewrite Hlab in El. injection El as <-.
  destruct (decide (ns' = "*")) as [Hns|Hns]; 
    [rewrite (bool_decide_true (ns' = "*")) by done; rewrite bool_decide_true by done; congruence|].
  rewrite (bool_decide_false (ns' = "*")), bool_decide_false; [done| |done]. rewrite <-Hpn. by apply Hall.
Qed.

Lemma unlabelled_base cr :
  cr ∈ base ++ crs → GetLabels cr !! UserPermissionResourceNamespaceLabel = None →
  pf_resourceWorkflow f = false ∧ cr = promise_cluster_role f.
Proof.
intros [Hcr|Hcr]%elem_of_app El.
- destruct Hbase as [->|[Hf ->]]; [set_solver|].
  by apply list_elem_of_singleton in Hcr as ->.
- destruct Hcrs as [Hu _]. destruct (Hu cr Hcr) as (ns' & _ & Hlab). congruence.
Qed.

(** A permission for another namespace has a cluster role with its label. *)
Lemma requested_role p :
  p ∈ permissions f → perm_resourceNamespace p ≠ "" →
  ∃ cr, cr ∈ base ++ crs ∧ perm_rule p ∈ crole_rules (r_spec cr) ∧
    GetLabels cr !! UserPermissionResourceNamespaceLabel =
      Some (if bool_decide (perm_resourceNamespace p = "*")
            then userPermissionResourceNamespaceLabelAll else perm_resourceNamespace p).
Proof.
intros Hp Hns. destruct (rule_in_map f p Hp Hns) as (rules & Hm & Hin).
destruct Hcrs as [_ Hmap]. destruct (Hmap _ _ Hm) as (cr & Hcr & [_ Hlab] & <-).
exists cr. split_and!; [apply elem_of_app; by right|done..].
Qed.

Lemma role_bindings_sound roles rbs b :
  roleBindings f roles (base ++ crs) sa = Ok rbs → b ∈ rbs →
  rb_subjects (r_spec b) = [sa_subject sa] ∧
  ((∃ r, r ∈ roles ∧ GetNamespace b = pf_namespace f ∧
      rb_roleRef (r_spec b) = {| rr_apiGroup := rbacGroup; rr_kind := "Role"; rr_name := GetName r |}) ∨
   (∃ cr, cr ∈ base ++ crs ∧
      rb_roleRef (r_spec b) =
        {| rr_apiGroup := rbacGroup; rr_kind := "ClusterRole"; rr_name := GetName cr |} ∧
      ∀ rule, rule ∈ crole_rules (r_spec cr) → ∃ p, p ∈ permissions f ∧ perm_rule p = rule ∧
        perm_resourceNamespace p = GetNamespace b)).
Proof.
unfold roleBindings. destruct (collect _ (base ++ crs)) as [scoped|e|] eqn:Esc; [|done..].
intros [= <-] [Hin|Hin]%elem_of_app.
- apply list_elem_of_fmap in Hin as (r & -> & Hr). split; [done|]. left. by exists r.
- apply (elem_of_collect _ _ _ _ Esc) in Hin as (cr & Hcr & Hg). cbv beta in Hg.
  destruct (GetLabels cr !! _) as [ns|] eqn:El; [|done]. case_bool_decide as Hns; [|done].
  destruct (user_binding_name f sa); [|done..]. injection Hg as <-. split; [done|]. right.
  exists cr. split_and!; [done..|]. cbn. intros rule Hrule.
  destruct (label_requested cr ns rule Hcr El Hrule) as (p & Hp).
  rewrite bool_decide_false in Hp by done. by exists p.
Qed.

Lemma cluster_bindings_sound crbs b :
  clusterRoleBinding f (base ++ crs) sa = Ok crbs → b ∈ crbs →
  crb_subjects (r_spec b) = [sa_subject sa] ∧
  ∃ cr, cr ∈ base ++ crs ∧
    crb_roleRef (r_spec b) =
      {| rr_apiGroup := rbacGroup; rr_kind := "ClusterRole"; rr_name := GetName cr |} ∧
    (pf_resourceWorkflow f = false ∧ cr = promise_cluster_role f ∨
     ∀ rule, rule ∈ crole_rules (r_spec cr) → ∃ p, p ∈ permissions f ∧ perm_rule p = rule ∧
       perm_resourceNamespace p = "*").
Proof.
intros Hcrb Hin. apply (elem_of_collect _ _ _ _ Hcrb) in Hin as (cr & Hcr & Hg). cbv beta in Hg.
destruct (GetLabels cr !! _) as [ns|] eqn:El.
- case_bool_decide as Hns; [|done]. destruct (user_binding_name f sa); [|done..].
  injection Hg as <-. split; [done|]. exists cr. split_and!; [done..|]. right. intros rule Hrule.
  destruct (label_requested cr ns rule Hcr El Hrule) as (p & Hp).
  rewrite bool_decide_true in Hp by done. by exists p.
- injection Hg as <-. split; [done|]. exists cr. split_and!; [done..|]. left.
  by apply unlabelled_base.
Qed.

Lemma permissions_bound roles crbs rbs sh :
  clusterRoleBinding f (base ++ crs) sa = Ok crbs → role f = Ok roles →
  roleBindings f roles (base ++ crs) sa = Ok rbs →
  sh_roles sh = roles → sh_clusterRoles sh = base ++ crs → sh_roleBindings sh = rbs →
  sh_clusterRoleBindings sh = crbs →
  granted f sh sa.
Proof.
intros Hcrb Hrole Hrb E1 E2 E3 E4. split.
- intros p Hp Hns. destruct (role_own_rules _ _ _ Hrole Hp Hns) as (r & Hr & Hrule).
  exists r. split; [|done]. split; [by rewrite E1|]. exists (role_binding f sa r).
  split_and!; [|done..]. rewrite E3. unfold roleBindings in Hrb.
  destruct (collect _ (base ++ crs)); [|done..]. injection Hrb as <-.
  apply elem_of_app. left. by apply list_elem_of_fmap_2.
- intros p ns Hp <- Hns Hstar. destruct (requested_role p Hp Hns) as (cr & Hcr & Hin & Hlab).
  rewrite (bool_decide_false (_ = "*")) in Hlab by done. exists cr. split; [|done].
  split; [by rewrite E2|]. rewrite E3. unfold roleBindings in Hrb.
  destruct (collect _ (base ++ crs)) as [scoped|e|] eqn:Esc; [|done..]. injection Hrb as <-.
  destruct (collect_gives _ _ _ cr Esc Hcr) as (o & Ho & Hb). cbv beta in Ho.
  rewrite Hlab, bool_decide_true in Ho by (by apply Hall).
  destruct (user_binding_name f sa); [|done..]. injection Ho as <-.
  eexists. split_and!; [apply elem_of_app; right; by apply Hb|done..].
- intros p Hp Hstar. destruct (requested_role p Hp) as (cr & Hcr & Hin & Hlab); [by rewrite Hstar|].
  rewrite (bool_decide_true (_ = "*")) in Hlab by done. exists cr. split; [|done].
  split; [by rewrite E2|]. rewrite E4. destruct (collect_gives _ _ _ cr Hcrb Hcr) as (o & Ho & Hb).
  cbv beta in Ho. rewrite Hlab, bool_decide_true in Ho by done.
  destruct (user_binding_name f sa); [|done..]. injection Ho as <-.
  eexists. split_and!; [by apply Hb|done..].
- intros b. rewrite E3, E1, E2. by apply role_bindings_sound.
- intros b. rewrite E4, E2. by apply cluster_bindings_sound.
Qed.
End bindings.
End rbac.

(** ** All objects of a pipeline *)
Section resources.
Context {S : Type} `{World S, Viewed S, !WorldLaws S, Lib, !LibLaws, PromiseLib, Config}.
Implicit Types s : S.

Lemma wp_pipelineJobName f s0 s :
  view s = view s0 → wp (pipelineJobName f) (reads s0 (λ _, True)) s.
Proof.
intros Hv. unfold pipelineJobName. eapply (wp_reads_bind _ _ (λ _, True)).
- destruct (pf_resourceWorkflow f); [|by apply wp_reads_ret].
  eapply wp_reads_bind; [by apply wp_reads_lift|]. intros n s1 Hv1 _. by apply wp_reads_ret.
- intros n s1 Hv1 _. by apply wp_GenerateObjectName.
Qed.

(** The job: where it runs, its labels, its containers. *)
Definition job_built (f : PipelineFactory) (jobEnv : list EnvVar) (job : Job) : Prop :=
  ∃ obj hash cs, getObjAndHash f = Ok (obj, hash) ∧ job_containers f obj jobEnv = Ok cs ∧
    GetNamespace job = pf_namespace f ∧ GetLabels job = pipelineJobLabels f hash ∧
    pod_initContainers (pt_spec (jsp_template (r_spec job))) = cs.1 ∧
    pod_containers (pt_spec (jsp_template (r_spec job))) = cs.2 ∧
    pod_serviceAccountName (pt_spec (jsp_template (r_spec job))) = GetName (serviceAccount f).

Lemma wp_pipelineJob f cm jobEnv s0 s :
  view s = view s0 →
  wp (pipelineJob f cm (serviceAccount f) jobEnv) (reads s0 (job_built f jobEnv)) s.
Proof.
intros Hv. unfold pipelineJob. eapply wp_reads_bind; [by apply wp_reads_lift|].
intros [obj hash] s1 Hv1 Ho. eapply wp_reads_bind; [by apply wp_reads_lift|].
intros cs s2 Hv2 Hcs. eapply wp_reads_bind; [by apply wp_pipelineJobName|].
intros name s3 Hv3 _. cbv zeta. cbn [r_meta]. unfold of_sum.
destruct (SetControllerReference _ _ _) as [e|m] eqn:Em; [by apply wp_bind, wp_fail|].
apply wp_bind, wp_ret, wp_reads_ret; [done|]. apply set_controller_reference_meta in Em. rewrite Em.
exists obj, hash, cs. done.
Qed.

Lemma wp_clusterRole f s0 s :
  view s = view s0 →
  wp (clusterRole f) (reads s0 (λ crs, ∃ base user, crs = base ++ user ∧
    (base = [] ∨ pf_resourceWorkflow f = false ∧ base = [promise_cluster_role f]) ∧
    user_roles f user)) s.
Proof.
intros Hv. unfold clusterRole.
set (base := if pf_resourceWorkflow f then [] else [promise_cluster_role f]).
assert (base = [] ∨ pf_resourceWorkflow f = false ∧ base = [promise_cluster_role f]) as Hb
  by (subst base; destruct (pf_resourceWorkflow f); auto).
destruct (hasUserPermissions (pf_pipeline f)) eqn:Eu.
- apply wp_bind, wp_Range. intros order s1 Hv1 Ho.
  eapply wp_reads_bind; [apply wp_reads_lift; congruence|]. intros crs s2 Hv2 Hc.
  apply wp_reads_ret; [done|]. exists base, crs. split_and!; [done|done|]. by eapply collect_user_roles.
- apply wp_reads_ret; [done|]. exists base, []. split_and!; [by rewrite app_nil_r|done|].
  split; [set_solver|]. intros ns rules. rewrite namespaceRulesMap_lookup. cbv zeta.
  unfold hasUserPermissions in Eu. fold (permissions f) in Eu.
  destruct (permissions f); [|done]. by rewrite bool_decide_true by (by right).
Qed.

Lemma wp_Resources f jobEnv s0 s :
  view s = view s0 →
  wp (Resources f jobEnv) (reads s0 (λ r,
    pjr_name r = pl_name (pf_pipeline f) ∧ pjr_workflowType r = pf_workflowType f ∧
    pjr_workflowAction r = pf_workflowAction f ∧ job_built f jobEnv (pjr_job r) ∧
    sh_serviceAccount (pjr_shared r) = Some (serviceAccount f) ∧
    ((∀ p, p ∈ permissions f → perm_resourceNamespace p ≠ userPermissionResourceNamespaceLabelAll) →
     granted f (pjr_shared r) (serviceAccount f)))) s.
Proof.
intros Hv. unfold Resources. eapply wp_reads_bind; [by apply wp_reads_lift|].
intros cm s1 Hv1 Hcm. cbv zeta. eapply wp_reads_bind; [by apply wp_pipelineJob|].
intros job s2 Hv2 Hjob. eapply wp_reads_bind; [by apply wp_clusterRole|].
intros crs s3 Hv3 (base & user & -> & Hbase & Huser).
eapply wp_reads_bind; [by apply wp_reads_lift|]. intros crbs s4 Hv4 Hcrb.
eapply wp_reads_bind; [by apply wp_reads_lift|]. intros roles s5 Hv5 Hrole.
eapply wp_reads_bind; [by apply wp_reads_lift|]. intros rbs s6 Hv6 Hrb.
apply wp_reads_ret; [done|]. split_and!; try done. intros Hall.
by apply (permissions_bound f (serviceAccount f) base user Hall Hbase Huser roles crbs rbs).
Qed.


(** ** The pipelines of a Promise *)

(** A loop that fills a map, one key after the other. *)
Lemma wp_fill_map {V W} (g : gmap string W → string * V → M S (gmap string W))
    (good : string * V → W → Prop) l acc0 s0 s :
  view s = view s0 → NoDup l.*1 →
  (∀ acc kv s1, view s1 = view s0 → kv ∈ l →
     wp (g acc kv) (reads s0 (λ acc', ∃ w, acc' = <[kv.1 := w]> acc ∧ good kv w)) s1) →
  wp (foldM g l acc0) (reads s0 (λ acc, ∀ kv, kv ∈ l → ∃ w, acc !! kv.1 = Some w ∧ good kv w)) s.
Proof.
intros Hv Hnd Hg.
apply (wp_foldM _ (λ done _ acc s', view s' = view s0 ∧
  ∀ kv, kv ∈ done → ∃ w, acc !! kv.1 = Some w ∧ good kv w)).
- split; [done|set_solver].
- intros done kv todo acc s1 -> [Hv1 Hdone].
  eapply wp_mono; [apply Hg; [done|set_solver]|].
  intros [acc'|e|] s2 [Hv2 Hacc]; [|done|done]. split; [done|].
  destruct Hacc as (w & -> & Hw). intros kv' [Hin| ->%list_elem_of_singleton]%elem_of_app.
  + destruct (Hdone kv' Hin) as (w' & Hw' & Hgood). exists w'. split; [|done].
    rewrite lookup_insert_ne; [done|]. intros Heq.
    rewrite fmap_app, NoDup_app in Hnd. destruct Hnd as (_ & Hdisj & _).
    apply (Hdisj kv'.1); [by apply list_elem_of_fmap_2|]. rewrite <-Heq. left.
  + exists w. split; [apply lookup_insert_eq|done].
- intros acc s1 [Hv1 Hall]. by split.
Qed.

(** The pipeline objects of one workflow. *)
Definition workflow_pipelines (p : Promise) (typ action : string) : list Unstructured :=
  default [] (default ∅ (unstructuredMap p !! typ) !! action).

Lemma wp_NewPipelinesMap p s0 s :
  view s = view s0 →
  wp (NewPipelinesMap p) (reads s0 (λ pm, ∀ typ action acts us,
    unstructuredMap p !! typ = Some acts → acts !! action = Some us →
    ∃ pls, PipelinesFromUnstructured us = inr pls ∧
      default [] (default ∅ (pm !! typ) !! action) = pls)) s.
Proof.
intros Hv. apply wp_bind, wp_Range. intros order s1 Hv1 Ho.
eapply wp_mono.
{ apply (wp_fill_map parse_type (λ ta m, ∀ action us, ta.2 !! action = Some us →
    ∃ pls, PipelinesFromUnstructured us = inr pls ∧ m !! action = Some pls) order ∅ s0 s1).
  - congruence.
  - rewrite Ho. apply NoDup_fst_map_to_list.
  - intros acc [typ acts] s2 Hv2 _. apply wp_bind, wp_Range. intros aorder s3 Hv3 Ha.
    eapply wp_reads_bind.
    { apply (wp_fill_map (parse_action typ) (λ au pls, PipelinesFromUnstructured au.2 = inr pls)
        aorder ∅ s0 s3).
      - congruence.
      - rewrite Ha. apply NoDup_fst_map_to_list.
      - intros acc' [action us] s4 Hv4 _. unfold parse_action; cbn.
        destruct (PipelinesFromUnstructured us) as [e|pls]; [by apply wp_fail|].
        apply wp_reads_ret; [done|]. eauto. }
    intros m s4 Hv4 Hm. apply wp_reads_ret; [done|]. exists m. split; [done|]. cbn.
    intros action us Hus. destruct (Hm (action, us)) as (pls & Hl & Hp); [|eauto].
    rewrite Ha. by apply elem_of_map_to_list. }
intros [pm|e|] s2 [Hv2 Hpm]; (split; [done|]); [|done..].
intros typ action acts us Htyp Hact.
destruct (Hpm (typ, acts)) as (m & Hm & Hgood); [rewrite Ho; by apply elem_of_map_to_list|].
destruct (Hgood action us Hact) as (pls & Hp & Hl). exists pls. split; [done|].
cbn in Hm. rewrite Hm. cbn. by rewrite Hl.
Qed.

(** The factory of one pipeline. *)
Definition factory_for (p : Promise) (typ action : string) (rr : option Unstructured)
    (pl : Pipeline) (f : PipelineFactory) : Prop :=
  if bool_decide (typ = WorkflowTypeResource)
  then ∃ r, rr = Some r ∧ ForResource pl p action r = Ok f
  else f = ForPromise pl p action.

Definition built (p : Promise) (typ action : string) (rr : option Unstructured) (pl : Pipeline)
    (isLast : bool) (r : PipelineJobResources) : Prop :=
  pjr_name r = pl_name pl ∧ pjr_workflowAction r = action ∧ ∃ f, factory_for p typ action rr pl f ∧
    job_built f [env "IS_LAST_PIPELINE" (show_bool isLast)] (pjr_job r).

Lemma factory_for_pipeline p typ action rr pl f :
  factory_for p typ action rr pl f → pf_pipeline f = pl ∧ pf_workflowAction f = action.
Proof.
unfold factory_for. case_bool_decide; [|by intros ->].
intros (r & -> & Hf). unfold ForResource in Hf. destruct (GetAPI p) as [[]|e|]; by simplify_eq.
Qed.

Lemma wp_generate_from p typ action rr pls s0 s :
  view s = view s0 →
  wp (generate_from p typ action rr pls) (reads s0 (λ rs, length rs = length pls ∧
    ∀ i pl r, pls !! i = Some pl → rs !! i = Some r →
      built p typ action rr pl (bool_decide (Datatypes.S i = length pls)) r)) s.
Proof.
revert s. induction pls as [|pl pls IH]; intros s Hv; cbn [generate_from].
{ by apply wp_reads_ret. }
eapply (wp_reads_bind _ _ (factory_for p typ action rr pl)).
{ unfold factory_for. case_bool_decide; [|by apply wp_reads_ret].
  destruct rr as [r|]; [|by apply wp_panic]. eapply wp_mono; [by apply wp_reads_lift|].
  intros [f|e|] s1 [Hv1 Hf]; (split; [done|]); [|done..]. eauto. }
intros f s1 Hv1 Hf. eapply wp_reads_bind; [by apply wp_Resources|].
intros r s2 Hv2 (Hname & _ & Hact & Hjob & _). eapply wp_reads_bind; [by apply IH|].
intros rs s3 Hv3 [Hlen Hrs]. apply wp_reads_ret; [done|]. split; [cbn; congruence|].
destruct (factory_for_pipeline _ _ _ _ _ _ Hf) as [Hpl Hac].
intros [|i] pl' r' Hi Hr; cbn in Hi, Hr.
- simplify_eq. split_and!; [done|done|]. eexists. split; [done|].
  replace (bool_decide (1 = length (pf_pipeline f :: pls))) with (bool_decide (pls = [])); [done|].
  apply bool_decide_ext. destruct pls; cbn; [done|]. split; [done|lia].
- replace (bool_decide (Datatypes.S (Datatypes.S i) = length (pl :: pls)))
    with (bool_decide (Datatypes.S i = length pls)); [by apply Hrs|].
  apply bool_decide_ext. cbn. lia.
Qed.

Lemma wp_generatePipelinesObjects (p : Promise) (typ action : string) (rr : option Unstructured) s :
  typ ∈ [WorkflowTypeResource; WorkflowTypePromise] →
  action ∈ [WorkflowActionConfigure; WorkflowActionDelete] →
  wp (generatePipelinesObjects p typ action rr) (reads s (λ rs, ∃ pls,
    PipelinesFromUnstructured (workflow_pipelines p typ action) = inr pls ∧
    length rs = length pls ∧
    ∀ i pl r, pls !! i = Some pl → rs !! i = Some r →
      built p typ action rr pl (bool_decide (Datatypes.S i = length pls)) r)) s.
Proof.
intros Ht Ha. unfold generatePipelinesObjects.
eapply wp_reads_bind; [by apply (wp_NewPipelinesMap p s s)|]. intros pm s1 Hv1 Hpm. cbv zeta.
assert (∃ acts us, unstructuredMap p !! typ = Some acts ∧ acts !! action = Some us ∧
  workflow_pipelines p typ action = us) as (acts & us & Hacts & Hus & ->).
{ unfold workflow_pipelines, unstructuredMap.
  set_unfold in Ht. set_unfold in Ha.
  destruct Ht as [->|[->|[]]], Ha as [->|[->|[]]]; eexists _, _; split_and!; reflexivity. }
destruct (Hpm typ action acts us Hacts Hus) as (pls & Hp & ->).
eapply wp_mono; [by apply (wp_generate_from p typ action rr pls s s1)|].
intros [rs|e|] s2 [Hv2 Hrs]; (split; [done|]); [|done..]. by exists pls.
Qed.

Lemma pipelineJobLabels_nonempty f sha : pipelineJobLabels f sha ≠ ∅.
Proof.
assert (∀ a b, a ≠ ∅ ∨ b ≠ ∅ → labels_Merge a b ≠ ∅) as Hmerge.
{ intros a b Hab. rewrite merge_spec, <-dom_empty_iff_L, dom_union_L.
  rewrite <-!dom_empty_iff_L in Hab. set_solver. }
apply Hmerge. left. case_bool_decide; [apply insert_non_empty|].
assert (managedByKratixLabel ≠ ∅) by apply insert_non_empty.
destruct (pf_resourceWorkflow f), (pf_resourceRequest f); auto.
Qed.

(** The jobs of generated pipelines are labelled. *)
Lemma wp_generated_labelled p typ action rr s :
  typ ∈ [WorkflowTypeResource; WorkflowTypePromise] →
  action ∈ [WorkflowActionConfigure; WorkflowActionDelete] →
  wp (generatePipelinesObjects p typ action rr) (reads s (λ rs,
    ∀ r, r ∈ rs → GetLabels (pjr_job r) ≠ ∅)) s.
Proof.
intros Ht Ha. eapply wp_mono; [by apply wp_generatePipelinesObjects|].
intros [rs|e|] s' [Hv Hrs]; (split; [done|]); [|done..].
destruct Hrs as (pls & _ & Hlen & Hb). intros r [i Hi]%list_elem_of_lookup.
destruct (lookup_lt_is_Some_2 pls i) as [pl Hpl]; [rewrite <-Hlen; by eapply lookup_lt_Some|].
destruct (Hb i pl r Hpl Hi) as (_ & _ & f & _ & obj & hash & cs & _ & _ & _ & Hl & _).
rewrite Hl. apply pipelineJobLabels_nonempty.
Qed.

(** The pipelines of a workflow are generated in order: a successful call parses
    the pipeline objects of that workflow type and action, and returns one set
    of objects per pipeline, in the same order and under its name, whose job is
    the factory's job for that pipeline; the job of the last pipeline, and only
    it, is told that it is the last.  Nothing in the cluster changes. *)
Theorem pipelines_generated_in_order (p : Promise) (typ action : string) (rr : option Unstructured) s :
  typ ∈ [WorkflowTypeResource; WorkflowTypePromise] →
  action ∈ [WorkflowActionConfigure; WorkflowActionDelete] →
  wp (generatePipelinesObjects p typ action rr) (reads s (λ rs, ∃ pls,
    PipelinesFromUnstructured (workflow_pipelines p typ action) = inr pls ∧
    length rs = length pls ∧
    ∀ i pl r, pls !! i = Some pl → rs !! i = Some r →
      built p typ action rr pl (bool_decide (Datatypes.S i = length pls)) r)) s.
Proof. apply wp_generatePipelinesObjects. Qed.
End resources.
