(* ===== verification/FactoryWitness.v ===== *)
(** * Promises and their pipelines on concrete data

    A Promise with two configure pipelines, the first of which asks for
    permissions of every kind, in the in-memory environment. *)

From S2P Require Import Prelude GoLib Meta Api Kube Client Sim Shared ResourceUtil Promise.
From S2P Require Import PromiseFacts.
From S2P Require Import PipelineFactory ResourceFacts Frame Workflow WorkflowPlan WorkflowFacts.
From S2P Require Import FactoryFacts.

Definition rule (resource : string) : PolicyRule := {|
  rule_apiGroups := [""]; rule_resources := [resource]; rule_verbs := ["get"];
  rule_resourceNames := [] |}.
Definition container (name : string) : Container := {|
  ct_name := name; ct_image := "img"; ct_args := []; ct_command := []; ct_env := [];
  ct_envFrom := []; ct_volumeMounts := []; ct_imagePullPolicy := ""; ct_securityContext := None |}.
Definition pipeline_named (name : string) (perms : list Permission) : Pipeline := {|
  pl_meta := new_meta "" name;
  pl_spec := {| pls_containers := [container "c"]; pls_volumes := []; pls_imagePullSecrets := [];
    pls_rbac := {| rbac_serviceAccount := ""; rbac_permissions := perms |};
    pls_jobOptions := {| jo_backoffLimit := None |}; pls_nodeSelector := ∅; pls_tolerations := [] |} |}.
Definition all_permissions : list Permission :=
  [{| perm_resourceNamespace := ""; perm_rule := rule "pods" |};
   {| perm_resourceNamespace := "other"; perm_rule := rule "secrets" |};
   {| perm_resourceNamespace := "*"; perm_rule := rule "namespaces" |}].

(** Libraries: an object is written as its name, and a name is read as a
    pipeline of that name. *)
#[local] Instance Sim_PromiseLib : PromiseLib := {|
  unmarshal_CRD raw := inr (mkResource (new_meta "" raw)
    {| crd_group := "example.com"; crd_kind := "Redis"; crd_plural := "redis";
       crd_singular := "redis"; crd_otherNames := "";
       crd_scope := "Namespaced"; crd_conversion := ""; crd_preserveUnknownFields := false;
       crd_versions := [{| cv_name := "v1"; cv_storage := true; cv_schema := None;
                           cv_statusSubresource := false; cv_printerColumns := [] |}] |}
    {| crdst_conditions := [] |});
  CRD_TypeMeta _ := ("CustomResourceDefinition", "apiextensions.k8s.io/v1");
  ToUnstructured p := inr (mkResource (r_meta p)
    {| us_kind := "Promise"; us_apiVersion := "platform.kratix.io/v1alpha1"; us_spec := JObj [] |} None);
  MarshalJSON o := inr (GetName o);
  decode_Pipeline name := inr (pipeline_named name all_permissions);
  yaml_scheduling _ := inr "[]";
|}.
#[local] Instance Sim_Config : Config := {|
  PIPELINE_ADAPTER_IMG := "adapter"; PIPELINE_ADAPTER_PULL_SECRET := "";
  DefaultUserProvidedContainersSecurityContext := None; DefaultImagePullPolicy := "";
  DefaultJobBackoffLimit := None |}.

Definition pipeline_object (name : string) : Unstructured :=
  mkResource (new_meta "" name)
    {| us_kind := "Pipeline"; us_apiVersion := "platform.kratix.io/v1alpha1"; us_spec := JObj [] |} None.

Definition redis : Promise := mkResource (new_meta "" "redis")
  {| prs_kind := "Promise"; prs_apiVersion := "platform.kratix.io/v1alpha1"; prs_api := Some "crd";
     prs_workflows := {| wf_resource := {| wt_configure := [pipeline_object "a"; pipeline_object "b"];
                                           wt_delete := [] |};
                         wf_promise := {| wt_configure := []; wt_delete := [] |} |};
     prs_requiredPromises := []; prs_dependencies := []; prs_destinationSelectors := [] |}
  {| prst_conditions := []; prst_version := ""; prst_observedGeneration := 0; prst_kind := "";
     prst_apiVersion := ""; prst_status := ""; prst_workflows := 0; prst_workflowsSucceeded := 0;
     prst_workflowsFailed := 0; prst_requiredPromises := []; prst_requiredBy := [];
     prst_lastAvailableTime := None |}.

Definition db : Unstructured :=
  mkResource (om_set_labels {[PromiseNameLabel := "redis"]} (new_meta "default" "db"))
    {| us_kind := "Redis"; us_apiVersion := "example.com/v1"; us_spec := JObj [] |} None.

Definition factory : PipelineFactory := {|
  pf_id := "redis-resource-configure-a"; pf_promise := redis;
  pf_pipeline := pipeline_named "a" all_permissions; pf_namespace := "default";
  pf_resourceRequest := Some db; pf_resourceWorkflow := true; pf_workflowAction := "configure";
  pf_workflowType := "resource"; pf_clusterScoped := false; pf_crdPlural := "redis" |}.

Definition sim_empty : Sim := sim_of empty_cluster.

Lemma selectors_first_wins_witness :
  let l : list PromiseScheduling :=
    [{| ps_matchLabels := {["env" := "dev"]} |}; {| ps_matchLabels := {["env" := "prod"]} |}] in
  SquashPromiseScheduling l !! "env" = Some "dev" ∧
  SquashPromiseScheduling l = generateLabelSelectorsFromScheduling l.
Proof.
intros l. destruct (selectors_first_wins l "env") as [H1 H2]. split; [|exact H1].
rewrite H2. vm_compute. reflexivity.
Defined.

Lemma generated_job_is_found_witness :
  labelsForJobs {| op_resources := []; op_workflowType := "resource"; op_numberOfJobsToKeep := 1;
                   op_skipConditions := false |} db ⊆ pipelineJobLabels factory "hash".
Proof.
apply generated_job_is_found; [reflexivity| |].
- split_and!; [reflexivity..|vm_compute; reflexivity].
- intros k _. reflexivity.
Defined.


Lemma pipelines_generated_in_order_witness :
  ∃ rs, (generatePipelinesObjects redis "resource" "configure" (Some db) sim_empty).1 = Ok rs ∧
    length rs = 2.
Proof.
assert ("resource" ∈ [WorkflowTypeResource; WorkflowTypePromise]) as Ht by left.
assert ("configure" ∈ [WorkflowActionConfigure; WorkflowActionDelete]) as Ha by left.
pose proof (pipelines_generated_in_order redis "resource" "configure" (Some db) sim_empty Ht Ha) as Hwp.
read_off Hwp. destruct Hwp as (rs & Hr & _ & pls & Hp & Hlen & _). exists rs. split; [exact Hr|].
rewrite Hlen. vm_compute in Hp. injection Hp as <-. reflexivity.
Defined.
