(* ===== verification/DynamicFacts.v ===== *)
(** * Properties of the controller for resource requests: deletion and admission *)

From S2P Require Import Prelude GoLib Meta Api Kube Client Shared ResourceUtil Promise PromiseStore.
From S2P Require Import Purge ResourceFacts Frame PipelineFactory Workflow WorkflowPlan WorkflowFacts.
From S2P Require Import WorkflowDelete FactoryFacts DynamicController.
Import DynamicReconciler.

(** ** The phases of a deletion *)
Inductive DeletionPhase := DeletingWorkflows | DeletingWorks | DeletingJobs | Deleted.

Definition phase (rr : Unstructured) : DeletionPhase :=
  if bool_decide (runDeleteWorkflowsFinalizer ∈ GetFinalizers rr) then DeletingWorkflows
  else if bool_decide (workFinalizer ∈ GetFinalizers rr) then DeletingWorks
  else if bool_decide (removeAllWorkflowJobsFinalizer ∈ GetFinalizers rr) then DeletingJobs
  else Deleted.

Definition phase_finalizer (p : DeletionPhase) : option string :=
  match p with
  | DeletingWorkflows => Some runDeleteWorkflowsFinalizer
  | DeletingWorks => Some workFinalizer
  | DeletingJobs => Some removeAllWorkflowJobsFinalizer
  | Deleted => None
  end.

(** A Work of the request: in its namespace and labelled with it. *)
Definition request_work (r : DynamicResourceRequestController) (rr : Unstructured) : Work → Prop :=
  work_matches (GetNamespace rr)
    (<[ResourceNameLabel := GetName rr]> (<[PromiseNameLabel := dc_promiseIdentifier r]> ∅)).

(** The finalizer [f] is on the object stored at [k]. *)
Definition held (f : string) (k : Key) (c : Cluster) : Prop :=
  ∃ rr, c_parents c !! k = Some rr ∧ f ∈ GetFinalizers rr.

(** ** What each phase may change *)
Definition only_works (c c' : Cluster) : Prop := c' = set_coll (c_works c') c.
#[local] Instance only_works_preorder : PreOrder only_works.
Proof. split; [by intros []|]. intros a b c Ha Hb. unfold only_works in *. by rewrite Hb, Ha. Qed.
#[local] Instance only_works_harmless : Harmless only_works WorkSpec WorkStatus.
Proof. done. Qed.

Section deletion.
Context {S : Type} `{World S, Viewed S, !WorldLaws S, Lib, !LibLaws, PromiseLib, Config}.
Implicit Types s : S.
Implicit Types rr : Unstructured.
Implicit Types r : DynamicResourceRequestController.

(** The delete workflow has nothing to run, or its newest job has succeeded. *)
Definition delete_workflow_over (promise : Promise) rr s : Prop :=
  ∃ s0 ps, view s0 = view s ∧
    (GenerateResourcePipelines promise WorkflowActionDelete rr s0).1 = Ok ps ∧
    match head ps with
    | None => True
    | Some p => ∃ j, delete_newest rr p (view s) (Some j) ∧ isRunning (Some j) = false ∧
                     (0 < js_succeeded (r_status j))%Z
    end.

(** What must hold before the finalizer of a phase is released. *)
Definition phase_goal r (promise : Promise) rr s s' : Prop :=
  match phase rr with
  | DeletingWorkflows => delete_workflow_over promise rr s
  | DeletingWorks => ∀ k w, c_works (view s') !! k = Some w → ¬ request_work r rr w
  | DeletingJobs =>
      (∀ k j, c_jobs (view s) !! k = Some j → ¬ carries (job_labels r rr) j) ∨
      (∀ k j, c_jobs (view s') !! k = Some j → ¬ carries (job_legacy_labels r rr) j)
  | Deleted => False
  end.

(** The objects of the later phases. *)
Definition phase_footprint rr s s' : Prop :=
  match phase rr with
  | DeletingWorkflows => c_works (view s') = c_works (view s)
  | DeletingWorks => c_jobs (view s') = c_jobs (view s)
  | DeletingJobs => c_works (view s') = c_works (view s)
  | Deleted => view s' = view s
  end.

Definition deletion_step r promise rr s s' : Prop :=
  phase_footprint rr s s' ∧
  ∀ f, f ∈ GetFinalizers rr →
    held f (key rr) (view s') ∨ phase_finalizer (phase rr) = Some f ∧ phase_goal r promise rr s s'.

(** Removing one finalizer keeps the others. *)
Lemma wp_remove_finalizer rr f (Q : outcome Unstructured → S → Prop) s :
  c_parents (view s) !! key rr = Some rr →
  (∀ o s' m, view s' = set_coll (Collection:=parents_coll) m (view s) →
     (∀ g, g ∈ GetFinalizers rr → g = f ∨ held g (key rr) (view s')) → Q (Ok o) s') →
  (∀ e s', view s' = view s → Q (Fail e) s') →
  wp (Update (remove_finalizer rr f)) Q s.
Proof.
intros Hp HO HE. apply wp_Update; [|done]. intros old gen s' Hold Hv.
eapply HO; [exact Hv|]. intros g Hg. destruct (decide (g = f)) as [|Hne]; [by left|right].
assert (g ∈ GetFinalizers (remove_finalizer rr f)) as Hin by by apply elem_of_remove_finalizer.
unfold held. rewrite Hv. cbn. unfold put_or_reap. rewrite (bool_decide_false (GetFinalizers _ = [])).
- rewrite andb_false_r. eexists. split; [apply lookup_insert_eq|done].
- cbn. intros E. unfold GetFinalizers in Hin. cbn in Hin. rewrite E in Hin. set_solver.
Qed.

(** ** The delete workflow *)
Lemma wp_run_delete_workflows r promise rr s :
  c_parents (view s) !! key rr = Some rr → keyed (c_jobs (view s)) → GetFinalizers rr ≠ [] →
  wp (run_delete_workflows r promise rr)
    (λ _ s', c_works (view s') = c_works (view s) ∧
       ∀ f, f ∈ GetFinalizers rr → held f (key rr) (view s') ∨
         f = runDeleteWorkflowsFinalizer ∧ delete_workflow_over promise rr s) s.
Proof.
intros Hp Hk Hf.
assert (∀ c, parent_held (PC:=parents_coll) rr (view s) c → c_works c = c_works (view s) ∧
  ∀ f, f ∈ GetFinalizers rr → held f (key rr) c ∨
    f = runDeleteWorkflowsFinalizer ∧ delete_workflow_over promise rr s) as Hheld.
{ intros c [(rr' & Hrr' & Hfs) Hw]. split; [done|]. intros f Hin. left. exists rr'. by rewrite Hfs. }
assert (∀ s', view s' = view s → parent_held (PC:=parents_coll) rr (view s) (view s')) as Hsame
  by (intros s' Hv; apply parent_held_same; [by apply parent_stored_self|by rewrite Hv]).
unfold run_delete_workflows. apply wp_bind.
destruct (GenerateResourcePipelines promise WorkflowActionDelete rr s) as [res s1] eqn:Eg.
assert (reads s (λ ps, ∀ p, p ∈ ps → GetLabels (pjr_job p) ≠ ∅) res s1) as [Hv1 Hl].
{ eapply wp_intro; [exact Eg|]. apply wp_generated_labelled; set_solver. }
eapply wp_elim; [exact Eg|]. destruct res as [ps|e|]; [|by apply Hheld, Hsame..].
assert (∀ p, head ps = Some p → GetLabels (pjr_job p) ≠ ∅) as Hl'.
{ intros p Hh. apply Hl. destruct ps; simplify_eq/=. by left. }
apply wp_bind, wp_try.
eapply wp_mono.
{ apply wp_and.
  - apply wp_ReconcileDelete; [by rewrite Hv1|exact Hl'].
  - apply wp_ReconcileDelete_held; [by rewrite Hv1|done| |done]. apply parent_stored_self. by rewrite Hv1. }
rewrite Hv1. intros [[requeue rr']|e|] s2 [Hplan Hs2]; cbn [post] in *; [| |done].
- destruct requeue; [by apply wp_ret, Hheld, Hs2|].
  destruct Hs2 as [_ Hs2]. cbn in Hs2. destruct (Hs2 eq_refl) as [-> Hv2].
  assert (delete_workflow_over promise rr s) as Hover.
  { exists s, ps. split; [done|]. split; [by rewrite Eg|]. unfold delete_done in Hplan. cbn in Hplan.
    destruct (head ps) as [p|]; [|done]. destruct Hplan as (mj & Hnew & Heff).
    by apply delete_over in Heff as (j & -> & Hrun & Hsucc); exists j. }
  apply wp_bind, wp_remove_finalizer; [by rewrite Hv2| |].
  + intros o s3 m Hv3 Hg. apply wp_ret. rewrite Hv2 in Hv3. split; [by rewrite Hv3|].
    intros f [->|Hin]%Hg; [by right|by left].
  + intros e s3 Hv3. apply Hheld, Hsame. congruence.
- apply wp_bind. case_bool_decide; [|apply wp_ret, wp_fail; by apply Hheld].
  apply wp_bind, wp_Eventf. intros s3 Hv3. apply wp_bind, wp_mark. intros rr' s4 Hv4 Hm.
  apply wp_bind, wp_try, wp_StatusUpdate.
  + intros old s5 Hold Hv5. apply wp_ret, wp_fail. apply Hheld.
    destruct Hs2 as [(p' & Hp' & Hfs) Hw]. rewrite Hv4, Hv3 in Hold, Hv5.
    assert (key rr' = key rr) as Hkr by (unfold key; by rewrite (mk_meta _ _ _ _ _ _ Hm)).
    rewrite Hkr in Hold, Hv5. rewrite Hv5. split; [|done]. cbn. eexists.
    split; [apply lookup_insert_eq|]. change (c_parents (view s2) !! key rr = Some old) in Hold.
    change (c_parents (view s2) !! key rr = Some p') in Hp'. by simplify_eq.
  + intros e' s5 Hv5. apply wp_ret, wp_fail. rewrite Hv5, Hv4, Hv3. by apply Hheld.
Qed.

(** ** Works *)
Lemma wp_deleteWork r rr s :
  c_parents (view s) !! key rr = Some rr →
  wp (deleteWork r rr workFinalizer)
    (λ _ s', c_jobs (view s') = c_jobs (view s) ∧
       ∀ f, f ∈ GetFinalizers rr → held f (key rr) (view s') ∨
         f = workFinalizer ∧ ∀ k w, c_works (view s') !! k = Some w → ¬ request_work r rr w) s.
Proof.
intros Hp. assert (∀ c, only_works (view s) c → c_jobs c = c_jobs (view s) ∧
  ∀ f, f ∈ GetFinalizers rr → held f (key rr) c ∨
    f = workFinalizer ∧ ∀ k w, c_works c !! k = Some w → ¬ request_work r rr w) as Hheld.
{ intros c ->. split; [done|]. intros f Hf. left. by exists rr. }
apply wp_bind, wp_getExistingWorks; [apply insert_non_empty| |].
2:{ intros e s' ->. by apply Hheld. }
intros [|w ws] s1 Hv1 Hl.
- apply wp_bind, wp_remove_finalizer; [by rewrite Hv1| |].
  + intros o s2 m Hv2 Hg. apply wp_ret. rewrite Hv1 in Hv2. split; [by rewrite Hv2|].
    intros f [->|Hin]%Hg; [right|by left]. split; [done|]. rewrite Hv2. intros k w Hk Hm.
    assert (w ∈ []) as Hin by (apply Hl; eauto). by apply elem_of_nil in Hin.
  + intros e s2 ->. rewrite Hv1. by apply Hheld.
- assert (keeps (S:=S) only_works (iterM (λ work : Work, Delete work) (w :: ws))) as Hloop by keeps.
  eapply wp_mono; [apply Hloop|]. rewrite Hv1.
  intros [[]|e|] s2 Hs2; [by apply Hheld..|done].
Qed.

(** ** Jobs *)
Lemma held_becomes (m : gmap Key Job) s s' k f :
  becomes m s s' → held f k (view s) → held f k (view s').
Proof. unfold becomes, held. by intros ->. Qed.

Lemma wp_deleteWorkflows r rr s :
  c_parents (view s) !! key rr = Some rr → keyed (c_jobs (view s)) →
  wp (deleteWorkflows r rr removeAllWorkflowJobsFinalizer)
    (λ _ s', c_works (view s') = c_works (view s) ∧
       ∀ f, f ∈ GetFinalizers rr → held f (key rr) (view s') ∨
         f = removeAllWorkflowJobsFinalizer ∧
         ((∀ k j, c_jobs (view s) !! k = Some j → ¬ carries (job_labels r rr) j) ∨
          (∀ k j, c_jobs (view s') !! k = Some j → ¬ carries (job_legacy_labels r rr) j))) s.
Proof.
intros Hp Hk.
set (free (s' : S) := (∀ k j, c_jobs (view s) !! k = Some j → ¬ carries (job_labels r rr) j) ∨
  (∀ k j, c_jobs (view s') !! k = Some j → ¬ carries (job_legacy_labels r rr) j)).
assert (∀ m s', becomes (Sp:=JobSpec) m s s' → c_works (view s') = c_works (view s) ∧
  ∀ f, f ∈ GetFinalizers rr →
    held f (key rr) (view s') ∨ f = removeAllWorkflowJobsFinalizer ∧ free s') as Hheld.
{ intros m s' Hb. split; [unfold becomes in Hb; by rewrite Hb|]. intros f Hf. left.
  eapply held_becomes; [exact Hb|]. by exists rr. }
assert (∀ m s1, becomes (Sp:=JobSpec) m s s1 → free s1 →
  wp (Update (remove_finalizer rr removeAllWorkflowJobsFinalizer) ;;; ret tt)
    (λ _ s', c_works (view s') = c_works (view s) ∧
       ∀ f, f ∈ GetFinalizers rr →
         held f (key rr) (view s') ∨ f = removeAllWorkflowJobsFinalizer ∧ free s') s1) as Hrelease.
{ intros m s1 Hb Hfree. unfold becomes in Hb. apply wp_bind, wp_remove_finalizer.
  - by rewrite Hb.
  - intros o s2 m' Hv2 Hg. apply wp_ret. rewrite Hb in Hv2. split; [by rewrite Hv2|].
    intros f [->|Hin]%Hg; [right|by left]. split; [done|].
    destruct Hfree as [?|Hfree]; [by left|right]. rewrite Hv2. by rewrite Hb in Hfree.
  - intros e s2 Hv2. eapply Hheld. unfold becomes. by rewrite Hv2. }
unfold deleteWorkflows. apply wp_deleteTwice; [done| |].
- intros b b' m s1 Hb Hno Hno'. destruct b; [destruct b'|]; cbn [negb orb].
  + apply wp_ret. by eapply Hheld.
  + apply (Hrelease m); [done|]. right. by apply Hno'.
  + apply (Hrelease m); [done|]. left. by apply Hno.
- intros e m s1 Hb. by eapply Hheld.
Qed.

(** ** Deletion in phases *)
Lemma wp_deleteResources r promise rr s :
  c_parents (view s) !! key rr = Some rr → keyed (c_jobs (view s)) →
  wp (DynamicReconciler.deleteResources r promise rr) (λ _ s', deletion_step r promise rr s s') s.
Proof.
intros Hp Hk. unfold deletion_step, phase_footprint, phase_goal, DynamicReconciler.deleteResources, phase.
rewrite !contains_finalizer.
destruct (FinalizersAreDeleted _ _) eqn:Ed.
{ pose proof (proj1 (FinalizersAreDeleted_spec _ _) Ed) as Hno.
  rewrite !bool_decide_false by (apply Hno; unfold rrFinalizers; set_solver).
  apply wp_ret. split; [done|]. intros f Hf. left. by exists rr. }
case_bool_decide as Hrun.
{ eapply wp_mono; [apply wp_run_delete_workflows; [done|done|]|].
  { intros E. rewrite E in Hrun. by apply elem_of_nil in Hrun. }
  intros _ s' [Hw Hf]. split; [done|]. intros f [?|[-> ?]]%Hf; auto. }
case_bool_decide as Hwork.
{ apply wp_bind. eapply wp_mono; [by apply wp_deleteWork|]. cbn beta.
  intros res s' [Hj Hf].
  destruct res; [apply wp_ret|..]; (split; [done|]); intros f [?|[-> ?]]%Hf; auto. }
case_bool_decide as Hjobs.
{ apply wp_bind. eapply wp_mono; [by apply wp_deleteWorkflows|]. cbn beta.
  intros res s' [Hj Hf].
  destruct res; [apply wp_ret|..]; (split; [done|]); intros f [?|[-> ?]]%Hf; auto. }
apply wp_ret. split; [done|]. intros f Hf. left. by exists rr.
Qed.

(** Nothing in a step depends on more than the cluster. *)
Lemma deletion_step_view r promise rr s s1 s' :
  view s1 = view s → deletion_step r promise rr s1 s' → deletion_step r promise rr s s'.
Proof.
unfold deletion_step, phase_footprint, phase_goal, delete_workflow_over. by intros ->.
Qed.

(** ** Admission *)
Context `{PromiseCodec, !PromiseCodecLaws, TimeLib}.

Definition paused (promise : Promise) : bool :=
  bool_decide (label (GetLabels promise) pauseReconciliationLabel = "true").
Definition claimed r rr : bool :=
  bool_decide (label (GetLabels rr) PromiseNameLabel = dc_promiseIdentifier r).

Lemma wp_DynamicReconcile r req promise rr (Q : outcome Result → S → Prop) s :
  dc_enabled r = true → typed_promises (view s) !! ("", dc_promiseIdentifier r) = Some promise →
  c_parents (view s) !! req = Some rr →
  (∀ s', view s' = view s → wp (reconcileRequest r promise rr) Q s') →
  (∀ e s', view s' = view s → Q (Fail e) s') →
  (∀ s', view s' = view s → Q (Ok defaultRequeue) s') →
  wp (DynamicReconciler.Reconcile r req) Q s.
Proof.
intros Hen Hpr Hrr HO HE HR. unfold DynamicReconciler.Reconcile. rewrite Hen. cbn [negb].
apply wp_bind, wp_GetPromise; [|done]. intros p s1 Hv1 Hp. assert (p = promise) as -> by congruence.
apply wp_bind, wp_try, wp_Get.
- intros rr' s2 Hv2 Hg. rewrite Hv1 in Hg, Hv2. apply HO in Hv2.
  change (c_parents (view s) !! req = Some rr') in Hg. by simplify_eq.
- intros e s2 Hv2 Hnf. rewrite Hv1 in Hnf, Hv2. destruct (IsNotFound e); [|by apply wp_ret, HR].
  specialize (Hnf eq_refl). change (c_parents (view s) !! req = None) in Hnf. congruence.
Qed.


(** Workflows may run for the request. *)
Definition admitted r (promise : Promise) rr : bool :=
  negb (paused promise) && claimed r rr &&
  (deleting rr || dc_canCreateResources r && negb (IsPromiseMarkedAsUnavailable rr) &&
                  negb (FinalizersAreMissing (GetFinalizers rr) rrFinalizers)).

(** Only the object stored at [k] may be different. *)
Definition only_request (k : Key) (c c' : Cluster) : Prop :=
  c' = set_coll (Collection:=parents_coll) (c_parents c') c ∧
  ∀ k', k' ≠ k → c_parents c' !! k' = c_parents c !! k'.

Lemma only_request_refl k c : only_request k c c.
Proof. by destruct c. Qed.

Lemma only_request_insert k o c :
  only_request k c (set_coll (Collection:=parents_coll) (<[k := o]> (c_parents c)) c).
Proof. split; [done|]. intros k' Hk. cbn. by rewrite lookup_insert_ne. Qed.

Lemma only_request_put (o : Unstructured) c :
  only_request (key o) c (set_coll (Collection:=parents_coll) (put_or_reap o (c_parents c)) c).
Proof.
split; [done|]. intros k' Hk. cbn. unfold put_or_reap.
case_match; by rewrite ?lookup_delete_ne, ?lookup_insert_ne.
Qed.

(** The stored request says that reconciliation is paused; it is otherwise as before. *)
Definition paused_reported rr s' : Prop :=
  ∃ rr' c, c_parents (view s') !! key rr = Some rr' ∧ r_meta rr' = r_meta rr ∧ r_spec rr' = r_spec rr ∧
    GetCondition rr' ReconciledCondition = Some c ∧ cond_status c = ConditionUnknown ∧
    cond_message c = "Paused".

Lemma wp_setPaused rr s :
  c_parents (view s) !! key rr = Some rr →
  wp (setPausedReconciliationStatusConditions rr)
    (post (λ _ s', only_request (key rr) (view s) (view s') ∧ paused_reported rr s')
          (λ _ s', only_request (key rr) (view s) (view s'))) s.
Proof.
intros Hp.
assert (wp (let! rr := MarkReconciledPaused rr in StatusUpdate rr ;;; ret tt)
  (post (λ _ s', only_request (key rr) (view s) (view s') ∧ paused_reported rr s')
        (λ _ s', only_request (key rr) (view s) (view s'))) s) as Hmark.
{ apply wp_bind, wp_mark. intros rr' s1 Hv1 [Hm Hs (c & Hc & Hst & _ & Hmsg) _ _].
  assert (key rr' = key rr) as Hk by (unfold key; by rewrite Hm).
  apply wp_bind, wp_StatusUpdate; rewrite Hv1, ?Hk.
  - intros old s2 Hold Hv2. change (c_parents (view s) !! key rr = Some old) in Hold. simplify_eq.
    apply wp_ret. cbn [post]. unfold paused_reported. rewrite Hv2.
    split; [apply only_request_insert|]. exists (set_status (r_status rr') rr), c.
    split_and!; try done. apply lookup_insert_eq.
  - intros e s2 Hv2. cbn [post]. rewrite Hv2. apply only_request_refl. }
unfold setPausedReconciliationStatusConditions.
destruct (GetCondition rr ReconciledCondition) as [c|] eqn:Ec; [|exact Hmark].
destruct (bool_decide (cond_status c ≠ "Unknown")) eqn:E1; [exact Hmark|].
destruct (bool_decide (cond_message c ≠ "Paused")) eqn:E2; [exact Hmark|].
apply bool_decide_eq_false, dec_stable in E1, E2.
apply wp_ret. cbn [post]. split; [apply only_request_refl|]. by exists rr, c.
Qed.

Lemma wp_addFinalizers_request rr s :
  c_parents (view s) !! key rr = Some rr →
  wp (addFinalizers rr rrFinalizers)
    (post (λ _ s', only_request (key rr) (view s) (view s') ∧
             ∀ f, f ∈ rrFinalizers → held f (key rr) (view s'))
          (λ _ s', only_request (key rr) (view s) (view s'))) s.
Proof.
intros Hp. apply wp_bind, wp_Update.
2:{ intros e s' Hv. cbn [post]. rewrite Hv. apply only_request_refl. }
intros old gen s' Hold Hv. apply wp_ret. cbn [post]. rewrite Hv.
match goal with |- context [on_update gen old ?x] => set (new := x) in * end.
split; [apply (only_request_put (on_update gen old new))|].
assert (∀ f, f ∈ rrFinalizers → f ∈ GetFinalizers new) as Hin.
{ intros f Hf. cbn. unfold rrFinalizers in *. rewrite !elem_of_add_finalizer. set_solver. }
intros f Hf. unfold held. cbn. unfold put_or_reap. rewrite (bool_decide_false (GetFinalizers _ = [])).
- rewrite andb_false_r. eexists. split; [apply lookup_insert_eq|]. by apply Hin.
- intros E. specialize (Hin f Hf). change (GetFinalizers new = []) in E. rewrite E in Hin.
  by apply elem_of_nil in Hin.
Qed.

(** C24: No work is started for a request that is not admitted: while the Promise is
    paused, the request is not yet labelled with its Promise, the Promise cannot
    create resources, the request still says that it cannot, or one of its three
    clean-up finalizers is missing, a reconciliation writes nothing but the
    request itself (so no job, no role, no Work), and it does not panic.  While
    paused it only reports so in the status.  An otherwise admitted request
    leaves a successful reconciliation with all three finalizers. *)
Theorem unadmitted_request_waits r req promise rr s :
  dc_enabled r = true → typed_promises (view s) !! ("", dc_promiseIdentifier r) = Some promise →
  keyed (c_parents (view s)) → c_parents (view s) !! req = Some rr →
  admitted r promise rr = false →
  wp (DynamicReconciler.Reconcile r req)
    (post (λ res s', only_request req (view s) (view s') ∧
             (paused promise = true → res = noRequeue → paused_reported rr s') ∧
             (paused promise = false → claimed r rr = true → deleting rr = false →
              dc_canCreateResources r = true → IsPromiseMarkedAsUnavailable rr = false →
              res = noRequeue → ∀ f, f ∈ rrFinalizers → held f req (view s')))
          (λ _ s', only_request req (view s) (view s'))) s.
Proof.
intros Hen Hpr Hkp Hrr Hadm. pose proof (Hkp _ _ Hrr) as <-.
eapply wp_DynamicReconcile; [done..| | |].
2:{ intros e s' Hv. cbn [post]. rewrite Hv. apply only_request_refl. }
2:{ intros s' Hv. cbn [post]. rewrite Hv. split; [apply only_request_refl|]. by split. }
intros s1 Hv1. rewrite <-Hv1 in Hrr |- *. clear Hv1 Hkp Hpr Hen.
unfold reconcileRequest. fold (paused promise). unfold admitted in Hadm.
destruct (paused promise).
{ apply wp_bind. eapply wp_mono; [by apply wp_setPaused|].
  intros [[]|e|] s' Hs; [|done|done]. destruct Hs as [Ho Hrep]. apply wp_ret. by split_and!. }
unfold claimed in *. rewrite bool_decide_not. destruct (bool_decide (label _ _ = _)); cbn [negb].
2:{ apply wp_bind, wp_Update.
  - intros old gen s' _ Hv. apply wp_ret. cbn [post]. rewrite Hv.
    split; [|by split]. exact (only_request_put (on_update gen old _) (view s1)).
  - intros e s' Hv. cbn [post]. rewrite Hv. apply only_request_refl. }
destruct (deleting rr); [done|].
assert (∀ o t st m c, r_meta o = r_meta rr →
  wp (let! rr' := mark o t st m c in StatusUpdate rr' ;;; ret noRequeue)
  (post (λ _ s', only_request (key rr) (view s1) (view s'))
        (λ _ s', only_request (key rr) (view s1) (view s'))) s1) as Hstatus.
{ intros o t st m c Ho. apply wp_bind, wp_mark. intros rr' s2 Hv2 Hm.
  assert (key rr' = key rr) as Hk by (unfold key; by rewrite (mk_meta _ _ _ _ _ _ Hm), Ho).
  apply wp_bind, wp_StatusUpdate; rewrite Hv2, ?Hk.
  - intros old s3 Hold Hv3. apply wp_ret. cbn [post]. rewrite Hv3. apply only_request_insert.
  - intros e s3 Hv3. cbn [post]. rewrite Hv3. apply only_request_refl. }
destruct (dc_canCreateResources r); cbn [negb andb orb] in *.
- destruct (IsPromiseMarkedAsUnavailable rr) eqn:Eu.
  + unfold ensurePromiseIsAvailable, MarkPromiseConditionAsAvailable. eapply wp_mono; [by apply Hstatus|]. intros [res|e|] s' Hs; [by split_and!|done|done].
  + cbn [negb andb orb] in Hadm. change [workFinalizer; removeAllWorkflowJobsFinalizer; runDeleteWorkflowsFinalizer]
      with rrFinalizers. destruct (FinalizersAreMissing _ _); [|done].
    eapply wp_mono; [by apply wp_addFinalizers_request|].
    intros [res|e|] s' Hs; [|done|done]. by destruct Hs as [Ho Hf]; split_and!.
- unfold ensurePromiseIsUnavailable. destruct (negb _).
  + unfold MarkPromiseConditionAsNotAvailable.
    eapply wp_mono; [apply Hstatus; by rewrite SetStatus_one|].
    intros [res|e|] s' Hs; [by split_and!|done|done].
  + apply wp_ret. split; [apply only_request_refl|]. by split.
Qed.
End deletion.
