(* ===== verification/DynamicStatus.v ===== *)
(** * What a resource request reports: conditions and counters

    The conditions of a request follow from the Works it produced and the state
    of its workflow, and computing them again changes nothing. *)

From S2P Require Import Prelude GoLib Meta Api Kube Client Shared ResourceUtil Promise.
From S2P Require Import ResourceFacts Frame Workflow WorkflowOrder DynamicController.
Import DynamicReconciler.

(** ** What the conditions should say *)
Definition says (c : option Condition) (status : string) : Prop :=
  ∃ d, c = Some d ∧ cond_status d = status.

Lemma status_is_spec c st : status_is c st = true ↔ says c st.
Proof.
unfold status_is, says. destruct c as [c|]; [|naive_solver].
rewrite bool_decide_eq_true. naive_solver.
Qed.

(** [WorksSucceeded], from whether some Work fails, is pending or is misplaced. *)
Definition works_truth (failing pending misplaced : bool) (c : option Condition) : Prop :=
  if failing then ∃ d, c = Some d ∧ cond_status d ≠ ConditionTrue
  else if pending then says c ConditionUnknown
  else if misplaced then ∃ d, c = Some d ∧ cond_status d = ConditionFalse ∧ cond_reason d = "WorksMisplaced"
  else says c ConditionTrue.

(** [Reconciled], from the conditions of the workflow and of the Works. *)
Definition reconciled_truth (workflow works reconciled : option Condition) : Prop :=
  if status_is workflow ConditionFalse && reason_is workflow "PipelinesInProgress"
  then says reconciled ConditionUnknown
  else if status_is workflow ConditionFalse
  then ∃ d, reconciled = Some d ∧ cond_status d = ConditionFalse ∧
            cond_reason d = ConfigureWorkflowCompletedFailedReason
  else if status_is works ConditionUnknown then says reconciled ConditionUnknown
  else if status_is works ConditionFalse then says reconciled ConditionFalse
  else if status_is workflow ConditionTrue && status_is works ConditionTrue
  then says reconciled ConditionTrue
  else True.

Definition counters_truth `{Lib} (rr : Unstructured) (n : Z) : Prop :=
  GetWorkflowsCounterStatus rr "workflows" = n ∧
  GetWorkflowsCounterStatus rr "workflowsSucceeded" =
    (if status_is (GetCondition rr ConfigureWorkflowCompletedCondition) ConditionTrue then n else 0%Z).

Section status.
Context {S : Type} `{World S, Viewed S, !WorldLaws S, Lib, !LibLaws}.
Implicit Types s : S.
Implicit Types rr : Unstructured.
Implicit Types r : DynamicResourceRequestController.

(** ** Works, by their messages *)
Definition ready_message (w : Work) : option string :=
  cond_message <$> FindStatusCondition (wst_conditions (r_status w)) "Ready".

Definition request_works r rr : Work → Prop :=
  work_matches (GetNamespace rr)
    (GetWorkLabels (dc_promiseIdentifier r) (GetName rr) "" WorkTypeResource).

(** A Work of the request whose Ready condition carries this message. *)
Definition some_work r rr (message : string) (c : Cluster) : Prop :=
  ∃ k w, c_works c !! k = Some w ∧ request_works r rr w ∧ ready_message w = Some message.

(** Every Work of the request reports on its readiness. *)
Definition works_report r rr (c : Cluster) : Prop :=
  ∀ k w, c_works c !! k = Some w → request_works r rr w → ready_message w ≠ None.

Definition with_message (message : string) (works : list Work) : list string :=
  GetName <$> filter (λ w, ready_message w = Some message) works.

Lemma with_message_cons message w works :
  with_message message (w :: works) =
  (if bool_decide (ready_message w = Some message) then [GetName w] else []) ++ with_message message works.
Proof. unfold with_message. rewrite filter_cons. by case_bool_decide; case_decide. Qed.

Lemma sort_works_spec works acc :
  (∀ w, w ∈ works → ready_message w ≠ None) →
  ∃ ws, sort_works works acc = Ok ws ∧
    ws_failed ws = ws_failed acc ++ with_message "Failing" works ∧
    ws_misplaced ws = ws_misplaced acc ++ with_message "Misplaced" works ∧
    ws_pending ws = ws_pending acc ++ with_message "Pending" works ∧
    ws_ready ws = ws_ready acc ++ with_message "Ready" works.
Proof.
revert acc. induction works as [|w works IH]; intros acc Hw.
{ exists acc. unfold with_message. cbn. by rewrite !app_nil_r. }
specialize (Hw w ltac:(left)) as Hm. cbn [sort_works]. unfold ready_message in Hm.
destruct (FindStatusCondition _ _) as [d|] eqn:Ef; [clear Hm|done].
destruct (IH (add_work (cond_message d) (GetName w) acc)) as (ws & -> & E1 & E2 & E3 & E4).
{ intros w' Hin. apply Hw. by right. }
exists ws. split; [done|]. rewrite !with_message_cons, E1, E2, E3, E4. unfold add_work.
assert (ready_message w = Some (cond_message d)) as -> by (unfold ready_message; by rewrite Ef).
repeat case_bool_decide; simplify_eq; try congruence; cbn; rewrite <-?(assoc_L (++)); done.
Qed.

Lemma with_message_some r rr c works message :
  (∀ w, w ∈ works ↔ request_works r rr w ∧ ∃ k, c_works c !! k = Some w) →
  bool_decide (0 < length (with_message message works)) = true ↔ some_work r rr message c.
Proof.
intros Hl. rewrite bool_decide_eq_true. unfold with_message. rewrite length_fmap. split.
- destruct (filter _ works) as [|w ws] eqn:E; [cbn; lia|]. intros _.
  assert (w ∈ filter (λ w, ready_message w = Some message) works) as Hin by (rewrite E; left).
  apply list_elem_of_filter in Hin as [Hm [Hw [k Hk]]%Hl]. by exists k, w.
- intros (k & w & Hk & Hw & Hm). assert (w ∈ works) as Hin by (apply Hl; eauto).
  assert (w ∈ filter (λ w, ready_message w = Some message) works) as Hin' by by apply list_elem_of_filter.
  destruct (filter _ works); [by apply elem_of_nil in Hin'|cbn; lia].
Qed.

(** ** The conditions, one at a time *)

(** [b] tells whether [rr'] differs from [rr]; at most the condition [t] does. *)
Record condition_step (t : string) rr (b : bool) rr' : Prop := {
  cs_meta : r_meta rr' = r_meta rr;
  cs_spec : r_spec rr' = r_spec rr;
  cs_others : ∀ t', t' ≠ t → GetCondition rr' t' = GetCondition rr t';
  cs_fields : ∀ k, k ≠ "conditions" → status_field rr' k = status_field rr k;
  cs_same : b = false → rr' = rr;
}.

Lemma step_none t rr : condition_step t rr false rr.
Proof. done. Qed.
Lemma step_marked rr t st m reason rr' : marked rr t st m reason rr' → condition_step t rr true rr'.
Proof. by intros []; split. Qed.

Definition condition_updated t (P : option Condition → Prop) rr s (r : outcome (bool * Unstructured)) s'
    : Prop :=
  ∃ b rr', r = Ok (b, rr') ∧ view s' = view s ∧ condition_step t rr b rr' ∧ P (GetCondition rr' t) ∧
    (P (GetCondition rr t) → b = false).

Lemma wp_mark_updated t st m reason rr (P : option Condition → Prop) s :
  ¬ P (GetCondition rr t) →
  (∀ c, cond_status c = st → cond_reason c = reason → P (Some c)) →
  wp (let! rr' := mark rr t st m reason in ret (true, rr')) (condition_updated t P rr s) s.
Proof.
intros Hn HP. apply wp_bind, wp_mark. intros rr' s' Hv Hm. apply wp_ret.
exists true, rr'. split_and!; [done|done|by eapply step_marked| |done].
destruct Hm as [_ _ (c & -> & ? & ? & _) _ _]. auto.
Qed.

Lemma wp_mark_event t st m reason type ereason msg rr (P : option Condition → Prop) s :
  ¬ P (GetCondition rr t) →
  (∀ c, cond_status c = st → cond_reason c = reason → P (Some c)) →
  wp (let! rr' := mark rr t st m reason in Eventf rr' type ereason msg ;;; ret (true, rr'))
    (condition_updated t P rr s) s.
Proof.
intros Hn HP. apply wp_bind, wp_mark. intros rr' s' Hv Hm. apply wp_bind, wp_Eventf.
intros s2 Hv2. apply wp_ret. exists true, rr'.
split_and!; [done|congruence|by eapply step_marked| |done].
destruct Hm as [_ _ (c & -> & ? & ? & _) _ _]. auto.
Qed.

Lemma wp_not_updated t rr (P : option Condition → Prop) s :
  P (GetCondition rr t) → wp (ret (false, rr)) (condition_updated t P rr s) s.
Proof. intros HP. apply wp_ret. by exists false, rr. Qed.

Lemma wp_updateWorksSucceededCondition rr (w : WorksStatus) s :
  wp (updateWorksSucceededCondition rr w)
    (condition_updated WorksSucceededCondition
       (works_truth (bool_decide (0 < length (ws_failed w))) (bool_decide (0 < length (ws_pending w)))
          (bool_decide (0 < length (ws_misplaced w)))) rr s) s.
Proof.
unfold updateWorksSucceededCondition, MarkResourceRequestAsWorksFailed,
  MarkResourceRequestAsWorksPending, MarkResourceRequestAsWorksMisplaced,
  MarkResourceRequestAsWorksSucceeded, works_truth.
destruct (bool_decide (0 < length (ws_failed w))).
{ destruct (GetCondition rr WorksSucceededCondition) as [c|] eqn:Ec; cbn.
  - destruct (bool_decide (cond_status c = ConditionTrue)) eqn:E.
    + apply bool_decide_eq_true in E. apply wp_mark_event; [rewrite Ec; naive_solver|].
      intros d Hd _. exists d. by rewrite Hd.
    + apply bool_decide_eq_false in E. apply wp_not_updated. rewrite Ec. by exists c.
  - apply wp_mark_event; [rewrite Ec; naive_solver|]. intros d Hd _. exists d. by rewrite Hd. }
destruct (bool_decide (0 < length (ws_pending w))).
{ destruct (status_is _ ConditionUnknown) eqn:E; cbn [negb].
  - by apply wp_not_updated, status_is_spec.
  - apply wp_mark_updated; [by rewrite <-status_is_spec, E|]. intros d Hd _. by exists d. }
destruct (bool_decide (0 < length (ws_misplaced w))).
{ destruct (GetCondition rr WorksSucceededCondition) as [c|] eqn:Ec; cbn.
  - destruct (bool_decide (cond_status c = ConditionFalse)) eqn:E1,
      (bool_decide (cond_reason c = "WorksMisplaced")) eqn:E2; cbn;
      rewrite ?bool_decide_eq_true, ?bool_decide_eq_false in *.
    1: apply wp_not_updated; rewrite Ec; by exists c.
    all: apply wp_mark_event; [rewrite Ec; naive_solver|]; intros d ? ?; by exists d.
  - apply wp_mark_event; [rewrite Ec; naive_solver|]. intros d ? ?. by exists d. }
destruct (status_is _ ConditionTrue) eqn:E; cbn [negb].
- by apply wp_not_updated, status_is_spec.
- apply wp_mark_event; [by rewrite <-status_is_spec, E|]. intros d Hd _. by exists d.
Qed.

(** A condition that only has a status to get right. *)
Lemma wp_update_status t st m reason rr s :
  wp (if negb (status_is (GetCondition rr t) st)
      then let! rr' := mark rr t st m reason in ret (true, rr') else ret (false, rr))
    (condition_updated t (λ c, says c st) rr s) s.
Proof.
destruct (status_is _ st) eqn:E; cbn [negb].
- by apply wp_not_updated, status_is_spec.
- apply wp_mark_updated; [by rewrite <-status_is_spec, E|]. intros d Hd _. by exists d.
Qed.

Lemma wp_updateReconciledCondition rr s :
  wp (updateReconciledCondition rr)
    (condition_updated ReconciledCondition
       (reconciled_truth (GetCondition rr ConfigureWorkflowCompletedCondition)
          (GetCondition rr WorksSucceededCondition)) rr s) s.
Proof.
unfold updateReconciledCondition, MarkReconciledPending, MarkReconciledFailing, MarkReconciledTrue.
unfold reconciled_truth.
set (wf := GetCondition rr ConfigureWorkflowCompletedCondition).
set (ws := GetCondition rr WorksSucceededCondition).
destruct (status_is wf ConditionFalse && _); [apply wp_update_status|].
destruct (status_is wf ConditionFalse).
{ destruct (GetCondition rr ReconciledCondition) as [c|] eqn:Ec; cbn.
  - destruct (bool_decide (cond_status c = ConditionFalse)) eqn:E1,
      (bool_decide (cond_reason c = ConfigureWorkflowCompletedFailedReason)) eqn:E2; cbn;
      rewrite ?bool_decide_eq_true, ?bool_decide_eq_false in *.
    1: apply wp_not_updated; rewrite Ec; by exists c.
    all: apply wp_mark_updated; [rewrite Ec; naive_solver|]; intros d ? ?; by exists d.
  - apply wp_mark_updated; [rewrite Ec; naive_solver|]. intros d ? ?. by exists d. }
destruct (status_is ws ConditionUnknown); [apply wp_update_status|].
destruct (status_is ws ConditionFalse); [apply wp_update_status|].
destruct (status_is wf ConditionTrue && _); [|by apply wp_not_updated].
destruct (status_is (GetCondition rr ReconciledCondition) ConditionTrue) eqn:E; cbn [negb].
- by apply wp_not_updated, status_is_spec.
- apply wp_mark_event; [by rewrite <-status_is_spec, E|]. intros d Hd _. by exists d.
Qed.

(** ** The counters *)
Lemma generateWorkflowsCounterStatus_spec rr n :
  let u := generateWorkflowsCounterStatus rr n in
  counters_truth u.2 n ∧ r_meta u.2 = r_meta rr ∧ r_spec u.2 = r_spec rr ∧
  (∀ t, GetCondition u.2 t = GetCondition rr t) ∧
  (u.1 = false → u.2 = rr) ∧ (counters_truth rr n → u.1 = false).
Proof.
unfold generateWorkflowsCounterStatus, counters_truth. cbv zeta.
set (d := if status_is _ _ then n else 0%Z).
destruct (bool_decide _ || bool_decide _) eqn:E.
- cbn [fst snd]. change [JStr "workflows"; JInt n; JStr "workflowsSucceeded"; JInt d; JStr "workflowsFailed"; JInt 0]
    with (pairs [("workflows", JInt n); ("workflowsSucceeded", JInt d); ("workflowsFailed", JInt 0)]).
  rewrite SetStatus_pairs by done. cbn [foldl fst snd].
  assert (∀ t m, GetCondition (set_status (Some (<["workflowsFailed" := JInt 0]>
    (<["workflowsSucceeded" := JInt d]> (<["workflows" := JInt n]> m)))) rr) t =
    conditions_Get (Some m) t) as Hc.
  { intros t m. apply conditions_get_field. cbn. by rewrite !lookup_insert_ne. }
  assert (∀ t, conditions_Get (Some (default ∅ (r_status rr))) t = GetCondition rr t) as Hc'.
  { intros t. by apply conditions_get_field. }
  rewrite Hc, Hc'. fold d. split_and!; try done.
  + unfold GetWorkflowsCounterStatus, status_field. cbn.
    by rewrite !lookup_insert_ne, lookup_insert_eq by done.
  + unfold GetWorkflowsCounterStatus, status_field. cbn.
    by rewrite lookup_insert_ne, lookup_insert_eq by done.
  + intros t. by rewrite Hc, Hc'.
  + apply orb_true_iff in E as [E%bool_decide_eq_true|E%bool_decide_eq_true]; by intros [? ?].
- apply orb_false_iff in E as [E1%bool_decide_eq_false%dec_stable E2%bool_decide_eq_false%dec_stable].
  done.
Qed.

(** ** The whole status *)
Record status_true r (c : Cluster) (n : Z) rr rr' : Prop := {
  st_meta : r_meta rr' = r_meta rr;
  st_spec : r_spec rr' = r_spec rr;
  st_works : ∃ failing pending misplaced,
    (failing = true ↔ some_work r rr "Failing" c) ∧ (pending = true ↔ some_work r rr "Pending" c) ∧
    (misplaced = true ↔ some_work r rr "Misplaced" c) ∧
    works_truth failing pending misplaced (GetCondition rr' WorksSucceededCondition);
  st_reconciled :
    reconciled_truth (GetCondition rr' ConfigureWorkflowCompletedCondition)
      (GetCondition rr' WorksSucceededCondition) (GetCondition rr' ReconciledCondition);
  st_counters : counters_truth rr' n;
}.

(** The Works found, as three facts about the cluster. *)
Lemma wp_getWorksStatus r rr (Q : outcome WorksStatus → S → Prop) s :
  works_report r rr (view s) →
  (∀ w s', view s' = view s →
     (bool_decide (0 < length (ws_failed w)) = true ↔ some_work r rr "Failing" (view s)) →
     (bool_decide (0 < length (ws_pending w)) = true ↔ some_work r rr "Pending" (view s)) →
     (bool_decide (0 < length (ws_misplaced w)) = true ↔ some_work r rr "Misplaced" (view s)) →
     Q (Ok w) s') →
  (∀ e s', view s' = view s → Q (Fail e) s') →
  wp (getWorksStatus r rr) Q s.
Proof.
intros Hrep HO HE. apply wp_bind, wp_getExistingWorks; [|..|done].
{ unfold GetWorkLabels. repeat case_bool_decide; apply insert_non_empty. }
intros l s' Hv Hl. apply wp_lift.
destruct (sort_works_spec l noWorks) as (ws & -> & Ef & Em & Ep & _).
{ intros w [Hw [k Hk]]%Hl. by eapply Hrep. }
apply HO; [done|..]; rewrite ?Ef, ?Em, ?Ep; by apply with_message_some.
Qed.

Lemma bool_eq_iff (a b : bool) (P : Prop) : (a = true ↔ P) → (b = true ↔ P) → a = b.
Proof. intros Ha Hb. apply eq_true_iff_eq. tauto. Qed.

Lemma wp_generateResourceStatus r rr n s :
  works_report r rr (view s) →
  wp (generateResourceStatus r rr n)
    (post (λ u s', view s' = view s ∧ status_true r (view s) n rr u.2 ∧
             (u.1 = false → u.2 = rr) ∧ (status_true r (view s) n rr rr → u.1 = false))
          (λ _ s', view s' = view s)) s.
Proof.
intros Hrep. apply wp_bind, wp_getWorksStatus; [done| |done].
intros w s1 Hv1 Hf Hp Hm. apply wp_bind.
eapply wp_mono; [apply wp_updateWorksSucceededCondition|].
intros res1 s2 (b1 & rr1 & -> & Hv2 & St1 & T1 & N1). cbn iota beta.
apply wp_bind. eapply wp_mono; [apply wp_updateReconciledCondition|].
intros res2 s3 (b2 & rr2 & -> & Hv3 & St2 & T2 & N2). cbn iota beta.
pose proof (generateWorkflowsCounterStatus_spec rr2 n) as (C & Cm & Cs & Cc & Cn & Cu).
destruct (generateWorkflowsCounterStatus rr2 n) as [b3 rr3]. cbn [fst snd] in *.
apply wp_ret. cbn [post fst snd]. split; [congruence|].
assert (GetCondition rr3 WorksSucceededCondition = GetCondition rr1 WorksSucceededCondition) as Ew
  by (rewrite Cc; by apply St2).
assert (GetCondition rr3 ConfigureWorkflowCompletedCondition =
        GetCondition rr1 ConfigureWorkflowCompletedCondition) as Ec
  by (rewrite Cc; by apply St2).
split_and!.
- split.
  + rewrite Cm, (cs_meta _ _ _ _ St2). apply St1.
  + rewrite Cs, (cs_spec _ _ _ _ St2). apply St1.
  + eexists _, _, _. split_and!; [exact Hf|exact Hp|exact Hm|]. by rewrite Ew.
  + by rewrite Ew, Ec, Cc.
  + done.
- destruct b1, b2, b3; try done. intros _. rewrite Cn, (cs_same _ _ _ _ St2) by done. by apply St1.
- intros [_ _ (f & p & m & Hf' & Hp' & Hm' & Htr) Hrec Hcnt].
  rewrite (bool_eq_iff _ _ _ Hf Hf'), (bool_eq_iff _ _ _ Hp Hp'), (bool_eq_iff _ _ _ Hm Hm') in N1.
  rewrite N1 in * by done. pose proof (cs_same _ _ _ _ St1 eq_refl) as ->.
  rewrite N2 in * by done. pose proof (cs_same _ _ _ _ St2 eq_refl) as ->.
  by rewrite Cu.
Qed.


(** C28: The status of a request settles: once it has been computed, computing it
    again with the same Works reports that nothing is to be updated, whatever
    order the Works are listed in.  So the controller does not keep rewriting
    the status it has just written. *)
Theorem request_status_settles r rr n s :
  works_report r rr (view s) →
  wp (let! u := generateResourceStatus r rr n in generateResourceStatus r u.2 n)
    (post (λ u s', u.1 = false ∧ status_true r (view s) n rr u.2) (λ _ _, True)) s.
Proof.
intros Hrep. apply wp_bind. eapply wp_mono; [by apply wp_generateResourceStatus|].
intros [[b rr1]|e|] s1 Hs; [|done|done]. destruct Hs as (Hv & Htrue & _). cbn [snd] in *.
assert (∀ m, some_work r rr1 m (view s) ↔ some_work r rr m (view s)) as Hsame.
{ intros m. unfold some_work, request_works, GetNamespace, GetName. by rewrite (st_meta _ _ _ _ _ Htrue). }
assert (works_report r rr1 (view s1)) as Hrep1.
{ intros k w. unfold request_works, GetNamespace, GetName. rewrite Hv, (st_meta _ _ _ _ _ Htrue).
  by apply Hrep. }
assert (status_true r (view s1) n rr1 rr1) as Hrefl.
{ rewrite Hv. destruct Htrue as [_ _ (f & p & m & Hf & Hp & Hm & Htr) Hrec Hcnt]. split; try done.
  exists f, p, m. by rewrite !Hsame. }
eapply wp_mono; [by apply wp_generateResourceStatus|].
intros [[b2 rr2]|e|] s2 Hs; [|done|done]. destruct Hs as (_ & _ & Hsm & Hno). cbn [fst snd post] in *.
rewrite Hno in * by done. by rewrite Hsm.
Qed.

(** A Work that has not reported yet makes the controller panic. *)
Lemma unreported_work_panics w works acc :
  ready_message w = None → sort_works (w :: works) acc = Panicked.
Proof. unfold ready_message. cbn. by destruct (FindStatusCondition _ _). Qed.
End status.
