(* ===== verification/DynamicWitness.v ===== *)
(** * The controller for resource requests on concrete requests *)

From S2P Require Import Prelude GoLib Meta Api Kube Client Shared ResourceUtil Promise PromiseStore.
From S2P Require Import Purge Frame PipelineFactory Workflow FactoryWitness Sim SimPromise.
From S2P Require Import DynamicController DynamicFacts DynamicStatus.
Import DynamicReconciler.
#[local] Existing Instances Sim_PromiseLib Sim_Config.
#[local] Instance Sim_Time : TimeLib := {| Format_RFC3339 t := pretty t; Local_String t := pretty t |}.

Definition redis_controller : DynamicResourceRequestController := {|
  dc_gvk := {| gvk_group := "example.com"; gvk_version := "v1"; gvk_kind := "Redis" |};
  dc_promiseIdentifier := "redis"; dc_uid := "12345"; dc_enabled := true;
  dc_crd := mkResource (new_meta "" "redis.example.com")
    {| crd_group := "example.com"; crd_kind := "Redis"; crd_plural := "redis";
       crd_singular := "redis"; crd_otherNames := "";
       crd_scope := "Namespaced"; crd_conversion := ""; crd_preserveUnknownFields := false;
       crd_versions := [] |} {| crdst_conditions := [] |};
  dc_promiseDestinationSelectors := []; dc_canCreateResources := true;
  dc_numberOfJobsToKeep := 5; dc_reconciliationInterval := 36000 |}.

(** A request whose delete workflow is over. *)
Definition dying_db : Unstructured :=
  mkResource (om_set_system "u" (Some 7%Z) 1 1
    (om_set_finalizers [workFinalizer; removeAllWorkflowJobsFinalizer] (r_meta db)))
    (r_spec db) (r_status db).

Definition work_reporting (name message : string) : Work :=
  mkResource (om_set_labels (GetWorkLabels "redis" "db" "a" "resource") (new_meta "default" name))
    {| ws_promiseName := "redis"; ws_resourceName := "db"; ws_workloadGroups := [] |}
    {| wst_conditions := [mk_cond "Ready" ConditionFalse "" message]; wst_workPlacements := 0;
       wst_workPlacementsCreated := 0 |}.

Definition request_sim (rr : Unstructured) (works : list Work) : Sim := sim_of {|
  c_works := of_list works; c_workplacements := ∅; c_destinations := ∅; c_jobs := ∅;
  c_parents := of_list [rr]; c_promises := of_list [encode_promise redis]; c_crds := ∅;
  c_serviceaccounts := ∅; c_configmaps := ∅; c_roles := ∅; c_rolebindings := ∅;
  c_clusterroles := ∅; c_clusterrolebindings := ∅;
  c_bucketstores := ∅; c_gitstores := ∅; c_secrets := ∅; c_releases := ∅; c_healthrecords := ∅ |}.

Lemma redis_stored rr works :
  typed_promises (view (request_sim rr works)) !! ("", "redis") = Some redis.
Proof.
apply typed_lookup. exists (encode_promise redis). split; [reflexivity|apply decode_encode_promise].
Qed.


Lemma unadmitted_request_waits_witness :
  let s := request_sim db [] in
  let run := DynamicReconciler.Reconcile redis_controller ("default", "db") s in
  admitted redis_controller redis db = false ∧ run.1 = Ok noRequeue ∧
  only_request ("default", "db") (view s) (view run.2) ∧
  ∀ f, f ∈ rrFinalizers → held f ("default", "db") (view run.2).
Proof.
cbv zeta. split; [vm_compute; reflexivity|]. split; [vm_compute; reflexivity|].
pose proof (unadmitted_request_waits redis_controller ("default", "db") redis db
  (request_sim db []) eq_refl (redis_stored _ _) (of_list_keyed [db])
  ltac:(vm_compute; reflexivity) ltac:(vm_compute; reflexivity)) as Hwp.
read_off Hwp. destruct Hwp as (r & Hr & Ho & _ & Hf).
assert (r = noRequeue) as -> by (vm_compute in Hr; injection Hr as <-; reflexivity).
split; [exact Ho|]. exact (Hf eq_refl eq_refl eq_refl eq_refl eq_refl eq_refl).
Defined.

Definition two_works : list Work := [work_reporting "w1" "Ready"; work_reporting "w2" "Failing"].

Lemma two_works_report : works_report redis_controller db (view (request_sim db two_works)).
Proof.
intros k w Hw _. assert (w ∈ two_works) as Hin by exact (proj1 (of_list_lookup _ _ _ Hw)).
repeat (apply elem_of_cons in Hin as [->|Hin]; [vm_compute; discriminate|]).
by apply elem_of_nil in Hin.
Qed.


Lemma request_status_settles_witness :
  let s := request_sim db two_works in
  let run := (let! u := generateResourceStatus redis_controller db 2 in
              generateResourceStatus redis_controller u.2 2) s in
  ∃ u, run.1 = Ok u ∧ u.1 = false.
Proof.
cbv zeta.
pose proof (request_status_settles redis_controller db 2 (request_sim db two_works) two_works_report)
  as Hwp.
read_off Hwp. destruct Hwp as (u & Hr & Hu & _). exists u. split; [exact Hr|exact Hu].
Defined.
