(* ===== verification/PromiseController.v ===== *)
(** * The Promise controller: [internal/controller/promise_controller.go]

    It installs a Promise (requirements, CRD, roles, static dependencies, the
    Promise's own workflow, the controller for its resource requests), reports its
    state, and takes everything down in order when the Promise is deleted. *)

From S2P Require Import Prelude GoLib Codec Meta Api Kube Client Shared ResourceUtil Promise PromiseStore.
From S2P Require Import StatusUpdater PipelineFactory Workflow DynamicController.

Definition resourceRequestCleanupFinalizer := KratixPrefix +:+ "resource-request-cleanup".
Definition dynamicControllerDependantResourcesCleanupFinalizer :=
  KratixPrefix +:+ "dynamic-controller-dependant-resources-cleanup".
Definition crdCleanupFinalizer := KratixPrefix +:+ "api-crd-cleanup".
Definition dependenciesCleanupFinalizer := KratixPrefix +:+ "dependencies-cleanup".
Definition lastUpdatedAtAnnotation := KratixPrefix +:+ "last-updated-at".
Definition promiseFinalizers : list string :=
  [resourceRequestCleanupFinalizer; dynamicControllerDependantResourcesCleanupFinalizer;
   crdCleanupFinalizer; dependenciesCleanupFinalizer; removeAllWorkflowJobsFinalizer;
   runDeleteWorkflowsFinalizer].

Definition requirementStateInstalled := "Requirement installed".
Definition requirementStateNotInstalled := "Requirement not installed".
Definition requirementStateNotInstalledAtSpecifiedVersion :=
  "Requirement not installed at the specified version".
Definition requirementStateNotAvailable := "Requirement not available".
Definition requirementUnknownInstallationState := "Requirement state unknown".

Definition PromiseStatusAvailable := "Available".
Definition PromiseStatusUnavailable := "Unavailable".
Definition PromiseAvailableConditionType := "Available".
Definition ReconcileResourcesLabel := "kratix.io/reconcile-resources".

(** ** Fields of the status, assigned one at a time *)
Definition set_pst (f : PromiseStatus → PromiseStatus) (p : Promise) : Promise :=
  set_status (f (r_status p)) p.

Definition with_conditions (cs : list Condition) (st : PromiseStatus) : PromiseStatus :=
  {| prst_conditions := cs; prst_version := prst_version st;
     prst_observedGeneration := prst_observedGeneration st; prst_kind := prst_kind st;
     prst_apiVersion := prst_apiVersion st; prst_status := prst_status st;
     prst_workflows := prst_workflows st; prst_workflowsSucceeded := prst_workflowsSucceeded st;
     prst_workflowsFailed := prst_workflowsFailed st; prst_requiredPromises := prst_requiredPromises st;
     prst_requiredBy := prst_requiredBy st; prst_lastAvailableTime := prst_lastAvailableTime st |}.
Definition with_version (v : string) (st : PromiseStatus) : PromiseStatus :=
  {| prst_conditions := prst_conditions st; prst_version := v;
     prst_observedGeneration := prst_observedGeneration st; prst_kind := prst_kind st;
     prst_apiVersion := prst_apiVersion st; prst_status := prst_status st;
     prst_workflows := prst_workflows st; prst_workflowsSucceeded := prst_workflowsSucceeded st;
     prst_workflowsFailed := prst_workflowsFailed st; prst_requiredPromises := prst_requiredPromises st;
     prst_requiredBy := prst_requiredBy st; prst_lastAvailableTime := prst_lastAvailableTime st |}.
Definition with_generation (g : Z) (st : PromiseStatus) : PromiseStatus :=
  {| prst_conditions := prst_conditions st; prst_version := prst_version st;
     prst_observedGeneration := g; prst_kind := prst_kind st;
     prst_apiVersion := prst_apiVersion st; prst_status := prst_status st;
     prst_workflows := prst_workflows st; prst_workflowsSucceeded := prst_workflowsSucceeded st;
     prst_workflowsFailed := prst_workflowsFailed st; prst_requiredPromises := prst_requiredPromises st;
     prst_requiredBy := prst_requiredBy st; prst_lastAvailableTime := prst_lastAvailableTime st |}.
Definition with_api (kind apiVersion : string) (st : PromiseStatus) : PromiseStatus :=
  {| prst_conditions := prst_conditions st; prst_version := prst_version st;
     prst_observedGeneration := prst_observedGeneration st; prst_kind := kind;
     prst_apiVersion := apiVersion; prst_status := prst_status st;
     prst_workflows := prst_workflows st; prst_workflowsSucceeded := prst_workflowsSucceeded st;
     prst_workflowsFailed := prst_workflowsFailed st; prst_requiredPromises := prst_requiredPromises st;
     prst_requiredBy := prst_requiredBy st; prst_lastAvailableTime := prst_lastAvailableTime st |}.
Definition with_state (s : string) (st : PromiseStatus) : PromiseStatus :=
  {| prst_conditions := prst_conditions st; prst_version := prst_version st;
     prst_observedGeneration := prst_observedGeneration st; prst_kind := prst_kind st;
     prst_apiVersion := prst_apiVersion st; prst_status := s;
     prst_workflows := prst_workflows st; prst_workflowsSucceeded := prst_workflowsSucceeded st;
     prst_workflowsFailed := prst_workflowsFailed st; prst_requiredPromises := prst_requiredPromises st;
     prst_requiredBy := prst_requiredBy st; prst_lastAvailableTime := prst_lastAvailableTime st |}.
Definition with_counters (w ws wf : Z) (st : PromiseStatus) : PromiseStatus :=
  {| prst_conditions := prst_conditions st; prst_version := prst_version st;
     prst_observedGeneration := prst_observedGeneration st; prst_kind := prst_kind st;
     prst_apiVersion := prst_apiVersion st; prst_status := prst_status st;
     prst_workflows := w; prst_workflowsSucceeded := ws;
     prst_workflowsFailed := wf; prst_requiredPromises := prst_requiredPromises st;
     prst_requiredBy := prst_requiredBy st; prst_lastAvailableTime := prst_lastAvailableTime st |}.
Definition with_requirements (r : list RequiredPromiseStatus) (st : PromiseStatus) : PromiseStatus :=
  {| prst_conditions := prst_conditions st; prst_version := prst_version st;
     prst_observedGeneration := prst_observedGeneration st; prst_kind := prst_kind st;
     prst_apiVersion := prst_apiVersion st; prst_status := prst_status st;
     prst_workflows := prst_workflows st; prst_workflowsSucceeded := prst_workflowsSucceeded st;
     prst_workflowsFailed := prst_workflowsFailed st; prst_requiredPromises := r;
     prst_requiredBy := prst_requiredBy st; prst_lastAvailableTime := prst_lastAvailableTime st |}.
Definition with_requiredBy (r : list RequiredBy) (st : PromiseStatus) : PromiseStatus :=
  {| prst_conditions := prst_conditions st; prst_version := prst_version st;
     prst_observedGeneration := prst_observedGeneration st; prst_kind := prst_kind st;
     prst_apiVersion := prst_apiVersion st; prst_status := prst_status st;
     prst_workflows := prst_workflows st; prst_workflowsSucceeded := prst_workflowsSucceeded st;
     prst_workflowsFailed := prst_workflowsFailed st; prst_requiredPromises := prst_requiredPromises st;
     prst_requiredBy := r; prst_lastAvailableTime := prst_lastAvailableTime st |}.
Definition with_lastAvailable (t : Z) (st : PromiseStatus) : PromiseStatus :=
  {| prst_conditions := prst_conditions st; prst_version := prst_version st;
     prst_observedGeneration := prst_observedGeneration st; prst_kind := prst_kind st;
     prst_apiVersion := prst_apiVersion st; prst_status := prst_status st;
     prst_workflows := prst_workflows st; prst_workflowsSucceeded := prst_workflowsSucceeded st;
     prst_workflowsFailed := prst_workflowsFailed st; prst_requiredPromises := prst_requiredPromises st;
     prst_requiredBy := prst_requiredBy st; prst_lastAvailableTime := Some t |}.

(** ** Conditions of a Promise: an existing condition is replaced only when its
    status changes *)
Fixpoint update_condition (conditions : list Condition) (latest : Condition)
    : bool * list Condition :=
  match conditions with
  | [] => (true, [latest])
  | c :: cs =>
      if bool_decide (cond_type c = cond_type latest) then
        if bool_decide (cond_status c ≠ cond_status latest) then (true, latest :: cs) else (false, c :: cs)
      else let '(b, cs') := update_condition cs latest in (b, c :: cs')
  end.

Definition updateConditionOnPromise (promise : Promise) (latestCondition : Condition)
    : bool * Promise :=
  let '(b, cs) := update_condition (prst_conditions (r_status promise)) latestCondition in
  (b, set_pst (with_conditions cs) promise).

#[global] Instance RequiredPromiseStatus_eq_dec : EqDecision RequiredPromiseStatus.
Proof. solve_decision. Defined.

Definition updateRequirementsStatusOnPromise (promise : Promise)
    (oldReqs newReqs : list RequiredPromiseStatus) : bool * Promise :=
  if bool_decide (length oldReqs + length newReqs = 0) || bool_decide (oldReqs = newReqs)
  then (false, promise) else (true, set_pst (with_requirements newReqs) promise).

Definition updateConditionNotFulfilled (condition : Condition) (reason message : string) : Condition :=
  {| cond_type := cond_type condition;
     cond_status := if bool_decide (cond_status condition ≠ ConditionUnknown)
                    then ConditionFalse else cond_status condition;
     cond_reason := reason; cond_message := message;
     cond_lastTransitionTime := cond_lastTransitionTime condition |}.

Definition generateRequirementState (fetchedVersion requiredVersion availability : string)
    : string * string :=
  if bool_decide (fetchedVersion ≠ requiredVersion)
  then ("RequirementsNotInstalled", requirementStateNotInstalledAtSpecifiedVersion)
  else if bool_decide (availability ≠ PromiseStatusAvailable)
  then ("RequirementsNotAvailable", requirementStateNotAvailable) else ("", "").

Definition shouldReconcileResources (promise : Promise) : bool :=
  bool_decide (label (GetLabels promise) ReconcileResourcesLabel = "true") ||
  bool_decide (om_generation (r_meta promise) ≠ prst_observedGeneration (r_status promise) ∧
               om_generation (r_meta promise) ≠ 1%Z).

Definition getWorkflowsCount (promise : Promise) : Z :=
  if negb (HasPipeline promise WorkflowTypePromise WorkflowActionConfigure) then 0%Z
  else Z.of_nat (length (wt_configure (wf_promise (prs_workflows (r_spec promise))))).

(** ["%s"] of a slice of strings *)
Definition show_list (l : list string) : string := "[" +:+ Strings.Join l " " +:+ "]".

(** ** The CRD of a Promise *)
Definition plain_schema (type rest : string) : JSONSchemaProps := mkSchema type None None rest.

(** The status every API gets. *)
Definition status_schema : JSONSchemaProps :=
  let int64 := plain_schema "integer" "format: int64" in
  mkSchema "object" None
    (Some [("message", plain_schema "string" ""); ("observedGeneration", int64); ("workflows", int64);
           ("workflowsSucceeded", int64); ("workflowsFailed", int64);
           ("conditions", plain_schema "array"
              "items: {type: object, properties: {lastTransitionTime: {type: string, format: datetime}, message: {type: string}, reason: {type: string}, status: {type: string}, type: {type: string}}}")])
    "x-kubernetes-preserve-unknown-fields: true".

Definition quote : string := String (Ascii.ascii_of_nat 34) "".

Definition default_columns : list PrinterColumn :=
  [{| col_name := "message"; col_type := "string"; col_jsonPath := ".status.message" |};
   {| col_name := "status"; col_type := "string";
      col_jsonPath := ".status.conditions[?(@.type==" +:+ quote +:+ "Reconciled" +:+ quote +:+
                      ")].message" |}].

(** One version; panics without a schema, or on a schema whose property map is nil. *)
Definition set_status_fields_on (v : CRDVersion) : outcome CRDVersion :=
  match cv_schema v with
  | Some (mkSchema t m (Some props) r) =>
      Ok {| cv_name := cv_name v; cv_storage := cv_storage v;
            cv_schema := Some (mkSchema t m (Some (prop_set "status" status_schema props)) r);
            cv_statusSubresource := true;
            cv_printerColumns := if bool_decide (length (cv_printerColumns v) = 0)
                                 then default_columns else cv_printerColumns v |}
  | _ => Panicked
  end.

Fixpoint set_status_fields_from (vs : list CRDVersion) : outcome (list CRDVersion) :=
  match vs with
  | [] => Ok []
  | v :: vs' =>
      match set_status_fields_on v, set_status_fields_from vs' with
      | Ok v, Ok vs' => Ok (v :: vs')
      | _, _ => Panicked
      end
  end.

Definition setStatusFieldsOnCRD (crd : CRD) : outcome CRD :=
  match set_status_fields_from (crd_versions (r_spec crd)) with
  | Ok vs => Ok (set_crd_versions vs crd)
  | Fail e => Fail e
  | Panicked => Panicked
  end.

Definition generateCRDAndGVK `{Lib, PromiseLib} (promise : Promise) : outcome (CRD * GVK) :=
  match GetAPI promise with
  | Ok (rrGVK, rrCRD) =>
      match setStatusFieldsOnCRD
              (SetLabels (labels_Merge (GetLabels rrCRD) (GenerateSharedLabels promise)) rrCRD) with
      | Ok crd => Ok (crd, rrGVK)
      | Fail e => Fail e
      | Panicked => Panicked
      end
  | Fail e => Fail e
  | Panicked => Panicked
  end.

(** ** Static dependencies *)

(** [yaml.Encoder.Encode]: appends a document to what has been written. *)
Class YamlEncoder := yaml_Encode : string → JSON → error + string.

Fixpoint Dependencies_Marshal_from `{YamlEncoder} (buf : string) (d : list JSON) : error + string :=
  match d with
  | [] => inr buf
  | w :: d' => match yaml_Encode buf w with
               | inl e => inl e
               | inr buf => Dependencies_Marshal_from buf d'
               end
  end.
Definition Dependencies_Marshal `{YamlEncoder} : list JSON → error + string :=
  Dependencies_Marshal_from "".

Definition NewPromiseDependenciesWork `{Lib, Codec, YamlEncoder} (promise : Promise) (name : string)
    : error + Work :=
  match Dependencies_Marshal (prs_dependencies (r_spec promise)) with
  | inl e => inl e
  | inr yamlBytes =>
      let group := {|
        wg_id := ComputeHash DefaultWorkloadGroupDirectory;
        wg_directory := DefaultWorkloadGroupDirectory;
        wg_workloads := [{| wl_content := CompressContent yamlBytes;
                            wl_filepath := "static/" +:+ GetName promise +:+ "-dependencies.yaml" |}];
        wg_destinationSelectors :=
          if bool_decide (0 < length (prs_destinationSelectors (r_spec promise)))
          then [{| wgs_matchLabels := SquashPromiseScheduling (prs_destinationSelectors (r_spec promise));
                   wgs_source := "promise" |}]
          else [] |} in
      inr (mkResource (om_set_labels (GenerateSharedLabels promise) (new_meta SystemNamespace name))
             {| ws_promiseName := GetName promise; ws_resourceName := "";
                ws_workloadGroups := [group] |}
             {| wst_conditions := []; wst_workPlacements := 0; wst_workPlacementsCreated := 0 |})
  end.

(** ** The controllers started for resource requests *)
Definition Started := gmap string DynamicResourceRequestController.

Class ControllerManager (S : Type) := {
  (** [ctrl.NewControllerManagedBy(mgr).For(gvk)...Complete(r)] *)
  w_start_controller : GVK → S → (error + unit) * S;
  (** [RestartManager] *)
  w_restart_manager : S → unit * S;
}.
Class ControllerManagerLaws (S : Type) `{Viewed S, ControllerManager S} : Prop := {
  start_controller_ok : ∀ gvk s r s', w_start_controller gvk s = (r, s') → view s' = view s;
  restart_manager_ok : ∀ s u s', w_restart_manager s = (u, s') → view s' = view s;
}.

(** The watch of such a controller: a Work wakes up the request it is labelled with. *)
Definition requestsForWork (promiseName : string) (work : Work) : list Key :=
  match GetLabels work !! ResourceNameLabel with
  | None => []
  | Some rrName =>
      if bool_decide (label (GetLabels work) PromiseNameLabel ≠ promiseName) then []
      else [(GetNamespace work, rrName)]
  end.

(** The watch of the Promise controller: a Promise wakes up those that require it. *)
Definition requestsForPromise (promise : Promise) : list Key :=
  (λ req, ("", rb_promise req)) <$> prst_requiredBy (r_status promise).

Module PromiseReconciler.
Section controller.
Context {S : Type} `{World S, Lib, PromiseLib, Config, PromiseCodec, Codec, YamlEncoder, TimeLib, ControllerManager S}.
Context (NumberOfJobsToKeep : nat) (ReconciliationInterval : Z).
Implicit Types promise : Promise.

(** ** The conditions, stamped with the time they are made *)
Definition promiseAvailableStatusCondition (lastTransitionTime : Z) : Condition :=
  {| cond_type := PromiseAvailableConditionType; cond_status := ConditionTrue;
     cond_reason := "PromiseAvailable"; cond_message := "Ready to fulfil resource requests";
     cond_lastTransitionTime := lastTransitionTime |}.
Definition promiseUnavailableStatusCondition : M S Condition :=
  stamped PromiseAvailableConditionType ConditionFalse "PromiseUnavailable" "Cannot fulfil resource requests".
Definition promiseAvailablePausedStatusCondition : M S Condition :=
  stamped PromiseAvailableConditionType ConditionFalse pausedReconciliationReason "Paused".
Definition promiseWorksSucceededStatusCondition : M S Condition :=
  stamped WorksSucceededCondition ConditionTrue "WorksSucceeded"
    "All works associated with this promise are ready".
Definition promiseWorksSucceededUnknownCondition (pendingWorks : list string) : M S Condition :=
  stamped WorksSucceededCondition ConditionUnknown "WorksPending"
    ("Some works associated with this promise are not ready: " +:+ show_list pendingWorks).
Definition promiseWorksSucceededFailedCondition (failedWorks : list string) : M S Condition :=
  stamped WorksSucceededCondition ConditionFalse "WorksFailing"
    ("Some works associated with this promise are not ready: " +:+ show_list failedWorks).
Definition promiseWorksSucceededMisplacedCondition (misplacedWorks : list string) : M S Condition :=
  stamped WorksSucceededCondition ConditionFalse "WorksMisplaced"
    ("Some works associated with this promise are misplaced: " +:+ show_list misplacedWorks).
Definition promiseReconciledFailingCondition (reason : string) : M S Condition :=
  stamped ReconciledCondition ConditionFalse reason "Failing".
Definition promiseReconciledPendingCondition (reason : string) : M S Condition :=
  stamped ReconciledCondition ConditionUnknown reason "Pending".
Definition promiseReconciledPausedCondition : M S Condition :=
  stamped ReconciledCondition ConditionUnknown pausedReconciliationReason "Paused".
Definition promiseReconciledCondition : M S Condition :=
  stamped ReconciledCondition ConditionTrue "Reconciled" "Reconciled".

(** [updateConditionOnPromise(promise, c())] *)
Definition mark_promise promise (c : M S Condition) : M S Promise :=
  let! c := c in ret (updateConditionOnPromise promise c).2.

(** ** Writing *)
Definition updatePromiseStatus promise : M S Result :=
  let! r := try (StatusUpdatePromise promise) in
  match r with
  | inl e => if IsConflict e then ret fastRequeue else fail e
  | inr _ => ret noRequeue
  end.

(** [addFinalizers(opts, promise, finalizers)] *)
Definition addPromiseFinalizers promise (finalizers : list string) : M S Result :=
  UpdatePromise (SetFinalizers (foldl AddFinalizer (GetFinalizers promise) finalizers) promise) ;;;
  ret noRequeue.

Definition removePromiseFinalizer promise (finalizer : string) : M S unit :=
  UpdatePromise (SetFinalizers (RemoveFinalizer (GetFinalizers promise) finalizer) promise) ;;;
  ret tt.

Definition setPausedReconciliationStatusConditions promise : M S unit :=
  let available := Promise_GetCondition promise PromiseStatusAvailable in
  let! u1 :=
    if match available with None => true | Some c => bool_decide (cond_status c = "True") end then
      let! promise := mark_promise promise promiseAvailablePausedStatusCondition in
      ret (true, set_pst (with_state PromiseStatusUnavailable) promise)
    else ret (false, promise) in
  let '(updated1, promise) := u1 in
  let! u2 :=
    if match Promise_GetCondition promise "Reconciled" with
       | None => true
       | Some c => bool_decide (cond_status c ≠ "Unknown") || bool_decide (cond_message c ≠ "Paused")
       end then
      let! promise := mark_promise promise promiseReconciledPausedCondition in
      ret (true, promise)
    else ret (false, promise) in
  let '(updated2, promise) := u2 in
  if updated1 || updated2 then StatusUpdatePromise promise ;;; ret tt else ret tt.

(** ** Conditions *)
Definition getWorksStatus promise : M S WorksStatus :=
  let! works := getExistingWorks (GetNamespace promise)
    (GetWorkLabels (GetName promise) "" "" WorkTypePromise) in
  lift (sort_works works noWorks).

Definition updateWorksSucceededCondition promise (w : WorksStatus) : M S (bool * Promise) :=
  let cond := Promise_GetCondition promise WorksSucceededCondition in
  if bool_decide (0 < length (ws_failed w)) then
    if bool_decide (cond = None) || status_is cond "True" then
      let! promise := mark_promise promise (promiseWorksSucceededFailedCondition (ws_failed w)) in
      Eventf promise EventTypeWarning "WorksFailing"
        ("Some works associated with this promise has failed: [" +:+
         Strings.Join (ws_failed w) "," +:+ "]") ;;;
      ret (true, promise)
    else ret (false, promise)
  else if bool_decide (0 < length (ws_pending w)) then
    if negb (status_is cond "Unknown") then
      let! promise := mark_promise promise (promiseWorksSucceededUnknownCondition (ws_pending w)) in
      ret (true, promise)
    else ret (false, promise)
  else if bool_decide (0 < length (ws_misplaced w)) then
    if negb (status_is cond "False") || negb (reason_is cond "WorksMisplaced") then
      let! promise := mark_promise promise (promiseWorksSucceededMisplacedCondition (ws_misplaced w)) in
      Eventf promise EventTypeWarning "WorksMisplaced"
        ("Some works associated with this promise are misplaced: [" +:+
         Strings.Join (ws_misplaced w) "," +:+ "]") ;;;
      ret (true, promise)
    else ret (false, promise)
  else if negb (status_is cond "True") then
    let! promise := mark_promise promise promiseWorksSucceededStatusCondition in
    Eventf promise EventTypeNormal "WorksSucceeded" "All works associated with this promise are ready" ;;;
    ret (true, promise)
  else ret (false, promise).

Definition updateReconciledCondition promise : M S (bool * Promise) :=
  let worksSucceeded := Promise_GetCondition promise WorksSucceededCondition in
  let workflowCompleted := Promise_GetCondition promise ConfigureWorkflowCompletedCondition in
  let reconciled := Promise_GetCondition promise ReconciledCondition in
  if status_is workflowCompleted "False" && reason_is workflowCompleted "PipelinesInProgress" then
    if negb (status_is reconciled "Unknown") then
      let! promise := mark_promise promise (promiseReconciledPendingCondition "WorkflowPending") in
      ret (true, promise)
    else ret (false, promise)
  else if status_is workflowCompleted ConditionFalse then
    if negb (status_is reconciled ConditionFalse) ||
       negb (reason_is reconciled ConfigureWorkflowCompletedFailedReason) then
      let! promise := mark_promise promise
        (promiseReconciledFailingCondition ConfigureWorkflowCompletedFailedReason) in
      ret (true, promise)
    else ret (false, promise)
  else if status_is worksSucceeded "Unknown" then
    if negb (status_is reconciled "Unknown") then
      let! promise := mark_promise promise (promiseReconciledPendingCondition "WorksPending") in
      ret (true, promise)
    else ret (false, promise)
  else if status_is worksSucceeded ConditionFalse then
    if negb (status_is reconciled ConditionFalse) then
      let! promise := mark_promise promise (promiseReconciledFailingCondition "WorksFailing") in
      ret (true, promise)
    else ret (false, promise)
  else if status_is workflowCompleted "True" && status_is worksSucceeded "True" then
    if negb (status_is reconciled "True") then
      let! promise := mark_promise promise promiseReconciledCondition in
      Eventf promise EventTypeNormal "ReconcileSucceeded" "Successfully reconciled" ;;;
      ret (true, promise)
    else ret (false, promise)
  else ret (false, promise).

Definition generateWorkflowsCounterStatus promise (numOfPipelines : Z) : bool * Promise :=
  let completedCond := Promise_GetCondition promise ConfigureWorkflowCompletedCondition in
  let desiredWorkflowsSucceeded := if status_is completedCond ConditionTrue then numOfPipelines else 0%Z in
  if bool_decide (prst_workflows (r_status promise) ≠ numOfPipelines) ||
     bool_decide (prst_workflowsSucceeded (r_status promise) ≠ desiredWorkflowsSucceeded)
  then (true, set_pst (with_counters numOfPipelines desiredWorkflowsSucceeded 0) promise)
  else (false, promise).

Definition generateConditions promise (numberOfPipelines : Z) : M S (bool * Promise) :=
  let! w := getWorksStatus promise in
  let! u1 := updateWorksSucceededCondition promise w in
  let '(worksSucceededUpdate, promise) := u1 in
  let! u2 := updateReconciledCondition promise in
  let '(reconciledUpdate, promise) := u2 in
  let '(workflowsCounterStatusUpdate, promise) := generateWorkflowsCounterStatus promise numberOfPipelines in
  ret (worksSucceededUpdate || reconciledUpdate || workflowsCounterStatusUpdate, promise).

Definition updateWorkflowStatusCountersToZero promise : M S Promise :=
  let st := r_status promise in
  if bool_decide (prst_workflows st ≠ 0%Z) || bool_decide (prst_workflowsSucceeded st ≠ 0%Z) ||
     bool_decide (prst_workflowsFailed st ≠ 0%Z)
  then StatusUpdatePromise (set_pst (with_counters 0 0 0) promise) else ret promise.

(** ** Requirements *)

(** Every entry of the requiring Promise is replaced; without one, it is added. *)
Definition set_required_by (entry : RequiredBy) (l : list RequiredBy) : list RequiredBy :=
  if existsb (λ r, bool_decide (rb_promise r = rb_promise entry)) l
  then (λ r, if bool_decide (rb_promise r = rb_promise entry) then entry else r) <$> l
  else l ++ [entry].

(** An error is only logged. *)
Definition markRequiredPromiseAsRequired (version : string) promise (requiredPromise : Promise) : M S unit :=
  let requiredBy := {| rb_promise := GetName promise; rb_version := prst_version (r_status promise);
                       rb_requiredVersion := version |} in
  try (StatusUpdatePromise (set_pst
    (with_requiredBy (set_required_by requiredBy (prst_requiredBy (r_status requiredPromise))))
    requiredPromise)) ;;;
  ret tt.

Definition evaluateRequirement promise (req : RequiredPromise) (condition : Condition)
    : M S (RequiredPromiseStatus * Condition) :=
  let answer (state : string) (condition : Condition) :=
    ({| rps_name := rp_name req; rps_version := rp_version req; rps_state := state |}, condition) in
  let! g := try (GetPromise ("", rp_name req)) in
  match g with
  | inl e =>
      if IsNotFound e then
        Eventf promise EventTypeNormal "RequirementsNotInstalled"
          ("Required Promise " +:+ rp_name req +:+ " not installed or unknown state") ;;;
        ret (answer requirementStateNotInstalled
          (updateConditionNotFulfilled condition "RequirementsNotInstalled" "Requirements not fulfilled"))
      else
        Eventf promise EventTypeNormal "RequirementsNotInstalled"
          "Required Promise  not installed or unknown state" ;;;
        ret (answer requirementUnknownInstallationState
          (updateConditionNotFulfilled condition "RequirementsNotInstalled"
             "Unable to determine if requirements are fulfilled"))
  | inr required =>
      let! a :=
        if bool_decide (prst_version (r_status required) ≠ rp_version req) ||
           bool_decide (prst_status (r_status required) ≠ PromiseStatusAvailable) then
          let '(reason, state) := generateRequirementState (prst_version (r_status required))
            (rp_version req) (prst_status (r_status required)) in
          Eventf promise EventTypeNormal reason
            ("Waiting for required Promise " +:+ GetName required +:+ ": " +:+ state +:+ " ") ;;;
          ret (answer state (updateConditionNotFulfilled condition reason "Requirements not fulfilled"))
        else ret (answer requirementStateInstalled condition) in
      markRequiredPromiseAsRequired (rp_version req) promise required ;;;
      ret a
  end.

Definition generateStatusAndMarkRequirements promise : M S (Condition * list RequiredPromiseStatus) :=
  let! condition := stamped "RequirementsFulfilled" ConditionTrue "RequirementsInstalled"
    "Requirements fulfilled" in
  let! u := foldM (λ acc req,
    let! a := evaluateRequirement promise req acc.1 in
    ret (a.2, acc.2 ++ [a.1])) (prs_requiredPromises (r_spec promise)) (condition, []) in
  (if bool_decide (cond_status u.1 = ConditionTrue) &&
      bool_decide (0 < length (prs_requiredPromises (r_spec promise)))
   then Eventf promise EventTypeNormal "RequirementsFulfilled" "All required promises are available"
   else ret tt) ;;;
  ret u.

Definition hasPromiseRequirementsChanged promise : M S (bool * Promise) :=
  let! l := generateStatusAndMarkRequirements promise in
  let '(latestCondition, latestRequirements) := l in
  let '(requirementsFieldChanged, promise) :=
    updateRequirementsStatusOnPromise promise (prst_requiredPromises (r_status promise)) latestRequirements in
  let '(conditionsFieldChanged, promise) := updateConditionOnPromise promise latestCondition in
  ret (conditionsFieldChanged || requirementsFieldChanged, promise).

(** ** The API *)
Definition updateStatus promise (kind group version : string) : M S bool :=
  let apiVersion := Strings.ToLower (group +:+ "/" +:+ version) in
  if bool_decide (prst_kind (r_status promise) = kind) &&
     bool_decide (prst_apiVersion (r_status promise) = apiVersion) then ret false
  else StatusUpdatePromise (set_pst (with_api kind apiVersion) promise) ;;; ret true.

(** [None]: the CRD is established, carry on. *)
Definition ensureCRDExists promise (rrCRD : CRD) : M S (option Result) :=
  let! r := try (Create rrCRD) in
  match r with
  | inr _ => ret (Some fastRequeue)
  | inl e =>
      if negb (IsAlreadyExists e) then fail (ErrorWrap "Error creating crd" e)
      else
        let! existingCRD := Get (Sp:=CRDSpec) (St:=CRDStatus) ("", GetName rrCRD) in
        let sp := r_spec existingCRD in
        let updated := set_spec {| crd_group := crd_group sp; crd_kind := crd_kind sp;
          crd_plural := crd_plural sp; crd_singular := crd_singular sp;
          crd_otherNames := crd_otherNames sp; crd_scope := crd_scope sp;
          crd_versions := crd_versions (r_spec rrCRD); crd_conversion := crd_conversion (r_spec rrCRD);
          crd_preserveUnknownFields := crd_preserveUnknownFields (r_spec rrCRD) |} existingCRD in
        Update (SetLabels (labels_Merge (GetLabels existingCRD) (GetLabels rrCRD)) updated) ;;;
        let version := match list_find (λ v, cv_storage v = true) (crd_versions (r_spec rrCRD)) with
                       | Some (_, v) => cv_name v
                       | None => ""
                       end in
        let! statusUpdated := updateStatus promise (crd_kind (r_spec rrCRD)) (crd_group (r_spec rrCRD)) version in
        if statusUpdated : bool then ret (Some fastRequeue)
        else
          let! updatedCRD := Get (Sp:=CRDSpec) (St:=CRDStatus) ("", GetName rrCRD) in
          if existsb (λ c, bool_decide (crdc_type c = "Established") &&
                           bool_decide (crdc_status c = ConditionTrue))
               (crdst_conditions (r_status updatedCRD))
          then ret None else ret (Some fastRequeue)
  end.

Definition createResourcesForDynamicControllerIfTheyDontExist promise (rrCRD : CRD) (rrGVK : GVK)
    : M S unit :=
  let name := GetControllerResourceName promise in
  let shared := GenerateSharedLabels promise in
  let! r := try (CreateOrUpdate
    (mkResource (new_meta "" name) {| crole_rules := [] |} tt)
    (λ cr, inr (SetLabels (labels_Merge (GetLabels cr) shared)
       (set_spec {| crole_rules := GenerateFullAccessForRR (gvk_group rrGVK) (crd_plural (r_spec rrCRD)) |} cr)))) in
  match r with
  | inl e => fail (ErrorWrap "Error creating/updating cluster role" e)
  | inr _ =>
      let! r := try (CreateOrUpdate
        (mkResource (new_meta "" name)
           {| crb_roleRef := {| rr_apiGroup := ""; rr_kind := ""; rr_name := "" |}; crb_subjects := [] |} tt)
        (λ crb, inr (SetLabels (labels_Merge (GetLabels crb) shared)
           (set_spec {| crb_roleRef := {| rr_apiGroup := "rbac.authorization.k8s.io";
                                          rr_kind := "ClusterRole"; rr_name := name |};
                        crb_subjects := [{| sub_kind := "ServiceAccount";
                                            sub_name := "kratix-platform-controller-manager";
                                            sub_namespace := SystemNamespace |}] |} crb)))) in
      match r with
      | inl e => fail (ErrorWrap "Error creating/updating cluster role binding" e)
      | inr _ => ret tt
      end
  end.

Definition ensurePromiseDeleteWorkflowFinalizer promise (promiseDeletePipelineExists : bool)
    : M S (option Result) :=
  let hasDelete := ContainsFinalizer (GetFinalizers promise) runDeleteWorkflowsFinalizer in
  let hasJobs := ContainsFinalizer (GetFinalizers promise) removeAllWorkflowJobsFinalizer in
  if promiseDeletePipelineExists && (negb hasDelete || negb hasJobs) then
    let! r := addPromiseFinalizers promise [runDeleteWorkflowsFinalizer; removeAllWorkflowJobsFinalizer] in
    ret (Some r)
  else if negb promiseDeletePipelineExists && hasDelete then
    removePromiseFinalizer promise runDeleteWorkflowsFinalizer ;;; ret (Some noRequeue)
  else ret None.

(** ** Static dependencies and the workflow of the Promise *)
Definition applyWorkForStaticDependencies promise : M S unit :=
  let! name := GenerateObjectName (GetName promise +:+ "-static-deps") in
  let! work := of_sum (NewPromiseDependenciesWork promise name) in
  let work := SetLabels (labels_Merge (GetLabels work)
    (GetWorkLabels (GetName promise) "" "" WorkTypeStaticDependency)) work in
  let! existingWork := GetWork SystemNamespace (GetLabels work) in
  match existingWork with
  | None => Create work ;;; ret tt
  | Some existingWork =>
      let! now := Now in
      Update (SetAnnotations
        (<[lastUpdatedAtAnnotation := Local_String now]> (GetAnnotations existingWork))
        (set_spec (r_spec work) existingWork)) ;;;
      ret tt
  end.

Definition deleteWorkForStaticDependencies promise : M S unit :=
  let! existingWork := GetWork SystemNamespace
    (GetWorkLabels (GetName promise) "" "" WorkTypeStaticDependency) in
  match existingWork with None => ret tt | Some w => Delete w end.

(** [None]: carry on with the Promise given back. *)
Definition reconcileDependenciesAndPromiseWorkflows promise (unstructuredPromise : Unstructured)
    : M S (option Result * Promise) :=
  (if bool_decide (0 < length (prs_dependencies (r_spec promise)))
   then applyWorkForStaticDependencies promise
   else deleteWorkForStaticDependencies promise) ;;;
  let pipelineCount := getWorkflowsCount promise in
  if bool_decide (pipelineCount = 0%Z) then
    let! promise := updateWorkflowStatusCountersToZero promise in ret (None, promise)
  else if bool_decide (prst_workflows (r_status promise) ≠ pipelineCount) then
    let! promise := UpdatePromise (set_pst (λ st,
      with_counters pipelineCount (prst_workflowsSucceeded st) (prst_workflowsFailed st) st) promise) in
    ret (None, promise)
  else if DoesNotContainFinalizer (GetFinalizers promise) removeAllWorkflowJobsFinalizer then
    let! r := addPromiseFinalizers promise [removeAllWorkflowJobsFinalizer] in ret (Some r, promise)
  else
    let completedCond := Promise_GetCondition promise ConfigureWorkflowCompletedCondition in
    let! forcePipelineRun := DynamicReconciler.shouldForcePipelineRun completedCond ReconciliationInterval in
    if forcePipelineRun && bool_decide (label (GetLabels promise) ManualReconciliationLabel ≠ "true") then
      let! promise := UpdatePromise
        (SetLabels (<[ManualReconciliationLabel := "true"]> (GetLabels promise)) promise) in
      ret (Some noRequeue, promise)
    else
      let reconciledCond := Promise_GetCondition promise ReconciledCondition in
      let promise :=
        if status_is reconciledCond ConditionUnknown && reason_is reconciledCond pausedReconciliationReason
        then SetLabels (<[ReconcileResourcesLabel := "true"]>
               (<[ManualReconciliationLabel := "true"]> (GetLabels promise))) promise
        else promise in
      let! pipelineResources := GeneratePromisePipelines promise WorkflowActionConfigure in
      let! u := ReconcileConfigure (PC:=promises_coll)
        (NewOpts pipelineResources "promise" NumberOfJobsToKeep) unstructuredPromise in
      if u.1 then ret (Some noRequeue, promise) else ret (None, promise).

(** ** Resource requests *)
Definition reconcileAllRRs : M S unit :=
  let! rrs := List (Sp:=UnstructuredSpec) (St:=UnstructuredStatus)
    {| lo_namespace := ""; lo_selector := None |} in
  iterM (λ rr, Update (SetLabels (<[ManualReconciliationLabel := "true"]> (GetLabels rr)) rr) ;;; ret tt) rrs.

Definition removeReconcileResourcesLabel promise : M S unit :=
  UpdatePromise (SetLabels (base.delete ReconcileResourcesLabel (GetLabels promise)) promise) ;;; ret tt.

Definition reconcileResources promise : M S Result :=
  reconcileAllRRs ;;;
  Eventf promise "Normal" "ReconcilingResources" "Reconciling all resource requests" ;;;
  match GetLabels promise !! ReconcileResourcesLabel with
  | Some _ => removeReconcileResourcesLabel promise ;;; ret noRequeue
  | None => updatePromiseStatus
              (set_pst (with_generation (om_generation (r_meta promise))) promise)
  end.

(** ** The controller for resource requests, in the reconciler's memory *)
Definition StartController (gvk : GVK) : M S unit := call (w_start_controller gvk).
Definition RestartManager : M S unit := total w_restart_manager.

Definition ensureDynamicControllerIsStarted promise (rrCRD : CRD) (rrGVK : GVK)
    (canCreateResources : bool) : M (S * Started) unit :=
  let! name := lift (GetDynamicControllerName promise) in
  let! started := recall in
  match started !! name with
  | Some d =>
      remember (<[name := {| dc_gvk := rrGVK; dc_promiseIdentifier := dc_promiseIdentifier d;
        dc_uid := dc_uid d; dc_enabled := dc_enabled d; dc_crd := rrCRD;
        dc_promiseDestinationSelectors := prs_destinationSelectors (r_spec promise);
        dc_canCreateResources := canCreateResources;
        dc_numberOfJobsToKeep := dc_numberOfJobsToKeep d;
        dc_reconciliationInterval := dc_reconciliationInterval d |}]> started)
  | None =>
      let! uid := lift (shortID (om_uid (r_meta promise))) in
      remember (<[name := {| dc_gvk := rrGVK; dc_promiseIdentifier := GetName promise;
        dc_uid := uid; dc_enabled := true; dc_crd := rrCRD;
        dc_promiseDestinationSelectors := prs_destinationSelectors (r_spec promise);
        dc_canCreateResources := canCreateResources;
        dc_numberOfJobsToKeep := NumberOfJobsToKeep;
        dc_reconciliationInterval := ReconciliationInterval |}]> started) ;;;
      zoom (StartController rrGVK)
  end.

Definition disable (d : DynamicResourceRequestController) : DynamicResourceRequestController :=
  {| dc_gvk := dc_gvk d; dc_promiseIdentifier := dc_promiseIdentifier d; dc_uid := dc_uid d;
     dc_enabled := false; dc_crd := dc_crd d;
     dc_promiseDestinationSelectors := dc_promiseDestinationSelectors d;
     dc_canCreateResources := dc_canCreateResources d;
     dc_numberOfJobsToKeep := dc_numberOfJobsToKeep d;
     dc_reconciliationInterval := dc_reconciliationInterval d |}.

Definition disableDynamicController promise : M (S * Started) unit :=
  let! name := lift (GetDynamicControllerName promise) in
  let! started := recall in
  match started !! name with
  | Some d => zoom RestartManager ;;; remember (<[name := disable d]> started)
  | None => ret tt
  end.

(** ** Deletion *)
Definition deletePromiseWorkflowJobs promise (finalizer : string) : M S unit :=
  let! resourcesRemaining := deleteAllResourcesWithKindMatchingLabel JobSpec JobStatus
    (<[WorkflowTypeLabel := WorkflowTypePromise]> (<[PromiseNameLabel := GetName promise]> ∅)) in
  let! legacyResourcesRemaining := deleteAllResourcesWithKindMatchingLabel JobSpec JobStatus
    (<[WorkTypeLabel := WorkTypePromise]> (<[PromiseNameLabel := GetName promise]> ∅)) in
  if negb resourcesRemaining || negb legacyResourcesRemaining
  then removePromiseFinalizer promise finalizer else ret tt.

Inductive DependentKind :=
  | KClusterRoleBinding | KClusterRole | KRoleBinding | KRole | KServiceAccount | KConfigMap.

Definition resourcesToDelete : gmap string (list DependentKind) :=
  <["rbac.authorization.k8s.io/v1" := [KClusterRoleBinding; KClusterRole; KRoleBinding; KRole]]>
    (<["v1" := [KServiceAccount; KConfigMap]]> ∅).

Definition deleteKind (k : DependentKind) (ls : Labels) : M S bool :=
  match k with
  | KClusterRoleBinding => deleteAllResourcesWithKindMatchingLabel ClusterRoleBindingSpec unit ls
  | KClusterRole => deleteAllResourcesWithKindMatchingLabel ClusterRoleSpec unit ls
  | KRoleBinding => deleteAllResourcesWithKindMatchingLabel RoleBindingSpec unit ls
  | KRole => deleteAllResourcesWithKindMatchingLabel RoleSpec unit ls
  | KServiceAccount => deleteAllResourcesWithKindMatchingLabel ServiceAccountSpec unit ls
  | KConfigMap => deleteAllResourcesWithKindMatchingLabel ConfigMapSpec unit ls
  end.

(** Stops at the first kind of which something was left. *)
Fixpoint deleteKinds (ks : list DependentKind) (ls : Labels) : M S bool :=
  match ks with
  | [] => ret false
  | k :: ks' => let! remaining := deleteKind k ls in
                if remaining : bool then ret true else deleteKinds ks' ls
  end.

Definition deleteDynamicControllerAndWorkflowResources promise : M S unit :=
  let! groups := Range resourcesToDelete in
  let! remaining := deleteKinds (concat groups.*2) (GenerateSharedLabels promise) in
  if remaining : bool then ret tt
  else removePromiseFinalizer promise dynamicControllerDependantResourcesCleanupFinalizer.

Definition deleteResourceRequests promise : M (S * Started) unit :=
  let! api := lift (generateCRDAndGVK promise) in
  let '(rrCRD, rrGVK) := api in
  let! resourcesRemaining := zoom
    (deleteAllResourcesWithKindMatchingLabel UnstructuredSpec UnstructuredStatus ∅) in
  ensureDynamicControllerIsStarted promise rrCRD rrGVK false ;;;
  if negb resourcesRemaining then zoom (removePromiseFinalizer promise resourceRequestCleanupFinalizer)
  else ret tt.

Definition deleteCRDs promise : M S unit :=
  match GetAPI promise with
  | Panicked => panic
  | Fail _ => removePromiseFinalizer promise crdCleanupFinalizer
  | Ok (_, rrCRD) =>
      let! g := try (Get (Sp:=CRDSpec) (St:=CRDStatus) ("", GetName rrCRD)) in
      match g with
      | inl e => if IsNotFound e then removePromiseFinalizer promise crdCleanupFinalizer
                 else Delete (mkResource (new_meta "" (GetName rrCRD)) (r_spec rrCRD) (r_status rrCRD))
      | inr _ => Delete (mkResource (new_meta "" (GetName rrCRD)) (r_spec rrCRD) (r_status rrCRD))
      end
  end.

Definition deleteWork promise : M S unit :=
  let! resourcesRemaining := deleteAllResourcesWithKindMatchingLabel WorkSpec WorkStatus
    (GenerateSharedLabels promise) in
  if negb resourcesRemaining then removePromiseFinalizer promise dependenciesCleanupFinalizer else ret tt.

Definition runDeleteWorkflows promise : M S Result :=
  let! unstructuredPromise := of_sum (ToUnstructured promise) in
  let! pipelines := GeneratePromisePipelines promise WorkflowActionDelete in
  let! d := ReconcileDelete (PC:=promises_coll) (NewOpts pipelines "promise" NumberOfJobsToKeep)
    unstructuredPromise in
  if d.1 then ret defaultRequeue
  else removePromiseFinalizer promise runDeleteWorkflowsFinalizer ;;; ret noRequeue.

Definition deletePromise promise : M (S * Started) Result :=
  let has f := ContainsFinalizer (GetFinalizers promise) f in
  if FinalizersAreDeleted (GetFinalizers promise) promiseFinalizers then ret noRequeue
  else if has runDeleteWorkflowsFinalizer then zoom (runDeleteWorkflows promise)
  else if has removeAllWorkflowJobsFinalizer then
    zoom (deletePromiseWorkflowJobs promise removeAllWorkflowJobsFinalizer) ;;; ret fastRequeue
  else if has resourceRequestCleanupFinalizer then deleteResourceRequests promise ;;; ret fastRequeue
  else
    disableDynamicController promise ;;;
    if has dynamicControllerDependantResourcesCleanupFinalizer then
      let! r := try (zoom (deleteDynamicControllerAndWorkflowResources promise)) in
      match r with inl _ => ret defaultRequeue | inr _ => ret fastRequeue end
    else if has dependenciesCleanupFinalizer then zoom (deleteWork promise) ;;; ret fastRequeue
    else if has crdCleanupFinalizer then zoom (deleteCRDs promise) ;;; ret fastRequeue
    else ret fastRequeue.

(** ** Reconcile *)
Definition setPromiseStatusToAvailable promise : M S Result :=
  let! timestamp := Now in
  let promise := set_pst (λ st, with_lastAvailable timestamp (with_state PromiseStatusAvailable st)) promise in
  let promise := (updateConditionOnPromise promise (promiseAvailableStatusCondition timestamp)).2 in
  Eventf promise "Normal" "Available" "Promise is available" ;;;
  updatePromiseStatus promise.

Definition nextReconciliation : Result := {| requeueAfter := ReconciliationInterval |}.

(** The requirements changed: persist the Promise as unavailable and start over. *)
Definition reportRequirements promise (originalStatus : string) : M S Result :=
  let! promise :=
    if IsStatusConditionFalse (prst_conditions (r_status promise)) "RequirementsFulfilled"
    then mark_promise promise (promiseReconciledPendingCondition "RequirementsNotFulfilled")
    else ret promise in
  let! result := updatePromiseStatus promise in
  if bool_decide (result ≠ noRequeue) then ret result
  else
    (if bool_decide (originalStatus = PromiseStatusAvailable)
     then Eventf promise "Warning" "Unavailable" "Promise no longer available: Requirements have changed"
     else ret tt) ;;;
    ret noRequeue.

(** The CRD and what the controller for requests needs; [inl]: stop here. *)
Definition ensureAPI promise : M S (Result + option (CRD * GVK)) :=
  if negb (ContainsAPI promise) then ret (inr None)
  else
    let! api := lift (generateCRDAndGVK promise) in
    let '(rrCRD, rrGVK) := api in
    let! requeue := ensureCRDExists promise rrCRD in
    match requeue with
    | Some r => ret (inl r)
    | None =>
        if DoesNotContainFinalizer (GetFinalizers promise) crdCleanupFinalizer then
          let! r := addPromiseFinalizers promise [crdCleanupFinalizer] in ret (inl r)
        else
          createResourcesForDynamicControllerIfTheyDontExist promise rrCRD rrGVK ;;;
          if DoesNotContainFinalizer (GetFinalizers promise)
               dynamicControllerDependantResourcesCleanupFinalizer then
            let! r := addPromiseFinalizers promise [dynamicControllerDependantResourcesCleanupFinalizer] in
            ret (inl r)
          else ret (inr (Some (rrCRD, rrGVK)))
    end.

Definition requirements_installed promise : bool :=
  forallb (λ req, bool_decide (rps_state req = requirementStateInstalled))
    (prst_requiredPromises (r_status promise)).

(** [None]: requests are served, carry on. *)
Definition serveRequests promise (api : option (CRD * GVK)) : M (S * Started) (option Result) :=
  match api with
  | None => ret None
  | Some (rrCRD, rrGVK) =>
      let canCreateResources := requirements_installed promise in
      ensureDynamicControllerIsStarted promise rrCRD rrGVK canCreateResources ;;;
      if DoesNotContainFinalizer (GetFinalizers promise) resourceRequestCleanupFinalizer then
        let! r := zoom (addPromiseFinalizers promise [resourceRequestCleanupFinalizer]) in ret (Some r)
      else if negb canCreateResources then ret (Some slowRequeue)
      else if shouldReconcileResources promise then
        let! r := zoom (reconcileResources promise) in ret (Some r)
      else ret None
  end.

(** [originalAvailableCondition] points into the slice of conditions: when there was one, what
    is read through it here is the condition as it is now, not as it was fetched. *)
Definition reportPromise promise (originalStatus : string) (hadAvailableCondition : bool) : M S Result :=
  if bool_decide (originalStatus ≠ PromiseStatusAvailable) then setPromiseStatusToAvailable promise
  else
    let promise := set_pst (with_state originalStatus) promise in
    let! now := Now in
    let timeStamp :=
      match (if hadAvailableCondition then Promise_GetCondition promise PromiseAvailableConditionType
             else None) with
      | Some c => cond_lastTransitionTime c
      | None => now
      end in
    let promise := (updateConditionOnPromise promise (promiseAvailableStatusCondition timeStamp)).2 in
    let! u := generateConditions promise (getWorkflowsCount promise) in
    let '(statusUpdate, promise) := u in
    if statusUpdate : bool then StatusUpdatePromise promise ;;; ret noRequeue
    else
      let completedCond := Promise_GetCondition promise ConfigureWorkflowCompletedCondition in
      if negb (HasPipeline promise WorkflowTypePromise WorkflowActionConfigure) ||
         status_is completedCond ConditionTrue then
        (if bool_decide (completedCond ≠ None)
         then Eventf promise EventTypeNormal "ConfigureWorkflowCompleted" "All workflows completed"
         else ret tt) ;;;
        ret nextReconciliation
      else ret noRequeue.

(** From the delete-workflow finalizer to the end. *)
Definition installPromise promise (originalStatus : string) (hadAvailableCondition : bool) : M (S * Started) Result :=
  let! requeue := zoom (ensurePromiseDeleteWorkflowFinalizer promise
    (HasPipeline promise WorkflowTypePromise WorkflowActionDelete)) in
  match requeue with
  | Some r => ret r
  | None =>
      let! a := zoom (ensureAPI promise) in
      match a with
      | inl r => ret r
      | inr api =>
          if DoesNotContainFinalizer (GetFinalizers promise) dependenciesCleanupFinalizer then
            zoom (addPromiseFinalizers promise [dependenciesCleanupFinalizer])
          else
            match ToUnstructured promise with
            | inl e => fail (ErrorWrap "Error converting Promise to Unstructured" e)
            | inr usPromise =>
                let! w := zoom (reconcileDependenciesAndPromiseWorkflows promise usPromise) in
                let '(ctrlResult, promise) := w in
                match ctrlResult with
                | Some r => ret r
                | None =>
                    let! d := serveRequests promise api in
                    match d with
                    | Some r => ret r
                    | None => zoom (reportPromise promise originalStatus hadAvailableCondition)
                    end
                end
            end
      end
  end.

Definition reconcilePromise promise : M (S * Started) Result :=
  let originalStatus := prst_status (r_status promise) in
  let hadAvailableCondition :=
    bool_decide (Promise_GetCondition promise PromiseAvailableConditionType ≠ None) in
  let version := GetLabels promise !! PromiseVersionLabel in
  if match version with
     | Some value => bool_decide (prst_version (r_status promise) ≠ value)
     | None => false
     end
  then zoom (updatePromiseStatus (set_pst (with_version (default "" version)) promise))
  else
    let! promise := zoom (mark_promise (set_pst (with_state PromiseStatusUnavailable) promise)
      promiseUnavailableStatusCondition) in
    let! u := zoom (hasPromiseRequirementsChanged promise) in
    let '(requirementsChanged, promise) := u in
    if requirementsChanged : bool then zoom (reportRequirements promise originalStatus)
    else installPromise promise originalStatus hadAvailableCondition.

Definition Reconcile (req : Key) : M (S * Started) Result :=
  let! g := try (zoom (GetPromise req)) in
  match g with
  | inl e => if IsNotFound e then ret noRequeue else ret defaultRequeue
  | inr promise =>
      if bool_decide (label (GetLabels promise) pauseReconciliationLabel = "true") then
        zoom (Eventf promise EventTypeWarning pausedReconciliationReason
          ("'" +:+ pauseReconciliationLabel +:+
           "' label set to 'true' for promise; pausing reconciliation")) ;;;
        zoom (setPausedReconciliationStatusConditions promise) ;;;
        ret noRequeue
      else if deleting promise then deletePromise promise
      else reconcilePromise promise
  end.
End controller.
End PromiseReconciler.
