(* ===== verification/PromiseInstall.v ===== *)
(** * Properties of the Promise controller: dependencies, requirements and the API *)

From S2P Require Import Prelude GoLib Codec Meta Api Kube Client Shared ResourceUtil Promise PromiseStore.
From S2P Require Import PromiseFacts Frame WorkCreatorFacts PipelineFactory Workflow DynamicController PromiseController.
Import PromiseReconciler.

(** ** Static dependencies *)
Definition dependency_labels (promise : Promise) : Labels :=
  GetWorkLabels (GetName promise) "" "" WorkTypeStaticDependency ∪ GenerateSharedLabels promise.

Lemma dependency_labels_shared promise : GenerateSharedLabels promise ⊆ dependency_labels promise.
Proof.
unfold dependency_labels, GenerateSharedLabels, GenerateSharedLabelsForPromise.
apply map_subseteq_spec. intros k v. rewrite lookup_insert_Some, lookup_empty.
intros [[<- <-]|[_ [=]]]. apply lookup_union_Some_l. unfold GetWorkLabels.
rewrite !bool_decide_false by (by intros []). rewrite lookup_insert_ne by done. apply lookup_insert_eq.
Qed.

Lemma dependency_labels_type promise :
  GetWorkLabels (GetName promise) "" "" WorkTypeStaticDependency ⊆ dependency_labels promise.
Proof. apply map_union_subseteq_l. Qed.

Section dependencies.
Context {S : Type} `{World S, Viewed S, !WorldLaws S, Lib, !LibLaws, Codec, !CodecLaws}.
Context `{YamlEncoder, TimeLib}.
Implicit Types s : S.

(** C26: Applying the static dependencies of a Promise leaves exactly one Work with their
    labels, whose only workload decompresses to the marshalled dependencies; it
    is created or its spec replaced, every other Work and everything else stays,
    and nothing changes on an error.  The Work carries the labels by which it is
    found again, both when the dependencies are removed from the Promise and when
    the Promise is deleted. *)
Theorem dependencies_delivered promise s :
  keyed (c_works (view s)) → no_zombies (c_works (view s)) →
  wp (applyWorkForStaticDependencies promise) (λ r s',
    match r with
    | Ok _ => ∃ yaml w wl, Dependencies_Marshal (prs_dependencies (r_spec promise)) = inr yaml ∧
        one_work SystemNamespace (dependency_labels promise) (r_spec w) (view s) (view s') w ∧
        mjoin (wg_workloads <$> ws_workloadGroups (r_spec w)) = [wl] ∧
        DecompressContent (wl_content wl) = inr yaml ∧
        work_matches SystemNamespace
          (GetWorkLabels (GetName promise) "" "" WorkTypeStaticDependency) w ∧
        GenerateSharedLabels promise ⊆ GetLabels w
    | _ => view s' = view s
    end) s.
Proof.
intros Hkey Hzomb. unfold applyWorkForStaticDependencies, NewPromiseDependenciesWork.
apply wp_bind. eapply wp_mono; [by apply wp_GenerateObjectName|]. intros [name|e|] s1 [Hv1 _]; [|done..].
apply wp_bind. unfold of_sum.
destruct (Dependencies_Marshal _) as [e|yaml]; [by apply wp_fail|]. apply wp_ret. cbv zeta.
match goal with |- context [SetLabels _ ?x] => set (work0 := x) end.
assert (labels_Merge (GetLabels work0) (GetWorkLabels (GetName promise) "" "" WorkTypeStaticDependency) =
  dependency_labels promise) as -> by (rewrite merge_spec; done).
set (work := SetLabels (dependency_labels promise) work0).
assert (∀ c w, one_work SystemNamespace (dependency_labels promise) (r_spec work) (view s) c w →
  ∃ yaml' w wl, inr yaml = inr (A:=error) yaml' ∧
    one_work SystemNamespace (dependency_labels promise) (r_spec w) (view s) c w ∧
    mjoin (wg_workloads <$> ws_workloadGroups (r_spec w)) = [wl] ∧
    DecompressContent (wl_content wl) = inr yaml' ∧
    work_matches SystemNamespace (GetWorkLabels (GetName promise) "" "" WorkTypeStaticDependency) w ∧
    GenerateSharedLabels promise ⊆ GetLabels w) as Hend.
{ intros c w Hw. pose proof (ow_spec _ _ _ _ _ _ Hw) as Hsp. destruct (ow_matches _ _ _ _ _ _ Hw) as [Hns Hl].
  eexists yaml, w, _. split_and!; [done|by rewrite Hsp|by rewrite Hsp| | |].
  - apply decompress_compressed.
  - split; [done|]. etrans; [apply dependency_labels_type|done].
  - etrans; [apply dependency_labels_shared|done]. }
apply wp_bind, wp_GetWork; [| | |congruence].
{ intros E. pose proof (dependency_labels_shared promise) as Hs. change (GetLabels work) with
    (dependency_labels promise) in E. rewrite E in Hs. apply (map_subseteq_spec _ _) with (i := PromiseNameLabel) (x := GetName promise) in Hs;
  [by rewrite lookup_empty in Hs|apply lookup_insert_eq]. }
- intros s2 Hv2 Hnone. rewrite Hv1 in Hnone. apply wp_bind, wp_Create; [|congruence].
  intros uid t gen s3 _ Hv3. apply wp_ret. rewrite Hv3, Hv2, Hv1. eapply Hend.
  apply (one_work_created _ _ work); [|done]. split; [by right|done].
- intros k w s2 Hv2 Hk Hm Honly. rewrite Hv1 in Hk, Honly. apply wp_bind, wp_Now. intros now s3 Hv3.
  apply wp_bind, wp_Update; [|congruence].
  intros old gen s4 Hold Hv4. apply wp_ret. rewrite Hv4, Hv3, Hv2, Hv1. rewrite Hv3, Hv2, Hv1 in Hold.
  assert (key w = k) as <- by (by apply Hkey).
  change (c_works (view s) !! key w = Some old) in Hold. rewrite Hk in Hold. injection Hold as <-.
  eapply Hend. by apply (one_work_updated _ _ w (SetAnnotations _ (set_spec (r_spec work) w))).
Qed.
End dependencies.

(** ** Requirements *)

(** The required Promise is installed at the required version and available. *)
Definition satisfied `{PromiseCodec} (c : Cluster) (req : RequiredPromise) : Prop :=
  ∃ p, typed_promises c !! ("", rp_name req) = Some p ∧
    prst_version (r_status p) = rp_version req ∧ prst_status (r_status p) = PromiseStatusAvailable.

(** The same Promise, but for who requires it. *)
Definition same_promise (p p' : Promise) : Prop :=
  r_meta p' = r_meta p ∧ r_spec p' = r_spec p ∧
  with_requiredBy [] (r_status p') = with_requiredBy [] (r_status p).

Definition same_promises `{PromiseCodec} (c c' : Cluster) : Prop :=
  only_promises c c' ∧
  ∀ k, option_Forall2 same_promise (typed_promises c !! k) (typed_promises c' !! k).

#[global] Instance same_promise_preorder : PreOrder same_promise.
Proof.
split; [by intros p|]. intros a b c (?&?&?) (?&?&?). split_and!; congruence.
Qed.
#[global] Instance same_promises_preorder `{PromiseCodec} : PreOrder same_promises.
Proof.
split.
- intros c. split; [done|]. intros k. by destruct (_ !! k); constructor.
- intros a b c [Hab Hab'] [Hbc Hbc']. split; [by etrans|]. intros k. specialize (Hab' k). specialize (Hbc' k).
  destruct (typed_promises a !! k), (typed_promises b !! k), (typed_promises c !! k);
    inversion Hab'; inversion Hbc'; constructor; by etrans.
Qed.

Lemma same_promises_satisfied `{PromiseCodec} c c' req :
  same_promises c c' → satisfied c' req → satisfied c req.
Proof.
intros [_ Hs] (p' & Hp' & Hv & Ha). specialize (Hs ("", rp_name req)). rewrite Hp' in Hs.
inversion Hs as [p ? (_ & _ & Hst) Hp|]. exists p. split_and!; [done| |].
- rewrite <-Hv. by injection Hst.
- rewrite <-Ha. by injection Hst.
Qed.

Definition typed_keyed `{PromiseCodec} (c : Cluster) : Prop :=
  ∀ k p, typed_promises c !! k = Some p → key p = k.

Lemma same_promises_keyed `{PromiseCodec} c c' : same_promises c c' → typed_keyed c → typed_keyed c'.
Proof.
intros [_ Hs] Hk k p' Hp'. specialize (Hs k). rewrite Hp' in Hs.
inversion Hs as [p ? (Hm & _) Hp|]. unfold key. rewrite Hm. exact (Hk _ _ (eq_sym Hp)).
Qed.

Lemma keyed_typed `{PromiseCodec} c : keyed (c_promises c) → typed_keyed c.
Proof.
intros Hk k p (u & Hu & Hd)%typed_lookup. rewrite (decode_promise_key _ _ Hd). by apply Hk.
Qed.

(** The entry of the status for a requirement. *)
Definition entry_for `{PromiseCodec} (c : Cluster) (req : RequiredPromise) (st : RequiredPromiseStatus) : Prop :=
  rps_name st = rp_name req ∧ rps_version st = rp_version req ∧
  (rps_state st = requirementStateInstalled → satisfied c req).

Section requirements.
Context {S : Type} `{World S, Viewed S, !WorldLaws S, PromiseCodec, !PromiseCodecLaws}.
Implicit Types s : S.

Lemma wp_markRequired v promise required s :
  typed_promises (view s) !! key required = Some required →
  wp (markRequiredPromiseAsRequired v promise required)
    (post (λ _ s', same_promises (view s) (view s')) (λ _ _, False)) s.
Proof.
intros Hr. unfold markRequiredPromiseAsRequired. apply wp_bind, wp_try.
apply (wp_StatusUpdatePromise _ required); [done| |].
- intros s' Ho Ht. apply wp_ret. cbn [post]. split; [done|]. intros k. rewrite Ht. cbn.
  change (key (set_pst _ required)) with (key required). destruct (decide (k = key required)) as [->|Hne].
  + rewrite lookup_insert_eq, Hr. by constructor.
  + rewrite lookup_insert_ne by done. by destruct (typed_promises (view s) !! k); constructor.
- intros e s' Hv. apply wp_ret. cbn [post]. by rewrite Hv.
Qed.

Lemma not_fulfilled_status condition r m :
  cond_status (updateConditionNotFulfilled condition r m) ≠ ConditionTrue.
Proof. unfold updateConditionNotFulfilled. cbn. case_bool_decide as E; [done|by rewrite E]. Qed.

Lemma wp_evaluateRequirement promise req condition s :
  typed_keyed (view s) →
  wp (evaluateRequirement promise req condition)
    (post (λ a s', same_promises (view s) (view s') ∧ entry_for (view s) req a.1 ∧
             cond_type a.2 = cond_type condition ∧
             (cond_status a.2 = ConditionTrue →
                cond_status condition = ConditionTrue ∧ rps_state a.1 = requirementStateInstalled))
          (λ _ _, False)) s.
Proof.
intros Hk. unfold evaluateRequirement. cbv zeta. apply wp_bind, wp_try, wp_GetPromise.
2:{ intros e s1 Hv1. destruct (IsNotFound e); apply wp_bind, wp_Eventf; intros s2 Hv2; apply wp_ret;
    cbn [post]; rewrite Hv2, Hv1; (split; [done|]);
    (split_and!; [by split_and!|done|by intros ?%not_fulfilled_status]). }
intros required s1 Hv1 Hr. pose proof (Hk _ _ Hr) as Hkr. apply wp_bind.
eapply wp_mono with (Q := post (λ a s', view s' = view s ∧ entry_for (view s) req a.1 ∧
  cond_type a.2 = cond_type condition ∧ (cond_status a.2 = ConditionTrue →
    cond_status condition = ConditionTrue ∧ rps_state a.1 = requirementStateInstalled)) (λ _ _, False)).
{ destruct (bool_decide (prst_version _ ≠ _)) eqn:Ev;
    [|destruct (bool_decide (prst_status _ ≠ _)) eqn:Ea]; cbn [orb].
  3:{ apply bool_decide_eq_false, dec_stable in Ev, Ea. apply wp_ret. cbn [post].
      split_and!; [done| |done|done]. split_and!; [done|done|]. intros _. by exists required. }
  all: destruct (generateRequirementState _ _ _) as [reason state] eqn:Eg; unfold generateRequirementState in Eg;
    rewrite Ev, ?Ea in Eg; injection Eg as <- <-;
    apply wp_bind, wp_Eventf; intros s2 Hv2; apply wp_ret; cbn [post];
    (split; [congruence|]); (split_and!; [by split_and!|done|by intros ?%not_fulfilled_status]). }
intros [a|e|] s2 Hs2; cbn [post] in Hs2; [|done|done]. destruct Hs2 as (Hv2 & Ha).
apply wp_bind. eapply wp_mono; [apply wp_markRequired; rewrite Hv2, Hkr; exact Hr|].
intros [[]|e|] s3 Hs3; cbn [post] in Hs3; [|done|done]. apply wp_ret. cbn [post]. by rewrite <-Hv2 at 1.
Qed.

Lemma wp_generateStatus promise s :
  typed_keyed (view s) →
  wp (generateStatusAndMarkRequirements promise)
    (post (λ u s', same_promises (view s) (view s') ∧
             Forall2 (entry_for (view s)) (prs_requiredPromises (r_spec promise)) u.2 ∧
             cond_type u.1 = "RequirementsFulfilled" ∧
             (cond_status u.1 = ConditionTrue →
                Forall (λ st, rps_state st = requirementStateInstalled) u.2))
          (λ _ _, False)) s.
Proof.
intros Hk. unfold generateStatusAndMarkRequirements. apply wp_bind, wp_stamped. intros now s1 Hv1.
apply wp_bind, (wp_foldM _ (λ done _ u s', same_promises (view s) (view s') ∧
  Forall2 (entry_for (view s)) done u.2 ∧ cond_type u.1 = "RequirementsFulfilled" ∧
  (cond_status u.1 = ConditionTrue → Forall (λ st, rps_state st = requirementStateInstalled) u.2))).
- rewrite Hv1. split_and!; [done|constructor|done|constructor].
- intros done req todo [c l] s2 _ (Hsame & Hl & Ht & Hc). cbn [fst snd] in *. apply wp_bind.
  eapply wp_mono; [apply wp_evaluateRequirement; by eapply same_promises_keyed|].
  intros [[st c']|e|] s3 Hs3; cbn [post fst snd] in Hs3; [|done|done].
  destruct Hs3 as (Hs3 & (Hn & Hver & Hst) & Ht' & Hc'). apply wp_ret. cbn [fst snd].
  split_and!; [by etrans| |congruence|].
  + apply Forall2_app; [done|]. constructor; [|constructor]. split_and!; [done|done|].
    intros Hi. eapply same_promises_satisfied; [exact Hsame|]. by apply Hst.
  + intros [Hct Hi]%Hc'. apply Forall_app. split; [by apply Hc|by constructor].
- intros [c l] s2 Hs2. apply wp_bind. case_match; [apply wp_Eventf; intros s3 Hv3|];
    apply wp_ret; cbn [post]; rewrite ?Hv3; [exact Hs2|]. apply wp_ret. exact Hs2.
Qed.

Lemma update_condition_get (cs : list Condition) c d :
  snd <$> list_find (λ x, cond_type x = cond_type c) (update_condition cs c).2 = Some d →
  cond_status d = cond_status c.
Proof.
induction cs as [|x cs IH]; cbn [update_condition].
- cbn. rewrite decide_True by done. by intros [= <-].
- case_bool_decide as Et.
  + case_bool_decide as Es; cbn; rewrite decide_True by done; intros [= <-]; [done|].
    by apply dec_stable in Es || exact Es.
  + destruct (update_condition cs c) as [b cs']. cbn in *. rewrite decide_False by done.
    intros Hd. apply IH. destruct (list_find _ cs') as [[i y]|]; [|done]. exact Hd.
Qed.

End requirements.

(** ** The CRD that is served *)
Record with_status (v v' : CRDVersion) : Prop := {
  vs_name : cv_name v' = cv_name v;
  vs_storage : cv_storage v' = cv_storage v;
  vs_subresource : cv_statusSubresource v' = true;
  vs_columns : cv_printerColumns v' ≠ [];
  vs_schema : ∃ sch sch', cv_schema v = Some sch ∧ cv_schema v' = Some sch' ∧
    property "status" sch' = Some status_schema ∧ ∀ k, k ≠ "status" → property k sch' = property k sch;
}.

Lemma set_status_fields_on_spec v :
  match set_status_fields_on v with
  | Ok v' => with_status v v'
  | Fail _ => False
  | Panicked => (cv_schema v ≫= schema_properties) = None
  end.
Proof.
unfold set_status_fields_on. destruct (cv_schema v) as [[t m [props|] r]|] eqn:E; [|done|done].
split; cbn; [done|done|done| |].
- case_bool_decide as Hl; [done|]. by intros Hnil; rewrite Hnil in Hl.
- eexists _, _. split_and!; [done|done| |]; unfold property, props_of; cbn.
  + by rewrite prop_get_set, bool_decide_true.
  + intros k Hk. by rewrite prop_get_set, bool_decide_false.
Qed.

(** C31: Every version of the CRD that is served for a Promise has the status subresource,
    the schema of the status kept by the controllers, and printer columns; its
    other properties, its name and whether it is stored are as the author wrote
    them.  The controller panics exactly on a version that comes without the properties
    of its schema. *)
Theorem served_versions_have_status crd :
  match setStatusFieldsOnCRD crd with
  | Ok crd' => r_meta crd' = r_meta crd ∧
      Forall2 with_status (crd_versions (r_spec crd)) (crd_versions (r_spec crd'))
  | Fail _ => False
  | Panicked => Exists (λ v, (cv_schema v ≫= schema_properties) = None) (crd_versions (r_spec crd))
  end.
Proof.
unfold setStatusFieldsOnCRD.
assert (match set_status_fields_from (crd_versions (r_spec crd)) with
  | Ok vs => Forall2 with_status (crd_versions (r_spec crd)) vs
  | Fail _ => False
  | Panicked => Exists (λ v, (cv_schema v ≫= schema_properties) = None) (crd_versions (r_spec crd))
  end) as Hvs.
{ induction (crd_versions (r_spec crd)) as [|v vs IH]; [constructor|]. cbn.
  pose proof (set_status_fields_on_spec v) as Hv.
  destruct (set_status_fields_on v), (set_status_fields_from vs); try done;
    by (constructor || (by left) || (by right)). }
destruct (set_status_fields_from _); [by split|done|done].
Qed.
