(* ===== verification/Scheduler.v ===== *)
(** * The scheduler: [internal/controller/scheduler.go]

    Schedules the workload groups of a Work to Destinations by creating,
    updating and deleting WorkPlacements. *)

From S2P Require Import Prelude GoLib Meta Api Kube Client Shared.

Definition workLabelKey := KratixPrefix +:+ "work".
Definition workloadGroupIDKey := KratixPrefix +:+ "workload-group-id".
Definition misscheduledLabel := KratixPrefix +:+ "misplaced".
Definition TargetDestinationNameLabel := KratixPrefix +:+ "targetDestinationName".

Definition repoCleanupWorkPlacementFinalizer :=
  "finalizers.workplacement.kratix.io/repo-cleanup".
Definition scheduleSucceededConditionType := "ScheduleSucceeded".
Definition scheduleSucceededConditionMismatchReason := "DestinationSelectorMismatch".
Definition scheduleSucceededConditionMismatchMsg :=
  "Target destination no longer matches destinationSelectors".

Inductive schedulingStatus := scheduledStatus | unscheduledStatus | misplacedStatus.

#[global] Instance schedulingStatus_eq_dec : EqDecision schedulingStatus.
Proof. solve_decision. Defined.

(** ** Destination selectors of a workload group *)

(** The comparison function passed to [sort.SliceStable]. *)
Definition lowest_priority_less (i j : WorkloadGroupScheduling) : bool :=
  if bool_decide (wgs_source i = "promise") then false
  else if bool_decide (wgs_source j = "promise") then true
  else if bool_decide (wgs_source i = "promise-workflow") then false
  else if bool_decide (wgs_source j = "promise-workflow") then true
  else false.

Definition sortWorkloadGroupDestinationsByLowestPriority
    (selector : list WorkloadGroupScheduling) : list WorkloadGroupScheduling :=
  Sort.SliceStable lowest_priority_less selector.

Definition resolveDestinationSelectorsForWorkloadGroup (wg : WorkloadGroup) : Labels :=
  foldl (λ acc scheduling, assign_all (wgs_matchLabels scheduling) acc) ∅
    (sortWorkloadGroupDestinationsByLowestPriority (wg_destinationSelectors wg)).

(** The test of the loop in [getDestinationsForWorkloadGroup]. *)
Definition destination_excluded (destinationSelectors : Labels) (d : Destination) : bool :=
  deleting d ||
  (bool_decide (size destinationSelectors = 0) &&
   (ds_strictMatchLabels (r_spec d) && bool_decide (0 < size (GetLabels d)))).

(** ** The placement of a workload group on a destination *)

Definition labelWorkplacementAsMisplaced (wp : WorkPlacement) : WorkPlacement :=
  SetLabels (<[misscheduledLabel := "true"]> (GetLabels wp)) wp.

Definition placement_labels (work : Work) (wg : WorkloadGroup) (target : string) : Labels :=
  <[workLabelKey := GetName work]>
    (<[workloadGroupIDKey := wg_id wg]>
       (<[TargetDestinationNameLabel := target]> ∅)).

Section lib.
Context `{Lib}.

(** The mutate function given to [controllerutil.CreateOrUpdate]. *)
Definition mutate_placement (wg : WorkloadGroup) (work : Work) (target : string)
    (misscheduled : bool) (wp : WorkPlacement) : error + WorkPlacement :=
  let wp := set_wp_workloads (wg_workloads wg) wp in
  let wp := SetLabels (placement_labels work wg target) wp in
  let wp := SetAnnotations (GetAnnotations work) wp in
  let wp := SetPipelineName work wp in
  let wp := if misscheduled then labelWorkplacementAsMisplaced wp else wp in
  let wp := set_spec {| wps_targetDestinationName := target;
                        wps_workloads := wps_workloads (r_spec wp);
                        wps_promiseName := ws_promiseName (r_spec work);
                        wps_resourceName := ws_resourceName (r_spec work);
                        wps_id := wg_id wg |} wp in
  let wp := SetFinalizers (AddFinalizer (GetFinalizers wp) repoCleanupWorkPlacementFinalizer) wp in
  match SetControllerReference "Work" (r_meta work) (r_meta wp) with
  | inl e => inl e
  | inr m => inr (set_meta m wp)
  end.
End lib.

(** [work.Name + "." + target + "-" + shortID(wg.ID)] *)
Definition placement_name (work : Work) (wg : WorkloadGroup) (target : string)
    : outcome string :=
  match shortID (wg_id wg) with
  | Ok i => Ok (GetName work +:+ "." +:+ target +:+ "-" +:+ i)
  | Fail e => Fail e
  | Panicked => Panicked
  end.

Section scheduler.
Context {S : Type} `{World S, Lib}.

(** ** Listing *)

(** A selector that does not parse is only logged: the list is then not
    restricted by labels. *)
Definition parsed_selector (ls : Labels) : option Selector :=
  match labels_Parse (FormatLabels ls) with inl _ => None | inr sel => Some sel end.

Definition listWorkplacementWithLabels (namespace : string) (matchLabels : Labels)
    : M S (list WorkPlacement) :=
  List {| lo_namespace := namespace; lo_selector := parsed_selector matchLabels |}.

Definition getExistingWorkPlacementsForWorkloadGroup (namespace workName : string)
    (wg : WorkloadGroup) : M S (list WorkPlacement) :=
  listWorkplacementWithLabels namespace
    (<[workLabelKey := workName]> (<[workloadGroupIDKey := wg_id wg]> ∅)).

Definition getExistingWorkPlacementsForWork (namespace workName : string)
    : M S (list WorkPlacement) :=
  listWorkplacementWithLabels namespace (<[workLabelKey := workName]> ∅).

Definition getDestinationsForWorkloadGroup (destinationSelectors : Labels)
    : M S (list Destination) :=
  let lo := {| lo_namespace := "";
               lo_selector := if bool_decide (0 < size destinationSelectors)
                              then parsed_selector destinationSelectors else None |} in
  let! r := try (List lo) in
  let items := match r with inl _ => [] | inr l => l end in
  ret (filter (λ d, destination_excluded destinationSelectors d = false) items).

Definition getTargetDestinationNames (destinationSelectors : Labels) (work : Work)
    : M S (list string) :=
  let! destinations := getDestinationsForWorkloadGroup destinationSelectors in
  match destinations with
  | [] => ret []
  | _ =>
      if IsResourceRequest work then
        let! i := Intn (length destinations) in
        match destinations !! i with
        | Some d => ret [GetName d]
        | None => panic
        end
      else if IsDependency work then ret (GetName <$> destinations)
      else ret []
  end.

(** ** Updating placements *)

Definition updateWorkPlacementStatus (workPlacement : WorkPlacement) (misplaced : bool)
    : M S unit :=
  let! updatedwp := Get (Sp:=WorkPlacementSpec) (key workPlacement) in
  let! conds :=
    if misplaced then
      let! sched := stamped scheduleSucceededConditionType ConditionFalse
                      scheduleSucceededConditionMismatchReason
                      scheduleSucceededConditionMismatchMsg in
      Eventf updatedwp EventTypeWarning scheduleSucceededConditionMismatchReason
        ("labels for destination: " +:+ wps_targetDestinationName (r_spec updatedwp) +:+
         " no longer match the expected labels, marking this workplacement as misplaced") ;;;
      ret (sched, mk_cond "Ready" ConditionFalse "Misplaced" "Misplaced")
    else
      let! sched := stamped scheduleSucceededConditionType ConditionTrue
                      "ScheduledToDestination" "Scheduled to correct Destination" in
      ret (sched, mk_cond "Ready" ConditionTrue "Ready" "Ready") in
  let! r := setStatusCondition (wpst_conditions (r_status updatedwp)) conds.1 in
  if r.2 then
    let! r' := setStatusCondition r.1 conds.2 in
    StatusUpdate (set_wp_conditions r'.1 updatedwp) ;;;
    ret tt
  else ret tt.

Definition updateWorkPlacement (wg : WorkloadGroup) (workPlacement : WorkPlacement)
    : M S bool :=
  let destinationSelectors := resolveDestinationSelectorsForWorkloadGroup wg in
  let! dests := getDestinationsForWorkloadGroup destinationSelectors in
  let misplaced :=
    negb (existsb (λ d, bool_decide (GetName d =
            wps_targetDestinationName (r_spec workPlacement))) dests) in
  let wp := if misplaced then labelWorkplacementAsMisplaced workPlacement
            else workPlacement in
  let wp := set_wp_workloads (wg_workloads wg) wp in
  let! wp := Update wp in
  updateWorkPlacementStatus wp misplaced ;;;
  ret misplaced.

(** One iteration of the loop of [applyWorkplacementsForTargetDestinations]. *)
Definition applyWorkplacement (wg : WorkloadGroup) (work : Work)
    (contains : bool) (t : string * bool) : M S bool :=
  let '(target, misscheduled) := t in
  let! name := lift (placement_name work wg target) in
  let! r := CreateOrUpdate (new_WorkPlacement (GetNamespace work) name)
              (mutate_placement wg work target misscheduled) in
  let '(workPlacement, op) := r in
  updateWorkPlacementStatus workPlacement misscheduled ;;;
  Eventf work EventTypeNormal "WorkplacementReconciled"
    ("workplacement reconciled: " +:+ GetName workPlacement +:+ ", operation: " +:+ op) ;;;
  ret (contains || misscheduled).

Definition applyWorkplacementsForTargetDestinations (wg : WorkloadGroup) (work : Work)
    (targetDestinationNames : gmap string bool) : M S bool :=
  let! order := Range targetDestinationNames in
  foldM (applyWorkplacement wg work) order false.

(** The map of targets: [false] for the wanted destinations, [true] for a
    destination that only an existing placement names. *)
Definition target_destination_map (names : list string) (existing : list WorkPlacement)
    : gmap string bool :=
  foldl (λ m wp,
      let dest := wps_targetDestinationName (r_spec wp) in
      match m !! dest with Some _ => m | None => <[dest := true]> m end)
    (foldl (λ m d, <[d := false]> m) ∅ names) existing.

(** The update loop over the existing placements of a resource request:
    how many updates failed, and the status so far. *)
Definition updateExisting (wg : WorkloadGroup) (acc : nat * schedulingStatus)
    (wp : WorkPlacement) : M S (nat * schedulingStatus) :=
  let! r := try (updateWorkPlacement wg wp) in
  match r with
  | inl _ => ret (acc.1 + 1, acc.2)
  | inr misplaced => ret (acc.1, if misplaced then misplacedStatus else acc.2)
  end.

Definition reconcileWorkloadGroup (wg : WorkloadGroup) (work : Work) : M S schedulingStatus :=
  let! existing :=
    getExistingWorkPlacementsForWorkloadGroup (GetNamespace work) (GetName work) wg in
  if IsResourceRequest work && bool_decide (0 < length existing) then
    let! r := foldM (updateExisting wg) existing (0, scheduledStatus) in
    if bool_decide (0 < r.1)
    then fail (ErrorMsg ("failed to update " +:+ pretty r.1 +:+ " of " +:+
           pretty (length existing) +:+ " workplacements for work"))
    else ret r.2
  else
    let destinationSelectors := resolveDestinationSelectorsForWorkloadGroup wg in
    let! names := getTargetDestinationNames destinationSelectors work in
    let targets := target_destination_map names existing in
    if bool_decide (size targets = 0) then
      Eventf work EventTypeNormal "NoMatchingDestination"
        ("waiting for a destination with labels for workloadGroup: " +:+ wg_id wg) ;;;
      ret unscheduledStatus
    else
      let! misplaced := applyWorkplacementsForTargetDestinations wg work targets in
      ret (if misplaced then misplacedStatus else scheduledStatus).

(** ** The status of the Work *)

Definition set_work_conditions (cs : list Condition) (w : Work) : Work :=
  set_status {| wst_conditions := cs;
                wst_workPlacements := wst_workPlacements (r_status w);
                wst_workPlacementsCreated := wst_workPlacementsCreated (r_status w) |} w.

Definition updateWorkStatus (w : Work) (unscheduledIDs misplacedIDs : list string)
    : M S (Work * bool) :=
  let workPlacements := Z.of_nat (length (ws_workloadGroups (r_spec w))) in
  let workPlacementsCreated := (workPlacements - Z.of_nat (length unscheduledIDs))%Z in
  let counts_changed :=
    bool_decide (workPlacements ≠ wst_workPlacements (r_status w) ∨
                 workPlacementsCreated ≠ wst_workPlacementsCreated (r_status w)) in
  let w := if counts_changed
           then set_status {| wst_conditions := wst_conditions (r_status w);
                              wst_workPlacements := workPlacements;
                              wst_workPlacementsCreated := workPlacementsCreated |} w
           else w in
  let! conds :=
    if bool_decide (0 < length unscheduledIDs) then
      ret (mk_cond "ScheduleSucceeded" ConditionFalse "UnscheduledWorkloads"
             ("No matching destination found for workloadGroups: [" +:+
              Strings.Join unscheduledIDs "," +:+ "]"),
           mk_cond "Ready" ConditionFalse "UnscheduledWorkloads" "Pending")
    else if bool_decide (0 < length misplacedIDs) then
      let! sched := stamped scheduleSucceededConditionType ConditionFalse
                      scheduleSucceededConditionMismatchReason
                      ("Target destination no longer matches destinationSelectors for workloadGroups: ["
                       +:+ Strings.Join misplacedIDs "," +:+ "]") in
      Eventf w EventTypeWarning scheduleSucceededConditionMismatchReason
        ("Target destination no longer matches destinationSelectors for workloadGroups: ["
         +:+ Strings.Join misplacedIDs "," +:+ "] ") ;;;
      ret (sched, mk_cond "Ready" ConditionFalse "Misplaced" "Misplaced")
    else
      Eventf w EventTypeNormal "AllWorkplacementsScheduled"
        "All workplacements scheduled successfully" ;;;
      ret (mk_cond "ScheduleSucceeded" ConditionTrue "AllWorkplacementsScheduled"
             "All workplacements scheduled successfully",
           mk_cond "Ready" ConditionTrue "AllWorkplacementsScheduled" "Ready") in
  let! r := setStatusCondition (wst_conditions (r_status w)) conds.1 in
  if r.2 then
    let! r' := setStatusCondition r.1 conds.2 in
    ret (set_work_conditions r'.1 w, true)
  else ret (w, counts_changed).

(** ** Removing placements of groups that are gone *)

Definition collectNames (work : Work) (acc : gset string) (wg : WorkloadGroup)
    : M S (gset string) :=
  let! wps := getExistingWorkPlacementsForWorkloadGroup (GetNamespace work) (GetName work) wg in
  ret (list_to_set (GetName <$> wps) ∪ acc).

Definition cleanupDanglingWorkplacements (work : Work) : M S unit :=
  let! keep := foldM (collectNames work) (ws_workloadGroups (r_spec work)) ∅ in
  let! all := getExistingWorkPlacementsForWork (GetNamespace work) (GetName work) in
  iterM (λ wp, if bool_decide (GetName wp ∈ keep) then ret tt else Delete wp) all.

(** ** ReconcileWork *)

(** The loop over the workload groups: the identifier of the group whose
    scheduling failed, or the unschedulable and the misplaced groups. *)
Fixpoint scheduleGroups (work : Work) (groups : list WorkloadGroup)
    (unschedulable misplaced : list string) : M S (string + list string * list string) :=
  match groups with
  | [] => ret (inr (unschedulable, misplaced))
  | wg :: groups' =>
      let! r := try (reconcileWorkloadGroup wg work) in
      match r with
      | inl _ => ret (inl (wg_id wg))
      | inr unscheduledStatus =>
          scheduleGroups work groups' (unschedulable ++ [wg_id wg]) misplaced
      | inr misplacedStatus =>
          scheduleGroups work groups' unschedulable (misplaced ++ [wg_id wg])
      | inr scheduledStatus => scheduleGroups work groups' unschedulable misplaced
      end
  end.

(** Returns the Work as the caller's pointer sees it afterwards and the
    unschedulable workload groups. *)
Definition ReconcileWork (work : Work) : M S (Work * list string) :=
  let! r := scheduleGroups work (ws_workloadGroups (r_spec work)) [] [] in
  match r with
  | inl failed =>
      let! r1 := setStatusCondition (wst_conditions (r_status work))
        (mk_cond "ScheduleSucceeded" ConditionFalse "FailedToScheduleWorkloads"
           ("Failed to schedule or update for workloadGroups: [" +:+ failed +:+ "]")) in
      let! r2 := setStatusCondition r1.1
        (mk_cond "Ready" ConditionFalse "FailedToScheduleWorkloads" "Pending") in
      let! work' := StatusUpdate (set_work_conditions r2.1 work) in
      ret (work', [])
  | inr (unschedulable, misplaced) =>
      let! r := updateWorkStatus work unschedulable misplaced in
      let! work' := if r.2 : bool then StatusUpdate r.1 else ret r.1 in
      cleanupDanglingWorkplacements work' ;;;
      ret (work', unschedulable)
  end.
End scheduler.
