(* ===== verification/SchedulerSelect.v ===== *)
(** * Scheduling decisions: selectors and eligible destinations

    What [scheduler.go] decides before it writes anything: the order of the
    selectors, the merged selector of a workload group, and the destinations
    that may receive it. *)

From S2P Require Import Prelude GoLib Meta Api Kube Client Shared Scheduler Sim.

(** ** The order of the selectors *)

Definition source_rank (s : WorkloadGroupScheduling) : Z :=
  if bool_decide (wgs_source s = "promise") then 2
  else if bool_decide (wgs_source s = "promise-workflow") then 1 else 0.

Lemma lowest_priority_less_rank i j :
  lowest_priority_less i j = bool_decide (source_rank i < source_rank j)%Z.
Proof.
  unfold lowest_priority_less, source_rank. by repeat case_bool_decide; simplify_eq.
Qed.

Lemma source_rank_cases s : source_rank s = 0%Z ∨ source_rank s = 1%Z ∨ source_rank s = 2%Z.
Proof. unfold source_rank. repeat case_bool_decide; auto. Qed.

(** A list sorted by a rank between 0 and 2 is the concatenation of its three
    rank classes. *)
Lemma sorted_by_class {A} (rank : A → Z) l :
  StronglySorted (λ x y, rank x ≤ rank y)%Z l →
  (∀ x, rank x = 0 ∨ rank x = 1 ∨ rank x = 2)%Z →
  l = filter (λ x, rank x = 0%Z) l ++ filter (λ x, rank x = 1%Z) l ++
      filter (λ x, rank x = 2%Z) l.
Proof.
  intros Hs Hr. induction Hs as [|x l Hs IH Hx]; [done|].
  rewrite !filter_cons.
  destruct (Hr x) as [Hrx|[Hrx|Hrx]]; rewrite Hrx; simpl.
  - f_equal. done.
  - rewrite (filter_empty (λ x, rank x = 0%Z)) in *
      by (eapply Forall_impl; [exact Hx|intros; simpl in *; lia]).
    simpl. f_equal. done.
  - rewrite (filter_empty (λ x, rank x = 0%Z)), (filter_empty (λ x, rank x = 1%Z)) in *
      by (eapply Forall_impl; [exact Hx|intros; simpl in *; lia]).
    simpl. f_equal. done.
Qed.

Lemma sort_by_class l :
  sortWorkloadGroupDestinationsByLowestPriority l =
  filter (λ s, source_rank s = 0%Z) l ++ filter (λ s, source_rank s = 1%Z) l ++
  filter (λ s, source_rank s = 2%Z) l.
Proof.
  unfold sortWorkloadGroupDestinationsByLowestPriority.
  rewrite (Sort.SliceStable_ext _ _ l lowest_priority_less_rank).
  rewrite <-(Sort.SliceStable_filter source_rank 0%Z l) at 1.
  rewrite <-(Sort.SliceStable_filter source_rank 1%Z l) at 1.
  rewrite <-(Sort.SliceStable_filter source_rank 2%Z l) at 1.
  apply sorted_by_class; [apply Sort.SliceStable_sorted|apply source_rank_cases].
Qed.

(** The three classes, by the source they carry. *)
Definition from_promise (s : WorkloadGroupScheduling) : Prop := wgs_source s = "promise".
Definition from_promise_workflow (s : WorkloadGroupScheduling) : Prop :=
  wgs_source s = "promise-workflow".
Definition from_resource_workflow (s : WorkloadGroupScheduling) : Prop :=
  wgs_source s ≠ "promise" ∧ wgs_source s ≠ "promise-workflow".

#[global] Instance from_promise_dec s : Decision (from_promise s).
Proof. unfold from_promise. apply _. Defined.
#[global] Instance from_promise_workflow_dec s : Decision (from_promise_workflow s).
Proof. unfold from_promise_workflow. apply _. Defined.
#[global] Instance from_resource_workflow_dec s : Decision (from_resource_workflow s).
Proof. unfold from_resource_workflow. apply _. Defined.

Lemma sort_by_source l :
  sortWorkloadGroupDestinationsByLowestPriority l =
  filter from_resource_workflow l ++ filter from_promise_workflow l ++ filter from_promise l.
Proof.
  rewrite sort_by_class. f_equal; [|f_equal]; apply list_filter_iff; intros s;
    unfold source_rank, from_resource_workflow, from_promise_workflow, from_promise;
    repeat case_bool_decide; split; intros; destruct_and?; simplify_eq; auto.
  congruence.
Qed.

(** the selectors of a workload group come back as the resource workflow's
    first, then the promise workflow's, then the promise's, and inside each
    class in their original order (the sort is stable); sorting them again, as
    the next reconciliation does on the same slice, changes nothing. *)
Theorem sort_lowest_priority_stable l :
  sortWorkloadGroupDestinationsByLowestPriority l =
    filter from_resource_workflow l ++ filter from_promise_workflow l ++ filter from_promise l ∧
  sortWorkloadGroupDestinationsByLowestPriority
    (sortWorkloadGroupDestinationsByLowestPriority l) =
    sortWorkloadGroupDestinationsByLowestPriority l.
Proof.
  split; [apply sort_by_source|].
  unfold sortWorkloadGroupDestinationsByLowestPriority.
  rewrite !(Sort.SliceStable_ext _ _ _ lowest_priority_less_rank).
  apply Sort.SliceStable_id, Sort.SliceStable_sorted.
Qed.

(** ** The merged selector *)

(** The value the last entry of [l] that mentions [k] gives it. *)
Definition last_value (k : string) (l : list WorkloadGroupScheduling) : option string :=
  last (omap (λ s, wgs_matchLabels s !! k) l).

Lemma foldl_assign_lookup (l : list WorkloadGroupScheduling) acc k :
  foldl (λ acc s, assign_all (wgs_matchLabels s) acc) acc l !! k =
  from_option Some (acc !! k) (last_value k l).
Proof.
  unfold last_value. induction l as [|s l IH] using rev_ind; [done|].
  rewrite foldl_app. simpl. rewrite assign_all_union, lookup_union, IH, omap_app. simpl.
  destruct (wgs_matchLabels s !! k) as [v|]; simpl.
  - rewrite last_snoc. by destruct (from_option _ _ _).
  - rewrite app_nil_r. by destruct (from_option _ _ _).
Qed.

Lemma last_value_app k l1 l2 :
  last_value k (l1 ++ l2) = match last_value k l2 with
                            | Some v => Some v
                            | None => last_value k l1
                            end.
Proof. unfold last_value. by rewrite omap_app, last_app. Qed.

(** in the merged selector of a workload group a label is decided by the
    promise's selectors if one of them mentions it, else by the promise
    workflow's, else by the resource workflow's; among selectors of one source
    the last one wins. *)
Theorem resolve_selectors_priority wg k :
  resolveDestinationSelectorsForWorkloadGroup wg !! k =
  let l := wg_destinationSelectors wg in
  match last_value k (filter from_promise l) with
  | Some v => Some v
  | None =>
      match last_value k (filter from_promise_workflow l) with
      | Some v => Some v
      | None => last_value k (filter from_resource_workflow l)
      end
  end.
Proof.
  unfold resolveDestinationSelectorsForWorkloadGroup.
  rewrite foldl_assign_lookup, lookup_empty, sort_by_source.
  rewrite !last_value_app. cbv zeta.
  destruct (last_value k (filter from_promise _)); [done|].
  destruct (last_value k (filter from_promise_workflow _)); [done|].
  by destruct (last_value k _).
Qed.
