(* ===== verification/SchedulerPlace.v ===== *)
(** * Scheduling effects: what the scheduler writes

    Proof rules for the operations of [Scheduler.v], each derived from the
    rules of the client. *)

From S2P Require Import Prelude GoLib Meta Api Kube Client Shared Scheduler Sim.

(** ** Names of placements *)

Lemma string_app_inj_r (a b c : string) : a +:+ c = b +:+ c → a = b.
Proof.
revert b. induction a as [|x a IH]; intros [|y b] Heq; [done| | |].
- apply (f_equal String.length) in Heq. rewrite !string_length_app in Heq. simpl in Heq. lia.
- apply (f_equal String.length) in Heq. rewrite !string_length_app in Heq. simpl in Heq. lia.
- injection Heq as -> Heq. f_equal. by apply IH.
Qed.

Lemma string_app_inj_l (a b c : string) : c +:+ a = c +:+ b → a = b.
Proof. induction c as [|x c IH]; simpl; [done|]. intros Heq. injection Heq as Heq. auto. Qed.

Lemma shortID_ok id : 5 ≤ String.length id → shortID id = Ok (String.substring 0 5 id).
Proof. intros. unfold shortID. rewrite Strings.slice_ok by lia. done. Qed.

(** The key under which the placement of a group on a destination is stored. *)
Definition placement_key (work : Work) (wg : WorkloadGroup) (target : string) : Key :=
  (GetNamespace work,
   GetName work +:+ "." +:+ target +:+ "-" +:+ String.substring 0 5 (wg_id wg)).

Lemma placement_name_ok work wg t :
  5 ≤ String.length (wg_id wg) → placement_name work wg t = Ok (placement_key work wg t).2.
Proof. intros Hl. unfold placement_name. by rewrite shortID_ok. Qed.

#[global] Instance placement_key_inj work wg : Inj (=) (=) (placement_key work wg).
Proof.
intros t t' Heq. injection Heq as Heq.
apply string_app_inj_l, string_app_inj_l in Heq. by apply string_app_inj_r in Heq.
Qed.

(** ** Eligible destinations *)

Definition eligible (sel : Labels) (d : Destination) : Prop :=
  deleting d = false ∧ sel ⊆ GetLabels d ∧
  (sel = ∅ → ds_strictMatchLabels (r_spec d) = true → GetLabels d = ∅).

#[global] Instance eligible_dec sel d : Decision (eligible sel d).
Proof. unfold eligible. apply _. Defined.

(** The selector can be written and read back ([labels.Parse] accepts it). *)
Definition parses `{Lib} (ls : Labels) : Prop :=
  match labels_Parse (FormatLabels ls) with inl _ => False | inr _ => True end.

(** ** A placement as the scheduler leaves it *)
Definition placement_spec (work : Work) (wg : WorkloadGroup) (target : string)
    : WorkPlacementSpec := {|
  wps_targetDestinationName := target;
  wps_workloads := wg_workloads wg;
  wps_promiseName := ws_promiseName (r_spec work);
  wps_resourceName := ws_resourceName (r_spec work);
  wps_id := wg_id wg |}.

(** The schedule condition reported on the placement. *)
Definition reports_scheduled `{Lib} (wp : WorkPlacement) (status : string) : Prop :=
  ∃ c, FindStatusCondition (wpst_conditions (r_status wp)) scheduleSucceededConditionType
         = Some c ∧ cond_status c = status.

Definition schedule_status (misplaced : bool) : string :=
  if misplaced then ConditionFalse else ConditionTrue.

Record placed `{Lib} (work : Work) (wg : WorkloadGroup) (target : string) (misplaced : bool)
    (wp : WorkPlacement) : Prop := {
  placed_spec : r_spec wp = placement_spec work wg target;
  placed_labels : GetLabels wp =
    (if misplaced then <[misscheduledLabel := "true"]> else id)
      (<[PipelineNameLabel := label (GetLabels work) PipelineNameLabel]>
         (placement_labels work wg target));
  placed_finalizer : repoCleanupWorkPlacementFinalizer ∈ GetFinalizers wp;
  placed_reports : reports_scheduled wp (schedule_status misplaced);
}.

(** ** The rules *)
Section rules.
Context {S : Type} `{World S, Viewed S, !WorldLaws S, Lib, !LibLaws}.
Implicit Types s : S.

(** The placements of a state. *)
Definition wps s : gmap Key WorkPlacement := coll (view s).

(** The state differs only in the placements, which are now [m]. *)
Definition wps_become (m : gmap Key WorkPlacement) s s' : Prop :=
  view s' = set_coll m (view s).

Lemma wps_become_wps m s s' : wps_become m s s' → wps s' = m.
Proof. unfold wps_become, wps. intros ->. apply coll_set. Qed.

Lemma wps_become_refl s s' : view s' = view s → wps_become (wps s) s s'.
Proof. unfold wps_become, wps. intros ->. by rewrite set_coll_coll. Qed.

Lemma wps_become_trans m m' s s' s'' :
  wps_become m s s' → wps_become m' s' s'' → wps_become m' s s''.
Proof. unfold wps_become. intros E1 E2. by rewrite E2, E1, set_coll_set. Qed.

Lemma wps_become_view m s s1 s2 s' :
  view s1 = view s → wps_become m s1 s2 → view s' = view s2 → wps_become m s s'.
Proof. unfold wps_become. intros <- E ->. done. Qed.

(** Listing destinations happened at some moment with the objects of [s];
    a failed request counts as an empty list. *)
Definition destination_options (sel : Labels) : ListOptions :=
  {| lo_namespace := "";
     lo_selector := if bool_decide (0 < size sel) then parsed_selector sel else None |}.

Definition destinations_seen (sel : Labels) s (l : list Destination) : Prop :=
  ∃ s1, c_destinations (view s1) = c_destinations (view s) ∧
    match (w_list (Sp:=DestinationSpec) (destination_options sel) s1).1 with
    | inl _ => l = []
    | inr _ => l ≡ₚ filter (eligible sel) (map_values (c_destinations (view s)))
    end.

Lemma destinations_seen_view sel s s' l :
  c_destinations (view s') = c_destinations (view s) →
  destinations_seen sel s' l → destinations_seen sel s l.
Proof. intros Hv (s1 & Hs1 & Hl). exists s1. by rewrite <-Hv. Qed.

Lemma wps_become_destinations m s s' :
  wps_become m s s' → c_destinations (view s') = c_destinations (view s).
Proof. unfold wps_become. by intros ->. Qed.

Lemma destination_listed sel d :
  sel = ∅ ∨ parses sel →
  lo_match (destination_options sel) (r_meta d) = true ∧ destination_excluded sel d = false
  ↔ eligible sel d.
Proof.
intros Hp. unfold lo_match, destination_options, destination_excluded, eligible. simpl.
destruct (decide (sel = ∅)) as [->|Hne].
- rewrite map_size_empty. simpl.
  pose proof (map_size_empty_iff (GetLabels d)).
  destruct (deleting d), (ds_strictMatchLabels (r_spec d)); simpl;
    try case_bool_decide; naive_solver (try lia; apply map_empty_subseteq).
- destruct Hp as [|Hp]; [done|].
  rewrite bool_decide_true by (apply map_size_non_empty_iff in Hne; lia).
  rewrite (bool_decide_false (size sel = 0)) by (by apply map_size_non_empty_iff).
  unfold parsed_selector. unfold parses in Hp.
  destruct (labels_Parse (FormatLabels sel)) as [|p] eqn:Hparse; [done|].
  rewrite (parse_format _ _ Hne Hparse), bool_decide_eq_true, orb_false_iff. naive_solver.
Qed.

Lemma wp_getDestinationsForWorkloadGroup sel (Q : outcome (list Destination) → S → Prop) s :
  sel = ∅ ∨ parses sel →
  (∀ l s', view s' = view s → destinations_seen sel s l → Q (Ok l) s') →
  wp (getDestinationsForWorkloadGroup sel) Q s.
Proof.
intros Hp HQ. apply wp_bind, wp_try, wp_call; intros r s' Hr; apply wp_ret.
- pose proof (list_ok _ _ _ _ Hr) as [Hv Hl]. apply HQ; [done|].
  exists s. split; [done|]. unfold destination_options. rewrite Hr. simpl.
  rewrite Hl, list_filter_filter. apply Permutation_refl'. apply list_filter_iff.
  intros d. rewrite <-destination_listed by done. tauto.
- apply HQ; [by apply (list_err _ _ _ _ Hr)|]. exists s. split; [done|].
  unfold destination_options. by rewrite Hr.
Qed.

(** Existing placements: those of the namespace that carry the labels. *)
Lemma wp_listWorkplacementWithLabels ns ls (Q : outcome (list WorkPlacement) → S → Prop) s :
  ls ≠ ∅ → parses ls →
  (∀ l s', view s' = view s →
     l ≡ₚ filter (λ wp, (ns = "" ∨ ns = GetNamespace wp) ∧ ls ⊆ GetLabels wp)
            (map_values (wps s)) →
     Q (Ok l) s') →
  (∀ e s', view s' = view s → Q (Fail e) s') →
  wp (listWorkplacementWithLabels ns ls) Q s.
Proof.
intros Hne Hp HO HE. apply wp_List; [|done]. intros l s' Hv Hl. apply HO; [done|].
rewrite Hl. apply Permutation_refl', list_filter_iff. intros wp.
unfold lo_match, parsed_selector. unfold parses in Hp. simpl.
destruct (labels_Parse (FormatLabels ls)) as [|p] eqn:Hparse; [done|].
rewrite (parse_format _ _ Hne Hparse), andb_true_iff, orb_true_iff, !bool_decide_eq_true.
done.
Qed.

(** The labels that identify the placements of a workload group. *)
Definition group_labels (workName : string) (wg : WorkloadGroup) : Labels :=
  <[workLabelKey := workName]> (<[workloadGroupIDKey := wg_id wg]> ∅).

(** The status of a placement never affects its metadata and spec. *)
Definition sans_status (wp : WorkPlacement) : ObjectMeta * WorkPlacementSpec :=
  (r_meta wp, r_spec wp).

Lemma wp_updateWorkPlacementStatus p mis (Q : outcome unit → S → Prop) s :
  keyed (wps s) →
  (∀ old new s', wps s !! key p = Some old → sans_status new = sans_status old →
     reports_scheduled new (schedule_status mis) →
     wps_become (<[key p := new]> (wps s)) s s' → Q (Ok tt) s') →
  (∀ e s', view s' = view s → Q (Fail e) s') →
  wp (updateWorkPlacementStatus p mis) Q s.
Proof.
intros Hk HO HE. apply wp_bind, wp_Get; [|auto]. intros old s1 Hv1 Hold.
pose proof (Hk _ _ Hold) as Hkey.
assert (∀ sched ready s2, view s2 = view s →
  cond_type sched = scheduleSucceededConditionType → cond_type ready = "Ready" →
  cond_status sched = schedule_status mis →
  wp (let! r := setStatusCondition (wpst_conditions (r_status old)) sched in
      if r.2 then
        let! r' := setStatusCondition r.1 ready in
        StatusUpdate (set_wp_conditions r'.1 old) ;;; ret tt
      else ret tt) Q s2) as Hend.
{ intros sched ready s2 Hv2 Ht Htr Hst.
  apply wp_bind, wp_setStatusCondition. intros now s3 Hv3.
  destruct (SetStatusCondition now _ sched) as [cs changed] eqn:Hset. simpl.
  pose proof (set_find_same now (wpst_conditions (r_status old)) sched) as (d & Hd & Hsame).
  rewrite Hset, Ht in Hd. simpl in Hd. destruct Hsame as (_ & Hds & _).
  destruct changed.
  - apply wp_bind, wp_setStatusCondition. intros now' s4 Hv4. apply wp_bind.
    assert (key (set_wp_conditions (SetStatusCondition now' cs ready).1 old) = key p) as Hkw
      by done.
    apply wp_StatusUpdate; [|intros; apply HE; congruence].
    intros old' s5 Hold' Hv5. rewrite Hkw in *. apply wp_ret.
    assert (view s4 = view s) as Hv by congruence. rewrite Hv in *.
    unfold wps in *. simplify_eq.
    eapply HO; [done| | |exact Hv5]; [done|].
    exists d. split; [|congruence]. simpl. rewrite set_find_other; [done|].
    by rewrite Htr.
  - apply wp_ret. eapply (HO old old); [done|done| |].
    + exists d. split; [|congruence].
      pose proof (set_unchanged_eq now (wpst_conditions (r_status old)) sched) as Heq.
      rewrite Hset in Heq. by rewrite <-Heq.
    + rewrite insert_id by done. apply wps_become_refl. congruence. }
destruct mis.
- apply wp_bind, wp_bind, wp_stamped. intros now s2 Hv2.
  apply wp_bind, wp_Eventf. intros s3 Hv3. apply wp_ret, Hend; [congruence|done..].
- apply wp_bind, wp_bind, wp_stamped. intros now s2 Hv2.
  apply wp_ret, Hend; [congruence|done..].
Qed.

(** What the mutate function of [CreateOrUpdate] establishes. *)
Definition desired_labels (work : Work) (wg : WorkloadGroup) (t : string) (mis : bool) : Labels :=
  (if mis then <[misscheduledLabel := "true"]> else id)
    (<[PipelineNameLabel := label (GetLabels work) PipelineNameLabel]>
       (placement_labels work wg t)).

Lemma mutate_placement_ok wg work t mis p p' :
  mutate_placement wg work t mis p = inr p' →
  key p' = key p ∧ r_spec p' = placement_spec work wg t ∧
  GetLabels p' = desired_labels work wg t mis ∧
  repoCleanupWorkPlacementFinalizer ∈ GetFinalizers p'.
Proof.
unfold mutate_placement. destruct (SetControllerReference _ _ _) as [e|m] eqn:Hm; [done|].
intros [= <-]. apply set_controller_reference_meta in Hm.
unfold key, GetLabels, GetFinalizers. simpl. rewrite Hm. simpl.
destruct mis; (split_and!; [done|done|done|]); by apply elem_of_add_finalizer; left.
Qed.

(** An object with a finalizer is stored by an update, never reaped. *)
Lemma put_or_reap_finalizer {Sp St} (o : Resource Sp St) f m :
  f ∈ GetFinalizers o → put_or_reap o m = <[key o := o]> m.
Proof.
intros Hf. unfold put_or_reap. rewrite (bool_decide_false (_ = [])); [by rewrite andb_false_r|].
intros Hnil. rewrite Hnil in Hf. set_solver.
Qed.

Lemma keyed_insert {Sp St} (m : gmap Key (Resource Sp St)) k o :
  keyed m → key o = k → keyed (<[k := o]> m).
Proof. intros Hm Hk k' o'. rewrite lookup_insert_Some. naive_solver. Qed.

Lemma wp_applyWorkplacement wg work acc t mis (Q : outcome bool → S → Prop) s :
  keyed (wps s) → 5 ≤ String.length (wg_id wg) →
  (∀ p s', key p = placement_key work wg t → placed work wg t mis p →
     wps_become (<[placement_key work wg t := p]> (wps s)) s s' → Q (Ok (acc || mis)) s') →
  (∀ e s' m, wps_become m s s' → keyed m →
     delete (placement_key work wg t) m = delete (placement_key work wg t) (wps s) →
     Q (Fail e) s') →
  wp (applyWorkplacement wg work acc (t, mis)) Q s.
Proof.
intros Hk Hid HO HE. unfold applyWorkplacement. rewrite placement_name_ok by done.
set (pk := placement_key work wg t).
assert (∀ p op s1, key p = pk → r_spec p = placement_spec work wg t →
   GetLabels p = desired_labels work wg t mis →
   repoCleanupWorkPlacementFinalizer ∈ GetFinalizers p →
   wps_become (<[pk := p]> (wps s)) s s1 →
   wp (updateWorkPlacementStatus p mis ;;;
       Eventf work EventTypeNormal "WorkplacementReconciled"
         ("workplacement reconciled: " +:+ GetName p +:+ ", operation: " +:+ op) ;;;
       ret (acc || mis)) Q s1) as Hrest.
{ intros p op s1 Hp Hsp Hl Hf Hb.
  assert (keyed (wps s1)) as Hk1
    by (rewrite (wps_become_wps _ _ _ Hb); by apply keyed_insert).
  apply wp_bind, wp_updateWorkPlacementStatus; [done| |].
  - intros old new s2 Hold Hsans Hrep Hb2.
    rewrite (wps_become_wps _ _ _ Hb), Hp, lookup_insert_eq in Hold. injection Hold as <-.
    rewrite (wps_become_wps _ _ _ Hb), Hp, insert_insert_eq in Hb2.
    apply wp_bind, wp_Eventf. intros s3 Hv3. apply wp_ret.
    unfold sans_status in Hsans. injection Hsans as Hm Hs.
    apply (HO new).
    + fold pk. rewrite <-Hp. unfold key. by rewrite Hm.
    + split; [congruence| |unfold GetFinalizers in *; congruence|done].
      unfold GetLabels in *. rewrite Hm. exact Hl.
    + eapply wps_become_view; [done| |exact Hv3].
      by eapply wps_become_trans.
  - intros e s2 Hv2. eapply (HE _ _ (<[pk := p]> (wps s))).
    + eapply wps_become_view; [done| |exact Hv2]. done.
    + by apply keyed_insert.
    + apply delete_insert_eq. }
apply wp_bind. change (lift (Ok pk.2)) with (ret (S:=S) pk.2). apply wp_ret. simpl.
apply wp_bind, wp_CreateOrUpdate.
- intros p uid now gen op s1 Hnone (Hkp & Hsp & Hlp & Hfp)%mutate_placement_ok Hkey Hv.
  by apply Hrest.
- intros old p gen op s1 Hold (Hkp & Hsp & Hlp & Hfp)%mutate_placement_ok Hkey Hv.
  apply Hrest; [done..|]. unfold wps_become. rewrite Hv.
  rewrite (put_or_reap_finalizer (on_update gen old p) _ _ Hfp).
  change (key (on_update gen old p)) with (key p). by rewrite Hkey.
- intros e s1 Hv1. apply (HE _ _ (wps s)); [by apply wps_become_refl|done|done].
Qed.

(** Every target of [l] has its placement, and nothing else changed. *)
Definition placements_of (work : Work) (wg : WorkloadGroup) (l : list (string * bool))
    (m0 m : gmap Key WorkPlacement) : Prop :=
  (∀ t b, (t, b) ∈ l → ∃ p, m !! placement_key work wg t = Some p ∧ placed work wg t b p) ∧
  (∀ k, k ∉ placement_key work wg <$> l.*1 → m !! k = m0 !! k).

(** On an error only placements of the targets may have changed. *)
Definition changed_within (work : Work) (wg : WorkloadGroup) (ts : list string)
    (m0 m : gmap Key WorkPlacement) : Prop :=
  ∀ k, k ∉ placement_key work wg <$> ts → m !! k = m0 !! k.

Lemma placements_of_snoc work wg l t b p m0 m :
  t ∉ l.*1 → placements_of work wg l m0 m → placed work wg t b p →
  placements_of work wg (l ++ [(t, b)]) m0 (<[placement_key work wg t := p]> m).
Proof.
intros Hnew [Hin Hout] Hp. split.
- intros t' b' [Hold|Heq]%elem_of_app.
  + destruct (Hin _ _ Hold) as (p' & Hl & Hp'). exists p'. split; [|done].
    rewrite lookup_insert_ne; [done|]. intros Heq%(inj _). subst.
    apply Hnew, list_elem_of_fmap. by exists (t', b').
  + apply list_elem_of_singleton in Heq. simplify_eq. exists p. by rewrite lookup_insert_eq.
- intros k. rewrite !fmap_app, not_elem_of_app. simpl. intros [Hk Hkt].
  rewrite lookup_insert_ne; [by apply Hout|]. set_solver.
Qed.

Lemma wp_applyAll wg work targets (Q : outcome bool → S → Prop) s :
  keyed (wps s) → 5 ≤ String.length (wg_id wg) →
  (∀ c m s', wps_become m s s' → keyed m →
     placements_of work wg (map_to_list targets) (wps s) m →
     (c = true ↔ ∃ t, targets !! t = Some true) → Q (Ok c) s') →
  (∀ e m s', wps_become m s s' → keyed m →
     changed_within work wg (map_to_list targets).*1 (wps s) m → Q (Fail e) s') →
  wp (applyWorkplacementsForTargetDestinations wg work targets) Q s.
Proof.
intros Hk Hid HO HE. apply wp_bind, wp_Range. intros order s1 Hv1 Horder.
assert (NoDup order.*1) as Hnd by (rewrite Horder; apply NoDup_fst_map_to_list).
apply (wp_foldM _ (λ done _ c s', ∃ m, wps_become m s s' ∧ keyed m ∧
   placements_of work wg done (wps s) m ∧ (c = true ↔ ∃ t, (t, true) ∈ done))).
- exists (wps s). split_and!; [by apply wps_become_refl|done|split; set_solver|set_solver].
- intros done [t b] todo c s2 Hl (m & Hb & Hkm & Hpl & Hc).
  pose proof (wps_become_wps _ _ _ Hb) as Hm. subst order.
  rewrite fmap_app, NoDup_app in Hnd. destruct Hnd as (_ & Hdisj & _).
  assert (t ∉ done.*1) as Hnew by (intros ?%Hdisj; set_solver).
  apply wp_applyWorkplacement; [by rewrite Hm|done| |].
  + intros p s3 Hkp Hp Hb3. rewrite Hm in Hb3. eexists. split_and!.
    * by eapply wps_become_trans.
    * by apply keyed_insert.
    * by apply placements_of_snoc.
    * destruct c, b; set_solver.
  + intros e s3 m' Hb3 Hkm' Hdel. apply (HE e m'); [by eapply wps_become_trans|done|].
    intros k Hkk. destruct Hpl as [_ Hout].
    rewrite <-Horder, fmap_app, fmap_app, not_elem_of_app in Hkk. simpl in Hkk.
    destruct Hkk as [Hkd Hkt].
    apply (f_equal (.!! k)) in Hdel. rewrite Hm in Hdel.
    rewrite !lookup_delete_ne in Hdel by set_solver. rewrite Hdel. by apply Hout.
- intros c s2 (m & Hb & Hkm & [Hin Hout] & Hc). apply (HO c m); [done|done| |].
  + split.
    * intros t b. rewrite <-Horder. apply Hin.
    * intros k. rewrite <-Horder. apply Hout.
  + rewrite Hc. setoid_rewrite Horder. by setoid_rewrite elem_of_map_to_list.
Qed.

(** ** The map of targets *)
Lemma target_destination_map_lookup names existing t :
  target_destination_map names existing !! t =
  if bool_decide (t ∈ names) then Some false
  else if bool_decide (t ∈ (λ p : WorkPlacement, wps_targetDestinationName (r_spec p)) <$> existing)
  then Some true else None.
Proof.
unfold target_destination_map. induction existing as [|p ex IH] using rev_ind.
- cbn [foldl]. rewrite fmap_nil, (bool_decide_false (t ∈ [])) by set_solver.
  induction names as [|n names IH] using rev_ind; [done|].
  rewrite foldl_app. simpl. destruct (decide (n = t)) as [->|Hne].
  + rewrite lookup_insert_eq, bool_decide_true; [done|set_solver].
  + rewrite lookup_insert_ne, IH by done.
    rewrite (bool_decide_ext (t ∈ names ++ [n]) (t ∈ names)); [done|set_solver].
- rewrite foldl_app, fmap_app. simpl.
  match goal with |- context [foldl ?f ?b ex] =>
    generalize dependent (foldl f b ex) end. intros m IH. set (d := wps_targetDestinationName (r_spec p)). clearbody d.
  destruct (decide (d = t)) as [<-|Hne].
  + assert (∃ b, (match m !! d with Some _ => m | None => <[d:=true]> m end) !! d =
               Some b ∧ b = negb (bool_decide (d ∈ names))) as (b & -> & ->).
    { destruct (m !! d) eqn:Hd; [rewrite Hd|rewrite lookup_insert_eq].
      - exists b. split; [done|]. repeat case_bool_decide; by simplify_eq.
      - exists true. split; [done|]. repeat case_bool_decide; by simplify_eq. }
    case_bool_decide; simpl; [done|]. by rewrite bool_decide_true by set_solver.
  + assert ((match m !! d with Some _ => m | None => <[d:=true]> m end) !! t = m !! t) as ->
      by (destruct (m !! d); [done|by rewrite lookup_insert_ne]).
    rewrite IH. by rewrite (bool_decide_ext (t ∈ _ ++ [d])
      (t ∈ (λ p : WorkPlacement, wps_targetDestinationName (r_spec p)) <$> ex)) by set_solver.
Qed.

(** ** Updating an existing placement *)

Definition target (p : WorkPlacement) : string := wps_targetDestinationName (r_spec p).

(** What an update keeps: the target, the labels already there, the finalizers
    and a pending deletion. *)
Record retains (p new : WorkPlacement) : Prop := {
  retains_key : key new = key p;
  retains_target : target new = target p;
  retains_labels : GetLabels new = GetLabels p ∨
                   GetLabels new = <[misscheduledLabel := "true"]> (GetLabels p);
  retains_finalizers : GetFinalizers new = GetFinalizers p;
  retains_deleting : deleting new = deleting p;
}.

Record updated (wg : WorkloadGroup) (mis : bool) (p new : WorkPlacement) : Prop := {
  updated_retains : retains p new;
  updated_workloads : wps_workloads (r_spec new) = wg_workloads wg;
  updated_labels : mis = true → GetLabels new !! misscheduledLabel = Some "true";
  updated_reports : reports_scheduled new (schedule_status mis);
}.

Lemma retains_refl p : retains p p.
Proof. split; auto. Qed.

Definition selectors_parse (wg : WorkloadGroup) : Prop :=
  resolveDestinationSelectorsForWorkloadGroup wg = ∅ ∨
  parses (resolveDestinationSelectorsForWorkloadGroup wg).

(** A placement is misplaced when its target is not among the destinations
    the selectors of its group select. *)
Definition misplaced_in (wg : WorkloadGroup) s (p : WorkPlacement) (mis : bool) : Prop :=
  ∃ dests, destinations_seen (resolveDestinationSelectorsForWorkloadGroup wg) s dests ∧
    (mis = true ↔ target p ∉ GetName <$> dests).

Lemma wp_updateWorkPlacement wg p (Q : outcome bool → S → Prop) s :
  keyed (wps s) → wps s !! key p = Some p →
  (deleting p = true → GetFinalizers p ≠ []) → selectors_parse wg →
  (∀ mis new s', misplaced_in wg s p mis → updated wg mis p new →
     wps_become (<[key p := new]> (wps s)) s s' → Q (Ok mis) s') →
  (∀ e new s', retains p new → wps_become (<[key p := new]> (wps s)) s s' → Q (Fail e) s') →
  wp (updateWorkPlacement wg p) Q s.
Proof.
intros Hk Hp Hz Hsel HO HE. apply wp_bind, wp_getDestinationsForWorkloadGroup; [done|].
intros dests s1 Hv1 Hseen. cbv zeta.
set (mis := negb (existsb (λ d, bool_decide (GetName d = target p)) dests)).
assert (mis = true ↔ target p ∉ GetName <$> dests) as Hmis.
{ subst mis. rewrite negb_true_iff, <-not_true_iff_false, existsb_exists.
  apply not_iff_compat. rewrite list_elem_of_fmap. setoid_rewrite bool_decide_eq_true.
  unfold target. split; intros (d & H1' & H2'); exists d;
    rewrite ?list_elem_of_In in *; naive_solver. }
change (negb (existsb _ _)) with mis. clearbody mis.
set (p1 := set_wp_workloads (wg_workloads wg) _).
assert (key p1 = key p) as Hk1 by (by subst p1; destruct mis).
assert (wps s1 = wps s) as Hw1 by (unfold wps; by rewrite Hv1).
apply wp_bind, wp_Update.
- intros old gen s2 Hold Hv2. rewrite Hk1 in Hold.
  assert (old = p) as -> by (unfold wps in Hw1, Hp; congruence).
  set (p2 := on_update gen p p1) in *.
  assert (retains p p2) as Hret by (subst p2 p1; split; destruct mis; auto).
  assert (put_or_reap p2 (coll (view s1)) = <[key p := p2]> (wps s)) as Hput.
  { unfold put_or_reap. destruct Hret. rewrite retains_deleting0, retains_finalizers0.
    rewrite retains_key0. destruct (deleting p); simpl.
    - rewrite bool_decide_false by auto. unfold wps. by rewrite Hv1.
    - unfold wps. by rewrite Hv1. }
  assert (wps_become (<[key p := p2]> (wps s)) s s2) as Hb2
    by (unfold wps_become; by rewrite Hv2, Hput, Hv1).
  pose proof (wps_become_wps _ _ _ Hb2) as Hw2.
  assert (key p2 = key p) as Hkp2 by (by destruct Hret).
  apply wp_bind, wp_updateWorkPlacementStatus.
  + rewrite Hw2. by apply keyed_insert.
  + intros old new s3 Hold3 Hsans Hrep Hb3.
    rewrite Hw2, Hkp2, lookup_insert_eq in Hold3. injection Hold3 as <-.
    rewrite Hw2, Hkp2, insert_insert_eq in Hb3.
    apply wp_ret, (HO mis new); [by exists dests| |by eapply wps_become_trans].
    unfold sans_status in Hsans. injection Hsans as Hm Hs.
    split; [|by rewrite Hs; subst p2 p1; destruct mis| |done].
    * destruct Hret as [E1 E2 E3 E4 E5].
      unfold key, target, GetLabels, GetFinalizers, deleting in *.
      split; unfold key, target, GetLabels, GetFinalizers, deleting; by rewrite ?Hm, ?Hs.
    * intros ->. unfold GetLabels. rewrite Hm. simpl. apply lookup_insert_eq.
  + intros e s3 Hv3. apply (HE e p2); [done|].
    by apply (wps_become_view _ s s s2).
- intros e s2 Hv2. apply (HE e p); [apply retains_refl|].
  rewrite insert_id by done. apply wps_become_refl. congruence.
Qed.
End rules.
