(* ===== verification/SchedulerFacts.v ===== *)
(** * What a scheduling pass achieves

    The properties of [reconcileWorkloadGroup]: which placements exist after it,
    which never move, and what it reports. *)

From S2P Require Import Prelude GoLib Meta Api Kube Client Shared Scheduler Sim SchedulerPlace.
From S2P Require Import Purge.

(** A placement belongs to a workload group of a Work by its labels. *)
Definition belongs (work : Work) (wg : WorkloadGroup) (p : WorkPlacement) : Prop :=
  (GetNamespace work = "" ∨ GetNamespace work = GetNamespace p) ∧
  group_labels (GetName work) wg ⊆ GetLabels p.

#[global] Instance belongs_dec work wg p : Decision (belongs work wg p).
Proof. unfold belongs. apply _. Defined.

Lemma group_labels_nonempty name wg : group_labels name wg ≠ ∅.
Proof. apply insert_non_empty. Qed.

Section facts.
Context {S : Type} `{World S, Viewed S, !WorldLaws S, Lib, !LibLaws}.
Implicit Types s : S.

(** ** Choosing targets *)

(** The targets of a workload group, given the destinations that were seen. *)
Definition chosen_from (work : Work) (dests : list Destination) (names : list string) : Prop :=
  (names = [] ↔ dests = []) ∧
  (if IsResourceRequest work
   then length names ≤ 1 ∧ names ⊆ GetName <$> dests
   else names = GetName <$> dests).

Lemma wp_getTargetDestinationNames sel work (Q : outcome (list string) → S → Prop) s :
  sel = ∅ ∨ parses sel →
  (∀ names dests s', view s' = view s → destinations_seen sel s dests →
     chosen_from work dests names → Q (Ok names) s') →
  wp (getTargetDestinationNames sel work) Q s.
Proof.
intros Hp HQ. apply wp_bind, wp_getDestinationsForWorkloadGroup; [done|].
intros dests s1 Hv1 Hseen. destruct dests as [|d dests].
{ apply wp_ret, (HQ [] []); [done|done|]. unfold chosen_from.
  destruct (IsResourceRequest work); simpl; [split_and!; [done|lia|set_solver]|done]. }
destruct (IsResourceRequest work) eqn:Hreq.
- apply wp_bind, wp_Intn. intros i s2 Hv2 Hi.
  destruct (lookup_lt_is_Some_2 (d :: dests) i) as [d' Hd']; [apply Hi; simpl; lia|].
  rewrite Hd'. apply wp_ret, (HQ _ (d :: dests)); [congruence|done|].
  unfold chosen_from. rewrite Hreq. split_and!; [done|simpl; lia|].
  apply list_elem_of_lookup_2 in Hd'. intros x ->%list_elem_of_singleton.
  apply list_elem_of_fmap. eauto.
- assert (IsDependency work = true) as ->.
  { unfold IsDependency, IsResourceRequest in *. rewrite bool_decide_eq_false in Hreq.
    apply bool_decide_eq_true. by apply dec_stable in Hreq. }
  apply wp_ret, (HQ _ (d :: dests)); [done|done|]. unfold chosen_from. by rewrite Hreq.
Qed.

(** a resource request is sent to at most one destination, and a dependency
    to every destination its selectors allow; the names come from destinations
    that are not being deleted, carry the selected labels and, when nothing is
    selected, do not insist on a label match.  No target is chosen only when no
    destination was seen.  Nothing is written. *)
Theorem target_destinations_choice sel work s :
  sel = ∅ ∨ parses sel →
  wp (getTargetDestinationNames sel work)
    (post (λ names s', view s' = view s ∧
       ∃ dests, destinations_seen sel s dests ∧ chosen_from work dests names)
      (λ _ _, False)) s.
Proof. intros Hp. apply wp_getTargetDestinationNames; simpl; eauto. Qed.

(** ** Placing a workload group *)

(** The labels of the group can be used as a selector. *)
Definition group_parses (work : Work) (wg : WorkloadGroup) : Prop :=
  parses (group_labels (GetName work) wg).

(** The placements that belong to the group. *)
Definition placements_in (work : Work) (wg : WorkloadGroup) (m : gmap Key WorkPlacement)
    : list WorkPlacement := filter (belongs work wg) (map_values m).

Lemma wp_getExistingWorkPlacementsForWorkloadGroup work wg
    (Q : outcome (list WorkPlacement) → S → Prop) s :
  group_parses work wg →
  (∀ l s', view s' = view s → l ≡ₚ placements_in work wg (wps s) → Q (Ok l) s') →
  (∀ e s', view s' = view s → Q (Fail e) s') →
  wp (getExistingWorkPlacementsForWorkloadGroup (GetNamespace work) (GetName work) wg) Q s.
Proof.
intros Hp HO HE.
apply wp_listWorkplacementWithLabels; [apply group_labels_nonempty|done| |done].
intros l s' Hv Hl. apply HO; [done|]. rewrite Hl.
apply Permutation_refl', list_filter_iff. intros p. done.
Qed.

(** The status reported for a group: no target at all, or whether one of the
    targets is no longer selected. *)
Definition placing_status (targets : gmap string bool) (st : schedulingStatus) : Prop :=
  match st with
  | unscheduledStatus => targets = ∅
  | misplacedStatus => ∃ t, targets !! t = Some true
  | scheduledStatus => targets ≠ ∅ ∧ ∀ t, targets !! t ≠ Some true
  end.

(** Whether a destination is a target, and one that is no longer selected. *)
Definition group_targets (wg : WorkloadGroup) (work : Work) s (targets : gmap string bool) : Prop :=
  ∃ dests names,
    destinations_seen (resolveDestinationSelectorsForWorkloadGroup wg) s dests ∧
    chosen_from work dests names ∧
    ∀ t, targets !! t =
      if bool_decide (t ∈ names) then Some false
      else if bool_decide (t ∈ target <$> placements_in work wg (wps s)) then Some true
      else None.

Lemma wp_reconcileWorkloadGroup wg work (Q : outcome schedulingStatus → S → Prop) s :
  keyed (wps s) → 5 ≤ String.length (wg_id wg) →
  group_parses work wg → selectors_parse wg →
  IsResourceRequest work = false ∨ placements_in work wg (wps s) = [] →
  (∀ st targets m s', group_targets wg work s targets → wps_become m s s' → keyed m →
     placements_of work wg (map_to_list targets) (wps s) m → placing_status targets st → Q (Ok st) s') →
  (∀ e targets m s', group_targets wg work s targets ∨ targets = ∅ → wps_become m s s' → keyed m →
     changed_within work wg (map_to_list targets).*1 (wps s) m → Q (Fail e) s') →
  wp (reconcileWorkloadGroup wg work) Q s.
Proof.
intros Hk Hid Hgp Hsp Hcase HO HE. unfold reconcileWorkloadGroup.
apply wp_bind, wp_getExistingWorkPlacementsForWorkloadGroup; [done| |].
2:{ intros e s1 Hv1. apply (HE e ∅ (wps s)); [by right|by apply wps_become_refl|done|done]. }
intros existing s1 Hv1 Hex.
assert (IsResourceRequest work && bool_decide (0 < length existing) = false) as ->.
{ destruct Hcase as [->|Hnil]; [done|]. rewrite Hnil in Hex.
  apply Permutation_nil_r in Hex as ->. apply andb_false_r. }
apply wp_bind, wp_getTargetDestinationNames; [done|].
intros names dests s2 Hv2 Hseen Hch. set (targets := target_destination_map names existing).
assert (group_targets wg work s targets) as Hout.
{ exists dests, names. split_and!; [|done|].
  - eapply destinations_seen_view; [|done]. by rewrite Hv1.
  - intros t. subst targets. rewrite target_destination_map_lookup.
    by rewrite (bool_decide_ext (t ∈ _ <$> existing)
      (t ∈ target <$> placements_in work wg (wps s))) by (by rewrite Hex). }
assert (wps s2 = wps s) as Hw by (unfold wps; congruence).
case_bool_decide as Hsize.
- apply map_size_empty_iff in Hsize. apply wp_bind, wp_Eventf. intros s3 Hv3. apply wp_ret.
  apply (HO _ targets (wps s)); [done| |done| |done].
  + apply wps_become_refl. congruence.
  + rewrite Hsize, map_to_list_empty. split; [set_solver|done].
- assert (targets ≠ ∅) as Hne by (intros Hx; apply Hsize, map_size_empty_iff, Hx).
  apply wp_bind, wp_applyAll; [by rewrite Hw|done| |].
  + intros c m s3 Hb Hkm Hpl Hc. rewrite Hw in Hpl. apply wp_ret.
    apply (HO _ targets m); [done| |done|done|].
    * eapply wps_become_view; [|exact Hb|done]. congruence.
    * destruct c; simpl; [by apply Hc|]. split; [done|]. intros t Ht.
      by assert (false = true) by (apply Hc; eauto).
  + intros e m s3 Hb Hkm Hch'. rewrite Hw in Hch'.
    apply (HE e targets m); [by left| |done|done].
    eapply wps_become_view; [|exact Hb|done]. congruence.
Qed.

(** C6: scheduling a workload group of a dependency, or of a resource request
    that has no placement yet.  On success every chosen destination has its
    placement, with the group's workloads, the identifying labels, the cleanup
    finalizer and the condition [ScheduleSucceeded=True]; a destination that
    only an old placement of the group names is labelled misplaced and reports
    [False]; no other placement and no other object changes; and the status is
    unscheduled exactly when there was no target, misplaced exactly when some
    target is no longer selected.  On an error only placements of the targets
    may have changed.  The reconciliation does not panic on identifiers of at
    least five bytes. *)
Theorem reconcile_group_places wg work s :
  keyed (wps s) → 5 ≤ String.length (wg_id wg) →
  group_parses work wg → selectors_parse wg →
  IsResourceRequest work = false ∨ placements_in work wg (wps s) = [] →
  let outcome_of targets :=
    ∃ dests names,
      destinations_seen (resolveDestinationSelectorsForWorkloadGroup wg) s dests ∧
      chosen_from work dests names ∧
      ∀ t, targets !! t =
        if bool_decide (t ∈ names) then Some false
        else if bool_decide (t ∈ target <$> placements_in work wg (wps s)) then Some true
        else None in
  wp (reconcileWorkloadGroup wg work)
    (post
      (λ st s', ∃ targets m, outcome_of targets ∧ wps_become m s s' ∧ keyed m ∧
         placements_of work wg (map_to_list targets) (wps s) m ∧
         placing_status targets st)
      (λ _ s', ∃ targets m, (outcome_of targets ∨ targets = ∅) ∧ wps_become m s s' ∧ keyed m ∧
         changed_within work wg (map_to_list targets).*1 (wps s) m)) s.
Proof.
intros Hk Hid Hgp Hsp Hcase. cbv zeta. apply wp_reconcileWorkloadGroup; [done..| |].
- intros st targets m s' Ht Hb Hkm Hp Hst. by exists targets, m.
- intros e targets m s' Ht Hb Hkm Hch. by exists targets, m.
Qed.

(** ** Placements of a resource request stay where they are *)

(** After updating the placements [done] of a group, with [n] failures: they
    are still there, on the same destination; [f] tells which are misplaced. *)
Record updates_done (wg : WorkloadGroup) s (f : Key → bool) (n : nat)
    (done : list WorkPlacement) (m : gmap Key WorkPlacement) : Prop := {
  ud_outside : ∀ k, k ∉ key <$> done → m !! k = wps s !! k;
  ud_retained : ∀ p, p ∈ done → ∃ new, m !! key p = Some new ∧ retains p new;
  ud_updated : n = 0 → ∀ p, p ∈ done → ∃ new, m !! key p = Some new ∧
     updated wg (f (key p)) p new ∧ misplaced_in wg s p (f (key p));
}.

Lemma misplaced_in_frame wg s s' m p b :
  wps_become m s s' → misplaced_in wg s' p b → misplaced_in wg s p b.
Proof.
intros Hb (dests & Hseen & Hd). exists dests. split; [|done].
eapply destinations_seen_view; [by eapply wps_become_destinations|done].
Qed.

Lemma updates_done_snoc wg s f n done m p b new n' :
  key p ∉ key <$> done → updates_done wg s f n done m → retains p new →
  n ≤ n' → (n' = 0 → updated wg b p new ∧ misplaced_in wg s p b) →
  updates_done wg s (λ k, if bool_decide (k = key p) then b else f k) n' (done ++ [p])
    (<[key p := new]> m).
Proof.
intros Hnew [Hout Hret Hupd] Hr Hn Hb. split.
- intros k. rewrite fmap_app, not_elem_of_app. simpl. intros [Hk Hkp].
  rewrite lookup_insert_ne by set_solver. by apply Hout.
- intros q [Hq| ->%list_elem_of_singleton]%elem_of_app; [|exists new; by rewrite lookup_insert_eq].
  destruct (Hret q Hq) as (new' & Hl & Hr'). exists new'. split; [|done].
  rewrite lookup_insert_ne; [done|]. intros Heq. apply Hnew. rewrite Heq. by apply list_elem_of_fmap_2.
- intros -> q [Hq| ->%list_elem_of_singleton]%elem_of_app.
  + assert (key p ≠ key q) as Hne
      by (intros Heq; apply Hnew; rewrite Heq; by apply list_elem_of_fmap_2).
    destruct (Hupd ltac:(lia) q Hq) as (new' & Hl & Hu & Hm). exists new'.
    rewrite lookup_insert_ne, bool_decide_false by congruence. done.
  + exists new. rewrite lookup_insert_eq, bool_decide_true by done. destruct (Hb eq_refl). done.
Qed.

(** The status of a resource request after its placements were updated. *)
Definition sticky_status (f : Key → bool) (l : list WorkPlacement) (st : schedulingStatus) : Prop :=
  match st with
  | unscheduledStatus => False
  | misplacedStatus => ∃ p, p ∈ l ∧ f (key p) = true
  | scheduledStatus => ∀ p, p ∈ l → f (key p) = false
  end.

Lemma sticky_status_snoc f l st p (b : bool) :
  key p ∉ key <$> l → sticky_status f l st →
  sticky_status (λ k, if bool_decide (k = key p) then b else f k) (l ++ [p])
    (if b then misplacedStatus else st).
Proof.
intros Hnew Hst.
assert (∀ q, q ∈ l → key q ≠ key p) as Hne
  by (intros q Hq Heq; apply Hnew; rewrite <-Heq; by apply list_elem_of_fmap_2).
destruct b; simpl.
{ exists p. rewrite bool_decide_true by done. set_solver. }
destruct st; simpl in *.
- intros q [Hq| ->%list_elem_of_singleton]%elem_of_app.
  + rewrite bool_decide_false; auto.
  + by rewrite bool_decide_true.
- done.
- destruct Hst as (q & Hq & Hf). exists q. rewrite bool_decide_false by auto. set_solver.
Qed.

Lemma wp_updateExisting_all wg existing (Q : outcome (nat * schedulingStatus) → S → Prop) s s1 :
  view s1 = view s → keyed (wps s) → no_zombies (wps s) → selectors_parse wg →
  NoDup (key <$> existing) → (∀ p, p ∈ existing → wps s !! key p = Some p) →
  (∀ n st f m s', wps_become m s s' → updates_done wg s f n existing m →
     (n = 0 → sticky_status f existing st) → Q (Ok (n, st)) s') →
  wp (foldM (updateExisting wg) existing (0, scheduledStatus)) Q s1.
Proof.
intros Hv1 Hk Hz Hsp Hnd Hst HQ.
apply (wp_foldM _ (λ done _ acc s', ∃ f m, wps_become m s s' ∧ keyed m ∧
   updates_done wg s f acc.1 done m ∧ (acc.1 = 0 → sticky_status f done acc.2))).
- exists (λ _, false), (wps s). split_and!; [by apply wps_become_refl|done|split; set_solver|].
  intros _ p Hp. set_solver.
- intros done p todo [n st] s2 Hl (f & m & Hb & Hkm & Hud & Hss). subst existing.
  pose proof (wps_become_wps _ _ _ Hb) as Hm. simpl in *.
  rewrite fmap_app, fmap_cons, NoDup_app in Hnd. destruct Hnd as (_ & Hdisj & Hnd).
  assert (key p ∉ key <$> done) as Hnew by (intros ?%Hdisj; set_solver).
  assert (wps s !! key p = Some p) as Hp by (apply Hst; set_solver).
  assert (m !! key p = Some p) as Hmp by (by rewrite (ud_outside _ _ _ _ _ _ Hud)).
  apply wp_bind, wp_try, wp_updateWorkPlacement; rewrite ?Hm; [done|done| |done| |].
  + by apply (Hz (key p)).
  + intros mis new s3 Hmis Hupd Hb3. apply wp_ret.
    eexists _, _. split_and!; [by eapply wps_become_trans| | |].
    * apply keyed_insert; [done|]. by destruct Hupd as [[] _ _ _].
    * eapply (updates_done_snoc _ _ _ n); [done|done|by destruct Hupd|done|].
      intros _. split; [done|]. by eapply misplaced_in_frame.
    * simpl. intros Hn. by apply sticky_status_snoc; auto.
  + intros e new s3 Hret Hb3. apply wp_ret.
    eexists _, _. split_and!; [by eapply wps_become_trans| | |].
    * apply keyed_insert; [done|]. by destruct Hret.
    * eapply (updates_done_snoc _ _ f n _ _ _ false); [done|done|done|simpl; lia|].
      simpl. intros; lia.
    * simpl. intros; lia.
- intros [n st] s2 (f & m & Hb & _ & Hud & Hss). eauto.
Qed.

(** C23: the placements of a resource request are sticky.  When the group
    already has placements, reconciling it never creates, removes or moves a
    placement, whether it succeeds or fails: every placement is still there, and
    those of the group keep their target, finalizers and labels (up to the
    misplaced label).  On success each of them has the new workloads and reports
    whether its target is still among the selected destinations, and the group
    is misplaced exactly when one of them is. *)
Theorem resource_request_sticky wg work s :
  keyed (wps s) → no_zombies (wps s) → group_parses work wg → selectors_parse wg →
  IsResourceRequest work = true → placements_in work wg (wps s) ≠ [] →
  let group := placements_in work wg (wps s) in
  wp (reconcileWorkloadGroup wg work)
    (post
      (λ st s', ∃ f m, wps_become m s s' ∧ updates_done wg s f 0 group m ∧
         sticky_status f group st)
      (λ _ s', ∃ f n m, wps_become m s s' ∧ updates_done wg s f n group m)) s.
Proof.
intros Hk Hz Hgp Hsp Hreq Hne. cbv zeta. unfold reconcileWorkloadGroup.
apply wp_bind, wp_getExistingWorkPlacementsForWorkloadGroup; [done| |].
2:{ intros e s1 Hv1. exists (λ _, false), 1, (wps s). split; [by apply wps_become_refl|].
    split; [done| |lia]. intros p [_ [k Hp]%elem_of_map_values]%list_elem_of_filter.
    exists p. split; [|apply retains_refl]. by rewrite (Hk _ _ Hp). }
intros existing s1 Hv1 Hex. rewrite Hreq.
assert (existing ≠ []) as Hne' by (intros ->; by apply Permutation_nil_l in Hex).
rewrite bool_decide_true by (destruct existing; [done|simpl; lia]). simpl.
apply wp_bind, (wp_updateExisting_all _ _ _ s); [done|done|done|done| | |].
- by eapply NoDup_keys.
- intros p. rewrite Hex. intros [_ [k Hp]%elem_of_map_values]%list_elem_of_filter.
  by rewrite (Hk _ _ Hp).
- intros n st f m s2 Hb Hud Hss.
  assert (updates_done wg s f n (placements_in work wg (wps s)) m) as Hud'.
  { destruct Hud as [H1' H2' H3']. split.
    - intros k. rewrite <-Hex. apply H1'.
    - intros p. rewrite <-Hex. apply H2'.
    - intros Hn p. rewrite <-Hex. by apply H3'. }
  case_bool_decide as Hn; simpl in Hn.
  + apply wp_fail. by exists f, n, m.
  + assert (n = 0) as -> by lia. apply wp_ret. exists f, m. split_and!; [done|done|].
    specialize (Hss eq_refl). destruct st; simpl in *; [|done|]; by setoid_rewrite <-Hex.
Qed.
End facts.
