(* ===== verification/SchedulerWork.v ===== *)
(** * The scheduler's view of a whole Work

    Which parts of the cluster a scheduling pass touches, the conditions it
    reports on the Work, and the removal of placements whose workload group is
    gone. *)

From S2P Require Import Prelude GoLib Meta Api Kube Client Shared Scheduler Sim SchedulerPlace.
From S2P Require Import SchedulerFacts Purge.

(** ** Conditions of a Work *)

Definition cond_status_of `{Lib} (w : Work) (t : string) : option string :=
  cond_status <$> FindStatusCondition (wst_conditions (r_status w)) t.

(** The Ready condition repeats the status of ScheduleSucceeded. *)
Definition ready_follows `{Lib} (w : Work) : Prop :=
  ∀ st, cond_status_of w scheduleSucceededConditionType = Some st →
        cond_status_of w "Ready" = Some st.

(** A Work on which both conditions say [st]. *)
Definition reports `{Lib} (w : Work) (st : string) : Prop :=
  cond_status_of w scheduleSucceededConditionType = Some st ∧
  cond_status_of w "Ready" = Some st.

Definition bool_status (b : bool) : string := if b then ConditionTrue else ConditionFalse.

Section work.
Context {S : Type} `{World S, Viewed S, !WorldLaws S, Lib, !LibLaws}.
Implicit Types s : S.

(** Setting ScheduleSucceeded and then Ready to the same status. *)
Lemma set_both now now' (w : Work) sched ready st :
  cond_type sched = scheduleSucceededConditionType → cond_type ready = "Ready" →
  cond_status sched = st → cond_status ready = st →
  reports (set_work_conditions
    (SetStatusCondition now' (SetStatusCondition now (wst_conditions (r_status w)) sched).1
       ready).1 w) st.
Proof.
intros Ht Htr Hst Hstr. unfold reports, cond_status_of. simpl.
rewrite set_find_other by (by rewrite Htr).
destruct (set_find_same now (wst_conditions (r_status w)) sched) as (d & Hd & _ & Hds & _).
rewrite Ht in Hd. rewrite Hd. simpl. rewrite Hds, Hst. split; [done|].
match goal with |- context [SetStatusCondition now' ?cs ready] =>
  destruct (set_find_same now' cs ready) as (d' & Hd' & _ & Hds' & _) end.
rewrite Htr in Hd'. rewrite Hd'. simpl. by rewrite Hds', Hstr.
Qed.

Lemma unchanged_status now (w : Work) sched st :
  cond_type sched = scheduleSucceededConditionType → cond_status sched = st →
  (SetStatusCondition now (wst_conditions (r_status w)) sched).2 = false →
  ready_follows w → reports w st.
Proof.
intros Ht Hst Hun Hf.
apply set_unchanged in Hun as (d & Hd & _ & Hds & _). rewrite Ht in Hd.
assert (cond_status_of w scheduleSucceededConditionType = Some st) as Hs
  by (unfold cond_status_of; rewrite Hd; simpl; congruence).
split; [done|by apply Hf].
Qed.

Lemma wp_updateWorkStatus w uns mis (Q : outcome (Work * bool) → S → Prop) s :
  (∀ w' changed s', view s' = view s → key w' = key w → r_spec w' = r_spec w →
     (changed = false → w' = w) →
     (ready_follows w → reports w' (bool_status (bool_decide (uns = [] ∧ mis = [])))) →
     wst_workPlacements (r_status w') = Z.of_nat (length (ws_workloadGroups (r_spec w))) →
     wst_workPlacementsCreated (r_status w') =
       (Z.of_nat (length (ws_workloadGroups (r_spec w))) - Z.of_nat (length uns))%Z →
     Q (Ok (w', changed)) s') →
  wp (updateWorkStatus w uns mis) Q s.
Proof.
intros HQ. unfold updateWorkStatus. cbv zeta.
set (n := Z.of_nat (length (ws_workloadGroups (r_spec w)))).
set (c := (n - Z.of_nat (length uns))%Z).
set (dirty := bool_decide (n ≠ _ ∨ _)).
set (w1 := if dirty then _ else w).
assert (wst_workPlacements (r_status w1) = n ∧ wst_workPlacementsCreated (r_status w1) = c)
  as [Hn Hc].
{ subst w1. destruct dirty eqn:Hd; [done|]. apply bool_decide_eq_false in Hd.
  apply Decidable.not_or in Hd as [E1%dec_stable E2%dec_stable]. done. }
assert (key w1 = key w ∧ r_spec w1 = r_spec w ∧ (dirty = false → w1 = w)) as (Hk & Hsp & Hw1)
  by (subst w1; by destruct dirty).
assert (wst_conditions (r_status w1) = wst_conditions (r_status w)) as Hcs
  by (subst w1; by destruct dirty).
assert (ready_follows w → ready_follows w1) as Hrf
  by (unfold ready_follows, cond_status_of; by rewrite Hcs).
clearbody w1.
set (ok := bool_decide (uns = [] ∧ mis = [])).
assert (∀ sched ready s1, view s1 = view s →
  cond_type sched = scheduleSucceededConditionType → cond_type ready = "Ready" →
  cond_status sched = bool_status ok → cond_status ready = bool_status ok →
  wp (let! r := setStatusCondition (wst_conditions (r_status w1)) sched in
      if r.2 then
        let! r' := setStatusCondition r.1 ready in
        ret (set_work_conditions r'.1 w1, true)
      else ret (w1, dirty)) Q s1) as Hend.
{ intros sched ready s1 Hv1 Ht Htr Hst Hstr.
  apply wp_bind, wp_setStatusCondition. intros now s2 Hv2.
  destruct (SetStatusCondition now _ sched).2 eqn:Hch.
  - apply wp_bind, wp_setStatusCondition. intros now' s3 Hv3. apply wp_ret.
    apply HQ; try done; [congruence|]. intros _. by apply set_both.
  - apply wp_ret, HQ; try done; [congruence|]. intros Hf. eapply unchanged_status; eauto. }
destruct uns as [|u uns]; [destruct mis as [|x mis]|]; subst ok; simpl in *.
- apply wp_bind, wp_bind, wp_Eventf. intros s1 Hv1. by apply wp_ret, Hend.
- apply wp_bind, wp_bind, wp_stamped. intros now s1 Hv1.
  apply wp_bind, wp_Eventf. intros s2 Hv2. apply wp_ret, Hend; [congruence|done..].
- apply wp_bind, wp_ret. by apply Hend.
Qed.

(** the status computed for a Work.  Whatever it was before, provided Ready
    followed ScheduleSucceeded, both conditions are [True] afterwards exactly
    when no workload group is unscheduled or misplaced; the counters are the
    number of groups and of scheduled groups; and when the function reports that
    nothing changed the Work is returned as it came. *)
Theorem work_status_truthful w uns mis s :
  ready_follows w →
  wp (updateWorkStatus w uns mis)
    (post (λ r s', view s' = view s ∧ key r.1 = key w ∧ r_spec r.1 = r_spec w ∧
        reports r.1 (bool_status (bool_decide (uns = [] ∧ mis = []))) ∧ ready_follows r.1 ∧
        (wst_workPlacements (r_status r.1) = Z.of_nat (length (ws_workloadGroups (r_spec w)))) ∧
        (wst_workPlacementsCreated (r_status r.1) =
           wst_workPlacements (r_status r.1) - Z.of_nat (length uns))%Z ∧
        (r.2 = false → r.1 = w))
      (λ _ _, False)) s.
Proof.
intros Hf. apply wp_updateWorkStatus. intros w' ch s' Hv Hk Hsp Hch Hrep Hn Hc. simpl.
specialize (Hrep Hf). rewrite Hn. split_and!; try done.
intros st Hst. destruct Hrep as [E1 E2]. congruence.
Qed.

(** ** Removing dangling placements *)

Definition work_labels (name : string) : Labels := <[workLabelKey := name]> ∅.

(** A placement of the Work that belongs to none of its workload groups. *)
Definition dangling (work : Work) (p : WorkPlacement) : Prop :=
  GetNamespace p = GetNamespace work ∧ work_labels (GetName work) ⊆ GetLabels p ∧
  Forall (λ wg, ¬ belongs work wg p) (ws_workloadGroups (r_spec work)).

#[global] Instance dangling_dec work p : Decision (dangling work p).
Proof. unfold dangling. apply _. Defined.

Definition labels_parse (work : Work) : Prop :=
  parses (work_labels (GetName work)) ∧
  ∀ wg, wg ∈ ws_workloadGroups (r_spec work) → group_parses work wg.

Lemma wp_collectNames work (Q : outcome (gset string) → S → Prop) s :
  labels_parse work →
  (∀ keep s', view s' = view s →
     (∀ x, x ∈ keep ↔ ∃ wg p k, wg ∈ ws_workloadGroups (r_spec work) ∧
        wps s !! k = Some p ∧ belongs work wg p ∧ GetName p = x) → Q (Ok keep) s') →
  (∀ e s', view s' = view s → Q (Fail e) s') →
  wp (foldM (collectNames work) (ws_workloadGroups (r_spec work)) ∅) Q s.
Proof.
intros [_ Hp] HO HE.
apply (wp_foldM _ (λ done _ keep s', view s' = view s ∧
   ∀ x, x ∈ keep ↔ ∃ wg p k, wg ∈ done ∧ wps s !! k = Some p ∧ belongs work wg p ∧
     GetName p = x)).
- split; [done|]. set_solver.
- intros done wg todo keep s1 Hl [Hv1 Hkeep].
  apply wp_bind, wp_getExistingWorkPlacementsForWorkloadGroup.
  + apply Hp. rewrite Hl. set_solver.
  + intros l s2 Hv2 Hex. apply wp_ret. split; [congruence|]. intros x.
    assert (wps s1 = wps s) as Hw by (unfold wps; by rewrite Hv1).
    rewrite elem_of_union, elem_of_list_to_set, Hkeep, Hex, list_elem_of_fmap, Hw.
    unfold placements_in. setoid_rewrite list_elem_of_filter.
    setoid_rewrite elem_of_map_values. setoid_rewrite elem_of_app.
    setoid_rewrite list_elem_of_singleton. split.
    * intros [(p & -> & Hb & k & Hk)|(wg' & p & k & Hin & Hk & Hb & <-)];
        [exists wg, p, k|exists wg', p, k]; auto.
    * intros (wg' & p & k & [Hd| ->] & Hk & Hb & <-);
        [right; exists wg', p, k|left; exists p]; eauto.
  + intros e s2 Hv2. apply HE. congruence.
- intros keep s1 [Hv1 Hkeep]. by apply HO.
Qed.

(** The names that are kept are those of placements that do not dangle. *)
Lemma kept_iff (work : Work) (keep : gset string) (m : gmap Key WorkPlacement)
    (p : WorkPlacement) :
  keyed m → m !! key p = Some p → GetNamespace work ≠ "" →
  GetNamespace p = GetNamespace work → work_labels (GetName work) ⊆ GetLabels p →
  (∀ x, x ∈ keep ↔ ∃ wg p k, wg ∈ ws_workloadGroups (r_spec work) ∧
     m !! k = Some p ∧ belongs work wg p ∧ GetName p = x) →
  GetName p ∈ keep ↔ ¬ dangling work p.
Proof.
intros Hk Hp Hns Hnp Hl Hkeep. rewrite Hkeep. split.
- intros (wg & p' & k & Hin & Hk' & Hb & Hname) (_ & _ & Hd). eapply Forall_forall in Hd; [|exact Hin]. apply Hd.
  assert (k = key p) as ->.
  { rewrite <-(Hk _ _ Hk'). destruct Hb as [[Hb|Hb] _]; [done|].
    unfold key, om_key. unfold GetName, GetNamespace in *. by rewrite Hname, <-Hb, Hnp. }
  by simplify_eq.
- intros Hd.
  destruct (decide (Exists (λ wg, belongs work wg p) (ws_workloadGroups (r_spec work)))) as [He|He].
  + apply Exists_exists in He as (wg & Hin & Hb). by exists wg, p, (key p).
  + exfalso. apply Hd. split_and!; [done|done|]. by apply Forall_Exists_neg.
Qed.

(** The loop of the clean-up over the placements of the Work. *)
Lemma wp_deleteDangling (work : Work) (keep : gset string) all (Q : outcome unit → S → Prop) s s1 :
  view s1 = view s → NoDup (key <$> all) → (∀ p, p ∈ all → wps s !! key p = Some p) →
  (∀ p, p ∈ all → GetName p ∈ keep ↔ ¬ dangling work p) →
  (∀ m s', wps_become m s s' → cleaned (dangling work) (wps s) all m → Q (Ok tt) s') →
  (∀ e done m s', done ⊆ all → wps_become m s s' → cleaned (dangling work) (wps s) done m →
     Q (Fail e) s') →
  wp (iterM (λ p, if bool_decide (GetName p ∈ keep) then ret tt else Delete p) all) Q s1.
Proof.
intros Hv1 Hnd Hst Hkept HO HE.
apply (wp_foldM _ (λ done _ _ s', ∃ m, wps_become m s s' ∧ cleaned (dangling work) (wps s) done m)).
- exists (wps s). split; [by apply wps_become_refl|apply cleaned_nil].
- intros done p todo _ s3 Hl (m & Hb & Hcl). rewrite Hl in *.
  assert (p ∈ done ++ p :: todo) as Hpin by set_solver.
  case_bool_decide as Hname.
  + apply wp_ret. exists m. split; [done|]. apply Hkept in Hname; [|done].
    rewrite fmap_app, NoDup_app in Hnd. destruct Hnd as (_ & Hdisj & _).
    assert (key p ∉ key <$> done) as Hnew by (intros ?%Hdisj; set_solver).
    eapply cleaned_snoc; [done|done|done|done|]. intros _.
    rewrite (cl_outside _ _ _ _ Hcl); auto.
  + assert (dangling work p) as Hd by (apply dec_stable; rewrite <-Hkept; done).
    eapply (wp_purge_step _ (wps s)); [exact Hnd|by apply Hst|done|exact Hb|done| |].
    * intros m' s4 Hb' Hcl'. by exists m'.
    * intros e s4 _ Hb'. apply (HE e done m); [set_solver|done|done].
- intros [] s3 (m & Hb & Hcl). by apply (HO m).
Qed.

(** cleaning up a Work requests the deletion of exactly its dangling
    placements, those labelled with the Work whose workload group is not among
    its groups any more; all other placements, and everything else in the
    cluster, stay as they are.  When a request fails, the placements changed so
    far are dangling ones. *)
Theorem cleanup_deletes_dangling work s :
  keyed (wps s) → GetNamespace work ≠ "" → labels_parse work →
  wp (cleanupDanglingWorkplacements work)
    (post
      (λ _ s', ∃ m, wps_become m s s' ∧ dom m ⊆ dom (wps s) ∧
         ∀ k p, wps s !! k = Some p →
           (dangling work p → delete_requested p (m !! k)) ∧
           (¬ dangling work p → m !! k = Some p))
      (λ _ s', ∃ m, wps_become m s s' ∧ dom m ⊆ dom (wps s) ∧
         ∀ k p, wps s !! k = Some p →
           m !! k = Some p ∨ (dangling work p ∧ delete_requested p (m !! k)))) s.
Proof.
intros Hk Hns Hp.
assert (∀ s', view s' = view s → ∃ m, wps_become m s s' ∧ dom m ⊆ dom (wps s) ∧
  ∀ k p, wps s !! k = Some p →
    m !! k = Some p ∨ (dangling work p ∧ delete_requested p (m !! k))) as Herr
  by (intros s' Hv; exists (wps s); split_and!; [by apply wps_become_refl|done|by left]).
apply wp_bind, wp_collectNames; [done| |by intros e s1 Hv1; apply Herr].
intros keep s1 Hv1 Hkeep.
apply wp_bind, wp_listWorkplacementWithLabels.
{ apply insert_non_empty. } { apply Hp. }
2:{ intros e s2 Hv2. apply Herr. congruence. }
intros all s2 Hv2 Hall.
assert (wps s1 = wps s) as Hw1 by (unfold wps; by rewrite Hv1). rewrite Hw1 in Hall.
assert (NoDup (key <$> all)) as Hnd by (by eapply NoDup_keys).
assert (∀ p, p ∈ all ↔ wps s !! key p = Some p ∧ GetNamespace p = GetNamespace work ∧
   work_labels (GetName work) ⊆ GetLabels p) as Hin.
{ intros p. rewrite Hall, list_elem_of_filter, elem_of_map_values. split.
  - intros [[[|Hn] Hl] (k & Hp')]; [done|]. by rewrite (Hk _ _ Hp').
  - intros (Hp' & Hn & Hl). split; [by split; [right|]|eauto]. }
assert (∀ p, p ∈ all → wps s !! key p = Some p) as Hst by (intros p Hp'; by apply Hin).
apply (wp_deleteDangling work keep _ _ s); [congruence|done|done| | |].
- intros p Hp'. destruct (proj1 (Hin p) Hp') as (? & ? & ?). by eapply kept_iff.
- intros m s3 Hb Hcl. exists m. split_and!; [done|by eapply cleaned_dom|].
  intros k p Hp'. assert (dangling work p → p ∈ all) as Hda
    by (intros (E1 & E2 & _); apply Hin; by rewrite (Hk _ _ Hp')).
  destruct (cleaned_lookup _ _ _ _ _ _ Hk Hst Hcl Hp') as [(_ & ? & ?)|[? ?]]; tauto.
- intros e done m s3 Hsub Hb Hcl.
  assert (∀ p, p ∈ done → wps s !! key p = Some p) as Hst' by (intros; apply Hst; set_solver).
  exists m. split_and!; [done|by eapply cleaned_dom|]. intros k p Hp'.
  destruct (cleaned_lookup _ _ _ _ _ _ Hk Hst' Hcl Hp') as [(_ & ? & ?)|[_ ?]]; auto.
Qed.

(** ** What scheduling may touch *)

(** [s'] differs from [s] in the placements at most. *)
Definition only_wps s s' : Prop := ∃ m, wps_become m s s'.

Lemma only_wps_view s s1 s2 : view s2 = view s1 → only_wps s s1 → only_wps s s2.
Proof. intros Hv [m Hm]. exists m. unfold wps_become. by rewrite Hv. Qed.

Lemma only_wps_put (m : gmap Key WorkPlacement) s s1 s2 :
  view s2 = set_coll m (view s1) → only_wps s s1 → only_wps s s2.
Proof. intros Hv [m' Hm]. exists m. by eapply wps_become_trans. Qed.

Definition keeps_rest {A} (m : M S A) : Prop :=
  ∀ s0 s, only_wps s0 s → wp m (λ _ s', only_wps s0 s') s.

Lemma rest_ret {A} (a : A) : keeps_rest (ret a).
Proof. intros s0 s Hs. by apply wp_ret. Qed.
Lemma rest_fail {A} e : keeps_rest (fail (A:=A) e).
Proof. intros s0 s Hs. by apply wp_fail. Qed.
Lemma rest_panic {A} : keeps_rest (panic (A:=A)).
Proof. intros s0 s Hs. by apply wp_panic. Qed.
Lemma rest_lift {A} (r : outcome A) : keeps_rest (lift r).
Proof. intros s0 s Hs. by apply (wp_lift r). Qed.
Lemma rest_bind {A B} (m : M S A) (k : A → M S B) :
  keeps_rest m → (∀ a, keeps_rest (k a)) → keeps_rest (bind m k).
Proof.
intros Hm Hk s0 s Hs. apply wp_bind. eapply wp_mono; [by apply Hm|].
intros [a|e|] s' Hs'; [by apply Hk|done..].
Qed.
Lemma rest_try {A} (m : M S A) : keeps_rest m → keeps_rest (try m).
Proof. intros Hm s0 s Hs. apply wp_try. eapply wp_mono; [by apply Hm|]. by intros []. Qed.
Lemma rest_foldM {A B} (f : B → A → M S B) l b :
  (∀ b a, keeps_rest (f b a)) → keeps_rest (foldM f l b).
Proof.
intros Hf. revert b. induction l as [|a l IH]; intros b; [apply rest_ret|].
by apply rest_bind.
Qed.
Lemma rest_List {Sp St} `{Collection Sp St} lo : keeps_rest (List (Sp:=Sp) (St:=St) lo).
Proof. intros s0 s Hs. apply wp_List; intros; by eapply only_wps_view. Qed.
Lemma rest_Get {Sp St} `{Collection Sp St} k : keeps_rest (Get (Sp:=Sp) (St:=St) k).
Proof. intros s0 s Hs. apply wp_Get; intros; by eapply only_wps_view. Qed.
Lemma rest_Now : keeps_rest Now.
Proof. intros s0 s Hs. apply wp_Now; intros; by eapply only_wps_view. Qed.
Lemma rest_Intn n : keeps_rest (Intn n).
Proof. intros s0 s Hs. apply wp_Intn; intros; by eapply only_wps_view. Qed.
Lemma rest_Range {V} (m : gmap string V) : keeps_rest (Range m).
Proof. intros s0 s Hs. apply wp_Range; intros; by eapply only_wps_view. Qed.
Lemma rest_Eventf {Sp St} (o : Resource Sp St) a b c : keeps_rest (Eventf o a b c).
Proof. intros s0 s Hs. apply wp_Eventf; intros; by eapply only_wps_view. Qed.
Lemma rest_Update (p : WorkPlacement) : keeps_rest (Update p).
Proof.
intros s0 s Hs. apply wp_Update; intros; [by eapply only_wps_put|by eapply only_wps_view].
Qed.
Lemma rest_StatusUpdate (p : WorkPlacement) : keeps_rest (StatusUpdate p).
Proof.
intros s0 s Hs. apply wp_StatusUpdate; intros; [by eapply only_wps_put|by eapply only_wps_view].
Qed.
Lemma rest_CreateOrUpdate (p : WorkPlacement) f : keeps_rest (CreateOrUpdate p f).
Proof.
intros s0 s Hs. apply wp_CreateOrUpdate; intros;
  [by eapply only_wps_put|by eapply only_wps_put|by eapply only_wps_view].
Qed.
Lemma rest_Delete (p : WorkPlacement) : keeps_rest (Delete p).
Proof.
intros s0 s Hs. apply wp_Delete; intros; [by eapply only_wps_put|by eapply only_wps_view].
Qed.
End work.

Create HintDb frame.
#[export] Hint Resolve rest_ret rest_fail rest_panic rest_lift rest_try rest_List rest_Get rest_Now
  rest_Intn rest_Range rest_Eventf rest_Update rest_StatusUpdate rest_CreateOrUpdate
  rest_Delete : frame.

(** Walks through a program that only writes placements. *)
Ltac frame :=
  repeat first
    [ solve [auto with frame]
    | apply rest_bind; [|intros ?]
    | apply rest_try
    | apply rest_foldM; intros ? ?
    | case_match ].

Section reconcile.
Context {S : Type} `{World S, Viewed S, !WorldLaws S, Lib, !LibLaws}.
Implicit Types s : S.

Lemma rest_getDestinationsForWorkloadGroup sel :
  keeps_rest (S:=S) (getDestinationsForWorkloadGroup sel).
Proof. unfold getDestinationsForWorkloadGroup. frame. Qed.
Lemma rest_updateWorkPlacementStatus p b : keeps_rest (S:=S) (updateWorkPlacementStatus p b).
Proof. unfold updateWorkPlacementStatus, setStatusCondition, stamped. frame. Qed.
#[local] Hint Resolve rest_getDestinationsForWorkloadGroup rest_updateWorkPlacementStatus : frame.

Lemma rest_reconcileWorkloadGroup wg work : keeps_rest (S:=S) (reconcileWorkloadGroup wg work).
Proof.
unfold reconcileWorkloadGroup, getExistingWorkPlacementsForWorkloadGroup,
  listWorkplacementWithLabels, updateExisting, updateWorkPlacement, getTargetDestinationNames,
  applyWorkplacementsForTargetDestinations, applyWorkplacement. frame.
Qed.
#[local] Hint Resolve rest_reconcileWorkloadGroup : frame.

Lemma rest_scheduleGroups work groups u m : keeps_rest (S:=S) (scheduleGroups work groups u m).
Proof.
revert u m. induction groups as [|wg groups IH]; intros u m; simpl; frame; by apply IH.
Qed.

Lemma rest_cleanup work : keeps_rest (S:=S) (cleanupDanglingWorkplacements work).
Proof.
unfold cleanupDanglingWorkplacements, collectNames, getExistingWorkPlacementsForWork,
  getExistingWorkPlacementsForWorkloadGroup, listWorkplacementWithLabels, iterM. frame.
Qed.

(** ** ReconcileWork *)

(** The cluster afterwards: other placements, and possibly another status for
    the Work itself. *)
Definition scheduling_footprint (work : Work) s s' : Prop :=
  ∃ (m : gmap Key WorkPlacement) (ws : gmap Key Work),
    view s' = set_coll m (set_coll ws (view s)) ∧
    (ws = c_works (view s) ∨
     ∃ old st, c_works (view s) !! key work = Some old ∧
       ws = <[key work := set_status st old]> (c_works (view s))).

Lemma footprint_wps work s s' : only_wps s s' → scheduling_footprint work s s'.
Proof. intros [m Hm]. exists m, (c_works (view s)). split; [|by left]. rewrite Hm. by destruct (view s). Qed.

Lemma footprint_status work s s1 s2 s' old st :
  only_wps s s1 → c_works (view s1) !! key work = Some old →
  view s2 = set_coll (<[key work := set_status st old]> (c_works (view s1))) (view s1) →
  only_wps s2 s' → scheduling_footprint work s s'.
Proof.
intros [m1 E1] Hold E2 [m2 E3]. unfold wps_become in *. rewrite E1 in Hold, E2. simpl in *.
exists m2, (<[key work := set_status st old]> (c_works (view s))). split; [|right; eauto].
by rewrite E3, E2.
Qed.

Lemma reports_same (w w' : Work) st : r_status w = r_status w' → reports w st → reports w' st.
Proof. unfold reports, cond_status_of. by intros ->. Qed.

(** What the returned Work reports about the pass. *)
Definition reports_pass (work' : Work) (uns : list string)
    (r : outcome (string + list string * list string)) : Prop :=
  match r with
  | Ok (inl _) => uns = [] ∧ reports work' ConditionFalse
  | Ok (inr (u, mis)) => uns = u ∧ reports work' (bool_status (bool_decide (u = [] ∧ mis = [])))
  | _ => False
  end.

(** The Work that is returned is the one that is now stored, with its metadata
    and spec as they were. *)
Definition stored_work (work work' : Work) s s' : Prop :=
  c_works (view s) !! key work = Some work →
  c_works (view s') !! key work = Some work' ∧
  r_meta work' = r_meta work ∧ r_spec work' = r_spec work.

Lemma only_wps_works s s' : only_wps s s' → c_works (view s') = c_works (view s).
Proof. intros [m ->]. done. Qed.

Lemma stored_update work w' old s s1 s2 s' :
  only_wps s s1 → c_works (view s1) !! key work = Some old →
  view s2 = set_coll (<[key work := set_status (r_status w') old]> (c_works (view s1))) (view s1) →
  only_wps s2 s' → stored_work work (on_status_update old w') s s'.
Proof.
intros H1' Hold Hv2 H2' Hst. rewrite (only_wps_works _ _ H1') in Hold.
assert (old = work) as -> by congruence.
rewrite (only_wps_works _ _ H2'), Hv2. simpl. by rewrite lookup_insert_eq.
Qed.

(** The specification of a scheduling pass. *)
Lemma wp_ReconcileWork work (Q : outcome (Work * list string) → S → Prop) s :
  ready_follows work →
  (∀ work' uns s', scheduling_footprint work s s' → stored_work work work' s s' →
     reports_pass work' uns
       (scheduleGroups work (ws_workloadGroups (r_spec work)) [] [] s).1 →
     Q (Ok (work', uns)) s') →
  (∀ e s', scheduling_footprint work s s' → Q (Fail e) s') →
  (∀ s', scheduling_footprint work s s' → Q Panicked s') →
  wp (ReconcileWork work) Q s.
Proof.
intros Hf HO HE HP. unfold ReconcileWork.
destruct (scheduleGroups work (ws_workloadGroups (r_spec work)) [] [] s) as [r s1] eqn:Hr.
assert (only_wps s s) as Hs by (exists (wps s); by apply wps_become_refl).
assert (only_wps s s1) as Hs1
  by (apply (wp_intro _ _ _ _ _ Hr (rest_scheduleGroups _ _ _ _ _ _ Hs))).
apply wp_bind, (wp_elim _ _ _ _ _ Hr).
destruct r as [[failed|[u mis]]|e|]; simpl;
  [| |by apply HE, footprint_wps|by apply HP, footprint_wps].
- apply wp_bind, wp_setStatusCondition. intros now s2 Hv2.
  apply wp_bind, wp_setStatusCondition. intros now' s3 Hv3. apply wp_bind.
  assert (only_wps s s3) as Hs3 by (eapply only_wps_view; [|exact Hs1]; congruence).
  match goal with |- wp (StatusUpdate ?w) _ _ => assert (reports w ConditionFalse) as Hrep;
    [by apply set_both|assert (key w = key work) as Hkw by done; generalize dependent w] end.
  intros w' Hrep Hkw. apply wp_StatusUpdate.
  + intros old s4 Hold Hv4. rewrite Hkw in Hold, Hv4.
    assert (only_wps s4 s4) as Hs4 by (exists (wps s4); by apply wps_become_refl).
    apply wp_ret, HO; [by eapply footprint_status|by eapply stored_update|].
    split; [done|]. by apply (reports_same w').
  + intros e s4 Hv4. by apply HE, footprint_wps, (only_wps_view _ s3).
- apply wp_bind, wp_updateWorkStatus. intros w' ch s2 Hv2 Hkw Hsp Hch Hrep _ _. simpl.
  specialize (Hrep Hf).
  assert (only_wps s s2) as Hs2 by (by eapply only_wps_view).
  destruct ch.
  + apply wp_bind, wp_StatusUpdate.
    * intros old s3 Hold Hv3. rewrite Hkw in Hold, Hv3. apply wp_bind.
      eapply wp_mono; [apply (rest_cleanup _ s3); exists (wps s3); by apply wps_become_refl|].
      intros [[]|e|] s4 Hs4; [apply wp_ret, HO|apply HE|apply HP]; try by eapply footprint_status.
      -- by eapply stored_update.
      -- split; [done|]. by apply (reports_same w').
    * intros e s3 Hv3. by apply HE, footprint_wps, (only_wps_view _ s2).
  + specialize (Hch eq_refl) as ->. apply wp_bind, wp_ret, wp_bind.
    eapply wp_mono; [by apply (rest_cleanup _ s)|].
    intros [[]|e|] s3 Hs3; [apply wp_ret, HO|apply HE|apply HP]; try by apply footprint_wps.
    * intros Hst. by rewrite (only_wps_works _ _ Hs3).
    * done.
Qed.

(** A scheduling pass over a Work writes nothing but placements and the
    status of that Work, however it ends.  When it returns normally, the Work it
    leaves reports [Ready] and [ScheduleSucceeded] as [True] exactly when every
    workload group was scheduled to the right destinations; if scheduling a
    group failed, both are [False] and no group is returned as unscheduled. *)
Theorem reconcile_work_reports work s :
  ready_follows work →
  wp (ReconcileWork work)
    (λ r s', scheduling_footprint work s s' ∧
       match r with
       | Ok (work', uns) =>
           reports_pass work' uns
             (scheduleGroups work (ws_workloadGroups (r_spec work)) [] [] s).1
       | _ => True
       end) s.
Proof.
intros Hf. apply wp_ReconcileWork; [done|auto..].
Qed.
End reconcile.
