(* ===== verification/SchedulerWitness.v ===== *)
(** * The scheduler on concrete clusters

    The properties of the scheduler applied in the in-memory environment: one
    destination that matches, one that does not, and Works of both kinds. *)

From S2P Require Import Prelude GoLib Meta Api Kube Client Shared Scheduler Sim SchedulerPlace.
From S2P Require Import SchedulerFacts SchedulerWork Purge.

Definition dest (name env : string) : Destination :=
  mkResource (om_set_labels {["env" := env]} (new_meta "" name))
    {| ds_path := ""; ds_stateStoreRef := {| ssr_kind := "BucketStateStore"; ssr_name := "s" |};
       ds_strictMatchLabels := false;
       ds_filepath := {| fp_mode := ""; fp_filename := "" |}; ds_cleanup := "";
       ds_initWorkloadsEnabled := false |}
    {| dst_conditions := [] |}.

Definition group : WorkloadGroup := {|
  wg_workloads := [{| wl_filepath := "a.yaml"; wl_content := "x" |}];
  wg_directory := "."; wg_id := "5058f1af8388633f609cadb75a75dc9d";
  wg_destinationSelectors := [{| wgs_matchLabels := {["env" := "dev"]}; wgs_source := "promise" |}] |}.

Definition work_for (resource : string) : Work :=
  mkResource (new_meta "default" "redis")
    {| ws_workloadGroups := [group]; ws_promiseName := "redis"; ws_resourceName := resource |}
    {| wst_conditions := []; wst_workPlacements := 0; wst_workPlacementsCreated := 0 |}.

(** A cluster with two destinations and the given placements. *)
Definition cluster_with (ps : list WorkPlacement) : Cluster := {|
  c_works := of_list [work_for "example"]; c_workplacements := of_list ps;
  c_destinations := of_list [dest "d1" "dev"; dest "d2" "prod"];
  c_jobs := ∅; c_parents := ∅; c_serviceaccounts := ∅; c_configmaps := ∅; c_roles := ∅;
  c_rolebindings := ∅; c_clusterroles := ∅; c_clusterrolebindings := ∅;
  c_bucketstores := ∅; c_gitstores := ∅; c_secrets := ∅; c_releases := ∅; c_healthrecords := ∅;
  c_promises := ∅; c_crds := ∅ |}.

Definition sim0 : Sim := sim_of (cluster_with []).

(** An existing placement of the group, on the destination that no longer
    matches. *)
Definition old_placement : WorkPlacement :=
  mkResource
    (om_set_finalizers [repoCleanupWorkPlacementFinalizer]
      (om_set_labels (group_labels "redis" group) (new_meta "default" "redis.d2-5058f")))
    (placement_spec (work_for "example") group "d2") empty_wp_status.

Definition sim1 : Sim := sim_of (cluster_with [old_placement]).

(** A placement of a group the Work no longer has. *)
Definition stale_placement : WorkPlacement :=
  mkResource
    (om_set_labels (work_labels "redis") (new_meta "default" "redis.d1-00000"))
    (placement_spec (work_for "example") group "d1") empty_wp_status.

Definition sim2 : Sim := sim_of (cluster_with [old_placement; stale_placement]).

Lemma target_destinations_choice_witness :
  let sel : Labels := {["env" := "dev"]} in
  let names := (getTargetDestinationNames sel (work_for "") sim0) in
  names.1 = Ok ["d1"] ∧ view names.2 = view sim0 ∧
  ∃ dests, destinations_seen sel sim0 dests ∧ chosen_from (work_for "") dests ["d1"].
Proof.
cbv zeta. split; [vm_compute; reflexivity|].
apply (run_ok _ _ _ _ ["d1"]
  (target_destinations_choice {["env" := "dev"]} (work_for "") sim0
     ltac:(right; vm_compute; exact I))).
vm_compute. reflexivity.
Defined.

Lemma reconcile_group_places_witness :
  let run := reconcileWorkloadGroup group (work_for "") sim1 in
  run.1 = Ok misplacedStatus ∧
  ∃ targets m, wps_become m sim1 run.2 ∧
    placements_of (work_for "") group (map_to_list targets) (wps sim1) m ∧
    placing_status targets misplacedStatus.
Proof.
cbv zeta. assert ((reconcileWorkloadGroup group (work_for "") sim1).1 = Ok misplacedStatus) as Hr
  by (vm_compute; reflexivity). split; [done|].
destruct (run_ok _ _ _ _ _
  (reconcile_group_places group (work_for "") sim1
    ltac:(exact (of_list_keyed [old_placement])) ltac:(vm_compute; lia) ltac:(vm_compute; exact I)
    ltac:(right; vm_compute; exact I) ltac:(left; reflexivity)) Hr)
  as (targets & m & _ & Hb & _ & Hp & Hst). eauto.
Defined.

Lemma resource_request_sticky_witness :
  let run := reconcileWorkloadGroup group (work_for "example") sim1 in
  let gr := placements_in (work_for "example") group (wps sim1) in
  run.1 = Ok misplacedStatus ∧ gr = [old_placement] ∧
  ∃ f m, wps_become m sim1 run.2 ∧ updates_done group sim1 f 0 gr m ∧
    sticky_status f gr misplacedStatus.
Proof.
cbv zeta.
assert ((reconcileWorkloadGroup group (work_for "example") sim1).1 = Ok misplacedStatus) as Hr
  by (vm_compute; reflexivity). split; [done|].
assert (placements_in (work_for "example") group (wps sim1) = [old_placement]) as Hg
  by (vm_compute; reflexivity). split; [done|].
apply (run_ok _ _ _ _ _
  (resource_request_sticky group (work_for "example") sim1
    ltac:(exact (of_list_keyed [old_placement])) ltac:(apply (of_list_no_zombies [old_placement]); by repeat constructor) ltac:(vm_compute; exact I)
    ltac:(right; vm_compute; exact I) ltac:(reflexivity) ltac:(by rewrite Hg)) Hr).
Defined.

Lemma fresh_ready : ready_follows (work_for "example").
Proof. intros st Hst. vm_compute in Hst. discriminate. Qed.

Lemma work_status_truthful_witness :
  let run := updateWorkStatus (work_for "example") [] ["x"] sim0 in
  ∃ r, run.1 = Ok r ∧ reports r.1 ConditionFalse.
Proof.
cbv zeta.
pose proof (work_status_truthful (work_for "example") [] ["x"] sim0 fresh_ready) as Hwp.
apply run_returns in Hwp as (r & Hr & Hp); [|vm_compute; reflexivity].
exists r. split; [done|]. by destruct Hp as (_ & _ & _ & Hp & _).
Defined.

Lemma cleanup_deletes_dangling_witness :
  let run := cleanupDanglingWorkplacements (work_for "example") sim2 in
  run.1 = Ok tt ∧ ∃ m, wps_become m sim2 run.2 ∧
    delete_requested stale_placement (m !! key stale_placement) ∧
    m !! key old_placement = Some old_placement.
Proof.
cbv zeta.
assert ((cleanupDanglingWorkplacements (work_for "example") sim2).1 = Ok tt) as Hr
  by (vm_compute; reflexivity). split; [done|].
destruct (run_ok _ _ _ _ _
  (cleanup_deletes_dangling (work_for "example") sim2
    ltac:(exact (of_list_keyed [old_placement; stale_placement])) ltac:(done)
    ltac:(split; [vm_compute; exact I|intros wg ->%list_elem_of_singleton; vm_compute; exact I])) Hr)
  as (m & Hb & _ & Hm).
exists m. split_and!; [done| |]; apply Hm; try (vm_compute; reflexivity).
- by apply (bool_decide_unpack _); vm_compute.
- by apply (bool_decide_unpack _); vm_compute.
Defined.

Lemma reconcile_work_reports_witness :
  let run := ReconcileWork (work_for "example") sim0 in
  ∃ w, run.1 = Ok (w, []) ∧ reports w ConditionTrue ∧
    scheduling_footprint (work_for "example") sim0 run.2.
Proof.
cbv zeta.
pose proof (reconcile_work_reports (work_for "example") sim0 fresh_ready) as Hwp.
apply run_returns in Hwp as ([w u] & Hr & Hfp & Hp); [|vm_compute; reflexivity].
assert ((scheduleGroups (work_for "example") (ws_workloadGroups (r_spec (work_for "example")))
  [] [] sim0).1 = Ok (inr ([], []))) as Hs by (vm_compute; reflexivity).
rewrite Hs in Hp. destruct Hp as [-> Hp].
exists w. split; [exact Hr|split; [exact Hp|exact Hfp]].
Defined.
