(* ===== verification/WorkController.v ===== *)
(** * The Work controller: [internal/controller/work_controller.go]

    Schedules a Work through the [WorkScheduler] interface, reports failing
    placements on it, and removes its placements when it is deleted. *)

From S2P Require Import Prelude GoLib Meta Api Kube Client Shared Scheduler.

(** ** The interface to the scheduler

    [ReconcileWork] returns the Work as the caller's pointer sees it afterwards
    and the identifiers of the unscheduled workload groups. *)
Class WorkScheduler (S : Type) := { scheduleWork : Work → M S (Work * list string) }.

#[global] Instance Scheduler_WorkScheduler {S} `{World S, Lib} : WorkScheduler S :=
  {| scheduleWork := ReconcileWork |}.

Definition workCleanUpFinalizer := KratixPrefix +:+ "work-cleanup".
Definition workFinalizer := KratixPrefix +:+ "work-cleanup".
Definition writeSucceededConditionType := "WriteSucceeded".

Module WorkReconciler.
Section controller.
Context {S : Type} `{World S, Lib, WorkScheduler S}.

Definition updateWorkStatus (work : Work) : M S Result :=
  let! workplacements := listWorkplacementWithLabels (GetNamespace work)
    (<[workLabelKey := GetName work]> ∅) in
  let failedWorkPlacements := GetName <$>
    filter (λ wp, IsStatusConditionFalse (wpst_conditions (r_status wp))
                    writeSucceededConditionType = true) workplacements in
  if bool_decide (0 < length failedWorkPlacements) then
    let msg := "Workplacements failed to write: [" +:+
               Strings.Join failedWorkPlacements "," +:+ "]" in
    let! r := setStatusCondition (wst_conditions (r_status work))
      (mk_cond scheduleSucceededConditionType ConditionFalse "WorkplacementsFailing" msg) in
    if r.2 then
      let! r' := setStatusCondition r.1
        (mk_cond "Ready" ConditionFalse "WorkplacementsFailing" "Failing") in
      Eventf work EventTypeWarning "WorkplacementsFailing" msg ;;;
      StatusUpdate (set_work_conditions r'.1 work) ;;;
      ret noRequeue
    else ret noRequeue
  else ret noRequeue.

Definition deleteWork (work : Work) : M S Result :=
  let! r := try (deleteAllResourcesWithKindMatchingLabel WorkPlacementSpec WorkPlacementStatus
                   (<[workLabelKey := GetName work]> ∅)) in
  match r with
  | inl e =>
      Eventf work EventTypeWarning "FailedDelete" ("deleting work failed: " +:+ Error e) ;;;
      fail e
  | inr resourcesRemaining =>
      if negb resourcesRemaining then
        Update (SetFinalizers (RemoveFinalizer (GetFinalizers work) workCleanUpFinalizer) work) ;;;
        ret defaultRequeue
      else ret defaultRequeue
  end.

Definition Reconcile (req : Key) : M S Result :=
  let! r := try (Get (Sp:=WorkSpec) req) in
  match r with
  | inl e => if IsNotFound e then ret noRequeue else fail e
  | inr work =>
      if deleting work then deleteWork work
      else if negb (ContainsFinalizer (GetFinalizers work) workCleanUpFinalizer)
      then addFinalizers work [workFinalizer]
      else
        let! r := try (scheduleWork work) in
        match r with
        | inl e => if IsConflict e then ret fastRequeue else fail e
        | inr (work, unscheduledWorkloadGroupIDs) =>
            if IsResourceRequest work && bool_decide (0 < length unscheduledWorkloadGroupIDs)
            then
              Eventf work EventTypeNormal "WaitingDestination"
                ("waiting for destination for workload group: [" +:+
                 Strings.Join unscheduledWorkloadGroupIDs "," +:+ "]") ;;;
              ret slowRequeue
            else updateWorkStatus work
        end
  end.

(** The Works to look at again when a Destination changes. *)
Definition requestReconciliationOfWorksOnDestination (dest : Destination) : M S (list Key) :=
  if deleting dest then ret []
  else
    let! r := try (List (Sp:=WorkSpec) {| lo_namespace := ""; lo_selector := None |}) in
    match r with
    | inl _ => ret []
    | inr works => ret (key <$> works)
    end.
End controller.
End WorkReconciler.
