(* ===== verification/WorkControllerFacts.v ===== *)
(** * Properties of the Work controller

    The controller is proved against what the [WorkScheduler] interface
    promises; the scheduler discharges the promise. *)

From S2P Require Import Prelude GoLib Meta Api Kube Client Shared Purge Scheduler SchedulerPlace.
From S2P Require Import SchedulerFacts SchedulerWork WorkController Sim.

(** ** What the controller relies on *)
Class WorkSchedulerLaws (S : Type) `{World S, Viewed S, Lib, WorkScheduler S} : Prop := {
  schedule_promise : ∀ work s, ready_follows work →
    wp (scheduleWork work)
      (λ r s', scheduling_footprint work s s' ∧
         match r with
         | Ok (work', _) => stored_work work work' s s' ∧ ready_follows work'
         | _ => True
         end) s;
}.

#[global] Instance Scheduler_laws {S} `{World S, Viewed S, !WorldLaws S, Lib, !LibLaws} :
  WorkSchedulerLaws S.
Proof.
split. intros work s Hf. apply wp_ReconcileWork; [done| |auto..].
intros work' uns s' Hfp Hst Hrep. split_and!; [done|done|].
assert (∃ st, reports work' st) as (st & E1 & E2)
  by (unfold reports_pass in Hrep; repeat case_match; naive_solver).
intros st'. congruence.
Qed.

Section facts.
Context {S : Type} `{World S, Viewed S, !WorldLaws S, Lib, !LibLaws}.
Context `{!WorkScheduler S, !WorkSchedulerLaws S}.
Implicit Types s : S.

Definition works s : gmap Key Work := coll (view s).

(** A placement of the Work, in any namespace. *)
Definition work_placement (work : Work) (p : WorkPlacement) : Prop :=
  carries (work_labels (GetName work)) p.

(** C22: a Work that is being deleted keeps its clean-up finalizer as long as a
    placement labelled with it exists: after any reconciliation of it, however
    it ends, either the finalizer is still there or no such placement is left.
    When placements remain the reconciliation requests the deletion of all of
    them and leaves every other placement alone. *)
Theorem work_deletion_waits_for_placements req work s :
  keyed (works s) → keyed (wps s) →
  works s !! req = Some work → deleting work = true →
  workCleanUpFinalizer ∈ GetFinalizers work →
  wp (WorkReconciler.Reconcile req)
    (λ r s',
       (∃ work', works s' !! req = Some work' ∧ workCleanUpFinalizer ∈ GetFinalizers work') ∨
       (∀ k p, wps s' !! k = Some p → ¬ work_placement work p)) s
  ∧
  wp (WorkReconciler.Reconcile req)
    (λ r s', r = Ok defaultRequeue →
       purged (work_labels (GetName work)) (wps s) (wps s') ∨
       (∀ k p, wps s !! k = Some p → ¬ work_placement work p) ∧ wps s' = wps s) s.
Proof.
intros Hkw Hkp Hwork Hdel Hfin.
assert (∀ Q : outcome Result → S → Prop,
  (∀ e s', view s' = view s → Q (Fail e) s') →
  (∀ e m s', wps_become m s s' → Q (Fail e) s') →
  (∀ m s', wps_become m s s' → purged (work_labels (GetName work)) (wps s) m →
     Q (Ok defaultRequeue) s') →
  (∀ r s', (∀ k p, wps s !! k = Some p → ¬ work_placement work p) → wps s' = wps s →
     Q r s') →
  wp (WorkReconciler.Reconcile req) Q s) as Hrule.
{ intros Q HG HE HT HF. apply wp_bind, wp_try, wp_Get.
  2:{ intros e s1 Hv1 Hnf. destruct (IsNotFound e) eqn:He; [|by apply wp_fail, HG].
      specialize (Hnf eq_refl). unfold works in Hwork. congruence. }
  intros work' s1 Hv1 Hg. assert (work' = work) as -> by (unfold works in Hwork; congruence).
  rewrite Hdel. assert (wps s1 = wps s) as Hw1 by (unfold wps; by rewrite Hv1).
  apply wp_bind, wp_try, wp_deleteAllResources.
  - fold (wps s1). by rewrite Hw1.
  - intros s2 Hv2 Hno. fold (wps s1) in Hno. rewrite Hw1 in Hno. simpl.
    apply wp_bind, wp_Update; intros;
      [apply wp_ret|]; (apply HF; [exact Hno|]); unfold wps in *.
    + match goal with Hv : view _ = _ |- _ => by rewrite Hv, Hv2, Hv1 end.
    + congruence.
  - intros m s2 Hb Hp. apply wp_ret, (HT m); [|by rewrite <-Hw1].
    by apply (wps_become_view m s s1 s2).
  - intros e m s2 Hb _. apply wp_bind, wp_Eventf. intros s3 Hv3. apply wp_fail, (HE e m).
    by apply (wps_become_view m s s1 s2). }
assert (∀ m s', wps_become m s s' → works s' !! req = Some work) as Hkeep
  by (intros m s'; unfold works, wps_become; by intros ->).
split; apply Hrule.
- intros e s' Hv. left. exists work. unfold works. by rewrite Hv.
- intros e m s' Hb. left. eauto.
- intros m s' Hb _. left. eauto.
- intros r s' Hno Hw. right. by rewrite Hw.
- done.
- done.
- intros m s' Hb Hp _. left. by rewrite (wps_become_wps _ _ _ Hb).
- intros r s' Hno Hw _. by right.
Qed.

(** ** Reporting *)

(** A placement of the Work whose last write failed. *)
Definition failing (work : Work) (p : WorkPlacement) : Prop :=
  GetNamespace p = GetNamespace work ∧ work_placement work p ∧
  IsStatusConditionFalse (wpst_conditions (r_status p)) writeSucceededConditionType = true.

(** The Work stored at [req] is [work'], and only its status may be new. *)
Definition work_now (req : Key) (work work' : Work) s' : Prop :=
  works s' !! req = Some work' ∧ r_meta work' = r_meta work ∧ r_spec work' = r_spec work.

Lemma wp_WorkReconciler_updateWorkStatus work (Q : outcome Result → S → Prop) s :
  keyed (works s) → works s !! key work = Some work → ready_follows work →
  parses (work_labels (GetName work)) →
  (∀ r work' s', wps s' = wps s → work_now (key work) work work' s' → ready_follows work' →
     ((∃ k p, wps s !! k = Some p ∧ failing work p) → reports work' ConditionFalse) →
     Q (Ok r) s') →
  (∀ e s', Q (Fail e) s') →
  wp (WorkReconciler.updateWorkStatus work) Q s.
Proof.
intros Hk Hw Hf Hp HO HE.
apply wp_bind, wp_listWorkplacementWithLabels; [apply insert_non_empty|done| |auto].
intros l s1 Hv1 Hl. cbv zeta. set (failed := filter _ l).
assert (∀ p, (∃ k, wps s !! k = Some p) → failing work p → p ∈ failed) as Hfail.
{ intros p Hst (Hns & Hwp & Hc). apply list_elem_of_filter. split; [done|].
  rewrite Hl, list_elem_of_filter, elem_of_map_values. auto. }
assert (∀ r s', view s' = view s → failed = [] ∨ reports work ConditionFalse → Q (Ok r) s') as Hsame.
{ intros r s' Hv Hcase. apply (HO r work); [unfold wps; congruence| |done|].
  - unfold work_now, works. rewrite Hv. done.
  - intros (k & p & Hst & Hfp). destruct Hcase as [Hnil|]; [|done].
    assert (p ∈ failed) as Hin by eauto. rewrite Hnil in Hin. set_solver. }
case_bool_decide as Hlen.
2:{ apply wp_ret, Hsame; [done|]. left. rewrite length_fmap in Hlen. destruct failed; [done|simpl in Hlen; lia]. }
apply wp_bind, wp_setStatusCondition. intros now s2 Hv2.
match goal with |- context [SetStatusCondition now _ ?c] => set (sched := c) end.
destruct (SetStatusCondition now _ sched).2 eqn:Hch.
- apply wp_bind, wp_setStatusCondition. intros now' s3 Hv3.
  apply wp_bind, wp_Eventf. intros s4 Hv4. apply wp_bind.
  match goal with |- wp (StatusUpdate ?w) _ _ => assert (reports w ConditionFalse) as Hrep;
    [by apply set_both|assert (key w = key work) as Hkw by done; generalize dependent w] end.
  intros w' Hrep Hkw. assert (view s4 = view s) as Hv by congruence.
  apply wp_StatusUpdate; [|auto]. intros old s5 Hold Hv5. rewrite Hkw, Hv in Hold, Hv5.
  assert (old = work) as -> by (unfold works in Hw; congruence).
  apply wp_ret, (HO _ (set_status (r_status w') work)).
  + unfold wps. by rewrite Hv5.
  + unfold work_now, works. rewrite Hv5, coll_set, lookup_insert_eq. done.
  + assert (reports (set_status (r_status w') work) ConditionFalse) as [E1 E2]
      by (by apply (reports_same w')). intros st. congruence.
  + intros _. by apply (reports_same w').
- apply wp_ret, Hsame; [congruence|]. right. by apply (unchanged_status now work sched).
Qed.

(** a Work that was scheduled reports its failing placements.  Reconciling a
    live Work with its finalizer, whenever it ends without an error and without
    waiting, leaves it stored with its metadata and spec untouched, with Ready
    following ScheduleSucceeded; and if the last write of one of its placements
    failed, both conditions are [False]. *)
Theorem work_reports_failing_placements req work s :
  keyed (works s) → works s !! req = Some work → deleting work = false →
  workCleanUpFinalizer ∈ GetFinalizers work → ready_follows work →
  parses (work_labels (GetName work)) →
  wp (WorkReconciler.Reconcile req)
    (λ r s', r = Ok noRequeue → ∃ work', work_now req work work' s' ∧ ready_follows work' ∧
       ((∃ k p, wps s' !! k = Some p ∧ failing work p) → reports work' ConditionFalse)) s.
Proof.
intros Hk Hw Hdel Hfin Hf Hp. pose proof (Hk _ _ Hw) as Hkey.
apply wp_bind, wp_try, wp_Get.
2:{ intros e s1 Hv1 Hnf. destruct (IsNotFound e) eqn:He; [|by apply wp_fail].
    specialize (Hnf eq_refl). unfold works in Hw. congruence. }
intros work0 s1 Hv1 Hg. assert (work0 = work) as -> by (unfold works in Hw; congruence).
rewrite Hdel, contains_finalizer, bool_decide_true by done. simpl.
apply wp_bind, wp_try. eapply wp_mono; [by apply schedule_promise|].
intros [[w' u]|e|] s2 [Hfp Hr]; [|destruct (IsConflict e); [by apply wp_ret|by apply wp_fail]|done].
destruct Hr as [Hst Hf']. destruct Hst as (Hst & Hm & Hsp).
{ rewrite Hkey, Hv1. exact Hw. }
case_match; [by apply wp_bind, wp_Eventf; intros s3 Hv3; apply wp_ret|].
assert (key w' = req) as Hkw' by (rewrite <-Hkey; unfold key; by rewrite Hm).
assert (GetName w' = GetName work ∧ GetNamespace w' = GetNamespace work) as [Hn Hns]
  by (unfold GetName, GetNamespace; by rewrite Hm).
apply wp_WorkReconciler_updateWorkStatus.
- destruct Hfp as (m & ws & Hv2 & Hws). unfold works. rewrite Hv2. simpl.
  destruct Hws as [->|(old & st & Hold & ->)]; rewrite Hv1 in *; [done|].
  apply keyed_insert; [done|]. by apply (Hk _ _ Hold).
- by rewrite Hkw', <-Hkey.
- done.
- by rewrite Hn.
- intros r w2 s3 Hwps Hnow Hf2 Hrep _. exists w2. rewrite Hkw' in Hnow.
  destruct Hnow as (E1 & E2 & E3). split_and!; [split_and!; congruence|done|].
  rewrite Hwps. unfold failing, work_placement in *. rewrite <-Hn, <-Hns. exact Hrep.
- done.
Qed.
End facts.

(** ** Concrete runs *)
Section witnesses.
Import WorkReconciler.

Definition example_work (del : option Z) : Work :=
  mkResource
    (om_set_finalizers [workCleanUpFinalizer]
      (om_set_system "u" del 1 1 (new_meta "default" "redis")))
    {| ws_workloadGroups := []; ws_promiseName := "redis"; ws_resourceName := "" |}
    {| wst_conditions := []; wst_workPlacements := 0; wst_workPlacementsCreated := 0 |}.

Definition failing_placement : WorkPlacement :=
  mkResource (om_set_labels (work_labels "redis") (new_meta "default" "redis.d1-00000"))
    empty_wp_spec
    {| wpst_conditions := [mk_cond "WriteSucceeded" ConditionFalse "x" "y"]; wpst_versionID := "" |}.

Definition work_sim (del : option Z) (ps : list WorkPlacement) : Sim := sim_of {|
  c_works := of_list [example_work del]; c_workplacements := of_list ps; c_destinations := ∅;
  c_jobs := ∅; c_parents := ∅; c_serviceaccounts := ∅; c_configmaps := ∅; c_roles := ∅;
  c_rolebindings := ∅; c_clusterroles := ∅; c_clusterrolebindings := ∅;
  c_bucketstores := ∅; c_gitstores := ∅; c_secrets := ∅; c_releases := ∅; c_healthrecords := ∅;
  c_promises := ∅; c_crds := ∅ |}.

Lemma work_deletion_waits_for_placements_witness :
  let s := work_sim (Some 5%Z) [failing_placement] in
  let run := Reconcile ("default", "redis") s in
  run.1 = Ok defaultRequeue ∧
  ((∃ work', works run.2 !! ("default", "redis") = Some work' ∧
            workCleanUpFinalizer ∈ GetFinalizers work') ∨
   (∀ k p, wps run.2 !! k = Some p → ¬ work_placement (example_work (Some 5%Z)) p)).
Proof.
cbv zeta.
assert ((Reconcile ("default", "redis") (work_sim (Some 5%Z) [failing_placement])).1 =
  Ok defaultRequeue) as Hr by (vm_compute; reflexivity). split; [exact Hr|].
pose proof (work_deletion_waits_for_placements ("default", "redis") (example_work (Some 5%Z))
  (work_sim (Some 5%Z) [failing_placement])
  ltac:(exact (of_list_keyed [_])) ltac:(exact (of_list_keyed [_]))
  ltac:(vm_compute; reflexivity) ltac:(reflexivity) ltac:(by left)) as [Hwp _].
apply run_returns in Hwp as (r & _ & Hq); [exact Hq|]. rewrite Hr. reflexivity.
Defined.

Lemma work_reports_failing_placements_witness :
  let s := work_sim None [failing_placement] in
  let run := Reconcile ("default", "redis") s in
  run.1 = Ok noRequeue ∧ ∃ work', work_now ("default", "redis") (example_work None) work' run.2.
Proof.
cbv zeta. assert ((Reconcile ("default", "redis") (work_sim None [failing_placement])).1 = Ok noRequeue)
  as Hr by (vm_compute; reflexivity). split; [done|].
pose proof (work_reports_failing_placements ("default", "redis") (example_work None)
  (work_sim None [failing_placement])
  ltac:(exact (of_list_keyed [_]))
  ltac:(vm_compute; reflexivity) ltac:(reflexivity) ltac:(by left)) as Hwp.
apply run_returns in Hwp as (r & Hr' & Hq).
- destruct (Hq ltac:(congruence)) as (w' & Hnow & _). eauto.
- intros st Hst. vm_compute in Hst. discriminate.
- vm_compute. exact I.
- rewrite Hr. reflexivity.
Defined.
End witnesses.
