(* ===== verification/StateStore.v ===== *)
(** * State stores: writers and how a controller gets one

    The [StateStoreWriter] interface of [lib/writers]: what the controllers see of a bucket
    or a git repository.  [newWriter] of [internal/controller/shared.go] finds the
    store of a destination and its credentials and makes a writer, which then updates
    and reads files below the destination's path. *)

From S2P Require Import Prelude GoLib Meta Api Kube Client.

(** The data of a secret, as writers get it; [None]: no credentials. *)
Definition Credentials := option (gmap string string).

Class StateStoreWriter (S : Type) := {
  Writer : Type;
  (** spec of the store, destination path, credentials *)
  NewS3Writer : BucketStateStoreSpec → string → Credentials → M S Writer;
  NewGitWriter : GitStateStoreSpec → string → Credentials → M S Writer;
  (** directory, placement name, workloads to create, paths to delete; returns
      the version identifier *)
  UpdateFiles : Writer → string → string → list Workload → list string → M S string;
  ReadFile : Writer → string → M S string;
  ValidatePermissions : Writer → M S unit;
}.

(** ** The [StateStore] interface of [state_store.go] *)
Class StateStore (Sp : Type) := GetSecretRef : Sp → option SecretReference.
#[global] Instance bucket_store : StateStore BucketStateStoreSpec := bss_secretRef.
#[global] Instance git_store : StateStore GitStateStoreSpec := gss_secretRef.

Section writer.
Context {S : Type} `{World S, StateStoreWriter S}.

Definition secret_namespace (ref : SecretReference) : string :=
  if bool_decide (sr_namespace ref = "") then "default" else sr_namespace ref.

(** The store, and its secret when it refers to one. *)
Definition fetchObjectAndSecret {Sp} `{Collection Sp StateStoreStatus, StateStore Sp}
    (stateStoreRef : Key) : M S (Resource Sp StateStoreStatus * option Secret) :=
  let! stateStore := Get stateStoreRef in
  match GetSecretRef (r_spec stateStore) with
  | None => ret (stateStore, None)
  | Some ref =>
      let namespace := secret_namespace ref in
      let! r := try (Get (Sp:=SecretSpec) (St:=unit) (namespace, sr_name ref)) in
      match r with
      | inl e =>
          if IsNotFound e
          then fail (ErrorMsg ("secret " +:+ Strings.quote (sr_name ref) +:+
                               " not found in namespace " +:+ Strings.quote namespace))
          else fail e
      | inr secret => ret (stateStore, Some secret)
      end
  end.

Definition secret_data (secret : option Secret) : Credentials := secret ≫= λ s, sec_data (r_spec s).

(** The git branch reads the data of the secret without asking whether there is one. *)
Definition newWriter (stateStoreName stateStoreKind destinationPath : string) : M S Writer :=
  if bool_decide (stateStoreKind = "BucketStateStore") then
    let! f := fetchObjectAndSecret (Sp:=BucketStateStoreSpec) ("", stateStoreName) in
    NewS3Writer (r_spec f.1) destinationPath (secret_data f.2)
  else if bool_decide (stateStoreKind = "GitStateStore") then
    let! f := fetchObjectAndSecret (Sp:=GitStateStoreSpec) ("", stateStoreName) in
    match f.2 with
    | None => panic
    | Some secret => NewGitWriter (r_spec f.1) destinationPath (sec_data (r_spec secret))
    end
  else fail (ErrorMsg ("unsupported kind " +:+ stateStoreKind)).
End writer.

(** A git store without a secret makes the controller panic. *)
Definition secured (ref : StateStoreReference) (c : Cluster) : Prop :=
  ssr_kind ref = "GitStateStore" →
  ∀ g, c_gitstores c !! ("", ssr_name ref) = Some g → gss_secretRef (r_spec g) ≠ None.

(** The files a writer can see, by their path below its root. *)
Class StoredFiles (S : Type) `{StateStoreWriter S} :=
  files : Writer (S:=S) → S → gmap string string.

(** ** What an update promises *)

(** The path of a workload, and of a file to delete. *)
Definition path_in (dir p : string) : string := Filepath.Join [dir; p].

(** [p] lies strictly below the directory. *)
Definition below (dir p : string) : bool := Strings.HasPrefix p (Filepath.Clean dir +:+ "/").

(** [p] merely starts with the name of the directory. *)
Definition near (dir p : string) : bool := Strings.HasPrefix p (Filepath.Clean dir).

Definition written_paths (dir : string) (create : list Workload) : list string :=
  (λ w, path_in dir (wl_filepath w)) <$> create.

Record update_spec (dir : string) (create : list Workload) (del : list string)
    (f f' : gmap string string) : Prop := {
  (** every workload is written; the last one of a path wins *)
  us_written : ∀ pre w post, create = pre ++ w :: post →
    path_in dir (wl_filepath w) ∉ written_paths dir post →
    f' !! path_in dir (wl_filepath w) = Some (wl_content w);
  (** the directory holds nothing else *)
  us_emptied : dir ≠ "" → ∀ p, below dir p = true → p ∉ written_paths dir create → f' !! p = None;
  (** without a directory, the listed files are gone *)
  us_deleted : dir = "" → ∀ d, d ∈ del →
    path_in "" d ∉ written_paths dir create → f' !! path_in "" d = None;
  (** other files stay *)
  us_untouched : ∀ p, p ∉ written_paths dir create →
    (dir ≠ "" → near dir p = false) → (dir = "" → p ∉ path_in "" <$> del) → f' !! p = f !! p;
}.

(** ** Writing files one after the other *)
Definition put_file (p : Workload → string) (f : gmap string string) (w : Workload) : gmap string string :=
  <[p w := wl_content w]> f.

Lemma put_files_lookup p create (f : gmap string string) k :
  foldl (put_file p) f create !! k =
  match last (filter (λ w, p w = k) create) with
  | Some w => Some (wl_content w)
  | None => f !! k
  end.
Proof.
induction create as [|w create IH] using rev_ind; [done|].
rewrite foldl_app, filter_app. simpl. unfold put_file at 1. rewrite filter_cons, filter_nil.
case_decide as Hp; simpl.
- rewrite last_snoc. subst k. apply lookup_insert_eq.
- rewrite app_nil_r, lookup_insert_ne; [apply IH|done].
Qed.

Lemma put_files_other p create (f : gmap string string) k :
  k ∉ p <$> create → foldl (put_file p) f create !! k = f !! k.
Proof.
intros Hk. rewrite put_files_lookup, filter_empty; [done|]. apply Forall_forall. intros w Hw Heq.
apply Hk, list_elem_of_fmap. eauto.
Qed.

(** The last one written to a path stays. *)
Lemma put_files_last p pre w post (f : gmap string string) :
  p w ∉ p <$> post → foldl (put_file p) f (pre ++ w :: post) !! p w = Some (wl_content w).
Proof.
intros Hw. rewrite foldl_app. cbn. rewrite put_files_other by done. apply lookup_insert_eq.
Qed.

Class StateStoreLaws (S : Type) `{World S, Viewed S, StateStoreWriter S, !StoredFiles S} : Prop := {
  wp_NewS3Writer : ∀ spec path creds (Q : outcome Writer → S → Prop) s,
    (∀ w s', view s' = view s → (∀ w', files w' s' = files w' s) → Q (Ok w) s') →
    (∀ e s', view s' = view s → (∀ w', files w' s' = files w' s) → Q (Fail e) s') →
    wp (NewS3Writer spec path creds) Q s;
  wp_NewGitWriter : ∀ spec path creds (Q : outcome Writer → S → Prop) s,
    (∀ w s', view s' = view s → (∀ w', files w' s' = files w' s) → Q (Ok w) s') →
    (∀ e s', view s' = view s → (∀ w', files w' s' = files w' s) → Q (Fail e) s') →
    wp (NewGitWriter spec path creds) Q s;
  wp_ReadFile : ∀ w name (Q : outcome string → S → Prop) s,
    (∀ c s', view s' = view s → (∀ w', files w' s' = files w' s) →
       files w s !! path_in "" name = Some c → Q (Ok c) s') →
    (∀ e s', view s' = view s → (∀ w', files w' s' = files w' s) →
       (root_cause e = ErrFileNotFound → files w s !! path_in "" name = None) →
       Q (Fail e) s') →
    wp (ReadFile w name) Q s;
  wp_UpdateFiles : ∀ w dir name create del (Q : outcome string → S → Prop) s,
    (∀ v s', view s' = view s → update_spec dir create del (files w s) (files w s') →
       Q (Ok v) s') →
    (∀ e s', view s' = view s → Q (Fail e) s') →
    wp (UpdateFiles w dir name create del) Q s;
  wp_ValidatePermissions : ∀ w (Q : outcome unit → S → Prop) s,
    (∀ s', view s' = view s → (∀ w', files w' s' = files w' s) → Q (Ok tt) s') →
    (∀ e s', view s' = view s → (∀ w', files w' s' = files w' s) → Q (Fail e) s') →
    wp (ValidatePermissions w) Q s;
  (** The API server, the clock and the event recorder do not write to state
      stores. *)
  get_keeps_files : ∀ {Sp St} `{Collection Sp St} k s (r : error + Resource Sp St) s' w,
    w_get k s = (r, s') → files w s' = files w s;
  update_keeps_files : ∀ {Sp St} `{Collection Sp St} (o : Resource Sp St) s r s' w,
    w_update o s = (r, s') → files w s' = files w s;
  status_update_keeps_files : ∀ {Sp St} `{Collection Sp St} (o : Resource Sp St) s r s' w,
    w_status_update o s = (r, s') → files w s' = files w s;
  now_keeps_files : ∀ s t s' w, w_now s = (t, s') → files w s' = files w s;
  event_keeps_files : ∀ ev s u s' w, w_event ev s = (u, s') → files w s' = files w s;
}.

Section rules.
Context {S : Type} `{World S, Viewed S, !WorldLaws S}.
Context `{!StateStoreWriter S, !StoredFiles S, !StateStoreLaws S}.

Lemma wp_Get_files {Sp St} `{Collection Sp St} k (Q : outcome (Resource Sp St) → S → Prop) s :
  (∀ o s', view s' = view s → (∀ w, files w s' = files w s) → coll (view s) !! k = Some o → Q (Ok o) s') →
  (∀ e s', view s' = view s → (∀ w, files w s' = files w s) →
     (IsNotFound e = true → coll (view s) !! k = None) → Q (Fail e) s') →
  wp (Get k) Q s.
Proof.
intros HO HE. apply wp_call.
- intros o s' E. pose proof (get_ok _ _ _ _ E) as [Hv Hk]. apply HO; [done| |done].
  intros w. by eapply get_keeps_files.
- intros e s' E. pose proof (get_err _ _ _ _ E) as [Hv Hk]. apply HE; [done| |done].
  intros w. by eapply get_keeps_files.
Qed.

(** Only the store and its secret are read; the secret is the one the store refers to. *)
Lemma wp_fetchObjectAndSecret {Sp} `{Collection Sp StateStoreStatus, StateStore Sp} k
    (Q : outcome (Resource Sp StateStoreStatus * option Secret) → S → Prop) s :
  (∀ o secret s', view s' = view s → (∀ w, files w s' = files w s) → coll (view s) !! k = Some o →
     match GetSecretRef (r_spec o) with
     | None => secret = None
     | Some ref => ∃ sec, secret = Some sec ∧
                     c_secrets (view s) !! (secret_namespace ref, sr_name ref) = Some sec
     end → Q (Ok (o, secret)) s') →
  (∀ e s', view s' = view s → (∀ w, files w s' = files w s) → Q (Fail e) s') →
  wp (fetchObjectAndSecret k) Q s.
Proof.
intros HO HE. unfold fetchObjectAndSecret. apply wp_bind, wp_Get_files; [|by auto].
intros o s1 Hv1 Hf1 Ho. specialize (HO o). destruct (GetSecretRef (r_spec o)) as [ref|].
2:{ apply wp_ret. by apply HO. }
cbv zeta. apply wp_bind, wp_try, wp_Get_files.
- intros sec s2 Hv2 Hf2 Hsec. apply wp_ret, HO; [congruence| |done|].
  + intros w. by rewrite Hf2.
  + exists sec. split; [done|]. by rewrite <-Hv1.
- intros e s2 Hv2 Hf2 _. destruct (IsNotFound e); apply wp_fail, HE; try congruence;
    intros w; by rewrite Hf2.
Qed.

Lemma wp_newWriter name kind path (Q : outcome Writer → S → Prop) s :
  (∀ w s', view s' = view s → (∀ w', files w' s' = files w' s) → Q (Ok w) s') →
  (∀ e s', view s' = view s → (∀ w', files w' s' = files w' s) → Q (Fail e) s') →
  (∀ s', ¬ secured {| ssr_kind := kind; ssr_name := name |} (view s) →
     view s' = view s → Q Panicked s') →
  wp (newWriter name kind path) Q s.
Proof.
intros HO HE HP. unfold newWriter. case_bool_decide as Hb; [|case_bool_decide as Hg].
- apply wp_bind, wp_fetchObjectAndSecret; [|done]. intros o secret s1 Hv1 Hf1 _ _.
  apply wp_NewS3Writer; intros; [apply HO|apply HE]; try congruence; intros; congruence.
- apply wp_bind, wp_fetchObjectAndSecret; [|done]. intros o secret s1 Hv1 Hf1 Ho Hsec.
  cbn [fst snd]. destruct secret as [secret|].
  + apply wp_NewGitWriter; intros; [apply HO|apply HE]; try congruence; intros; congruence.
  + apply wp_panic, HP; [|done]. intros Hs. apply (Hs Hg o Ho).
    unfold GetSecretRef, git_store in Hsec. destruct (gss_secretRef _); [|done]. by destruct Hsec as (? & ? & _).
- by apply wp_fail, HE.
Qed.

Lemma wp_newWriter_secured ref path (Q : outcome Writer → S → Prop) s :
  secured ref (view s) →
  (∀ w s', view s' = view s → (∀ w', files w' s' = files w' s) → Q (Ok w) s') →
  (∀ e s', view s' = view s → (∀ w', files w' s' = files w' s) → Q (Fail e) s') →
  wp (newWriter (ssr_name ref) (ssr_kind ref) path) Q s.
Proof. intros Hs HO HE. apply wp_newWriter; [done..|]. by destruct ref. Qed.

Lemma wp_Update_files {Sp St} `{Collection Sp St} o (Q : outcome (Resource Sp St) → S → Prop) s :
  (∀ old gen s', coll (view s) !! key o = Some old →
     view s' = set_coll (put_or_reap (on_update gen old o) (coll (view s))) (view s) →
     (∀ w, files w s' = files w s) → Q (Ok (on_update gen old o)) s') →
  (∀ e s', view s' = view s → (∀ w, files w s' = files w s) → Q (Fail e) s') →
  wp (Update o) Q s.
Proof.
intros HO HE. apply wp_call.
- intros o' s' E. pose proof (update_ok _ _ _ _ E) as (old & gen & Hk & -> & Hv).
  apply HO; [done|done|]. intros w. by eapply update_keeps_files.
- intros e s' E. apply HE; [by apply (update_err _ _ _ _ E)|]. intros w.
  by eapply update_keeps_files.
Qed.

Lemma wp_StatusUpdate_files {Sp St} `{Collection Sp St} o
    (Q : outcome (Resource Sp St) → S → Prop) s :
  (∀ old s', coll (view s) !! key o = Some old →
     view s' = set_coll (<[key o := on_status_update old o]> (coll (view s))) (view s) →
     (∀ w, files w s' = files w s) → Q (Ok (on_status_update old o)) s') →
  (∀ e s', view s' = view s → (∀ w, files w s' = files w s) → Q (Fail e) s') →
  wp (StatusUpdate o) Q s.
Proof.
intros HO HE. apply wp_call.
- intros o' s' E. pose proof (status_update_ok _ _ _ _ E) as (old & Hk & -> & Hv).
  apply HO; [done|done|]. intros w. by eapply status_update_keeps_files.
- intros e s' E. apply HE; [by apply (status_update_err _ _ _ _ E)|]. intros w.
  by eapply status_update_keeps_files.
Qed.

Lemma wp_Now_files (Q : outcome Z → S → Prop) s :
  (∀ t s', view s' = view s → (∀ w, files w s' = files w s) → Q (Ok t) s') → wp Now Q s.
Proof.
intros HO. apply wp_total. intros t s' E. apply HO; [by apply (now_ok _ _ _ E)|].
intros w. by eapply now_keeps_files.
Qed.

Lemma wp_Eventf_files {Sp St} (o : Resource Sp St) type reason msg (Q : outcome unit → S → Prop) s :
  (∀ s', view s' = view s → (∀ w, files w s' = files w s) → Q (Ok tt) s') →
  wp (Eventf o type reason msg) Q s.
Proof.
intros HO. apply wp_total. intros [] s' E. apply HO; [by apply (event_ok _ _ _ _ E)|].
intros w. by eapply event_keeps_files.
Qed.
End rules.
