(* ===== verification/SimStore.v ===== *)
(** * A state store kept in memory

    A writer whose files are a finite map, with the faults of the environment;
    it keeps the promises of [StateStore.v]. *)

From S2P Require Import Prelude GoLib Meta Api Kube StateStore Sim.

Definition sim_set_files (f : gmap string string) (s : Sim) : Sim := {|
  sim_cluster := sim_cluster s; sim_faults := sim_faults s; sim_rand := sim_rand s;
  sim_clock := sim_clock s; sim_events := sim_events s; sim_files := f |}.

(** Requests to the store share the fault schedule. *)
Definition sim_store {A} (f : gmap string string → error + (A * gmap string string)) : M Sim A := λ s,
  let s1 := {| sim_cluster := sim_cluster s; sim_faults := tail (sim_faults s);
               sim_rand := sim_rand s; sim_clock := sim_clock s;
               sim_events := sim_events s; sim_files := sim_files s |} in
  match head (sim_faults s) with
  | Some (Some x) => (Fail (fault_error x), s1)
  | _ => match f (sim_files s) with
         | inl e => (Fail e, s1)
         | inr (a, f') => (Ok a, sim_set_files f' s1)
         end
  end.

Definition sim_update_files (dir : string) (create : list Workload) (del : list string)
    (f : gmap string string) : gmap string string :=
  foldl (put_file (λ w, path_in dir (wl_filepath w)))
    (if bool_decide (dir = "")
     then foldl (λ f d, base.delete (path_in "" d) f) f del
     else filter (λ kv, near dir kv.1 = false) f)
    create.

#[global] Instance Sim_Store : StateStoreWriter Sim := {|
  Writer := unit;
  NewS3Writer _ _ _ := sim_store (λ f, inr (tt, f));
  NewGitWriter _ _ _ := sim_store (λ f, inr (tt, f));
  UpdateFiles _ dir _ create del := sim_store (λ f, inr ("v1", sim_update_files dir create del f));
  ReadFile _ name := sim_store (λ f,
    match f !! path_in "" name with Some c => inr (c, f) | None => inl ErrFileNotFound end);
  ValidatePermissions _ := sim_store (λ f, inr (tt, f));
|}.

#[global] Instance Sim_Files : StoredFiles Sim := λ _, sim_files.

Lemma delete_all_lookup (del : list string) (f : gmap string string) p :
  foldl (λ f d, base.delete (path_in "" d) f) f del !! p =
  if bool_decide (p ∈ path_in "" <$> del) then None else f !! p.
Proof.
revert f. induction del as [|d del IH]; intros f; [done|]. cbn [foldl fmap list_fmap].
rewrite IH. destruct (decide (path_in "" d = p)) as [<-|Hne].
- rewrite lookup_delete_eq, (bool_decide_true (_ ∈ path_in "" d :: _)) by set_solver. by case_bool_decide.
- rewrite lookup_delete_ne by done. by rewrite (bool_decide_ext (p ∈ path_in "" d :: _)
    (p ∈ path_in "" <$> del)) by set_solver.
Qed.

Lemma below_near dir p : below dir p = true → near dir p = true.
Proof.
unfold below, near, Strings.HasPrefix. generalize (Filepath.Clean dir) as d.
revert p. induction p as [|c p IH]; intros [|x d]; simpl; try done.
case_match; [apply IH|done].
Qed.

Lemma sim_update_ok dir create del f : update_spec dir create del f (sim_update_files dir create del f).
Proof.
unfold sim_update_files. split.
- intros pre w post -> Hpost. by apply (put_files_last (λ w, path_in dir (wl_filepath w))).
- intros Hdir p Hb Hp. rewrite put_files_other by done.
  rewrite bool_decide_false by done. apply map_lookup_filter_None. right. intros x _ Hn.
  simpl in Hn. apply below_near in Hb. congruence.
- intros -> d Hd Hp. rewrite put_files_other by done. simpl.
  rewrite delete_all_lookup, bool_decide_true; [done|]. by apply list_elem_of_fmap_2.
- intros p Hp Hnear Hdel. rewrite put_files_other by done.
  case_bool_decide as Hd.
  + rewrite delete_all_lookup, bool_decide_false by auto. done.
  + specialize (Hnear Hd). destruct (f !! p) eqn:Hf.
    * apply map_lookup_filter_Some. done.
    * apply map_lookup_filter_None. by left.
Qed.

Lemma sim_request_files {A} (f : Z → Cluster → error + (A * Cluster)) s r s' :
  sim_request f s = (r, s') → sim_files s' = sim_files s.
Proof. unfold sim_request. repeat case_match; intros; by simplify_eq/=. Qed.

#[global] Instance Sim_store_laws : StateStoreLaws Sim.
Proof.
split.
6,7,8: intros Sp St C ? s r s' w Hr; apply (sim_request_files _ _ _ _ Hr).
6,7: intros; by simplify_eq/=.
all: intros; apply (wp_elim _ _ _ _ _ (surjective_pairing _)); unfold NewS3Writer, NewGitWriter, ReadFile,
  UpdateFiles, ValidatePermissions, Sim_Store, sim_store; destruct (head (sim_faults s)) as [[x|]|]; simpl; auto.
all: match goal with
  | |- context [sim_files ?s !! ?p] => destruct (sim_files s !! p) eqn:Hf; simpl; eauto
  | H : _ |- _ => eapply H
  end; eauto using sim_update_ok.
by destruct x.
Qed.

(** A store that needs no secret. *)
Definition a_bucket : BucketStateStore :=
  mkResource (new_meta "" "s")
    {| bss_bucketName := "kratix"; bss_endpoint := "minio"; bss_path := ""; bss_secretRef := None;
       bss_insecure := true; bss_authMethod := AuthMethodIAM |} empty_store_status.
