(* ===== verification/S3Writer.v ===== *)
(** * The S3 writer

    [lib/writers/s3.go]: an implementation of the [StateStoreWriter] interface on a bucket.
    The MinIO client is the interface [ObjectStore]; reading an object after
    [GetObject] is one operation with it. *)

From S2P Require Import Prelude GoLib Meta Api Kube Client StateStore.

(** [minio.ObjectInfo], as far as it is used. *)
Record ObjectInfo := { oi_Key : string; oi_ETag : string }.

(** [minio.Options]: how to authenticate, and whether to use TLS. *)
Inductive S3Credentials := NewIAM | NewStaticV4 (id secret : string).
Record S3Options := { so_Secure : bool; so_Creds : S3Credentials }.

(** The client of an object store; objects are named by bucket and key. *)
Class ObjectStore (S : Type) := {
  Minio : Type;
  minio_New : string → S3Options → error + Minio;
  os_Stat : Minio → string → string → S → (error + ObjectInfo) * S;
  os_Get : Minio → string → string → S → (error + string) * S;
  (** returns the version identifier of the upload *)
  os_Put : Minio → string → string → string → S → (error + string) * S;
  os_Remove : Minio → string → string → S → (error + unit) * S;
  (** the items of the listing of a prefix: an object or an error *)
  os_List : Minio → string → string → S → list (error + ObjectInfo) * S;
  os_BucketExists : Minio → string → S → (error + bool) * S;
  os_NewMultipartUpload : Minio → string → string → S → (error + string) * S;
  os_AbortMultipartUpload : Minio → string → string → string → S → (error + unit) * S;
  (** [minio.ToErrorResponse(err).Code == "NoSuchKey"] *)
  IsNoSuchKey : error → bool;
  sha256_hex : string → string;
}.

Record S3Writer {S : Type} `{ObjectStore S} := {
  s3_RepoClient : Minio (S:=S);
  s3_BucketName : string;
  s3_Path : string;
}.
Arguments S3Writer S {_}.

Module S3.
Section writer.
Context {S : Type} `{World S, Lib, !ObjectStore S}.
Implicit Types b : S3Writer S.

Definition s3_credentials (authMethod : string) (creds : Credentials) : error + S3Credentials :=
  if bool_decide (authMethod = AuthMethodIAM) then inr NewIAM
  else if bool_decide (authMethod = "") || bool_decide (authMethod = AuthMethodAccessKey) then
    match creds with
    | None => inl (ErrorMsg "secret not provided")
    | Some data =>
        match data !! "accessKeyID" with
        | None => inl (ErrorMsg "secret is missing key: accessKeyID")
        | Some accessKeyID =>
            match data !! "secretAccessKey" with
            | None => inl (ErrorMsg "secret is missing key: secretAccessKey")
            | Some secretAccessKey => inr (NewStaticV4 accessKeyID secretAccessKey)
            end
        end
    end
  else inl (ErrorMsg ("unknown authMethod: " +:+ authMethod)).

Definition NewS3Writer (stateStoreSpec : BucketStateStoreSpec) (destinationPath : string)
    (creds : Credentials) : error + S3Writer S :=
  match s3_credentials (bss_authMethod stateStoreSpec) creds with
  | inl e => inl e
  | inr c =>
      match minio_New (bss_endpoint stateStoreSpec)
              {| so_Secure := negb (bss_insecure stateStoreSpec); so_Creds := c |} with
      | inl e => inl (ErrorWrap "error initialising S3 client" e)
      | inr client =>
          inr {| s3_RepoClient := client; s3_BucketName := bss_bucketName stateStoreSpec;
                 s3_Path := Filepath.Join [bss_path stateStoreSpec; destinationPath] |}
      end
  end.

(** Calls of the client. *)
Definition StatObject b (objectKey : string) : M S ObjectInfo :=
  call (os_Stat (s3_RepoClient b) (s3_BucketName b) objectKey).
Definition GetObject b (objectKey : string) : M S string :=
  call (os_Get (s3_RepoClient b) (s3_BucketName b) objectKey).
Definition PutObject b (objectKey content : string) : M S string :=
  call (os_Put (s3_RepoClient b) (s3_BucketName b) objectKey content).
Definition remove_key b (objectKey : string) : M S unit :=
  call (os_Remove (s3_RepoClient b) (s3_BucketName b) objectKey).
Definition ListObjects b (prefix : string) : M S (list (error + ObjectInfo)) :=
  total (os_List (s3_RepoClient b) (s3_BucketName b) prefix).

Definition ReadFile b (filename : string) : M S string :=
  let! st := try (StatObject b (Filepath.Join [s3_Path b; filename])) in
  match st with
  | inl err => if IsNoSuchKey err then fail ErrFileNotFound else fail err
  | inr _ => GetObject b (Filepath.Join [s3_Path b; filename])
  end.

(** The listed objects by their keys, up to the first error. *)
Fixpoint collect_objects (items : list (error + ObjectInfo)) (acc : gmap string ObjectInfo)
    : error + gmap string ObjectInfo :=
  match items with
  | [] => inr acc
  | inl e :: _ => inl e
  | inr object :: items' => collect_objects items' (<[oi_Key object := object]> acc)
  end.

Definition getObjectsInDir b (dir : string) : M S (gmap string ObjectInfo) :=
  let dir := if Strings.HasSuffix dir "/" then dir else dir +:+ "/" in
  let! items := ListObjects b (Filepath.Join [s3_Path b; dir]) in
  of_sum (collect_objects items ∅).

(** One of [workloadsToDelete]; what does not exist needs no deleting. *)
Definition mark_for_deletion b (acc : gmap string ObjectInfo) (work : string) : M S (gmap string ObjectInfo) :=
  let! st := try (StatObject b (Filepath.Join [s3_Path b; work])) in
  match st with
  | inl err => if IsNoSuchKey err then ret acc else fail err
  | inr objStat => ret (<[oi_Key objStat := objStat]> acc)
  end.

Definition objects_to_delete b (subDir : string) (workloadsToDelete : list string)
    : M S (gmap string ObjectInfo) :=
  if bool_decide (subDir ≠ "") then getObjectsInDir b subDir
  else foldM (mark_for_deletion b) workloadsToDelete ∅.

(** One of [workloadsToCreate]; what has not changed is not written again. *)
Definition write_workload b (subDir : string) (acc : gmap string ObjectInfo * string) (work : Workload)
    : M S (gmap string ObjectInfo * string) :=
  let '(objectsToDelete, versionID) := acc in
  let objectFullPath := Filepath.Join [s3_Path b; subDir; wl_filepath work] in
  let objectsToDelete := base.delete objectFullPath objectsToDelete in
  let! st := try (StatObject b objectFullPath) in
  let write :=
    let! uploaded := PutObject b objectFullPath (wl_content work) in
    ret (objectsToDelete, sha256_hex (versionID +:+ uploaded)) in
  match st with
  | inl err => if IsNoSuchKey err then write else fail err
  | inr objStat =>
      if bool_decide (oi_ETag objStat = md5_hex (wl_content work))
      then ret (objectsToDelete, versionID) else write
  end.

(** Tries to remove all, and counts those that could not be. *)
Definition deleteObjects b (oldObjectsToDelete : gmap string ObjectInfo) : M S unit :=
  let! entries := Range oldObjectsToDelete in
  let! errCount := foldM (λ n entry,
    let! r := try (remove_key b (oi_Key entry.2)) in
    ret (match r with inl _ => n + 1 | inr _ => n end)) entries 0 in
  if bool_decide (errCount ≠ 0)
  then fail (ErrorMsg ("failed to delete " +:+ pretty errCount +:+ " objects")) else ret tt.

(** A missing bucket is only logged. *)
Definition update b (subDir : string) (workloadsToCreate : list Workload)
    (workloadsToDelete : list string) : M S string :=
  let! objectsToDelete := objects_to_delete b subDir workloadsToDelete in
  try (call (os_BucketExists (s3_RepoClient b) (s3_BucketName b))) ;;;
  let! u := foldM (write_workload b subDir) workloadsToCreate (objectsToDelete, "") in
  let '(objectsToDelete, versionID) := u in
  deleteObjects b objectsToDelete ;;;
  ret versionID.

Definition UpdateFiles b (subDir _workPlacementName : string) (workloadsToCreate : list Workload)
    (workloadsToDelete : list string) : M S string :=
  update b subDir workloadsToCreate workloadsToDelete.

(** One item of the listing of a directory; nothing in the repository calls this method. *)
Definition remove_listed b (item : error + ObjectInfo) : M S unit :=
  let! object := of_sum item in remove_key b (oi_Key object).

Definition RemoveObject b (objectName : string) : M S unit :=
  if Strings.HasSuffix objectName "/" then
    let! items := ListObjects b (Filepath.Join [s3_Path b; objectName]) in
    iterM (remove_listed b) items
  else remove_key b (Filepath.Join [s3_Path b; objectName]).

(** Starts a multipart upload, which needs the permission to write, and gives it up. *)
Definition ValidatePermissions b : M S unit :=
  let testObjectPath := Filepath.Join [s3_Path b; ".kratix-write-permission-check"] in
  let! u := try (call (os_NewMultipartUpload (s3_RepoClient b) (s3_BucketName b) testObjectPath)) in
  match u with
  | inl err => fail (ErrorWrap "write permission validation failed" err)
  | inr uploadID =>
      try (call (os_AbortMultipartUpload (s3_RepoClient b) (s3_BucketName b) testObjectPath uploadID)) ;;;
      ret tt
  end.
End writer.
End S3.
