(* ===== verification/S3Facts.v ===== *)
(** * The S3 writer keeps the contract of a state store *)

From S2P Require Import Prelude GoLib Files Meta Api Kube Client StateStore S3Writer.
From S2P Require Import Sim SimStore.

(** ** The contract, with files named by their full path

    [update_spec] of [StateStore.v] names files relative to the root of the writer; here
    they are keys of the bucket.  At the root "" the two agree. *)
Definition path_at (root dir p : string) : string := Filepath.Join [root; dir; p].
Definition paths_at (root dir : string) (create : list Workload) : list string :=
  (λ w, path_at root dir (wl_filepath w)) <$> create.

Record update_spec_at (root dir : string) (create : list Workload) (del : list string)
    (f f' : gmap string string) : Prop := {
  ua_written : ∀ pre w post, create = pre ++ w :: post →
    path_at root dir (wl_filepath w) ∉ paths_at root dir post →
    f' !! path_at root dir (wl_filepath w) = Some (wl_content w);
  ua_emptied : dir ≠ "" → ∀ p, Strings.HasPrefix p (Filepath.Join [root; dir] +:+ "/") = true →
    p ∉ paths_at root dir create → f' !! p = None;
  ua_deleted : dir = "" → ∀ d, d ∈ del →
    path_at root "" d ∉ paths_at root dir create → f' !! path_at root "" d = None;
  ua_untouched : ∀ p, p ∉ paths_at root dir create →
    (dir ≠ "" → Strings.HasPrefix p (Filepath.Join [root; dir]) = false) →
    (dir = "" → p ∉ path_at root "" <$> del) → f' !! p = f !! p;
}.

(** ** Cleaning *)
Lemma split_aux_snoc s acc : Filepath.split_aux (s +:+ "/") acc = Filepath.split_aux s acc ++ [""].
Proof.
revert acc. induction s as [|c s IH]; intros acc; [done|].
change (String c s +:+ "/") with (String c (s +:+ "/")). cbn [Filepath.split_aux].
by destruct (Ascii.eqb c Filepath.slash); rewrite IH.
Qed.

Lemma clean_trailing s : s ≠ "" → Filepath.Clean (s +:+ "/") = Filepath.Clean s.
Proof.
intros Hs. unfold Filepath.Clean.
assert (Filepath.is_rooted (s +:+ "/") = Filepath.is_rooted s) as ->.
{ unfold Filepath.is_rooted, Strings.HasPrefix. destruct s as [|c s]; [done|].
  change (String c s +:+ "/") with (String c (s +:+ "/")). cbn. case_match; [|done]. by destruct s. }
unfold Filepath.split, Filepath.clean_parts. rewrite split_aux_snoc, foldl_app. done.
Qed.

(** What is listed as the content of a directory: the prefix has no slash at its end. *)
Lemma dir_prefix root dir :
  dir ≠ "" → Filepath.Join [root; if Strings.HasSuffix dir "/" then dir else dir +:+ "/"] =
             Filepath.Join [root; dir].
Proof.
intros Hd. destruct (Strings.HasSuffix dir "/"); [done|]. unfold Filepath.Join.
assert (dir +:+ "/" ≠ "") as Hd' by (by destruct dir).
rewrite !filter_cons, !filter_nil, !(decide_True (P:=dir ≠ "")), !(decide_True (P:=dir +:+ "/" ≠ "")) by done.
case_decide; cbn [Strings.Join].
- change (Filepath.Clean (root +:+ "/" +:+ (dir +:+ "/")) = Filepath.Clean (root +:+ "/" +:+ dir)).
  rewrite <-!string_app_assoc. apply clean_trailing. by destruct root.
- by apply clean_trailing.
Qed.

Lemma prefix_app_l x y z : Strings.HasPrefix z (x +:+ y) = true → Strings.HasPrefix z x = true.
Proof.
unfold Strings.HasPrefix. revert z. induction x as [|c x IH]; intros z; [by destruct z|].
change (String c x +:+ y) with (String c (x +:+ y)). destruct z as [|d z]; [done|]. cbn.
case_match; [apply IH|done].
Qed.

(** ** What the client promises *)
Class Bucket (S : Type) `{ObjectStore S} := objects : Minio (S:=S) → string → S → gmap string string.

Class ObjectStoreLaws (S : Type) `{World S, Viewed S, Lib, ObjectStore S, !Bucket S} : Prop := {
  (** an ETag that is an MD5 sum is that of the object's content *)
  stat_ok : ∀ c bkt k s o s', os_Stat c bkt k s = (inr o, s') →
    view s' = view s ∧ objects c bkt s' = objects c bkt s ∧ oi_Key o = k ∧
    ∃ content, objects c bkt s !! k = Some content ∧
      ∀ x, oi_ETag o = md5_hex x → md5_hex content = md5_hex x;
  stat_err : ∀ c bkt k s e s', os_Stat c bkt k s = (inl e, s') →
    view s' = view s ∧ objects c bkt s' = objects c bkt s ∧ root_cause e ≠ ErrFileNotFound ∧
    (IsNoSuchKey e = true → objects c bkt s !! k = None);
  get_object_ok : ∀ c bkt k s content s', os_Get c bkt k s = (inr content, s') →
    view s' = view s ∧ objects c bkt s' = objects c bkt s ∧ objects c bkt s !! k = Some content;
  get_object_err : ∀ c bkt k s e s', os_Get c bkt k s = (inl e, s') →
    view s' = view s ∧ objects c bkt s' = objects c bkt s ∧ root_cause e ≠ ErrFileNotFound;
  (** an upload or a removal that fails may or may not have happened *)
  put_ok : ∀ c bkt k x s v s', os_Put c bkt k x s = (inr v, s') →
    view s' = view s ∧ objects c bkt s' = <[k := x]> (objects c bkt s);
  put_err : ∀ c bkt k x s e s', os_Put c bkt k x s = (inl e, s') → view s' = view s;
  remove_ok : ∀ c bkt k s s', os_Remove c bkt k s = (inr tt, s') →
    view s' = view s ∧ objects c bkt s' = base.delete k (objects c bkt s);
  remove_err : ∀ c bkt k s e s', os_Remove c bkt k s = (inl e, s') → view s' = view s;
  list_objects_ok : ∀ c bkt prefix s l s', os_List c bkt prefix s = (l, s') →
    view s' = view s ∧ objects c bkt s' = objects c bkt s ∧
    ∀ infos, l = inr <$> infos → ∀ k, k ∈ oi_Key <$> infos ↔
      is_Some (objects c bkt s !! k) ∧ Strings.HasPrefix k prefix = true;
  bucket_exists_ok : ∀ c bkt s r s', os_BucketExists c bkt s = (r, s') →
    view s' = view s ∧ objects c bkt s' = objects c bkt s;
  new_upload_ok : ∀ c bkt k s r s', os_NewMultipartUpload c bkt k s = (r, s') →
    view s' = view s ∧ objects c bkt s' = objects c bkt s;
  abort_upload_ok : ∀ c bkt k u s r s', os_AbortMultipartUpload c bkt k u s = (r, s') →
    view s' = view s ∧ objects c bkt s' = objects c bkt s;
  range_keeps_objects : ∀ V (m : gmap string V) c bkt s l s',
    w_range m s = (l, s') → objects c bkt s' = objects c bkt s;
}.

Section facts.
Context {S : Type} `{World S, Viewed S, !WorldLaws S, Lib}.
Context `{!ObjectStore S, !Bucket S, !ObjectStoreLaws S}.
Implicit Types (b : S3Writer S) (s : S).

(** The objects in the bucket of the writer. *)
Definition bucket b s : gmap string string := objects (s3_RepoClient b) (s3_BucketName b) s.

Definition idle b s s' : Prop := view s' = view s ∧ bucket b s' = bucket b s.

Lemma wp_StatObject b k (Q : outcome ObjectInfo → S → Prop) s :
  (∀ o content s', idle b s s' → oi_Key o = k → bucket b s !! k = Some content →
     (∀ x, oi_ETag o = md5_hex x → md5_hex content = md5_hex x) → Q (Ok o) s') →
  (∀ e s', idle b s s' → root_cause e ≠ ErrFileNotFound →
     (IsNoSuchKey e = true → bucket b s !! k = None) → Q (Fail e) s') →
  wp (S3.StatObject b k) Q s.
Proof.
intros HO HE. apply wp_call.
- intros o s' (Hv & Ho & Hk & content & Hc & Ht)%stat_ok. by eapply HO.
- intros e s' (Hv & Ho & Hn & Hk)%stat_err. by apply HE.
Qed.

Lemma wp_PutObject b k x (Q : outcome string → S → Prop) s :
  (∀ v s', view s' = view s → bucket b s' = <[k := x]> (bucket b s) → Q (Ok v) s') →
  (∀ e s', view s' = view s → Q (Fail e) s') → wp (S3.PutObject b k x) Q s.
Proof.
intros HO HE. apply wp_call.
- intros v s' [Hv Ho]%put_ok. by apply HO.
- intros e s' Hv%put_err. by apply HE.
Qed.

Lemma collect_objects_ok items acc m :
  S3.collect_objects items acc = inr m →
  ∃ infos, items = inr <$> infos ∧ ∀ k, is_Some (m !! k) ↔ k ∈ oi_Key <$> infos ∨ is_Some (acc !! k).
Proof.
revert acc. induction items as [|[e|o] items IH]; intros acc; cbn.
- intros [= ->]. exists []. split; [done|]. intros k. cbn. set_solver.
- done.
- intros (infos & -> & Hk)%IH. exists (o :: infos). split; [done|]. intros k. rewrite Hk, fmap_cons, elem_of_cons.
  destruct (decide (k = oi_Key o)) as [->|Hne].
  + rewrite lookup_insert_eq. split; [by left; left|]. intros _. right. by eexists.
  + rewrite lookup_insert_ne by done. naive_solver.
Qed.

(** Every entry is filed under its key. *)
Definition filed_objects (m : gmap string ObjectInfo) : Prop := ∀ k o, m !! k = Some o → oi_Key o = k.

Lemma collect_objects_filed items acc m :
  filed_objects acc → S3.collect_objects items acc = inr m → filed_objects m.
Proof.
revert acc. induction items as [|[e|o] items IH]; intros acc Hacc; cbn; [by intros [= <-]|done|].
apply IH. intros k o'. rewrite lookup_insert_Some. naive_solver.
Qed.

(** The objects that are deleted unless they are written again. *)
Definition stale b (dir : string) (del : list string) (f : gmap string string) (k : string) : Prop :=
  is_Some (f !! k) ∧
  if bool_decide (dir ≠ "") then Strings.HasPrefix k (Filepath.Join [s3_Path b; dir]) = true
  else k ∈ (λ d, Filepath.Join [s3_Path b; d]) <$> del.

Lemma wp_objects_to_delete b dir del (Q : outcome (gmap string ObjectInfo) → S → Prop) s :
  (∀ m s', idle b s s' → filed_objects m → (∀ k, is_Some (m !! k) ↔ stale b dir del (bucket b s) k) →
     Q (Ok m) s') →
  (∀ e s', idle b s s' → Q (Fail e) s') →
  wp (S3.objects_to_delete b dir del) Q s.
Proof.
intros HO HE. unfold S3.objects_to_delete, stale in *. case_bool_decide as Hd.
- unfold S3.getObjectsInDir. cbv zeta. rewrite dir_prefix by done.
  apply wp_bind, wp_total. intros items s1 (Hv & Ho & Hl)%list_objects_ok.
  unfold of_sum. destruct (S3.collect_objects items ∅) as [e|m] eqn:Hc; [by apply wp_fail, HE|].
  apply wp_ret, HO; [done| |].
  + by apply (collect_objects_filed _ _ _ ltac:(intros k o; by rewrite lookup_empty) Hc).
  + apply collect_objects_ok in Hc as (infos & -> & Hk). intros k. rewrite Hk, (Hl infos) by done.
    unfold bucket. rewrite lookup_empty. split; [intros [?|[? ?]]; done|by left].
- apply (wp_foldM _ (λ done _ m s', idle b s s' ∧ filed_objects m ∧ ∀ k, is_Some (m !! k) ↔
    is_Some (bucket b s !! k) ∧ k ∈ (λ d, Filepath.Join [s3_Path b; d]) <$> done)).
  + split; [done|]. split; [by intros k o; rewrite lookup_empty|]. intros k. rewrite lookup_empty.
    split; [by intros [? ?]|]. cbn. set_solver.
  + intros done d todo m s1 _ ([Hv1 Hb1] & Hf & Hm). apply wp_bind, wp_try, wp_StatObject.
    * intros o content s2 [Hv2 Hb2] Hk Hc _. apply wp_ret. split; [split; congruence|]. split.
      { intros k o'. rewrite lookup_insert_Some. naive_solver. }
      intros k. rewrite fmap_app, elem_of_app. cbn. rewrite list_elem_of_singleton, Hk.
      rewrite Hb1 in Hc. destruct (decide (k = Filepath.Join [s3_Path b; d])) as [->|Hne].
      -- rewrite lookup_insert_eq, Hc. split; [by eauto|]. by eexists.
      -- rewrite lookup_insert_ne by done. rewrite Hm. tauto.
    * intros e s2 [Hv2 Hb2] _ Hnk. destruct (IsNoSuchKey e); [|apply wp_fail, HE; split; congruence].
      apply wp_ret. split; [split; congruence|]. split; [done|]. intros k.
      rewrite Hm, fmap_app, elem_of_app. cbn. rewrite list_elem_of_singleton. split; [tauto|].
      intros [Hs [?|Hk]]; [done|]. rewrite Hk, <-Hb1, Hnk in Hs by done. by destruct Hs.
  + intros m s1 (Hi & Hf & Hm). by apply HO.
Qed.

(** The key of a workload. *)
Definition object_key b dir (w : Workload) : string := path_at (s3_Path b) dir (wl_filepath w).

Lemma wp_bucketExists b (Q : outcome (error + bool) → S → Prop) s :
  (∀ r s', idle b s s' → Q (Ok r) s') →
  wp (try (call (os_BucketExists (s3_RepoClient b) (s3_BucketName b)))) Q s.
Proof.
intros HQ. apply wp_try, wp_call; intros r s' [Hv Ho]%bucket_exists_ok; by apply HQ.
Qed.

(** The new contents collide with nothing: contents in the bucket or to be written
    that have the same MD5 sum are the same. *)
Definition no_collisions (f : gmap string string) (create : list Workload) : Prop :=
  ∀ w x, w ∈ create → (∃ k, f !! k = Some x) ∨ x ∈ wl_content <$> create →
    md5_hex x = md5_hex (wl_content w) → x = wl_content w.

Lemma wp_write_workloads b dir create m (Q : outcome (gmap string ObjectInfo * string) → S → Prop) s :
  (∀ m' v s', view s' = view s → bucket b s' = foldl (put_file (object_key b dir)) (bucket b s) create →
     (∀ k, m' !! k = if bool_decide (k ∈ paths_at (s3_Path b) dir create) then None else m !! k) →
     Q (Ok (m', v)) s') →
  (∀ e s', view s' = view s → Q (Fail e) s') →
  no_collisions (bucket b s) create →
  wp (foldM (S3.write_workload b dir) create (m, "")) Q s.
Proof.
intros HO HE Hcol.
apply (wp_foldM _ (λ done _ acc s', view s' = view s ∧
  bucket b s' = foldl (put_file (object_key b dir)) (bucket b s) done ∧
  ∀ k, acc.1 !! k = if bool_decide (k ∈ paths_at (s3_Path b) dir done) then None else m !! k)).
- split_and!; [done..|]. intros k. cbn. by rewrite bool_decide_false by set_solver.
- intros done w todo [m1 v1] s1 Hdone (Hv1 & Hb1 & Hm1). cbn [fst] in Hm1. unfold S3.write_workload.
  set (p := path_at (s3_Path b) dir (wl_filepath w)).
  change (Filepath.Join [s3_Path b; dir; wl_filepath w]) with p. cbv zeta.
  assert (∀ k, base.delete p m1 !! k =
    if bool_decide (k ∈ paths_at (s3_Path b) dir (done ++ [w])) then None else m !! k) as Hm.
  { intros k. unfold paths_at. rewrite fmap_app. cbn. fold p. destruct (decide (k = p)) as [->|Hne].
    - rewrite lookup_delete_eq, bool_decide_true by set_solver. done.
    - rewrite lookup_delete_ne, Hm1 by done. unfold paths_at.
      by rewrite (bool_decide_ext (k ∈ _ ++ [p]) (k ∈ (λ w0, path_at (s3_Path b) dir (wl_filepath w0)) <$> done))
        by set_solver. }
  assert (∀ s2, idle b s1 s2 → wp (let! uploaded := S3.PutObject b p (wl_content w) in
      ret (base.delete p m1, sha256_hex (v1 +:+ uploaded)))
    (λ r s3, match r with
     | Ok acc => view s3 = view s ∧ bucket b s3 = foldl (put_file (object_key b dir)) (bucket b s) (done ++ [w]) ∧
         ∀ k, acc.1 !! k = if bool_decide (k ∈ paths_at (s3_Path b) dir (done ++ [w])) then None else m !! k
     | Fail e => Q (Fail e) s3
     | Panicked => Q Panicked s3
     end) s2) as Hput.
  { intros s2 [Hv2 Hb2]. apply wp_bind, wp_PutObject.
    - intros v s3 Hv3 Hb3. apply wp_ret. split; [congruence|]. split; [|done].
      rewrite Hb3, Hb2, Hb1, foldl_app. done.
    - intros e s3 Hv3. apply HE. congruence. }
  apply wp_bind, wp_try, wp_StatObject.
  + intros o content s2 Hi Hk Hc Ht. case_bool_decide as Htag; [|by apply Hput].
    destruct Hi as [Hv2 Hb2]. apply wp_ret. split; [congruence|]. split; [|done].
    rewrite Hb2, foldl_app, <-Hb1. cbn. unfold put_file, object_key. fold p. rewrite insert_id; [done|].
    rewrite Hc. f_equal. apply Hcol; [set_solver| |by apply Ht].
    rewrite Hb1, put_files_lookup in Hc. case_match eqn:Hl; [|by left; eauto].
    right. injection Hc as <-. apply last_Some_elem_of, list_elem_of_filter in Hl as [_ Hl]. set_solver.
  + intros e s2 Hi _ _. destruct (IsNoSuchKey e); [by apply Hput|]. apply wp_fail, HE. destruct Hi. congruence.
- intros [m' v] s1 (Hv & Hb & Hm). by apply HO.
Qed.

Lemma wp_deleteObjects b m (Q : outcome unit → S → Prop) s :
  filed_objects m →
  (∀ s', view s' = view s →
     (∀ k, bucket b s' !! k = if bool_decide (is_Some (m !! k)) then None else bucket b s !! k) →
     Q (Ok tt) s') →
  (∀ e s', view s' = view s → Q (Fail e) s') →
  wp (S3.deleteObjects b m) Q s.
Proof.
intros Hf HO HE. unfold S3.deleteObjects. apply wp_bind, wp_total.
intros entries s1 Hr. pose proof (range_ok _ _ _ _ _ Hr) as [Hv1 Hperm].
pose proof (range_keeps_objects _ _ (s3_RepoClient b) (s3_BucketName b) _ _ _ Hr) as Hb1.
assert (∀ e, e ∈ entries → oi_Key e.2 = e.1) as Hkeys.
{ intros [k o] He. rewrite Hperm in He. apply elem_of_map_to_list in He. by apply Hf. }
apply wp_bind, (wp_foldM _ (λ done _ n s', view s' = view s ∧ (n = 0 → ∀ k, bucket b s' !! k =
  if bool_decide (k ∈ done.*1) then None else bucket b s !! k))).
- split; [done|]. intros _ k. rewrite bool_decide_false by (cbn; set_solver). unfold bucket. by rewrite Hb1.
- intros done [k o] todo n s2 Hd [Hv2 Hb2]. apply wp_bind, wp_try, wp_call.
  + intros [] s3 [Hv3 Hb3]%remove_ok. apply wp_ret. split; [congruence|]. intros Hn k'.
    unfold bucket at 1. rewrite Hb3. rewrite fmap_app. cbn.
    assert (oi_Key o = k) as -> by (apply (Hkeys (k, o)); rewrite Hd; set_solver).
    destruct (decide (k' = k)) as [->|Hne].
    * rewrite lookup_delete_eq, bool_decide_true by set_solver. done.
    * rewrite lookup_delete_ne by done. fold (bucket b s2). rewrite Hb2 by done.
      by rewrite (bool_decide_ext (k' ∈ done.*1 ++ [k]) (k' ∈ done.*1)) by set_solver.
  + intros e s3 Hv3%remove_err. apply wp_ret. split; [congruence|]. lia.
- intros n s2 [Hv2 Hb2]. case_bool_decide as Hn; [by apply wp_fail, HE|]. apply wp_ret, HO; [done|].
  intros k. rewrite Hb2 by lia. rewrite (bool_decide_ext (k ∈ entries.*1) (is_Some (m !! k))); [done|].
  rewrite Hperm. rewrite list_elem_of_fmap. split.
  + intros ([k' o] & -> & Hin%elem_of_map_to_list). by exists o.
  + intros [o Ho]. exists (k, o). split; [done|]. by apply elem_of_map_to_list.
Qed.

Lemma s3_update_spec b dir create del (f f' : gmap string string) (m : gmap string ObjectInfo) :
  (∀ k, is_Some (m !! k) ↔ stale b dir del f k) →
  (∀ k, f' !! k = if bool_decide (is_Some (A:=ObjectInfo)
      (if bool_decide (k ∈ paths_at (s3_Path b) dir create) then None else m !! k))
    then None else foldl (put_file (object_key b dir)) f create !! k) →
  update_spec_at (s3_Path b) dir create del f f'.
Proof.
intros Hm Hf'.
assert (∀ k, k ∉ paths_at (s3_Path b) dir create →
  (stale b dir del f k → f' !! k = None) ∧ (¬ stale b dir del f k → f' !! k = f !! k)) as Hother.
{ intros k Hk. rewrite Hf'. rewrite (bool_decide_false (k ∈ _)), put_files_other by done.
  split; intros Hs; case_bool_decide as Hd; rewrite Hm in Hd; tauto. }
assert (∀ k, k ∉ paths_at (s3_Path b) dir create → (is_Some (f !! k) → stale b dir del f k) → f' !! k = None) as Hgone.
{ intros k Hk Hs. destruct (Hother k Hk) as [H1' H2']. destruct (f !! k) eqn:Hfk; [by eauto|].
  rewrite H2'; [done|]. intros [[? ?] _]. congruence. }
unfold stale in *. split.
- intros pre w post -> Hw. rewrite Hf', (bool_decide_true (_ ∈ _)), (bool_decide_false (is_Some None)).
  + by apply (put_files_last (object_key b dir)).
  + by intros [].
  + unfold paths_at. rewrite fmap_app. set_solver.
- intros Hd p Hp Hk. apply Hgone; [done|]. rewrite bool_decide_true by done.
  intros Hs. split; [done|]. by eapply prefix_app_l.
- intros -> d Hd Hk. apply Hgone; [done|]. intros Hs. split; [done|]. cbn.
  apply list_elem_of_fmap. exists d. split; [|done]. unfold path_at, Filepath.Join.
  by rewrite !filter_cons, (decide_False (P:="" ≠ "")) by (by intros []).
- intros p Hk Hnear Hdel. apply Hother; [done|]. intros [_ Hs]. case_bool_decide as Hd.
  + by rewrite Hnear in Hs.
  + assert (dir = "") as Hd' by (destruct (decide (dir = "")); tauto). apply (Hdel Hd').
    apply list_elem_of_fmap in Hs as (d & -> & Hin). apply list_elem_of_fmap. exists d. split; [|done].
    unfold path_at, Filepath.Join. by rewrite !filter_cons, (decide_False (P:="" ≠ "")) by (by intros []).
Qed.

Lemma update_spec_root dir create del f f' :
  update_spec_at "" dir create del f f' → update_spec dir create del f f'.
Proof.
intros [Hw He Hd Hu].
assert (∀ p, Strings.HasPrefix p (Filepath.Join [""; dir] +:+ "/") = below dir p ∨ dir = "") as Hb.
{ intros p. destruct dir; [by right|by left]. }
split; try done.
- intros Hdir p Hp. apply He; [done|]. destruct (Hb p) as [->| ->]; [done|done].
- intros p Hp Hn. apply Hu; [done|]. intros Hdir. specialize (Hn Hdir). by destruct dir.
Qed.

(** C11: An S3 bucket keeps the contract of a state store.  An update that succeeds leaves the last
    content of every workload under its key, has removed everything else from the directory
    (or, without a directory, the files to delete), and has left all other objects
    alone.  Objects whose ETag is the MD5 sum of the new content are not uploaded again,
    which relies on there being no collision among the contents at hand.  For a writer at the root of its bucket this is the contract the
    controllers are proved against.  The cluster is not touched, and nothing panics. *)
Theorem s3_update_refines b dir name create del s :
  no_collisions (bucket b s) create →
  wp (S3.UpdateFiles b dir name create del)
    (post (λ _ s', view s' = view s ∧
             update_spec_at (s3_Path b) dir create del (bucket b s) (bucket b s') ∧
             (s3_Path b = "" → update_spec dir create del (bucket b s) (bucket b s')))
          (λ _ s', view s' = view s)) s.
Proof.
intros Hcol. unfold S3.UpdateFiles, S3.update. apply wp_bind, wp_objects_to_delete; [|by intros e s' [Hv _]].
intros m s1 [Hv1 Hb1] Hf Hm. apply wp_bind, wp_bucketExists. intros r s2 [Hv2 Hb2].
apply wp_bind, wp_write_workloads; [|intros; cbn [post]; congruence|by rewrite Hb2, Hb1].
intros m' v s3 Hv3 Hb3 Hm'. apply wp_bind, wp_deleteObjects.
- intros k o. rewrite Hm'. case_bool_decide; [done|]. apply Hf.
- intros s4 Hv4 Hb4. apply wp_ret. split; [congruence|].
  assert (update_spec_at (s3_Path b) dir create del (bucket b s) (bucket b s4)) as Hu.
  { apply (s3_update_spec _ _ _ _ _ _ m); [done|]. intros k. by rewrite Hb4, Hm', Hb3, Hb2, Hb1. }
  split; [done|]. intros Hr. rewrite Hr in Hu. by apply update_spec_root.
- intros e s4 Hv4. cbn [post]. congruence.
Qed.

Lemma wp_s3_ReadFile b name (Q : outcome string → S → Prop) s :
  (∀ c s', idle b s s' → bucket b s !! path_at (s3_Path b) "" name = Some c → Q (Ok c) s') →
  (∀ e s', idle b s s' →
     (root_cause e = ErrFileNotFound → bucket b s !! path_at (s3_Path b) "" name = None) → Q (Fail e) s') →
  wp (S3.ReadFile b name) Q s.
Proof.
intros HO HE. unfold S3.ReadFile, path_at in *.
assert (Filepath.Join [s3_Path b; ""; name] = Filepath.Join [s3_Path b; name]) as Hj.
{ unfold Filepath.Join. by rewrite !filter_cons, (decide_False (P:="" ≠ "")) by (by intros []). }
rewrite Hj in *. apply wp_bind, wp_try, wp_StatObject.
- intros o content s1 [Hv1 Hb1] _ Hc _. apply wp_call.
  + intros x s2 (Hv2 & Hb2 & Hx)%get_object_ok. apply HO; [split; [congruence|by unfold bucket in *; congruence]|].
    unfold bucket in *. by rewrite <-Hb1.
  + intros e s2 (Hv2 & Hb2 & He)%get_object_err. apply HE; [|done]. split; [congruence|].
    unfold bucket in *. congruence.
- intros e s1 Hi He Hk. destruct (IsNoSuchKey e); apply wp_fail, HE; try done. intros _. by apply Hk.
Qed.
End facts.

(** ** A bucket kept in memory, with the faults of the environment *)
Definition no_such_key : error := ErrorMsg "NoSuchKey".

Definition sim_objects {A} (f : gmap string string → error + (A * gmap string string)) (s : Sim)
    : (error + A) * Sim :=
  match sim_store f s with
  | (Ok a, s') => (inr a, s')
  | (Fail e, s') => (inl e, s')
  | (Panicked, s') => (inl no_such_key, s')
  end.

Definition object_info (k x : string) : ObjectInfo := {| oi_Key := k; oi_ETag := md5_hex x |}.

Definition sim_list (prefix : string) (f : gmap string string) : list (error + ObjectInfo) :=
  (λ kv, inr (object_info kv.1 kv.2)) <$>
    filter (λ kv, Strings.HasPrefix kv.1 prefix = true) (map_to_list f).

#[global] Instance Sim_ObjectStore : ObjectStore Sim := {|
  Minio := unit;
  minio_New _ _ := inr tt;
  os_Stat _ _ k := sim_objects (λ f,
    match f !! k with Some x => inr (object_info k x, f) | None => inl no_such_key end);
  os_Get _ _ k := sim_objects (λ f, match f !! k with Some x => inr (x, f) | None => inl no_such_key end);
  os_Put _ _ k x := sim_objects (λ f, inr ("version-of-" +:+ k, <[k := x]> f));
  os_Remove _ _ k := sim_objects (λ f, inr (tt, base.delete k f));
  os_List _ _ prefix s :=
    match sim_objects (λ f, inr (sim_list prefix f, f)) s with
    | (inl e, s') => ([inl e], s')
    | (inr l, s') => (l, s')
    end;
  os_BucketExists _ _ := sim_objects (λ f, inr (true, f));
  os_NewMultipartUpload _ _ _ := sim_objects (λ f, inr ("upload", f));
  os_AbortMultipartUpload _ _ _ _ := sim_objects (λ f, inr (tt, f));
  IsNoSuchKey e := bool_decide (e = no_such_key);
  sha256_hex x := "sha256-" +:+ x;
|}.

#[global] Instance Sim_Bucket : Bucket Sim := λ _ _, sim_files.

(** A request either fails with a fault and changes nothing, or is answered. *)
Lemma sim_objects_spec {A} (f : gmap string string → error + (A * gmap string string)) s r s' :
  sim_objects f s = (r, s') →
  view s' = view s ∧
  ((∃ x, r = inl (fault_error x) ∧ sim_files s' = sim_files s) ∨
   (∃ e, f (sim_files s) = inl e ∧ r = inl e ∧ sim_files s' = sim_files s) ∨
   (∃ a f', f (sim_files s) = inr (a, f') ∧ r = inr a ∧ sim_files s' = f')).
Proof.
unfold sim_objects, sim_store. destruct (head (sim_faults s)) as [[x|]|];
  [|destruct (f (sim_files s)) as [e|[a f']] eqn:Hf..]; intros [= <- <-];
  (split; [done|]); eauto 9.
Qed.

Lemma fault_is_not_missing x : fault_error x ≠ no_such_key ∧ root_cause (fault_error x) ≠ ErrFileNotFound.
Proof. by destruct x. Qed.

Lemma sim_list_spec prefix (f : gmap string string) infos :
  sim_list prefix f = inr <$> infos → ∀ k, k ∈ oi_Key <$> infos ↔
    is_Some (f !! k) ∧ Strings.HasPrefix k prefix = true.
Proof.
intros Hl k.
assert (inr (A:=error) <$> infos =
  inr <$> ((λ kv, object_info kv.1 kv.2) <$> filter (λ kv, Strings.HasPrefix kv.1 prefix = true) (map_to_list f))) as Heq.
{ rewrite <-Hl. unfold sim_list. by rewrite <-list_fmap_compose. }
apply (inj (fmap inr)) in Heq as ->. rewrite <-list_fmap_compose, list_elem_of_fmap. split.
- intros ([k' x] & -> & [Hp Hin%elem_of_map_to_list]%list_elem_of_filter). split; [by exists x|done].
- intros [[x Hx] Hp]. exists (k, x). split; [done|]. apply list_elem_of_filter.
  split; [done|]. by apply elem_of_map_to_list.
Qed.

Ltac split_request :=
  match goal with
  | Hr : sim_objects _ _ = _ |- _ =>
      let Hv := fresh "Hv" in
      apply sim_objects_spec in Hr as (Hv & [(? & ? & ?)|[(? & ? & ? & ?)|(? & ? & ? & ? & ?)]])
  end;
  try match goal with
  | Hg : match ?l with Some _ => _ | None => _ end = _ |- _ => destruct l eqn:?
  end; simplify_eq.

#[global] Instance Sim_object_store_laws : ObjectStoreLaws Sim.
Proof.
split; unfold objects, Sim_Bucket; cbn [os_Stat os_Get os_Put os_Remove os_List os_BucketExists
  os_NewMultipartUpload os_AbortMultipartUpload IsNoSuchKey Sim_ObjectStore].
- intros c bkt k s o s' Hr. split_request. split_and!; [done..|]. eexists. split; [done|]. done.
- intros c bkt k s e s' Hr. split_request.
  + match goal with x : fault |- _ => destruct (fault_is_not_missing x) end. split_and!; [done..|]. by rewrite bool_decide_false.
  + by split_and!.
- intros c bkt k s o s' Hr. by split_request.
- intros c bkt k s e s' Hr. split_request; [|by split_and!].
  by match goal with x : fault |- _ => destruct (fault_is_not_missing x) end.
- intros c bkt k y s v s' Hr. by split_request.
- intros c bkt k y s e s' Hr. by split_request.
- intros c bkt k s s' Hr. by split_request.
- intros c bkt k s e s' Hr. by split_request.
- intros c bkt prefix s l s'. destruct (sim_objects _ s) as [r s1] eqn:Hr. intros Heq.
  assert (s1 = s' ∧ l = match r with inl e => [inl e] | inr l => l end) as [-> ->]
    by (by destruct r; simplify_eq).
  split_request; (split; [done|]; split; [done|]).
  + intros [|? ?] [=].
  + intros infos Hl. by apply sim_list_spec.
- intros c bkt s r s' Hr. by split_request.
- intros c bkt k s r s' Hr. by split_request.
- intros c bkt k u s r s' Hr. by split_request.
- intros V m c bkt s l s' Hr. by simplify_eq/=.
Qed.

(** A writer at the root of the bucket; the directory holds one file that stays the same and
    one that goes. *)
Definition s3_writer (path : string) : S3Writer Sim :=
  {| s3_RepoClient := tt; s3_BucketName := "kratix"; s3_Path := path |}.
Definition bucket_sim (f : gmap string string) : Sim := sim_set_files f (sim_of empty_cluster).
Definition wl (p c : string) : Workload := {| wl_filepath := p; wl_content := c |}.

Lemma s3_update_refines_witness :
  let s := bucket_sim {["redis/a.yaml" := "a"; "redis/old.yaml" := "old"; "other/x.yaml" := "x"]} in
  let create := [wl "a.yaml" "a"; wl "b.yaml" "b"] in
  let run := S3.UpdateFiles (s3_writer "") "redis" "p" create [] s in
  run.1 = Ok "sha256-version-of-redis/b.yaml" ∧
  update_spec "redis" create [] (sim_files s) (sim_files run.2) ∧
  sim_files run.2 = {["redis/a.yaml" := "a"; "redis/b.yaml" := "b"; "other/x.yaml" := "x"]}.
Proof.
cbv zeta.
set (s := bucket_sim {["redis/a.yaml" := "a"; "redis/old.yaml" := "old"; "other/x.yaml" := "x"]}).
set (create := [wl "a.yaml" "a"; wl "b.yaml" "b"]).
split; [vm_compute; reflexivity|]. split; [|vm_compute; reflexivity].
assert (no_collisions (bucket (s3_writer "") s) create) as Hcol.
{ intros w x Hw Hx Heq.
  assert (x ∈ ["a"; "old"; "x"; "b"]) as Hin.
  { destruct Hx as [[k Hk]|Hx]; [|revert Hx; vm_compute; set_solver].
    assert (map_Forall (λ _ x, x ∈ ["a"; "old"; "x"; "b"]) (bucket (s3_writer "") s)) as Hall
      by (apply (bool_decide_unpack _); vm_compute; exact I).
    by apply (Hall k). }
  assert (Forall (λ x, Forall (λ w, md5_hex x = md5_hex (wl_content w) → x = wl_content w) create)
    ["a"; "old"; "x"; "b"]) as Hall by (apply (bool_decide_unpack _); vm_compute; exact I).
  rewrite Forall_forall in Hall. specialize (Hall x Hin). rewrite Forall_forall in Hall. by apply Hall. }
pose proof (s3_update_refines (s3_writer "") "redis" "p" create [] s Hcol) as Hwp.
read_off Hwp. destruct Hwp as (v & _ & _ & _ & Hu). exact (Hu eq_refl).
Defined.

(** The listing of a directory is by a prefix without a slash at its end: an update of one
    directory removes the files of another whose name starts with it. *)
Lemma sibling_directory_emptied :
  let s := bucket_sim {["resources/redis/a.yaml" := "a"; "resources/redis-ha/b.yaml" := "b"]} in
  sim_files (S3.UpdateFiles (s3_writer "") "resources/redis" "p" [wl "a.yaml" "a"] [] s).2 =
  {["resources/redis/a.yaml" := "a"]}.
Proof. vm_compute. reflexivity. Qed.
