(* ===== verification/GitWriter.v ===== *)
(** * The git writer

    [lib/writers/git.go]: an implementation of the [StateStoreWriter] interface on a branch of a
    git repository.  Every operation clones the branch into a temporary directory; an update
    changes the clone, commits and pushes.  go-git and the file system are the interface
    [GitClient].  The list of unsupported capabilities, a global variable of go-git that is set
    for the time of a clone, is an argument of the clone. *)

From S2P Require Import Prelude GoLib Meta Api Kube Client StateStore.

Definition BasicAuthMethod := "basicAuth".
Definition SSHAuthMethod := "ssh".

Class GitClient (S : Type) := {
  (** ssh credentials: the key and the callback that knows the hosts *)
  PublicKeys : Type;
  HostKeyCallback : Type;
  Repository : Type;
  Worktree : Type;
  (** [transport.NewEndpoint], of which the user is read *)
  Endpoint_User : string → error + string;
  ssh_NewPublicKeys : string → string → error + PublicKeys;
  ssh_NewKnownHostsCallback : string → S → (error + HostKeyCallback) * S;
  (** the file system; temporary files and directories get a new name *)
  os_CreateTemp : string → S → (error + string) * S;
  os_Write : string → string → S → (error + unit) * S;
  os_RemoveFile : string → S → (error + unit) * S;
  os_MkdirTemp : string → S → (error + string) * S;
  os_RemoveAll : string → S → (error + unit) * S;
  os_MkdirAll : string → S → (error + unit) * S;
  os_WriteFile : string → string → S → (error + unit) * S;
  os_ReadFile : string → S → (error + string) * S;
  (** [repo.Worktree], and operations on a worktree, by paths relative to it *)
  repo_Worktree : Repository → S → (error + Worktree) * S;
  wt_Lstat : Worktree → string → S → (error + unit) * S;
  wt_Remove : Worktree → string → S → (error + unit) * S;
  wt_Add : Worktree → string → S → (error + unit) * S;
  (** [Status().IsClean()] *)
  wt_IsClean : Worktree → S → (error + bool) * S;
  (** message, author's name and email, time; the hash, "" for a zero one *)
  wt_Commit : Worktree → string → string → string → Z → S → (error + string) * S;
  (** [errors.Is(err, git.NoErrAlreadyUpToDate)] *)
  IsAlreadyUpToDate : error → bool;
}.

Inductive AuthMethod {S : Type} `{GitClient S} :=
  | NoAuth
  | BasicAuth (username password : string)
  | SSHAuth (key : PublicKeys) (hosts : HostKeyCallback).
Arguments AuthMethod S {_}.

Record gitServer {S : Type} `{GitClient S} := { gs_URL : string; gs_Branch : string; gs_Auth : AuthMethod S }.
Arguments gitServer S {_}.
Record gitAuthor := { au_Name : string; au_Email : string }.
Record GitWriter {S : Type} `{GitClient S} := { gw_GitServer : gitServer S; gw_Author : gitAuthor; gw_Path : string }.
Arguments GitWriter S {_}.

(** The requests to the server, which need the credentials. *)
Class GitTransport (S : Type) `{GitClient S} := {
  (** directory, server, whether multi_ack is passed over *)
  PlainClone : string → gitServer S → bool → S → (error + Repository) * S;
  repo_Push : Repository → AuthMethod S → S → (error + unit) * S;
}.

Module Git.
Section writer.
Context {S : Type} `{World S, !GitClient S, !GitTransport S}.
Implicit Types g : GitWriter S.

Definition sshUsernameFromURL (url : string) : error + string :=
  match Endpoint_User url with
  | inl err => inl (ErrorWrap "failed to parse Git URL" err)
  | inr user => inr (if bool_decide (user = "") then "git" else user)
  end.

(** A key the secret has to have; the message names the secret, through a pointer. *)
Definition credential (spec : GitStateStoreSpec) (creds : Credentials) (key what : string) : M S string :=
  match default ∅ creds !! key with
  | Some v => ret v
  | None =>
      match gss_secretRef spec with
      | None => panic
      | Some ref => fail (ErrorMsg (what +:+ " not found in secret " +:+ sr_namespace ref +:+ "/" +:+ sr_name ref))
      end
  end.

(** [fmt.Errorf(msg + ": %w", err)] around a call *)
Definition wrapped {A} (msg : string) (m : M S A) : M S A :=
  let! r := try m in match r with inl err => fail (ErrorWrap msg err) | inr a => ret a end.

Definition ssh_auth (spec : GitStateStoreSpec) (creds : Credentials) : M S (AuthMethod S) :=
  let! sshPrivateKey := credential spec creds "sshPrivateKey" "sshKey" in
  let! knownHosts := credential spec creds "knownHosts" "knownHosts" in
  let! sshUser := wrapped "error parsing GitStateStore url" (of_sum (sshUsernameFromURL (gss_url spec))) in
  let! sshKey := wrapped "error parsing sshKey" (of_sum (ssh_NewPublicKeys sshUser sshPrivateKey)) in
  let! knownHostsFile := wrapped "error creating knownHosts file" (call (os_CreateTemp "knownHosts")) in
  wrapped "error writing knownHosts file" (call (os_Write knownHostsFile knownHosts)) ;;;
  let! knownHostsCallback :=
    wrapped "error parsing known hosts" (call (ssh_NewKnownHostsCallback knownHostsFile)) in
  wrapped "error removing knownHosts file" (call (os_RemoveFile knownHostsFile)) ;;;
  ret (SSHAuth sshKey knownHostsCallback).

Definition basic_auth (spec : GitStateStoreSpec) (creds : Credentials) : M S (AuthMethod S) :=
  let! username := credential spec creds "username" "username" in
  let! password := credential spec creds "password" "password" in
  ret (BasicAuth username password).

Definition NewGitWriter (stateStoreSpec : GitStateStoreSpec) (destinationPath : string) (creds : Credentials)
    : M S (GitWriter S) :=
  let! authMethod :=
    if bool_decide (gss_authMethod stateStoreSpec = SSHAuthMethod) then ssh_auth stateStoreSpec creds
    else if bool_decide (gss_authMethod stateStoreSpec = BasicAuthMethod) then basic_auth stateStoreSpec creds
    else ret NoAuth in
  ret {| gw_GitServer := {| gs_URL := gss_url stateStoreSpec; gs_Branch := gss_branch stateStoreSpec;
                            gs_Auth := authMethod |};
         gw_Author := {| au_Name := ga_name (gss_gitAuthor stateStoreSpec);
                         au_Email := ga_email (gss_gitAuthor stateStoreSpec) |};
         gw_Path := Strings.TrimPrefix (Filepath.Join [gss_path stateStoreSpec; destinationPath]) "/" |}.

Definition createLocalDirectory : M S string := call (os_MkdirTemp "kratix-repo").

Definition cloneRepo g (localRepoFilePath : string) : M S Repository :=
  call (PlainClone localRepoFilePath (gw_GitServer g) (Strings.Contains (gs_URL (gw_GitServer g)) "dev.azure.com")).

Definition setupLocalDirectoryWithRepo g : M S (string * Repository * Worktree) :=
  let! localTmpDir := createLocalDirectory in
  let! repo := cloneRepo g localTmpDir in
  let! worktree := call (repo_Worktree repo) in
  ret (localTmpDir, repo, worktree).

(** [defer os.RemoveAll(dir)]: when the rest returns, whatever it returns. *)
Definition defer_RemoveAll {A} (dir : string) (rest : M S A) : M S A :=
  let! r := try rest in try (call (os_RemoveAll dir)) ;;; of_sum r.

(** One file to delete; what is not there is passed over. *)
Definition delete_file (dir : string) (worktree : Worktree) (file : string) : M S unit :=
  let worktreeFilePath := Filepath.Join [dir; file] in
  let! st := try (call (wt_Lstat worktree worktreeFilePath)) in
  match st with
  | inl _ => ret tt
  | inr _ => call (wt_Remove worktree worktreeFilePath)
  end.

Definition deleteExistingFiles (removeDirectory : bool) (dir : string) (workloadsToDelete : list string)
    (worktree : Worktree) : M S unit :=
  if removeDirectory then
    let! st := try (call (wt_Lstat worktree dir)) in
    match st with
    | inl _ => ret tt
    | inr _ => call (wt_Remove worktree dir)
    end
  else iterM (delete_file dir worktree) workloadsToDelete.

(** The files one after the other.  [false]: a path leads out of the clone, and the rest is not
    looked at. *)
Fixpoint write_files (localTmpDir dirInGitRepo : string) (worktree : Worktree)
    (workloadsToCreate : list Workload) : M S bool :=
  match workloadsToCreate with
  | [] => ret true
  | file :: files =>
      let worktreeFilePath := Filepath.Join [dirInGitRepo; wl_filepath file] in
      let absoluteFilePath := Filepath.Join [localTmpDir; worktreeFilePath] in
      if negb (Strings.HasPrefix absoluteFilePath localTmpDir) then ret false
      else
        call (os_MkdirAll (Filepath.Dir absoluteFilePath)) ;;;
        call (os_WriteFile absoluteFilePath (wl_content file)) ;;;
        call (wt_Add worktree worktreeFilePath) ;;;
        write_files localTmpDir dirInGitRepo worktree files
  end.

Definition push g (repo : Repository) : M S unit := call (repo_Push repo (gs_Auth (gw_GitServer g))).

Definition commitAndPush g (repo : Repository) (worktree : Worktree) (action workPlacementName : string) : M S string :=
  let! clean := call (wt_IsClean worktree) in
  if clean : bool then ret ""
  else
    let! now := Now in
    let! sha := call (wt_Commit worktree (action +:+ " from: " +:+ workPlacementName)
                        (au_Name (gw_Author g)) (au_Email (gw_Author g)) now) in
    push g repo ;;;
    ret sha.

Definition update g (subDir workPlacementName : string) (workloadsToCreate : list Workload)
    (workloadsToDelete : list string) : M S string :=
  if bool_decide (workloadsToCreate = []) && bool_decide (workloadsToDelete = []) && bool_decide (subDir = "")
  then ret ""
  else
    let dirInGitRepo := Filepath.Join [gw_Path g; subDir] in
    let! setup := setupLocalDirectoryWithRepo g in
    let '(localTmpDir, repo, worktree) := setup in
    defer_RemoveAll (Filepath.Dir localTmpDir) (
      deleteExistingFiles (bool_decide (subDir ≠ "")) dirInGitRepo workloadsToDelete worktree ;;;
      let! inside := write_files localTmpDir dirInGitRepo worktree workloadsToCreate in
      if negb inside then ret ""
      else commitAndPush g repo worktree (if bool_decide (workloadsToCreate = []) then "Delete" else "Update")
             workPlacementName).

Definition UpdateFiles g (subDir workPlacementName : string) (workloadsToCreate : list Workload)
    (workloadsToDelete : list string) : M S string :=
  update g subDir workPlacementName workloadsToCreate workloadsToDelete.

Definition ReadFile g (filePath : string) : M S string :=
  let fullPath := Filepath.Join [gw_Path g; filePath] in
  let! setup := setupLocalDirectoryWithRepo g in
  let '(localTmpDir, _, worktree) := setup in
  defer_RemoveAll (Filepath.Dir localTmpDir) (
    let! st := try (call (wt_Lstat worktree fullPath)) in
    match st with
    | inl _ => fail ErrFileNotFound
    | inr _ => call (os_ReadFile (Filepath.Join [localTmpDir; fullPath]))
    end).

Definition validatePush g (repo : Repository) : M S unit :=
  let! r := try (call (repo_Push repo (gs_Auth (gw_GitServer g)))) in
  match r with
  | inl err => if IsAlreadyUpToDate err then ret tt else fail (ErrorWrap "write permission validation failed" err)
  | inr _ => ret tt
  end.

Definition ValidatePermissions g : M S unit :=
  let! setup := wrapped "failed to set up local directory with repo" (setupLocalDirectoryWithRepo g) in
  let '(localTmpDir, repo, _) := setup in
  defer_RemoveAll localTmpDir (validatePush g repo).
End writer.
End Git.
