(* ===== verification/GitFacts.v ===== *)
(** * The git writer keeps the contract of a state store *)

From S2P Require Import Prelude GoLib Files Meta Api Kube Client StateStore S3Writer S3Facts GitWriter.

(** ** What git and the file system promise

    A clone has the files of its last commit ([head_files]), the files staged for the next one
    ([index_files]) and those of the working tree ([tree_files]), by paths relative to its
    directory.  The paths of the laws are plain: they only go down. *)
Class GitState (S : Type) `{GitClient S} := {
  remote : string → string → S → gmap string string;  (** URL, branch *)
  head_files : Repository → S → gmap string string;
  index_files : Repository → S → gmap string string;
  tree_files : Repository → S → gmap string string;
  origin : Repository → string * string;
  repo_dir : Repository → string;
  wt_repo : Worktree → Repository;
}.

(** [k] is the path, or lies below it. *)
Definition under (p k : string) : bool := bool_decide (k = p) || Strings.HasPrefix k (p +:+ "/").

Definition without (p : string) (f f' : gmap string string) : Prop :=
  ∀ k, f' !! k = if under p k then None else f !! k.

(** Neither the cluster nor a server changes. *)
Definition quiet {S} `{Viewed S, GitState S} (s s' : S) : Prop :=
  view s' = view s ∧ ∀ url branch, remote url branch s' = remote url branch s.

Definition same_clone {S} `{GitState S} (r : Repository) (s s' : S) : Prop :=
  head_files r s' = head_files r s ∧ index_files r s' = index_files r s ∧ tree_files r s' = tree_files r s.

(** The sentinel error of the writers comes from nowhere else. *)
Definition foreign {A} (x : error + A) : Prop := ∀ e, x = inl e → root_cause e ≠ ErrFileNotFound.

Class GitLaws (S : Type) `{World S, Viewed S, GitTransport S, !GitState S} : Prop := {
  now_quiet : ∀ s t s', w_now s = (t, s') → quiet s s' ∧ ∀ r, same_clone r s s';
  mkdir_temp_quiet : ∀ n s x s', os_MkdirTemp n s = (x, s') → quiet s s' ∧ foreign x ∧
    ∀ d, x = inr d → Filepath.is_rooted d = true ∧ Filepath.Clean d = d;
  clone_quiet : ∀ d srv b s x s', PlainClone d srv b s = (x, s') → quiet s s' ∧ foreign x ∧
    ∀ r, x = inr r → origin r = (gs_URL srv, gs_Branch srv) ∧ repo_dir r = d ∧
      head_files r s' = remote (gs_URL srv) (gs_Branch srv) s ∧
      index_files r s' = head_files r s' ∧ tree_files r s' = head_files r s';
  worktree_quiet : ∀ r s x s', repo_Worktree r s = (x, s') → quiet s s' ∧ foreign x ∧ same_clone r s s' ∧
    ∀ w, x = inr w → wt_repo w = r;
  (** what is there can be looked at *)
  lstat_quiet : ∀ w p s x s', wt_Lstat w p s = (x, s') → quiet s s' ∧ same_clone (wt_repo w) s s' ∧
    ∀ e, x = inl e → plain p → ∀ k, under p k = true → tree_files (wt_repo w) s !! k = None;
  wt_remove_quiet : ∀ w p s x s', wt_Remove w p s = (x, s') → quiet s s' ∧
    (x = inr tt → plain p → head_files (wt_repo w) s' = head_files (wt_repo w) s ∧
       without p (index_files (wt_repo w) s) (index_files (wt_repo w) s') ∧
       without p (tree_files (wt_repo w) s) (tree_files (wt_repo w) s'));
  mkdir_all_quiet : ∀ p s x s', os_MkdirAll p s = (x, s') → quiet s s' ∧ ∀ r, same_clone r s s';
  write_file_quiet : ∀ q c s x s', os_WriteFile q c s = (x, s') → quiet s s' ∧
    ∀ r p, x = inr tt → plain p → q = Filepath.Join [repo_dir r; p] →
      head_files r s' = head_files r s ∧ index_files r s' = index_files r s ∧
      tree_files r s' = <[p := c]> (tree_files r s);
  add_quiet : ∀ w p s x s', wt_Add w p s = (x, s') → quiet s s' ∧
    ∀ c, x = inr tt → plain p → tree_files (wt_repo w) s !! p = Some c →
      head_files (wt_repo w) s' = head_files (wt_repo w) s ∧
      tree_files (wt_repo w) s' = tree_files (wt_repo w) s ∧
      index_files (wt_repo w) s' = <[p := c]> (index_files (wt_repo w) s);
  is_clean_quiet : ∀ w s x s', wt_IsClean w s = (x, s') → quiet s s' ∧ same_clone (wt_repo w) s s' ∧
    (x = inr true → index_files (wt_repo w) s = head_files (wt_repo w) s);
  commit_quiet : ∀ w m n e t s x s', wt_Commit w m n e t s = (x, s') → quiet s s' ∧
    ∀ sha, x = inr sha → head_files (wt_repo w) s' = index_files (wt_repo w) s;
  push_keeps : ∀ r a s x s', repo_Push r a s = (x, s') → view s' = view s ∧
    (x = inr tt → remote (origin r).1 (origin r).2 s' = head_files r s);
  remove_all_quiet : ∀ p s x s', os_RemoveAll p s = (x, s') → quiet s s';
  read_file_quiet : ∀ q s x s', os_ReadFile q s = (x, s') → quiet s s' ∧
    foreign x ∧
    ∀ r p c, x = inr c → plain p → q = Filepath.Join [repo_dir r; p] → tree_files r s !! p = Some c;
}.

Section facts.
Context {S : Type} `{World S, Viewed S, !GitClient S, !GitTransport S, !GitState S, !GitLaws S}.
Implicit Types (g : GitWriter S) (s : S) (r : Repository) (w : Worktree).

(** The branch of the writer. *)
Definition branch_files g s : gmap string string := remote (gs_URL (gw_GitServer g)) (gs_Branch (gw_GitServer g)) s.

Lemma quiet_refl s : quiet s s.
Proof. by split. Qed.
Lemma quiet_trans s s' s'' : quiet s s' → quiet s' s'' → quiet s s''.
Proof. intros [Hv Hr] [Hv' Hr']. split; [congruence|]. intros. by rewrite Hr', Hr. Qed.

(** A call, when both outcomes are described by one law. *)
Lemma wp_call_both {A} (f : S → (error + A) * S) (Q : outcome A → S → Prop) s :
  (∀ x s', f s = (x, s') → match x with inr a => Q (Ok a) s' | inl e => Q (Fail e) s' end) → wp (call f) Q s.
Proof. intros HQ. apply wp_call; intros a s' Hf; exact (HQ _ _ Hf). Qed.

(** A clone in which nothing is staged beside what is in the working tree. *)
Definition cloned r (h f : gmap string string) s : Prop :=
  head_files r s = h ∧ index_files r s = f ∧ tree_files r s = f.

Lemma cloned_same r h f s s' : cloned r h f s → same_clone r s s' → cloned r h f s'.
Proof. intros (Hh & Hi & Ht) (? & ? & ?). split_and!; congruence. Qed.

Lemma wp_setup g (Q : outcome (string * Repository * Worktree) → S → Prop) s :
  (∀ d r w s', quiet s s' → wt_repo w = r → repo_dir r = d → Filepath.is_rooted d = true → Filepath.Clean d = d →
     origin r = (gs_URL (gw_GitServer g), gs_Branch (gw_GitServer g)) →
     cloned r (branch_files g s) (branch_files g s) s' → Q (Ok (d, r, w)) s') →
  (∀ e s', quiet s s' → root_cause e ≠ ErrFileNotFound → Q (Fail e) s') →
  wp (Git.setupLocalDirectoryWithRepo g) Q s.
Proof.
intros HO HE. apply wp_bind, wp_call_both. intros x s1 (Hq1 & Hf1 & Hd)%mkdir_temp_quiet.
destruct x as [e|d]; [apply HE; auto|].
destruct (Hd d eq_refl) as [Hroot Hclean]. apply wp_bind, wp_call_both. intros x s2 (Hq2 & Hf2 & Hr)%clone_quiet.
pose proof (quiet_trans _ _ _ Hq1 Hq2) as Hq. destruct x as [e|r]; [apply HE; auto|].
destruct (Hr r eq_refl) as (Ho & Hdir & Hh & Hi & Ht). apply wp_bind, wp_call_both.
intros x s3 (Hq3 & Hf3 & Hs & Hw)%worktree_quiet. pose proof (quiet_trans _ _ _ Hq Hq3) as Hq'.
destruct x as [e|w]; [apply HE; auto|]. apply wp_ret, HO; try done; [by apply Hw|].
eapply cloned_same; [|exact Hs]. unfold branch_files. rewrite (proj2 Hq1) in Hh. split_and!; congruence.
Qed.

Lemma wp_defer {A} dir (m : M S A) (Q : outcome A → S → Prop) s :
  wp m (λ x s', ∀ s'', quiet s' s'' → Q x s'') s → wp (Git.defer_RemoveAll dir m) Q s.
Proof.
intros Hm. apply wp_bind, wp_try. eapply wp_mono; [exact Hm|].
assert (∀ (x : error + A) s', (∀ s'', quiet s' s'' → Q (match x with inr a => Ok a | inl e => Fail e end) s'') →
  wp (try (call (os_RemoveAll dir)) ;;; of_sum x) Q s') as Hrest.
{ intros x s' HQ. apply wp_bind, wp_try, wp_call_both. intros y s'' Hq%remove_all_quiet.
  destruct y, x; first [apply wp_fail | apply wp_ret]; by apply HQ. }
intros [a|e|] s' HQ; [exact (Hrest (inr a) s' HQ)|exact (Hrest (inl e) s' HQ)|]. apply HQ, quiet_refl.
Qed.

(** ** Deleting *)
Definition minus (gone : string → bool) (f f' : gmap string string) : Prop :=
  ∀ k, f' !! k = if gone k then None else f !! k.

Lemma wp_remove_path w p h f (Q : outcome unit → S → Prop) s :
  plain p → cloned (wt_repo w) h f s →
  (∀ f' s', quiet s s' → cloned (wt_repo w) h f' s' → without p f f' → Q (Ok tt) s') →
  (∀ e s', quiet s s' → Q (Fail e) s') →
  wp (let! st := try (call (wt_Lstat w p)) in
      match st with inl _ => ret tt | inr _ => call (wt_Remove w p) end) Q s.
Proof.
intros Hp Hc HO HE. apply wp_bind, wp_try, wp_call_both. intros x s1 (Hq1 & Hs & Habs)%lstat_quiet.
pose proof (cloned_same _ _ _ _ _ Hc Hs) as Hc1. destruct x as [e|[]].
- apply wp_ret, (HO f); [done..|]. intros k. destruct (under p k) eqn:Hk; [|done].
  destruct Hc as (_ & _ & <-). by eapply Habs.
- apply wp_call_both. intros x s2 [Hq2 Hrm]%wt_remove_quiet. pose proof (quiet_trans _ _ _ Hq1 Hq2) as Hq.
  destruct x as [e|[]]; [by apply HE|]. destruct (Hrm eq_refl Hp) as (Hh & Hi & Ht), Hc1 as (Hh1 & Hi1 & Ht1).
  rewrite Hi1 in Hi. rewrite Ht1 in Ht. apply (HO (index_files (wt_repo w) s2)); [done| |done].
  split_and!; [congruence|done|]. apply map_eq. intros k. by rewrite Ht, Hi.
Qed.

Lemma wp_deleteExisting w dir del isDir h f (Q : outcome unit → S → Prop) s :
  (if isDir : bool then plain dir else ∀ d, d ∈ del → plain (Filepath.Join [dir; d])) →
  cloned (wt_repo w) h f s →
  (∀ f' s', quiet s s' → cloned (wt_repo w) h f' s' →
     minus (λ k, if isDir then under dir k else existsb (λ d, under (Filepath.Join [dir; d]) k) del) f f' →
     Q (Ok tt) s') →
  (∀ e s', quiet s s' → Q (Fail e) s') →
  wp (Git.deleteExistingFiles isDir dir del w) Q s.
Proof.
intros Hp Hc HO HE. unfold Git.deleteExistingFiles. destruct isDir; [by eapply wp_remove_path|].
apply (wp_foldM _ (λ done _ _ s', quiet s s' ∧ ∃ f', cloned (wt_repo w) h f' s' ∧
  minus (λ k, existsb (λ d, under (Filepath.Join [dir; d]) k) done) f f')).
- split; [apply quiet_refl|]. by exists f.
- intros done d todo [] s1 Hl (Hq1 & f1 & Hc1 & Hm1). unfold Git.delete_file. cbv zeta.
  eapply wp_remove_path; [apply Hp; set_solver|done| |].
  + intros f2 s2 Hq2 Hc2 Hw. split; [by eapply quiet_trans|]. exists f2. split; [done|]. intros k.
    rewrite Hw, Hm1, existsb_app. cbn. by destruct (existsb _ done), (under _ k).
  + intros e s2 Hq2. apply HE. by eapply quiet_trans.
- intros [] s1 (Hq1 & f1 & Hc1 & Hm1). by eapply HO.
Qed.

(** ** Writing *)
Lemma wp_write_files w dir create h f (Q : outcome bool → S → Prop) s :
  Filepath.is_rooted (repo_dir (wt_repo w)) = true →
  Filepath.Clean (repo_dir (wt_repo w)) = repo_dir (wt_repo w) →
  (∀ x, x ∈ create → plain (Filepath.Join [dir; wl_filepath x])) →
  cloned (wt_repo w) h f s →
  (∀ s', quiet s s' →
     cloned (wt_repo w) h (foldl (put_file (λ x, Filepath.Join [dir; wl_filepath x])) f create) s' → Q (Ok true) s') →
  (∀ e s', quiet s s' → Q (Fail e) s') →
  wp (Git.write_files (repo_dir (wt_repo w)) dir w create) Q s.
Proof.
intros Hroot Hclean. revert f s. induction create as [|x create IH]; intros f s Hp Hc HO HE.
{ apply wp_ret, HO; [apply quiet_refl|done]. }
assert (plain (Filepath.Join [dir; wl_filepath x])) as Hpx by (apply Hp; left).
cbn [Git.write_files]. cbv zeta. rewrite join_inside by done. cbn [negb].
apply wp_bind, wp_call_both. intros y s1 [Hq1 Hs1]%mkdir_all_quiet. destruct y as [e|_]; [by apply HE|].
apply (cloned_same _ _ _ _ _ Hc) in Hs1 as Hc1.
apply wp_bind, wp_call_both. intros y s2 [Hq2 Hw2]%write_file_quiet.
pose proof (quiet_trans _ _ _ Hq1 Hq2) as Hq12. destruct y as [e|[]]; [by apply HE|].
destruct (Hw2 (wt_repo w) _ eq_refl Hpx eq_refl) as (Hh2 & Hi2 & Ht2), Hc1 as (Hh1 & Hi1 & Ht1).
apply wp_bind, wp_call_both. intros y s3 [Hq3 Ha3]%add_quiet.
pose proof (quiet_trans _ _ _ Hq12 Hq3) as Hq. destruct y as [e|[]]; [by apply HE|].
destruct (Ha3 (wl_content x) eq_refl Hpx) as (Hh3 & Ht3 & Hi3); [rewrite Ht2; apply lookup_insert_eq|].
apply (IH (put_file (λ x, Filepath.Join [dir; wl_filepath x]) f x)).
- intros z Hz. apply Hp. by right.
- unfold put_file. split_and!; congruence.
- intros s4 Hq4. apply HO. by eapply quiet_trans.
- intros e s4 Hq4. apply HE. by eapply quiet_trans.
Qed.

Lemma wp_commitAndPush g w action name h f (Q : outcome string → S → Prop) s :
  origin (wt_repo w) = (gs_URL (gw_GitServer g), gs_Branch (gw_GitServer g)) →
  branch_files g s = h → cloned (wt_repo w) h f s →
  (∀ v s', view s' = view s → branch_files g s' = f → Q (Ok v) s') →
  (∀ e s', view s' = view s → Q (Fail e) s') →
  wp (Git.commitAndPush g (wt_repo w) w action name) Q s.
Proof.
intros Ho Hb Hc HO HE. apply wp_bind, wp_call_both. intros x s1 (Hq1 & Hs1 & Hcl)%is_clean_quiet.
destruct x as [e|clean]; [apply HE, Hq1|]. destruct clean.
{ apply wp_ret, HO; [apply Hq1|]. unfold branch_files. rewrite (proj2 Hq1). fold (branch_files g s).
  destruct Hc as (Hh & Hi & _). rewrite <-Hi, Hcl by done. congruence. }
apply (cloned_same _ _ _ _ _ Hc) in Hs1 as Hc1. apply wp_bind, wp_total. intros now s2 [Hq2 Hs2]%now_quiet.
apply (cloned_same _ _ _ _ _ Hc1) in Hs2 as Hc2. apply wp_bind, wp_call_both. intros x s3 [Hq3 Hcm]%commit_quiet.
assert (view s3 = view s) as Hv3 by (destruct Hq1, Hq2, Hq3; congruence).
destruct x as [e|sha]; [by apply HE|]. specialize (Hcm sha eq_refl). destruct Hc2 as (_ & Hi2 & _).
apply wp_bind, wp_call_both. intros x s4 [Hv4 Hp]%push_keeps. destruct x as [e|[]]; [apply HE; congruence|].
apply wp_ret, HO; [congruence|]. unfold branch_files. rewrite Ho in Hp. cbn [fst snd] in Hp. rewrite Hp by done. congruence.
Qed.

(** ** The contract *)

(** Nothing stored lies below a file that is to be deleted: it is no directory. *)
Definition no_directories (root : string) (del : list string) (f : gmap string string) : Prop :=
  ∀ d k, d ∈ del → Strings.HasPrefix k (path_at root "" d +:+ "/") = true → f !! k = None.

Lemma under_prefix p k : under p k = true → Strings.HasPrefix k p = true.
Proof.
unfold under. rewrite orb_true_iff. intros [->%bool_decide_eq_true|Hk]; [|by eapply prefix_app_l].
rewrite <-(string_app_nil_r p) at 1. apply prefix_of_app.
Qed.

Lemma path_at_join root dir p : Filepath.Join [Filepath.Join [root; dir]; p] = path_at root dir p.
Proof. apply join_nested. Qed.

Lemma existsb_ext {A} (p q : A → bool) l : (∀ x, p x = q x) → existsb p l = existsb q l.
Proof. intros Hpq. induction l as [|x l IH]; [done|]. cbn. by rewrite Hpq, IH. Qed.

Lemma put_files_ext (p q : Workload → string) create (f : gmap string string) :
  (∀ x, p x = q x) → foldl (put_file p) f create = foldl (put_file q) f create.
Proof.
intros Hpq. revert f. induction create as [|x create IH]; intros f; [done|]. cbn. rewrite IH. unfold put_file.
by rewrite Hpq.
Qed.

Lemma git_update_spec root dir create del (f f1 : gmap string string) :
  (dir = "" → no_directories root del f) →
  minus (λ k, if bool_decide (dir ≠ "") then under (Filepath.Join [root; dir]) k
              else existsb (λ d, under (Filepath.Join [Filepath.Join [root; dir]; d]) k) del) f f1 →
  update_spec_at root dir create del f
    (foldl (put_file (λ x, Filepath.Join [Filepath.Join [root; dir]; wl_filepath x])) f1 create).
Proof.
intros Hnd Hm'. set (at_ := λ x, path_at root dir (wl_filepath x)).
assert (minus (λ k, if bool_decide (dir ≠ "") then under (Filepath.Join [root; dir]) k
                    else existsb (λ d, under (path_at root dir d) k) del) f f1) as Hm.
{ intros k. rewrite Hm'. case_bool_decide; [done|]. erewrite existsb_ext; [done|]. intros d. by rewrite path_at_join. }
assert (foldl (put_file (λ x, Filepath.Join [Filepath.Join [root; dir]; wl_filepath x])) f1 create =
        foldl (put_file at_) f1 create) as ->.
{ apply put_files_ext. intros x. apply path_at_join. }
assert (∀ k, k ∉ paths_at root dir create → foldl (put_file at_) f1 create !! k = f1 !! k) as Hother
  by (intros k Hk; by apply put_files_other).
split.
- intros pre w post -> Hw. exact (put_files_last at_ pre w post f1 Hw).
- intros Hd p Hp Hk. rewrite Hother, Hm by done. rewrite bool_decide_true by done. unfold under.
  by rewrite Hp, orb_true_r.
- intros -> d Hd Hk. rewrite Hother, Hm by done. rewrite bool_decide_false by tauto.
  assert (existsb (λ d0, under (path_at root "" d0) (path_at root "" d)) del = true) as ->; [|done].
  apply existsb_exists. exists d. split; [by apply list_elem_of_In|]. unfold under. by rewrite bool_decide_true.
- intros p Hk Hnear Hdel. rewrite Hother, Hm by done. case_bool_decide as Hd.
  + destruct (under _ p) eqn:Hu; [|done]. apply under_prefix in Hu. by rewrite Hnear in Hu.
  + assert (dir = "") as -> by (destruct (decide (dir = "")); tauto).
    destruct (existsb _ del) eqn:He; [|done]. symmetry.
    apply existsb_exists in He as (d & Hin%list_elem_of_In & Hu). unfold under in Hu.
    apply orb_true_iff in Hu as [->%bool_decide_eq_true|Hu]; [|by eapply (Hnd eq_refl)].
    destruct (Hdel eq_refl). by apply list_elem_of_fmap_2.
Qed.

(** The paths of an update stay inside the repository. *)
Record paths_inside (root dir : string) (create : list Workload) (del : list string) : Prop := {
  in_dir : dir ≠ "" → plain (Filepath.Join [root; dir]);
  in_create : ∀ x, x ∈ create → plain (path_at root dir (wl_filepath x));
  in_del : dir = "" → ∀ d, d ∈ del → plain (path_at root "" d);
}.


(** Reading: the content on the server, or that there is none. *)
Lemma wp_git_ReadFile g name (Q : outcome string → S → Prop) s :
  plain (path_at (gw_Path g) "" name) →
  (∀ c s', quiet s s' → branch_files g s !! path_at (gw_Path g) "" name = Some c → Q (Ok c) s') →
  (∀ e s', quiet s s' →
     (root_cause e = ErrFileNotFound → branch_files g s !! path_at (gw_Path g) "" name = None) → Q (Fail e) s') →
  wp (Git.ReadFile g name) Q s.
Proof.
intros Hp HO HE. assert (Filepath.Join [gw_Path g; name] = path_at (gw_Path g) "" name) as Hj.
{ unfold path_at, Filepath.Join. by rewrite !filter_cons, (decide_False (P:="" ≠ "")) by (by intros []). }
unfold Git.ReadFile. cbv zeta. rewrite Hj. apply wp_bind, wp_setup; [|intros e s' Hq Hf; by apply HE].
intros d r w s1 Hq1 Hw Hdir _ _ _ (_ & _ & Ht). subst r d. apply wp_defer, wp_bind, wp_try, wp_call_both.
intros x s2 (Hq2 & (_ & _ & Ht2) & Habs)%lstat_quiet. pose proof (quiet_trans _ _ _ Hq1 Hq2) as Hq. destruct x as [e|u].
- apply wp_fail. intros s3 Hq3. apply HE; [by eapply quiet_trans|]. intros _. rewrite <-Ht.
  eapply Habs; [done..|]. unfold under. by rewrite bool_decide_true.
- apply wp_call_both. intros x s3 (Hq3 & Hf & Hr)%read_file_quiet. pose proof (quiet_trans _ _ _ Hq Hq3) as Hq'.
  destruct x as [e|c]; intros s4 Hq4; [apply HE; [by eapply quiet_trans|]; intros Hx; by destruct (Hf e eq_refl)|].
  apply HO; [by eapply quiet_trans|]. rewrite <-Ht, <-Ht2. by eapply Hr.
Qed.
End facts.
