(* ===== verification/GitWitness.v ===== *)
(** * A git server and a clone kept in memory

    One clone at a time, always in the same directory.  It keeps the promises of [GitFacts.v],
    and the git writer is run on it. *)

From S2P Require Import Prelude GoLib Files Meta Api Kube Client StateStore Sim S3Facts GitWriter GitFacts.

Record Clone := { ck_head : gmap string string; ck_index : gmap string string; ck_tree : gmap string string }.
Record GitSim := {
  gs_sim : Sim;
  gs_remotes : gmap (string * string) (gmap string string);
  gs_clone : Clone;
  gs_removed : list string;  (** arguments of [os.RemoveAll] *)
}.

Definition set_clone (c : Clone) (s : GitSim) : GitSim :=
  {| gs_sim := gs_sim s; gs_remotes := gs_remotes s; gs_clone := c; gs_removed := gs_removed s |}.

Definition on_sim {A} (f : Sim → A * Sim) (s : GitSim) : A * GitSim :=
  let r := f (gs_sim s) in
  (r.1, {| gs_sim := r.2; gs_remotes := gs_remotes s; gs_clone := gs_clone s; gs_removed := gs_removed s |}).

#[global] Instance Git_World : World GitSim := {|
  w_get _ _ _ k := on_sim (w_get k);
  w_list _ _ _ lo := on_sim (w_list lo);
  w_create _ _ _ o := on_sim (w_create o);
  w_update _ _ _ o := on_sim (w_update o);
  w_status_update _ _ _ o := on_sim (w_status_update o);
  w_patch _ _ _ orig o := on_sim (w_patch orig o);
  w_delete Sp St _ k := on_sim (w_delete (Sp:=Sp) (St:=St) k);
  w_create_or_update _ _ _ o f := on_sim (w_create_or_update o f);
  w_intn n := on_sim (w_intn n);
  w_now := on_sim w_now;
  w_uuid := on_sim w_uuid;
  w_range _ m := on_sim (w_range m);
  w_event e := on_sim (w_event e);
|}.
#[global] Instance Git_Viewed : Viewed GitSim := λ s, view (gs_sim s).

Definition clone_dir : string := abs_path ["tmp"; "kratix-repo1"].
Definition relative (q : string) : string := Strings.TrimPrefix q (clone_dir +:+ "/").
Definition no_such_file : error := ErrNotExist.
Definition drop (p : string) (f : gmap string string) : gmap string string :=
  filter (λ kv, under p kv.1 = false) f.

#[global] Instance Git_Client : GitClient GitSim := {|
  PublicKeys := string * string;
  HostKeyCallback := string;
  Repository := string * string;
  Worktree := string * string;
  Endpoint_User _ := inr "";
  ssh_NewPublicKeys user key := inr (user, key);
  ssh_NewKnownHostsCallback f s := (inr f, s);
  os_CreateTemp n s := (inr ("/tmp/" +:+ n), s);
  os_Write _ _ s := (inr tt, s);
  os_RemoveFile _ s := (inr tt, s);
  os_MkdirTemp _ s := (inr clone_dir, s);
  os_RemoveAll p s := (inr tt, {| gs_sim := gs_sim s; gs_remotes := gs_remotes s; gs_clone := gs_clone s;
                                  gs_removed := gs_removed s ++ [p] |});
  os_MkdirAll _ s := (inr tt, s);
  os_WriteFile q c s := (inr tt, set_clone {| ck_head := ck_head (gs_clone s); ck_index := ck_index (gs_clone s);
                                             ck_tree := <[relative q := c]> (ck_tree (gs_clone s)) |} s);
  os_ReadFile q s := (match ck_tree (gs_clone s) !! relative q with Some c => inr c | None => inl no_such_file end, s);
  repo_Worktree r s := (inr r, s);
  wt_Lstat _ p s := (if existsb (λ kv, under p kv.1) (map_to_list (ck_tree (gs_clone s)))
                     then inr tt else inl no_such_file, s);
  wt_Remove _ p s := (inr tt, set_clone {| ck_head := ck_head (gs_clone s); ck_index := drop p (ck_index (gs_clone s));
                                          ck_tree := drop p (ck_tree (gs_clone s)) |} s);
  wt_Add _ p s :=
    match ck_tree (gs_clone s) !! p with
    | Some c => (inr tt, set_clone {| ck_head := ck_head (gs_clone s); ck_tree := ck_tree (gs_clone s);
                                      ck_index := <[p := c]> (ck_index (gs_clone s)) |} s)
    | None => (inl no_such_file, s)
    end;
  wt_IsClean _ s := (inr (bool_decide (ck_index (gs_clone s) = ck_head (gs_clone s)) &&
                          bool_decide (ck_tree (gs_clone s) = ck_head (gs_clone s))), s);
  wt_Commit _ m _ _ _ s := (inr ("sha of " +:+ m), set_clone {| ck_head := ck_index (gs_clone s);
      ck_index := ck_index (gs_clone s); ck_tree := ck_tree (gs_clone s) |} s);
  IsAlreadyUpToDate e := bool_decide (e = ErrorMsg "already up-to-date");
|}.

Definition remote_of (k : string * string) (s : GitSim) : gmap string string := default ∅ (gs_remotes s !! k).

#[global] Instance Git_Transport : GitTransport GitSim := {|
  PlainClone d srv _ s :=
    if bool_decide (d = clone_dir) then
      let f := remote_of (gs_URL srv, gs_Branch srv) s in
      (inr (gs_URL srv, gs_Branch srv), set_clone {| ck_head := f; ck_index := f; ck_tree := f |} s)
    else (inl (ErrorMsg "directory exists"), s);
  repo_Push r _ s :=
    if bool_decide (remote_of r s = ck_head (gs_clone s)) then (inl (ErrorMsg "already up-to-date"), s)
    else (inr tt, {| gs_sim := gs_sim s; gs_remotes := <[r := ck_head (gs_clone s)]> (gs_remotes s);
                     gs_clone := gs_clone s; gs_removed := gs_removed s |});
|}.

#[global] Instance Git_State : GitState GitSim := {|
  remote url branch s := remote_of (url, branch) s;
  head_files _ s := ck_head (gs_clone s);
  index_files _ s := ck_index (gs_clone s);
  tree_files _ s := ck_tree (gs_clone s);
  origin r := r;
  repo_dir _ := clone_dir;
  wt_repo w := w;
|}.

Lemma drop_without p f : without p f (drop p f).
Proof.
intros k. unfold drop. destruct (under p k) eqn:Hu.
- apply map_lookup_filter_None. right. intros x _. cbn. by rewrite Hu.
- destruct (f !! k) as [x|] eqn:Hk; [by apply map_lookup_filter_Some|]. apply map_lookup_filter_None. by left.
Qed.

Lemma relative_join p : plain p → relative (Filepath.Join [clone_dir; p]) = p.
Proof.
intros Hp. unfold clone_dir. assert (Forall name_ok ["tmp"; "kratix-repo1"]) as Hn.
{ apply (bool_decide_unpack _). vm_compute. exact I. }
rewrite join_plain by done.
unfold relative. rewrite <-string_app_assoc. apply trim_prefix.
Qed.

Lemma git_quiet (s s' : GitSim) : gs_sim s' = gs_sim s → gs_remotes s' = gs_remotes s → quiet s s'.
Proof. intros Hs Hr. split; [unfold view, Git_Viewed; by rewrite Hs|]. intros. cbn. unfold remote_of. by rewrite Hr. Qed.

#[global] Instance Git_laws : GitLaws GitSim.
Proof.
split; cbn.
- intros s t s' [= <- <-]. split; [by split|]. by intros.
- intros n s x s' [= <- <-]. split; [by apply git_quiet|]. split; [done|]. by intros d [= <-].
- intros d srv b s x s'. case_bool_decide as Hd; intros [= <- <-].
  + split; [by apply git_quiet|]. split; [done|]. intros r [= <-]. by rewrite Hd.
  + split; [by apply git_quiet|]. split; [by intros e [= <-]|done].
- intros r s x s' [= <- <-]. split; [by apply git_quiet|]. split; [done|]. split; [done|]. by intros w [= <-].
- intros w p s x s' [= <- <-]. split; [by apply git_quiet|]. split; [done|]. intros e He _ k Hk.
  destruct (ck_tree (gs_clone s) !! k) as [c|] eqn:Hc; [|done].
  assert (existsb (λ kv, under p kv.1) (map_to_list (ck_tree (gs_clone s))) = true) as Hx; [|by rewrite Hx in He].
  apply existsb_exists. exists (k, c). split; [|done]. apply list_elem_of_In, elem_of_map_to_list, Hc.
- intros w p s x s' [= <- <-]. split; [by apply git_quiet|]. intros _ _. split; [done|]. split; apply drop_without.
- intros p s x s' [= <- <-]. split; [by apply git_quiet|]. done.
- intros q c s x s' [= <- <-]. split; [by apply git_quiet|]. intros r p _ Hp ->. cbn. by rewrite relative_join.
- intros w p s x s'. destruct (ck_tree (gs_clone s) !! p) as [c|] eqn:Hc; intros [= <- <-];
    (split; [by apply git_quiet|]); [|done]. by intros c' _ _ [= <-].
- intros w s x s' [= <- <-]. split; [by apply git_quiet|]. split; [done|].
  intros [= [Hi%bool_decide_eq_true _]%andb_true_iff]. done.
- intros w m n e t s x s' [= <- <-]. split; [by apply git_quiet|]. done.
- intros r a s x s'. case_bool_decide; intros [= <- <-]; (split; [done|]); [done|]. intros _. unfold remote_of. cbn.
  rewrite <-surjective_pairing, lookup_insert_eq. done.
- intros p s x s' [= <- <-]. by apply git_quiet.
- intros q s x s' [= <- <-]. split; [by apply git_quiet|]. split.
  + intros e. destruct (_ !! relative q); [done|]. by intros [= <-].
  + intros r p c Hx Hp ->. rewrite relative_join in Hx by done. by destruct (ck_tree (gs_clone s) !! p); simplify_eq.
Qed.

(** ** Runs *)
Definition a_writer : GitWriter GitSim :=
  {| gw_GitServer := {| gs_URL := "https://git.example.com/repo"; gs_Branch := "main"; gs_Auth := NoAuth |};
     gw_Author := {| au_Name := "kratix"; au_Email := "" |}; gw_Path := "team-a" |}.

Definition git_sim (f : gmap string string) : GitSim :=
  {| gs_sim := sim_of empty_cluster; gs_remotes := {[("https://git.example.com/repo", "main") := f]};
     gs_clone := {| ck_head := ∅; ck_index := ∅; ck_tree := ∅ |}; gs_removed := [] |}.

Definition stored_files : gmap string string :=
  {["team-a/res/old.yaml" := "old"; "team-a/results.yaml" := "kept"; "team-b/x.yaml" := "x"]}.
Definition a_file (path content : string) : Workload := {| wl_filepath := path; wl_content := content |}.
Definition write_a := Git.UpdateFiles a_writer "res" "placement" [a_file "a.yaml" "a"] [] (git_sim stored_files).


(** ** Surprises *)

(** Cleaning up removes the directory that holds all temporary files, not the clone. *)
Lemma cleanup_removes_parent : gs_removed write_a.2 = ["/tmp"].
Proof. vm_compute. reflexivity. Qed.

(** A path that leads out of the clone is reported as a success, and nothing is written. *)
Lemma escape_reported_as_success :
  let r := Git.UpdateFiles a_writer "res" "placement" [a_file "a.yaml" "a"; a_file "../../../x" "x"] []
             (git_sim stored_files) in
  r.1 = Ok "" ∧ branch_files a_writer r.2 = stored_files.
Proof. split; [vm_compute; reflexivity|apply (bool_decide_unpack _); vm_compute; exact I]. Qed.

(** The check that a path stays inside compares strings: a sibling of the clone passes it. *)
Lemma sibling_passes_check :
  Strings.HasPrefix (Filepath.Join [clone_dir; "../kratix-repo12/x"]) clone_dir = true.
Proof. vm_compute. reflexivity. Qed.
