(* ===== verification/StateStoreController.v ===== *)
(** * The state store controllers

    [internal/controller/state_store.go], [bucketstatestore_controller.go] and
    [gitstatestore_controller.go]: whether a store can be written to, told in its
    Ready condition, and the watch that reconciles a store when its secret changes. *)

From S2P Require Import Prelude GoLib Meta Api Kube Client Shared StateStore.

Definition StatusNotReady := "NotReady".
Definition StatusReady := "Ready".
Definition StateStoreReadyConditionType := "Ready".
Definition StateStoreReadyConditionReason := "StateStoreReady".
Definition StateStoreReadyConditionMessage := "State store is ready".
Definition StateStoreNotReadyErrorInitialisingWriterReason := "ErrorInitialisingWriter".
Definition StateStoreNotReadyErrorInitialisingWriterMessage := "Error initialising writer".
Definition StateStoreNotReadyErrorValidatingPermissionsReason := "ErrorValidatingPermissions".
Definition StateStoreNotReadyErrorValidatingPermissionsMessage := "Error validating state store permissions".

(** [%s] of an error that may be nil. *)
Definition error_text (err : option error) : string :=
  match err with Some e => Error e | None => "%!s(<nil>)" end.

Definition secretRefIndexKey (secretName secretNamespace : string) : string :=
  secretNamespace +:+ "." +:+ secretName.

(** ** The index of the stores by their secrets *)
Definition bucket_index (stateStore : BucketStateStore) : outcome (list string) :=
  if bool_decide (bss_authMethod (r_spec stateStore) = AuthMethodAccessKey) then
    match ValidateSecretRef stateStore with
    | Some _ => Ok []
    | None => match bss_secretRef (r_spec stateStore) with
              | Some ref => Ok [secretRefIndexKey (sr_name ref) (sr_namespace ref)]
              | None => Panicked
              end
    end
  else Ok [].

Definition git_index (stateStore : GitStateStore) : outcome (list string) :=
  match gss_secretRef (r_spec stateStore) with
  | Some ref => Ok [secretRefIndexKey (sr_name ref) (sr_namespace ref)]
  | None => Panicked
  end.

Definition indexed_under (index : outcome (list string)) (k : string) : bool :=
  match index with Ok ks => bool_decide (k ∈ ks) | _ => false end.

Section controller.
Context {S : Type} `{World S, Lib, StateStoreWriter S}.
Context {Sp : Type} `{Collection Sp StateStoreStatus, !StateStore Sp}.

(** A failure reason makes the store not ready.  The status is written only when the
    condition changes.  The client fills in the kind of what it fetched; a percent sign
    in the message, which is passed as the format, is taken literally here. *)
Definition updateStateStoreReadyStatusAndCondition (stateStore : Resource Sp StateStoreStatus)
    (failureReason failureMessage : string) (err : option error) : M S unit :=
  let failed := bool_decide (failureReason ≠ "") in
  let named := kind_name +:+ " " +:+ Strings.quote (GetName stateStore) in
  let eventType := if failed then EventTypeWarning else EventTypeNormal in
  let eventReason := if failed then "NotReady" else "Ready" in
  let eventMessage :=
    if failed then named +:+ " is not ready: " +:+ failureMessage +:+ ": " +:+ error_text err
    else named +:+ " is ready" in
  let condition :=
    {| cond_type := StateStoreReadyConditionType;
       cond_status := if failed then ConditionFalse else ConditionTrue;
       cond_reason := if failed then failureReason else StateStoreReadyConditionReason;
       cond_message := if failed then failureMessage +:+ ": " +:+ error_text err
                       else StateStoreReadyConditionMessage;
       cond_lastTransitionTime := 0 |} in
  let! u := setStatusCondition (sst_conditions (r_status stateStore)) condition in
  let '(conditions, changed) := u in
  if negb changed then ret tt
  else
    Eventf stateStore eventType eventReason eventMessage ;;;
    StatusUpdate (set_status {| sst_status := if failed then StatusNotReady else StatusReady;
                                sst_conditions := conditions |} stateStore) ;;;
    ret tt.

Definition reconcileStateStoreCommon (stateStore : Resource Sp StateStoreStatus)
    (resourceType : string) : M S Result :=
  let! rw := try (newWriter (GetName stateStore) resourceType "") in
  match rw with
  | inl err =>
      try (updateStateStoreReadyStatusAndCondition stateStore
        StateStoreNotReadyErrorInitialisingWriterReason
        StateStoreNotReadyErrorInitialisingWriterMessage (Some err)) ;;;
      fail err
  | inr writer =>
      let! v := try (ValidatePermissions writer) in
      match v with
      | inl err =>
          try (updateStateStoreReadyStatusAndCondition stateStore
            StateStoreNotReadyErrorValidatingPermissionsReason
            StateStoreNotReadyErrorValidatingPermissionsMessage (Some err)) ;;;
          fail err
      | inr _ => updateStateStoreReadyStatusAndCondition stateStore "" "" None ;;; ret noRequeue
      end
  end.

(** The body the two controllers share; stores are cluster-scoped. *)
Definition reconcile_store (resourceType : string) (req : Key) : M S Result :=
  let! g := try (Get (Sp:=Sp) (St:=StateStoreStatus) ("", req.2)) in
  match g with
  | inl err => if IsNotFound err then ret noRequeue else fail err
  | inr stateStore => reconcileStateStoreCommon stateStore resourceType
  end.

Definition constructRequestsForStateStoresReferencingSecret
    (index : Resource Sp StateStoreStatus → outcome (list string)) (secret : Key) : M S (list Key) :=
  let! r := try (List (Sp:=Sp) (St:=StateStoreStatus) {| lo_namespace := ""; lo_selector := None |}) in
  match r with
  | inl _ => ret []
  | inr items =>
      ret (key <$> filter (λ stateStore,
        indexed_under (index stateStore) (secretRefIndexKey secret.2 secret.1) = true) items)
  end.
End controller.

Module BucketStateStoreReconciler.
Section controller.
Context {S : Type} `{World S, Lib, StateStoreWriter S}.

Definition Reconcile (req : Key) : M S Result :=
  reconcile_store (Sp:=BucketStateStoreSpec) "BucketStateStore" req.

Definition findStateStoresReferencingSecret (secret : Key) : M S (list Key) :=
  constructRequestsForStateStoresReferencingSecret bucket_index secret.
End controller.
End BucketStateStoreReconciler.

Module GitStateStoreReconciler.
Section controller.
Context {S : Type} `{World S, Lib, StateStoreWriter S}.

Definition Reconcile (req : Key) : M S Result :=
  reconcile_store (Sp:=GitStateStoreSpec) "GitStateStore" req.

Definition findStateStoresReferencingSecret (secret : Key) : M S (list Key) :=
  constructRequestsForStateStoresReferencingSecret git_index secret.
End controller.
End GitStateStoreReconciler.
