(* ===== verification/StateStoreFacts.v ===== *)
(** * State stores: what their readiness tells, and the controllers on concrete stores *)

From S2P Require Import Prelude GoLib Meta Api Kube Client Shared StateStore StateStoreController Sim SimStore.

Section facts.
Context {S : Type} `{World S, Viewed S, !WorldLaws S, Lib, !LibLaws}.
Context `{!StateStoreWriter S, !StoredFiles S, !StateStoreLaws S}.
Implicit Types s : S.

Section store.
Context {Sp : Type} `{Collection Sp StateStoreStatus, !StateStore Sp}.
Implicit Types o : Resource Sp StateStoreStatus.

(** The store as it was, except for its status, in an otherwise unchanged cluster. *)
Definition status_told o (o' : Resource Sp StateStoreStatus) s s' : Prop :=
  (∃ st, o' = set_status st o) ∧
  view s' = set_coll (<[key o := o']> (coll (view s))) (view s).

Definition ready_cond o : option Condition :=
  FindStatusCondition (sst_conditions (r_status o)) StateStoreReadyConditionType.

(** The Ready condition says [status] for [reason] with [message]. *)
Definition reports o (status reason message : string) : Prop :=
  ∃ c, ready_cond o = Some c ∧ cond_status c = status ∧ cond_reason c = reason ∧ cond_message c = message.

Lemma wp_updateReady o reason msg err (Q : outcome unit → S → Prop) s :
  coll (view s) !! key o = Some o →
  (∀ o' s', status_told o o' s s' →
     (if bool_decide (reason ≠ "") then reports o' ConditionFalse reason (msg +:+ ": " +:+ error_text err)
      else reports o' ConditionTrue StateStoreReadyConditionReason StateStoreReadyConditionMessage) →
     Q (Ok tt) s') →
  (∀ e s', view s' = view s → Q (Fail e) s') →
  wp (updateStateStoreReadyStatusAndCondition o reason msg err) Q s.
Proof.
intros Hst HO HE. unfold updateStateStoreReadyStatusAndCondition. cbv zeta.
apply wp_bind, wp_setStatusCondition. intros now s1 Hv1.
match goal with |- context [SetStatusCondition now ?cs ?c] =>
  pose proof (set_find_same now cs c) as (x & Hx & Hsame);
  pose proof (set_unchanged_eq now cs c) as Hun;
  set (cond := c) in *; destruct (SetStatusCondition now cs cond) as [cs' changed] end.
cbn [fst snd] in *. destruct Hsame as (_ & Hxs & Hxr & Hxm).
assert (∀ o', sst_conditions (r_status o') = cs' →
  if bool_decide (reason ≠ "") then reports o' ConditionFalse reason (msg +:+ ": " +:+ error_text err)
  else reports o' ConditionTrue StateStoreReadyConditionReason StateStoreReadyConditionMessage) as Hrep.
{ intros o' Ho'. subst cond. unfold reports, ready_cond. rewrite Ho'.
  case_bool_decide; cbn in *; exists x; done. }
destruct changed; cbn [negb].
- apply wp_bind, wp_Eventf. intros s2 Hv2. apply wp_bind, wp_StatusUpdate.
  + intros old s3 Hold Hv3. change (key (set_status _ o)) with (key o) in Hold, Hv3.
    assert (old = o) as -> by (rewrite Hv2, Hv1 in Hold; congruence).
    match type of Hv3 with context [on_status_update o ?o1] =>
      apply wp_ret, (HO (set_status (r_status o1) o)) end; [|by apply Hrep].
    split; [by eexists|]. by rewrite Hv3, Hv2, Hv1.
  + intros e s3 Hv3. apply HE. congruence.
- specialize (Hun eq_refl). subst cs'. apply wp_ret, (HO o); [|by apply Hrep].
  split; [exists (r_status o); by destruct o|]. rewrite Hv1, insert_id by done. by rewrite set_coll_coll.
Qed.

(** What a reconciliation tells about the store, and what it is based on: the attempts
    to make a writer and to validate its permissions in this very run. *)
Definition readiness_told (resourceType : string) o s (r : outcome Result) s' : Prop :=
  let attempt r0 := ∃ s1 s2, view s1 = view s ∧ newWriter (GetName o) resourceType "" s1 = (r0, s2) in
  let validation r1 := ∃ w s1 s2 s3, newWriter (GetName o) resourceType "" s1 = (Ok w, s2) ∧
                         ValidatePermissions w s2 = (r1, s3) in
  match r with
  | Ok _ => validation (Ok tt) ∧ ∃ o', status_told o o' s s' ∧
      reports o' ConditionTrue StateStoreReadyConditionReason StateStoreReadyConditionMessage
  | Fail e => view s' = view s ∨ ∃ o' reason msg, status_told o o' s s' ∧
      reports o' ConditionFalse reason (msg +:+ ": " +:+ Error e) ∧
      (reason = StateStoreNotReadyErrorInitialisingWriterReason ∧ attempt (Fail e) ∨
       reason = StateStoreNotReadyErrorValidatingPermissionsReason ∧ validation (Fail e))
  | Panicked => False
  end.

Lemma wp_reconcile_store ty req o s :
  coll (view s) !! ("", req.2) = Some o → key o = ("", req.2) →
  secured {| ssr_kind := ty; ssr_name := GetName o |} (view s) →
  wp (reconcile_store (Sp:=Sp) ty req) (readiness_told ty o s) s.
Proof.
intros Ho Hk Hsec. unfold reconcile_store. apply wp_bind, wp_try, wp_Get.
2:{ intros e s1 Hv1 Hnf. destruct (IsNotFound e); [by rewrite Hnf in Ho|]. apply wp_fail. by left. }
intros o1 s1 Hv1 Ho1. assert (o1 = o) as -> by congruence. unfold reconcileStateStoreCommon.
assert (∀ s', view s' = view s → coll (view s') !! key o = Some o) as Hst by (intros s' ->; by rewrite Hk).
assert (∀ s1 o' s', view s1 = view s → status_told o o' s1 s' → status_told o o' s s') as Htold.
{ intros s0 o' s' Hv [? Hs]. split; [done|]. by rewrite Hs, Hv. }
apply wp_bind, wp_try, wp_exec, wp_newWriter.
3:{ intros s' Hns _ _. destruct Hns. by rewrite Hv1. }
2:{ intros e s2 Hv2 _ Hrun. apply wp_bind, wp_try, wp_updateReady; [apply Hst; congruence| |].
  - intros o' s3 Ht Hrep. apply wp_fail. right. do 3 eexists. split_and!; [|exact Hrep|].
    + eapply Htold; [|done]. congruence.
    + left. eauto 6.
  - intros e' s3 Hv3. apply wp_fail. left. congruence. }
intros w s2 Hv2 _ Hrun. apply wp_bind, wp_try, wp_exec, wp_ValidatePermissions.
- intros s3 Hv3 _ Hval. apply wp_bind, wp_updateReady; [apply Hst; congruence| |].
  + intros o' s4 Ht Hrep. apply wp_ret. split; [eauto 8|]. exists o'. split; [|done].
    eapply Htold; [|done]. congruence.
  + intros e s4 Hv4. left. congruence.
- intros e s3 Hv3 _ Hval. apply wp_bind, wp_try, wp_updateReady; [apply Hst; congruence| |].
  + intros o' s4 Ht Hrep. apply wp_fail. right. do 3 eexists. split_and!; [|exact Hrep|].
    * eapply Htold; [|done]. congruence.
    * right. eauto 10.
  + intros e' s4 Hv4. apply wp_fail. left. congruence.
Qed.

Lemma wp_reconcile_gone ty req s :
  coll (view s) !! ("", req.2) = None (A:=Resource Sp StateStoreStatus) →
  wp (reconcile_store (Sp:=Sp) ty req)
    (post (λ r s', r = noRequeue ∧ view s' = view s) (λ _ s', view s' = view s)) s.
Proof.
intros Ho. unfold reconcile_store. apply wp_bind, wp_try, wp_Get; [intros; congruence|].
intros e s1 Hv1 _. by destruct (IsNotFound e); [apply wp_ret|apply wp_fail].
Qed.
End store.

Definition told {Sp} `{Collection Sp StateStoreStatus, !StateStore Sp} (ty : string) (req : Key) s
    : outcome Result → S → Prop :=
  match coll (view s) !! ("", req.2) with
  | Some o => readiness_told (Sp:=Sp) ty o s
  | None => post (λ r s', r = noRequeue ∧ view s' = view s) (λ _ s', view s' = view s)
  end.


(** ** The watch on secrets *)

Fixpoint no_dot (x : string) : Prop :=
  match x with
  | EmptyString => True
  | String c x' => c <> Ascii.ascii_of_nat 46 /\ no_dot x'
  end.

Lemma index_key_inj n1 ns1 n2 ns2 :
  no_dot ns1 → no_dot ns2 → secretRefIndexKey n1 ns1 = secretRefIndexKey n2 ns2 → n1 = n2 ∧ ns1 = ns2.
Proof.
unfold secretRefIndexKey. revert ns2. induction ns1 as [|c1 ns1 IH]; intros [|c2 ns2]; cbn.
- intros _ _ [= Heq]. done.
- intros _ [Hc _] [= Hd _]. by destruct Hc.
- intros [Hc _] _ [= Hd _]. by destruct Hc.
- intros [_ Hd1] [_ Hd2] [= -> Heq]. destruct (IH ns2 Hd1 Hd2 Heq) as [-> ->]. done.
Qed.

(** The secret whose changes reconcile a store. *)
Definition bucket_watches (b : BucketStateStore) : option Key :=
  if bool_decide (bss_authMethod (r_spec b) = AuthMethodAccessKey ∧ ValidateSecretRef b = None)
  then (λ ref, (sr_namespace ref, sr_name ref)) <$> bss_secretRef (r_spec b) else None.
Definition git_watches (g : GitStateStore) : option Key :=
  (λ ref, (sr_namespace ref, sr_name ref)) <$> gss_secretRef (r_spec g).

Lemma wp_construct {Sp} `{Collection Sp StateStoreStatus, !StateStore Sp} index watches secret s :
  keyed (coll (view s) (Collection:=_) : gmap Key (Resource Sp StateStoreStatus)) →
  (∀ k o, coll (view s) !! k = Some o →
     indexed_under (index o) (secretRefIndexKey secret.2 secret.1) = true ↔ watches o = Some secret) →
  wp (constructRequestsForStateStoresReferencingSecret (Sp:=Sp) index secret)
    (post (λ r s', view s' = view s ∧
       (r = [] ∨ ∀ k, k ∈ r ↔ ∃ o, coll (view s) !! k = Some o ∧ watches o = Some secret))
      (λ _ _, False)) s.
Proof.
intros Hk Hidx. unfold constructRequestsForStateStoresReferencingSecret. apply wp_bind, wp_try, wp_List.
2:{ intros e s1 Hv1. apply wp_ret. cbn [post]. auto. }
intros l s1 Hv1 Hl. apply wp_ret. split; [done|]. right. intros k.
rewrite list_elem_of_fmap. setoid_rewrite list_elem_of_filter. split.
- intros (o & -> & Hw & Ho). exists o. rewrite Hl in Ho.
  apply list_elem_of_filter in Ho as [_ Ho]. apply elem_of_map_values in Ho as [k Ho].
  rewrite (Hk _ _ Ho). split; [done|]. by apply (Hidx k).
- intros (o & Ho & Hw). exists o. split; [by rewrite (Hk _ _ Ho)|]. split; [by apply (Hidx k)|].
  rewrite Hl. apply list_elem_of_filter. split; [done|]. apply elem_of_map_values. eauto.
Qed.

(** A change of a secret reconciles exactly the stores that refer to it: unless the
    stores cannot be listed, the requests made for a secret are those of the buckets
    with access keys and a complete reference to it, and of the git stores with a reference
    to it.  (A git store without a reference panics, see [git_index]; a reference without a
    namespace is no reference to the secret that is read for it, in namespace
    default.)  Names of namespaces contain no dots. *)
Theorem secret_changes_reach_stores secret s :
  keyed (c_bucketstores (view s)) → keyed (c_gitstores (view s)) → no_dot secret.1 →
  (∀ k b ref, c_bucketstores (view s) !! k = Some b → bss_secretRef (r_spec b) = Some ref →
     no_dot (sr_namespace ref)) →
  (∀ k g ref, c_gitstores (view s) !! k = Some g → gss_secretRef (r_spec g) = Some ref →
     no_dot (sr_namespace ref)) →
  wp (BucketStateStoreReconciler.findStateStoresReferencingSecret secret)
    (post (λ r s', view s' = view s ∧ (r = [] ∨ ∀ k, k ∈ r ↔
       ∃ b, c_bucketstores (view s) !! k = Some b ∧ bucket_watches b = Some secret)) (λ _ _, False)) s ∧
  wp (GitStateStoreReconciler.findStateStoresReferencingSecret secret)
    (post (λ r s', view s' = view s ∧ (r = [] ∨ ∀ k, k ∈ r ↔
       ∃ g, c_gitstores (view s) !! k = Some g ∧ git_watches g = Some secret)) (λ _ _, False)) s.
Proof.
intros Hkb Hkg Hs Hb Hg. destruct secret as [ns n]. cbn [fst snd] in Hs.
assert (∀ ref, no_dot (sr_namespace ref) →
  indexed_under (Ok [secretRefIndexKey (sr_name ref) (sr_namespace ref)]) (secretRefIndexKey n ns) = true ↔
  (sr_namespace ref, sr_name ref) = (ns, n)) as Hidx.
{ intros ref Hd. cbn. rewrite bool_decide_eq_true, list_elem_of_singleton. split.
  - by intros [-> ->]%index_key_inj.
  - by intros [= -> ->]. }
pose proof (wp_construct bucket_index bucket_watches (ns, n) s) as Hwb.
pose proof (wp_construct git_index git_watches (ns, n) s) as Hwg.
split; [apply Hwb|apply Hwg]; try done; cbn [fst snd].
- intros k b Hst. unfold bucket_index, bucket_watches. specialize (Hb k b).
  case_bool_decide as Ha; [|by rewrite (bool_decide_false (_ ∧ _)) by tauto].
  destruct (ValidateSecretRef b) eqn:Hv; [by rewrite (bool_decide_false (_ ∧ _)) by (by intros [_ ?])|].
  rewrite (bool_decide_true (_ ∧ _)) by done. destruct (bss_secretRef (r_spec b)) as [ref|] eqn:Hr; [|done].
  rewrite Hidx by eauto. cbn. split; [by intros ->|by intros [= -> ->]].
- intros k g Hst. unfold git_index, git_watches. specialize (Hg k g).
  destruct (gss_secretRef (r_spec g)) as [ref|] eqn:Hr; [|done].
  rewrite Hidx by eauto. cbn. split; [by intros ->|by intros [= -> ->]].
Qed.
End facts.

(** ** Concrete stores *)
Definition git_with (ref : option SecretReference) : GitStateStore :=
  mkResource (new_meta "" "g")
    {| gss_url := "https://git.example.com/repo"; gss_path := ""; gss_secretRef := ref; gss_branch := "main";
       gss_authMethod := "basicAuth"; gss_gitAuthor := {| ga_name := "kratix"; ga_email := "" |} |}
    empty_store_status.

Definition git_secret (ns : string) : Secret :=
  mkResource (new_meta ns "git-credentials") {| sec_data := Some {["username" := "u"; "password" := "p"]} |} tt.

Definition store_sim (faults : list (option fault)) (gs : list GitStateStore) (secrets : list Secret) : Sim :=
  {| sim_cluster :=
       set_coll (of_list [a_bucket]) (set_coll (of_list gs) (set_coll (of_list secrets) empty_cluster));
     sim_faults := faults; sim_rand := []; sim_clock := 1; sim_events := []; sim_files := ∅ |}.

Definition git_ref (ns : string) : SecretReference := {| sr_name := "git-credentials"; sr_namespace := ns |}.
Definition two_stores (faults : list (option fault)) : Sim :=
  store_sim faults [git_with (Some (git_ref "platform"))] [git_secret "platform"].


Lemma secret_changes_reach_stores_witness :
  let s := two_stores [] in
  ∃ r, (GitStateStoreReconciler.findStateStoresReferencingSecret ("platform", "git-credentials") s).1 = Ok r ∧
  (r = [] ∨ ∀ k, k ∈ r ↔ ∃ g, c_gitstores (view s) !! k = Some g ∧
     git_watches g = Some ("platform", "git-credentials")) ∧ r = [("", "g")].
Proof.
cbv zeta.
assert (keyed (c_bucketstores (view (two_stores [])))) as Hb by exact (of_list_keyed [a_bucket]).
assert (keyed (c_gitstores (view (two_stores [])))) as Hg
  by exact (of_list_keyed [git_with (Some (git_ref "platform"))]).
assert (no_dot "platform") as Hd by (cbn; repeat split; discriminate).
destruct (secret_changes_reach_stores ("platform", "git-credentials") (two_stores []) Hb Hg Hd) as [_ Hwp].
- intros k b ref [->%list_elem_of_singleton _]%(of_list_lookup [_]). discriminate.
- intros k g ref [->%list_elem_of_singleton _]%(of_list_lookup [_]). intros [= <-]. exact Hd.
- apply run_returns in Hwp as (r & Hr & _ & Hq); [|vm_compute; reflexivity].
  exists r. split; [exact Hr|]. split; [exact Hq|]. vm_compute in Hr. by injection Hr as <-.
Defined.

(** A git store that refers to no secret makes every controller that asks for its writer
    panic. *)
Lemma git_without_secret_panics :
  (newWriter "g" "GitStateStore" "" (store_sim [] [git_with None] [])).1 = Panicked.
Proof. vm_compute. reflexivity. Qed.

(** A reference without a namespace is read from namespace default, but changes of that secret
    do not reach the store. *)
Lemma default_namespace_not_watched :
  let s := store_sim [] [git_with (Some (git_ref ""))] [git_secret "default"] in
  (GitStateStoreReconciler.Reconcile ("", "g") s).1 = Ok noRequeue ∧
  (GitStateStoreReconciler.findStateStoresReferencingSecret ("default", "git-credentials") s).1 = Ok [].
Proof. split; vm_compute; reflexivity. Qed.
