(* ===== verification/WorkPlacementController.v ===== *)
(** * The WorkPlacement controller: [internal/controller/workplacement_controller.go]

    Writes the workloads of a placement to the state store of its destination
    and removes them again when the placement is deleted. *)

From S2P Require Import Prelude GoLib Codec Meta Api Kube Client Shared Scheduler WorkController.
From S2P Require Import StateStore.

Definition resourcesDir := "resources".
Definition dependenciesDir := "dependencies".
Definition kratixFileCleanupWorkPlacementFinalizer :=
  "finalizers.workplacement.kratix.io/kratix-dot-files-cleanup".
Definition failedDeleteEventReason := "FailedDelete".

(** The state file, by its [files]. *)
Record StateFile := { Files : list string }.

(** ** Pure helpers *)

Definition ignoreNotFound (err : error) : option error :=
  if bool_decide (root_cause err = ErrFileNotFound) then None else Some err.

Definition workloadsFilenames (works : list Workload) : list string := wl_filepath <$> works.

Definition cleanupWorkloads (oldWorkloads : list string) (newWorkloads : list Workload)
    : list string :=
  let works : gmap string bool := foldl (λ m w, <[wl_filepath w := true]> m) ∅ newWorkloads in
  filter (λ w, works !! w = None) oldWorkloads.

(** The directory of a placement; panics when its identifier is too short. *)
Definition getDir (wp : WorkPlacement) : outcome string :=
  match shortID (wps_id (r_spec wp)) with
  | Ok i =>
      if bool_decide (wps_resourceName (r_spec wp) = "")
      then Ok (Filepath.Join [dependenciesDir; wps_promiseName (r_spec wp); PipelineName wp; i])
      else Ok (Filepath.Join [resourcesDir; GetNamespace wp; wps_promiseName (r_spec wp);
                              wps_resourceName (r_spec wp); PipelineName wp; i])
  | Fail e => Fail e
  | Panicked => Panicked
  end.

(** [.kratix/<namespace>-<name>.yaml] *)
Definition stateFilePath (wp : WorkPlacement) : string :=
  ".kratix/" +:+ GetNamespace wp +:+ "-" +:+ GetName wp +:+ ".yaml".

Definition newline : string := String (Ascii.ascii_of_nat 10) "".

Fixpoint concatenate_from (first : bool) (workloads : list Workload) : string :=
  match workloads with
  | [] => ""
  | w :: ws => (if first then "" else newline +:+ "---" +:+ newline) +:+
               wl_content w +:+ concatenate_from false ws
  end.
Definition concatenateYAMLs (workloads : list Workload) : string := concatenate_from true workloads.

Section lib.
Context `{Lib}.

Definition checkWorkPlacementFinalizers (wp : WorkPlacement) (filepathMode : string)
    : list string :=
  (if negb (ContainsFinalizer (GetFinalizers wp) repoCleanupWorkPlacementFinalizer)
   then [repoCleanupWorkPlacementFinalizer] else []) ++
  (if bool_decide (filepathMode = FilepathModeNone) &&
      negb (ContainsFinalizer (GetFinalizers wp) kratixFileCleanupWorkPlacementFinalizer)
   then [kratixFileCleanupWorkPlacementFinalizer] else []).

Definition cleanupDeletionFinalizers (wp : WorkPlacement) : WorkPlacement :=
  let wp := if ContainsFinalizer (GetFinalizers wp) repoCleanupWorkPlacementFinalizer
            then SetFinalizers (RemoveFinalizer (GetFinalizers wp)
                                  repoCleanupWorkPlacementFinalizer) wp
            else wp in
  if ContainsFinalizer (GetFinalizers wp) kratixFileCleanupWorkPlacementFinalizer
  then SetFinalizers (RemoveFinalizer (GetFinalizers wp)
                        kratixFileCleanupWorkPlacementFinalizer) wp
  else wp.
End lib.

Section decompress.
Context `{Codec}.

(** The loop that decompresses workloads, in order, after those in [acc]. *)
Fixpoint decompressWorkloads (acc : list Workload) (ws : list Workload) : error + list Workload :=
  match ws with
  | [] => inr acc
  | w :: ws' =>
      match DecompressContent (wl_content w) with
      | inl e => inl (ErrorWrap "unable to decompress file content" e)
      | inr c =>
          decompressWorkloads (acc ++ [{| wl_filepath := wl_filepath w; wl_content := c |}]) ws'
      end
  end.

Fixpoint combine_from (acc : list Workload) (wps : list WorkPlacement) : error + list Workload :=
  match wps with
  | [] => inr acc
  | wp :: wps' =>
      match decompressWorkloads acc (wps_workloads (r_spec wp)) with
      | inl e => inl e
      | inr acc' => combine_from acc' wps'
      end
  end.
Definition combineWorkloads (wps : list WorkPlacement) : error + list Workload :=
  combine_from [] wps.
End decompress.

Module WorkPlacementReconciler.
Section controller.
Context {S : Type} `{World S, Lib, Codec, StateStoreWriter S}.

Definition getDestination (wp : WorkPlacement) : M S Destination :=
  Get (Sp:=DestinationSpec) ("", wps_targetDestinationName (r_spec wp)).

(** ** Status conditions *)

Definition setWriteFailStatusConditions (wp : WorkPlacement) (err : error) : M S unit :=
  let! r1 := setStatusCondition (wpst_conditions (r_status wp))
    (mk_cond writeSucceededConditionType ConditionFalse "WorkloadsFailedWrite" (Error err)) in
  let! r2 := setStatusCondition r1.1
    (mk_cond "Ready" ConditionFalse "WorkloadsFailedWrite" "Failing") in
  if r1.2 || r2.2 then
    StatusUpdate (set_wp_conditions r2.1 wp) ;;;
    ret tt
  else ret tt.

Definition has_cond (cs : list Condition) (type status : string) : bool :=
  existsb (λ c, bool_decide (cond_type c = type) && bool_decide (cond_status c = status)) cs.

Definition setWorkplacementReady (wp : WorkPlacement) : M S unit :=
  let misplaced := has_cond (wpst_conditions (r_status wp))
                     scheduleSucceededConditionType ConditionFalse in
  let writeSucceeded := has_cond (wpst_conditions (r_status wp))
                          writeSucceededConditionType ConditionTrue in
  if writeSucceeded && negb misplaced then
    let! r := setStatusCondition (wpst_conditions (r_status wp))
      (mk_cond "Ready" ConditionTrue "WorkloadsWrittenToTargetDestination" "Ready") in
    if r.2 then
      StatusUpdate (set_wp_conditions r.1 wp) ;;;
      ret tt
    else ret tt
  else ret tt.

Definition publishWriteEvent (wp : WorkPlacement) (reason versionID : string)
    (err : option error) : M S unit :=
  let dest := wps_targetDestinationName (r_spec wp) in
  match err with
  | None =>
      if bool_decide (versionID ≠ "")
      then Eventf wp EventTypeNormal reason
             ("successfully written to Destination: " +:+ dest +:+ " with versionID: " +:+ versionID)
      else Eventf wp EventTypeNormal reason ("successfully written to Destination: " +:+ dest)
  | Some e =>
      Eventf wp EventTypeWarning reason
        ("failed writing to Destination: " +:+ dest +:+ " with error: " +:+ Error e +:+
         "; check kubectl get destination for more info")
  end.

(** ** Aggregated YAML *)

Definition getAllWorkplacementsForDestination (destinationName : string)
    : M S (list WorkPlacement) :=
  let! r := try (List (Sp:=WorkPlacementSpec) (St:=WorkPlacementStatus)
    {| lo_namespace := "";
       lo_selector := Some (SelectorFromSet (<[TargetDestinationNameLabel := destinationName]> ∅)) |}) in
  match r with
  | inl e => fail (ErrorWrap "failed to list all WorkPlacements" e)
  | inr wps => ret (filter (λ wp, deleting wp = false) wps)
  end.

(** The zero [Workload]. *)
Definition no_workload : Workload := {| wl_filepath := ""; wl_content := "" |}.

Definition handleAggregatedYAML (wp : WorkPlacement) (destination : Destination) (dir : string)
    (writer : Writer) : M S (Workload * bool) :=
  let! active := getAllWorkplacementsForDestination (wps_targetDestinationName (r_spec wp)) in
  match active with
  | [] => ret (no_workload, false)
  | _ =>
      let! combined := of_sum (combineWorkloads active) in
      let workload := {| wl_filepath := fp_filename (ds_filepath (r_spec destination));
                         wl_content := concatenateYAMLs combined |} in
      if deleting wp then
        let! r := try (UpdateFiles writer dir (GetName wp) [workload] []) in
        match r with
        | inl e => fail (ErrorWrap "error regenerating aggregated YAML" e)
        | inr _ =>
            Update (SetFinalizers (RemoveFinalizer (GetFinalizers wp)
                                     repoCleanupWorkPlacementFinalizer) wp) ;;;
            ret (workload, true)
        end
      else ret (workload, false)
  end.

(** ** Writing *)

Definition generateKratixStateFile (wp : WorkPlacement) (writer : Writer)
    : M S (Workload * StateFile) :=
  let! r := try (ReadFile writer (stateFilePath wp)) in
  let! kratixFile :=
    match r with
    | inr c => ret c
    | inl e =>
        match ignoreNotFound e with
        | None => ret ""
        | Some _ => fail (ErrorWrap "failed to read .kratix state file" e)
        end
    end in
  match yaml_Unmarshal kratixFile with
  | inl e => fail (ErrorWrap "failed to unmarshal .kratix state file" e)
  | inr oldFiles =>
      match yaml_Marshal (workloadsFilenames (wps_workloads (r_spec wp))) with
      | inl e => fail (ErrorMsg "failed to marshal new .kratix state file: %!w(<nil>)")
      | inr content =>
          ret ({| wl_filepath := stateFilePath wp; wl_content := content |},
               {| Files := oldFiles |})
      end
  end.

Definition writeWorkloadsToStateStore (writer : Writer) (wp : WorkPlacement)
    (destination : Destination) : M S string :=
  let! dir := lift (getDir wp) in
  let mode := GetFilepathMode destination in
  let! plan :=
    if bool_decide (mode = FilepathModeAggregatedYAML) then
      let! r := handleAggregatedYAML wp destination "" writer in
      ret ("", [r.1], [])
    else
      let! base :=
        if bool_decide (mode = FilepathModeNone) then
          let! r := generateKratixStateFile wp writer in
          ret ("", [r.1], cleanupWorkloads (Files r.2) (wps_workloads (r_spec wp)))
        else ret (dir, [], []) in
      let '(dir, create, del) := base in
      let! create := of_sum (decompressWorkloads create (wps_workloads (r_spec wp))) in
      ret (dir, create, del) in
  let '(dir, create, del) := plan in
  UpdateFiles writer dir (GetName wp) create del.

(** Returns the version, the requeue result and the placement as the caller's
    pointer sees it. *)
Definition writeToStateStore (wp : WorkPlacement) (destination : Destination)
    : M S (string * Result * WorkPlacement) :=
  let ref := ds_stateStoreRef (r_spec destination) in
  let! rw := try (newWriter (ssr_name ref) (ssr_kind ref) (ds_path (r_spec destination))) in
  match rw with
  | inl e => if IsNotFound e then ret ("", defaultRequeue, wp) else fail e
  | inr writer =>
      let! r := try (writeWorkloadsToStateStore writer wp destination) in
      match r with
      | inl e =>
          publishWriteEvent wp "WorkloadsFailedWrite" "" (Some e) ;;;
          try (setWriteFailStatusConditions wp e) ;;;
          ret ("", defaultRequeue, wp)
      | inr versionID =>
          publishWriteEvent wp "WorkloadsWrittenToStateStore" versionID None ;;;
          let! c := setStatusCondition (wpst_conditions (r_status wp))
            (mk_cond writeSucceededConditionType ConditionTrue "WorkloadsWrittenToStateStore" "") in
          let wp := set_wp_conditions c.1 wp in
          if c.2 then
            let! u := try (StatusUpdate wp) in
            match u with
            | inl _ => ret ("", defaultRequeue, wp)
            | inr wp => ret (versionID, noRequeue, wp)
            end
          else ret (versionID, noRequeue, wp)
      end
  end.

(** ** Deleting *)

(** [r.delete] *)
Definition delete (writer : Writer) (dir : string) (wp : WorkPlacement)
    (workloadsToDelete : list string) (finalizerToRemove : string) : M S Result :=
  let! r := try (UpdateFiles writer dir (GetName wp) [] workloadsToDelete) in
  match r with
  | inl e =>
      Eventf wp EventTypeWarning failedDeleteEventReason
        ("error removing work from Destination: " +:+ wps_targetDestinationName (r_spec wp) +:+
         "  with error: " +:+ Error e) ;;;
      fail e
  | inr _ =>
      Update (SetFinalizers (RemoveFinalizer (GetFinalizers wp) finalizerToRemove) wp) ;;;
      ret fastRequeue
  end.

(** What to delete for the repository clean-up: [None] when the aggregated file
    was rewritten instead. *)
Definition workloads_to_delete (destination : Destination) (writer : Writer)
    (wp : WorkPlacement) (mode dir : string) : M S (option (list string)) :=
  if bool_decide (mode = FilepathModeNone) then
    let! r := try (ReadFile writer (stateFilePath wp)) in
    match r with
    | inl e =>
        Eventf wp EventTypeWarning failedDeleteEventReason
          ("failed to read .kratix state file: " +:+ Error e) ;;;
        fail e
    | inr kratixFile =>
        match yaml_Unmarshal kratixFile with
        | inl e =>
            Eventf wp EventTypeWarning failedDeleteEventReason
              ("failed to unmarshal .kratix state file: " +:+ Error e) ;;;
            fail e
        | inr fs => ret (Some fs)
        end
    end
  else if bool_decide (mode = FilepathModeAggregatedYAML) then
    let! r := try (handleAggregatedYAML wp destination dir writer) in
    match r with
    | inl e =>
        Eventf wp EventTypeWarning failedDeleteEventReason
          ("error removing work from Destination: " +:+
           wps_targetDestinationName (r_spec wp) +:+ " with error: " +:+ Error e) ;;;
        fail e
    | inr (_, true) => ret None
    | inr (_, false) => ret (Some [fp_filename (ds_filepath (r_spec destination))])
    end
  else ret (Some []).

(** The destination, when it still exists, comes with its writer; using either
    when it does not is a nil dereference. *)
Definition deleteWorkPlacement (target : option (Destination * Writer)) (wp : WorkPlacement)
    (filePathMode : string) : M S Result :=
  let! wp := match target with
             | None => Update (cleanupDeletionFinalizers wp)
             | Some _ => ret wp
             end in
  let pendingRepoCleanup :=
    ContainsFinalizer (GetFinalizers wp) repoCleanupWorkPlacementFinalizer in
  let pendingKratixFileCleanup :=
    ContainsFinalizer (GetFinalizers wp) kratixFileCleanupWorkPlacementFinalizer in
  let! dir :=
    if bool_decide (filePathMode = FilepathModeNestedByMetadata)
    then let! d := lift (getDir wp) in ret (d +:+ "/")
    else ret "" in
  if pendingRepoCleanup then
    match target with
    | None => panic
    | Some (destination, writer) =>
        let! ws := workloads_to_delete destination writer wp filePathMode dir in
        match ws with
        | None => ret fastRequeue
        | Some ws => delete writer dir wp ws repoCleanupWorkPlacementFinalizer
        end
    end
  else if pendingKratixFileCleanup then
    match target with
    | None => panic
    | Some (_, writer) =>
        delete writer "" wp [stateFilePath wp] kratixFileCleanupWorkPlacementFinalizer
    end
  else ret noRequeue.

Definition requeueIfNotFound (err : error) : M S Result :=
  if IsNotFound err then ret defaultRequeue else fail err.

(** [dest] is the outcome of [getDestination]. *)
Definition handleDeletion (wp : WorkPlacement) (dest : error + Destination) : M S Result :=
  match dest with
  | inl e =>
      if IsNotFound e then deleteWorkPlacement None wp "" else fail e
  | inr destination =>
      let ref := ds_stateStoreRef (r_spec destination) in
      let! rw := try (newWriter (ssr_name ref) (ssr_kind ref) (ds_path (r_spec destination))) in
      match rw with
      | inl e =>
          Eventf wp EventTypeWarning failedDeleteEventReason
            ("error at creating a writer for Destination: " +:+ GetName destination +:+
             " with error: " +:+ Error e) ;;;
          requeueIfNotFound e
      | inr writer =>
          deleteWorkPlacement (Some (destination, writer)) wp (GetFilepathMode destination)
      end
  end.

(** ** The reconciler with its version cache *)

(** [r.VersionCache] is part of the reconciler's own state. *)
Definition updateStatus (wp : WorkPlacement) (versionID : string)
    : M (S * gmap string string) (Result * WorkPlacement) :=
  let! cache := recall in
  let cached := default "" (cache !! GetUniqueID wp) in
  let! versionID :=
    if bool_decide (versionID = "") && bool_decide (cached ≠ "") then
      remember (base.delete (GetUniqueID wp) cache) ;;;
      ret cached
    else ret versionID in
  if bool_decide (versionID ≠ "" ∧ wpst_versionID (r_status wp) ≠ versionID) then
    let wp := set_wp_versionID versionID wp in
    let! r := try (zoom (StatusUpdate wp)) in
    match r with
    | inl e =>
        let! cache := recall in
        remember (<[GetUniqueID wp := versionID]> cache) ;;;
        if IsConflict e then ret (fastRequeue, wp) else fail e
    | inr wp => ret (noRequeue, wp)
    end
  else ret (noRequeue, wp).

Definition Reconcile (req : Key) : M (S * gmap string string) Result :=
  let! r := try (zoom (Get (Sp:=WorkPlacementSpec) req)) in
  match r with
  | inl e => if IsNotFound e then ret noRequeue else ret defaultRequeue
  | inr wp =>
      let! dest := try (zoom (getDestination wp)) in
      if deleting wp then zoom (handleDeletion wp dest)
      else
        match dest with
        | inl e => fail e
        | inr destination =>
            let! w := zoom (writeToStateStore wp destination) in
            let '(versionID, requeue, wp) := w in
            if bool_decide (0 < requeueAfter requeue)%Z then ret requeue
            else
              let! u := updateStatus wp versionID in
              let '(statusRequeue, wp) := u in
              if bool_decide (0 < requeueAfter statusRequeue)%Z then ret statusRequeue
              else
                match checkWorkPlacementFinalizers wp (GetFilepathMode destination) with
                | [] => zoom (setWorkplacementReady wp) ;;; ret noRequeue
                | missingFinalizers => zoom (addFinalizers wp missingFinalizers)
                end
        end
  end.
End controller.
End WorkPlacementReconciler.
