(* ===== verification/WorkPlacementFacts.v ===== *)
(** * Properties of the WorkPlacement controller

    Proved against the promises of the state store interface. *)

From S2P Require Import Prelude GoLib Codec Meta Api Kube Client Shared Purge Scheduler.
From S2P Require Import SchedulerPlace WorkController StateStore WorkPlacementController Sim.
From S2P Require Import SimStore.
Import WorkPlacementReconciler.

(** ** Pure facts *)

Lemma cleanup_map_lookup (ws : list Workload) p :
  foldl (λ (m : gmap string bool) w, <[wl_filepath w := true]> m) ∅ ws !! p = None ↔
  p ∉ workloadsFilenames ws.
Proof.
unfold workloadsFilenames. induction ws as [|w ws IH] using rev_ind; [set_solver|].
rewrite foldl_app, fmap_app. simpl. rewrite lookup_insert_None, IH. set_solver.
Qed.

Lemma elem_of_cleanupWorkloads old new p :
  p ∈ cleanupWorkloads old new ↔ p ∈ old ∧ p ∉ workloadsFilenames new.
Proof.
unfold cleanupWorkloads. rewrite list_elem_of_filter, cleanup_map_lookup. tauto.
Qed.

Section plain.
Context `{Codec}.

(** The workloads with their content decompressed. *)
Definition plain_of (ws : list Workload) (plain : list Workload) : Prop :=
  Forall2 (λ w v, wl_filepath v = wl_filepath w ∧ DecompressContent (wl_content w) = inr (wl_content v))
    ws plain.

Lemma decompressWorkloads_ok acc ws r :
  decompressWorkloads acc ws = inr r → ∃ plain, r = acc ++ plain ∧ plain_of ws plain.
Proof.
revert acc. induction ws as [|w ws IH]; intros acc; simpl.
- intros [= <-]. exists []. rewrite app_nil_r. split; [done|constructor].
- destruct (DecompressContent _) as [|c] eqn:Hd; [done|]. intros (pl & -> & Hp)%IH.
  eexists (_ :: pl). rewrite <-(assoc_L (++)). split; [done|]. by constructor.
Qed.

Lemma plain_paths ws plain : plain_of ws plain → wl_filepath <$> plain = wl_filepath <$> ws.
Proof. induction 1 as [|w v ws vs [Hp _] _ IH]; [done|]. by rewrite !fmap_cons, Hp, IH. Qed.
End plain.

(** The content that ends up at a path when [ws] are written in order. *)
Definition final_content (dir : string) (ws : list Workload) (p : string) : option string :=
  wl_content <$> last (filter (λ w, path_in dir (wl_filepath w) = p) ws).

Lemma last_filter_split (P : Workload → Prop) `{∀ x, Decision (P x)} l w :
  last (filter P l) = Some w →
  ∃ pre post, l = pre ++ w :: post ∧ P w ∧ Forall (λ x, ¬ P x) post.
Proof.
induction l as [|x l IH] using rev_ind; [done|]. rewrite filter_app, filter_cons, filter_nil.
case_decide as Hx.
- rewrite last_snoc. intros [= ->]. exists l, []. auto.
- rewrite app_nil_r. intros (pre & post & -> & Hw & Hf)%IH. exists pre, (post ++ [x]).
  rewrite <-(assoc_L (++)). split_and!; [done|done|]. apply Forall_app. auto.
Qed.

(** An update leaves, at every path it is in charge of, the final content. *)
Lemma update_spec_final dir create del f f' p :
  update_spec dir create del f f' →
  p ∈ written_paths dir create ∨
    (dir ≠ "" ∧ below dir p = true) ∨ (dir = "" ∧ p ∈ path_in "" <$> del) →
  f' !! p = final_content dir create p.
Proof.
intros [Hw He Hd _] Hin. unfold final_content.
destruct (last (filter _ create)) as [w|] eqn:Hl; simpl.
- apply last_filter_split in Hl as (pre & post & -> & <- & Hpost).
  apply (Hw pre w post); [done|]. intros (w' & Heq & Hin')%list_elem_of_fmap.
  rewrite Forall_forall in Hpost. by apply (Hpost w').
- assert (p ∉ written_paths dir create) as Hnw.
  { intros (w & -> & Hw')%list_elem_of_fmap. apply last_None in Hl.
    assert (w ∈ filter (λ w0, path_in dir (wl_filepath w0) = path_in dir (wl_filepath w)) create)
      as Hin' by (by apply list_elem_of_filter). rewrite Hl in Hin'. set_solver. }
  destruct Hin as [?|[[Hdir Hb]|[Hdir Hin]]]; [done|auto|].
  apply list_elem_of_fmap in Hin as (d & -> & Hin). auto.
Qed.

Lemma written_paths_map dir ws : written_paths dir ws = path_in dir <$> (wl_filepath <$> ws).
Proof. unfold written_paths. by rewrite <-list_fmap_compose. Qed.

Lemma getDir_ok (wp : WorkPlacement) :
  5 ≤ String.length (wps_id (r_spec wp)) → ∃ d, getDir wp = Ok d.
Proof.
intros Hl. unfold getDir, shortID. rewrite Strings.slice_ok by lia. case_bool_decide; eauto.
Qed.

Section facts.
Context {S : Type} `{World S, Viewed S, !WorldLaws S, Lib, !LibLaws, Codec, !CodecLaws}.
Context `{!StateStoreWriter S, !StoredFiles S, !StateStoreLaws S}.
Implicit Types s : S.

(** ** Writing *)

(** The destination neither lists its files nor aggregates them. *)
Definition nested_mode (dest : Destination) : Prop :=
  GetFilepathMode dest ≠ FilepathModeNone ∧ GetFilepathMode dest ≠ FilepathModeAggregatedYAML.

Lemma wp_nested_write w wp dest dir (Q : outcome string → S → Prop) s :
  nested_mode dest → getDir wp = Ok dir → dir ≠ "" →
  (∀ v plain s', view s' = view s → plain_of (wps_workloads (r_spec wp)) plain →
     (∀ p, below dir p = true ∨ p ∈ written_paths dir plain → files w s' !! p = final_content dir plain p) →
     (∀ p, near dir p = false → p ∉ written_paths dir plain → files w s' !! p = files w s !! p) →
     Q (Ok v) s') →
  (∀ e s', view s' = view s → Q (Fail e) s') →
  Prelude.wp (writeWorkloadsToStateStore w wp dest) Q s.
Proof.
intros [Hm1 Hm2] Hdir Hne HO HE. unfold writeWorkloadsToStateStore. rewrite Hdir.
apply wp_bind, wp_lift. rewrite !bool_decide_false by done.
apply wp_bind, wp_bind, wp_ret, wp_bind.
destruct (decompressWorkloads [] _) as [e|plain'] eqn:Hd; simpl; [by apply wp_fail, HE|].
apply decompressWorkloads_ok in Hd as (plain & -> & Hplain). simpl.
apply wp_ret, wp_ret, wp_UpdateFiles; [|done].
intros v s' Hv Hup. apply (HO v plain); [done|done| |].
- intros p Hp. eapply update_spec_final; [done|]. naive_solver.
- intros p Hn Hp. by apply (us_untouched _ _ _ _ _ Hup).
Qed.

(** Writing a placement to a destination that nests files by metadata.  On
    success the directory of the placement holds exactly its decompressed
    workloads: every file below the directory is the last workload with that
    path, and files that no workload has any more are gone.  Files whose path
    does not begin with the directory, unless a workload's own path leads there,
    are not touched; nor is the cluster.  With an identifier of at least five
    bytes the write does not panic. *)
Theorem nested_write_mirrors_workloads w wp dest dir s :
  nested_mode dest → getDir wp = Ok dir → dir ≠ "" →
  Prelude.wp (writeWorkloadsToStateStore w wp dest)
    (post
      (λ _ s', view s' = view s ∧ ∃ plain, plain_of (wps_workloads (r_spec wp)) plain ∧
         (∀ p, below dir p = true ∨ p ∈ written_paths dir plain →
            files w s' !! p = final_content dir plain p) ∧
         (∀ p, near dir p = false → p ∉ written_paths dir plain →
            files w s' !! p = files w s !! p))
      (λ _ s', view s' = view s)) s.
Proof.
intros Hm Hdir Hne. apply (wp_nested_write _ _ _ dir); [done|done|done| |done].
intros v plain s' Hv Hp Hin Hout. split; [done|]. by exists plain.
Qed.

(** The files listed by the state file of a placement; none when it is missing. *)
Definition listed (w : Writer) (wp : WorkPlacement) s (l : list string) : Prop :=
  match files w s !! path_in "" (stateFilePath wp) with
  | Some c => yaml_Unmarshal c = inr l
  | None => l = []
  end.

Lemma wp_generateKratixStateFile w wp (Q : outcome (Workload * StateFile) → S → Prop) s :
  (∀ old c s', view s' = view s → (∀ w', files w' s' = files w' s) → listed w wp s old →
     yaml_Unmarshal c = inr (workloadsFilenames (wps_workloads (r_spec wp))) →
     Q (Ok ({| wl_filepath := stateFilePath wp; wl_content := c |}, {| Files := old |})) s') →
  (∀ e s', view s' = view s → Q (Fail e) s') →
  Prelude.wp (generateKratixStateFile wp w) Q s.
Proof.
intros HO HE.
assert (∀ c0 s1, view s1 = view s → (∀ w', files w' s1 = files w' s) →
  (∀ l, yaml_Unmarshal c0 = inr l → listed w wp s l) →
  Prelude.wp (match yaml_Unmarshal c0 with
  | inl e => fail (ErrorWrap "failed to unmarshal .kratix state file" e)
  | inr oldFiles =>
      match yaml_Marshal (workloadsFilenames (wps_workloads (r_spec wp))) with
      | inl e => fail (ErrorMsg "failed to marshal new .kratix state file: %!w(<nil>)")
      | inr content =>
          ret ({| wl_filepath := stateFilePath wp; wl_content := content |}, {| Files := oldFiles |})
      end end) Q s1) as Hrest.
{ intros c0 s1 Hv Hf Hl. destruct (yaml_Unmarshal c0) as [e|old]; [by apply wp_fail, HE|].
  destruct (yaml_Marshal _) as [e|c] eqn:Hm; [by apply wp_fail, HE|].
  apply wp_ret, HO; [done|done|by apply Hl|]. by apply unmarshal_marshal. }
apply wp_bind, wp_try, wp_ReadFile.
- intros c s1 Hv Hf Hc. apply wp_bind, wp_ret. simpl. apply Hrest; [done|done|].
  intros l Hl. unfold listed. by rewrite Hc.
- intros e s1 Hv Hf Hnf. apply wp_bind. unfold ignoreNotFound. case_bool_decide as He.
  + apply wp_ret, Hrest; [done|done|]. intros l Hl. rewrite unmarshal_empty in Hl.
    unfold listed. rewrite Hnf by done. congruence.
  + apply wp_fail. by apply HE.
Qed.

(** writing a placement to a destination with [mode: none].  On success the
    state file lists exactly the paths of the placement's workloads, each
    workload is written decompressed at the root, every file the previous state
    file listed and no workload has any more is gone, and all other files are
    untouched. *)
Theorem plain_write_tracks_files w wp dest s :
  GetFilepathMode dest = FilepathModeNone → 5 ≤ String.length (wps_id (r_spec wp)) →
  path_in "" (stateFilePath wp) ∉ written_paths "" (wps_workloads (r_spec wp)) →
  Prelude.wp (writeWorkloadsToStateStore w wp dest)
    (post
      (λ _ s', view s' = view s ∧ ∃ plain old,
         plain_of (wps_workloads (r_spec wp)) plain ∧ listed w wp s old ∧
         listed w wp s' (workloadsFilenames (wps_workloads (r_spec wp))) ∧
         (∀ p, p ∈ written_paths "" plain → files w s' !! p = final_content "" plain p) ∧
         (∀ d, d ∈ old → path_in "" d ∉ path_in "" (stateFilePath wp) :: written_paths "" plain →
            files w s' !! path_in "" d = None) ∧
         (∀ p, p ∉ path_in "" (stateFilePath wp) :: written_paths "" plain →
            p ∉ path_in "" <$> old → files w s' !! p = files w s !! p))
      (λ _ s', view s' = view s)) s.
Proof.
intros Hm Hid Hst. destruct (getDir_ok wp Hid) as [dir Hdir].
unfold writeWorkloadsToStateStore. rewrite Hdir, Hm.
apply wp_bind, wp_lift. rewrite bool_decide_false, bool_decide_true by done.
apply wp_bind, wp_bind, wp_bind, wp_generateKratixStateFile; [|done].
intros old c s1 Hv1 Hf1 Hold Hc. apply wp_ret. simpl. apply wp_bind.
destruct (decompressWorkloads _ _) as [e|plain'] eqn:Hd; simpl; [by apply wp_fail|].
apply decompressWorkloads_ok in Hd as (plain & -> & Hplain). simpl.
apply wp_ret, wp_ret, wp_UpdateFiles; [|intros; congruence].
intros v s2 Hv2 Hup. rewrite Hf1 in Hup. split; [congruence|]. exists plain, old.
assert (written_paths "" plain = written_paths "" (wps_workloads (r_spec wp))) as Hpp.
{ by rewrite !written_paths_map, (plain_paths _ _ Hplain). }
rewrite <-Hpp in Hst. split_and!; [done|done| | | |].
- pose proof (us_written _ _ _ _ _ Hup [] _ plain eq_refl Hst) as Hw. simpl in Hw.
  unfold listed. by rewrite Hw.
- intros p Hp. rewrite (update_spec_final _ _ _ _ _ p Hup) by (left; by right).
  unfold final_content. rewrite filter_cons_False; [done|]. simpl. by intros <-.
- intros d Hd Hp. apply (us_deleted _ _ _ _ _ Hup); [done| |exact Hp].
  apply elem_of_cleanupWorkloads. split; [done|]. intros Hf. apply Hp. right.
  rewrite Hpp, written_paths_map. by apply list_elem_of_fmap_2.
- intros p Hp Hold'. apply (us_untouched _ _ _ _ _ Hup); [exact Hp|done|].
  intros _ (d & -> & [Hd _]%elem_of_cleanupWorkloads)%list_elem_of_fmap.
  apply Hold'. by apply list_elem_of_fmap_2.
Qed.

(** ** Deleting *)

(** The files of the placement are gone from the store. *)
Definition cleaned_up (mode dir : string) (w : Writer) (wp : WorkPlacement) s s' : Prop :=
  (mode = FilepathModeNestedByMetadata → ∀ p, below (dir +:+ "/") p = true → files w s' !! p = None) ∧
  (mode = FilepathModeNone → ∀ l d, listed w wp s l → d ∈ l → files w s' !! path_in "" d = None).

Lemma wp_delete w dir wp ws fin (Q : outcome Result → S → Prop) s :
  (∀ r s', r ≠ Panicked → update_spec dir [] ws (files w s) (files w s') → Q r s') →
  (∀ e s', view s' = view s → Q (Fail e) s') →
  Prelude.wp (WorkPlacementReconciler.delete w dir wp ws fin) Q s.
Proof.
intros HO HE. apply wp_bind, wp_try, wp_UpdateFiles.
- intros v s1 Hv1 Hup. apply wp_bind, wp_Update_files.
  + intros old gen s2 _ _ Hf. apply wp_ret, HO; [done|]. by rewrite Hf.
  + intros e s2 _ Hf. apply HO; [done|]. by rewrite Hf.
- intros e s1 Hv1. apply wp_bind, wp_Eventf. intros s2 Hv2. apply wp_fail, HE. congruence.
Qed.


Lemma cleanupDeletionFinalizers_spec (wp : WorkPlacement) f :
  key (cleanupDeletionFinalizers wp) = key wp ∧
  (f ∈ GetFinalizers (cleanupDeletionFinalizers wp) ↔
     f ∈ GetFinalizers wp ∧ f ≠ repoCleanupWorkPlacementFinalizer ∧
     f ≠ kratixFileCleanupWorkPlacementFinalizer).
Proof.
unfold cleanupDeletionFinalizers. rewrite !contains_finalizer.
assert (repoCleanupWorkPlacementFinalizer ≠ kratixFileCleanupWorkPlacementFinalizer) by done.
repeat case_bool_decide; cbn [GetFinalizers SetFinalizers set_meta r_meta om_set_finalizers
  om_finalizers] in *; (split; [done|]); rewrite ?elem_of_remove_finalizer in *;
  (split; [intros Hf; split_and!; try tauto; intros ->; tauto|tauto]).
Qed.

(** a placement whose destination no longer exists does not block its own
    deletion.  Deleting it drops both clean-up finalizers without touching a
    state store: afterwards the placement is gone or is held by other finalizers
    only; no other placement changes, and the nil writer is never used. *)
Theorem vanished_destination_releases wp s :
  wps s !! key wp = Some wp →
  Prelude.wp (handleDeletion wp (inl (ApiError ReasonNotFound)))
    (post
      (λ r s', r = noRequeue ∧
         (∀ k, k ≠ key wp → wps s' !! k = wps s !! k) ∧
         (∀ p f, wps s' !! key wp = Some p → f ∈ GetFinalizers p →
            f ∈ GetFinalizers wp ∧ f ≠ repoCleanupWorkPlacementFinalizer ∧
            f ≠ kratixFileCleanupWorkPlacementFinalizer))
      (λ _ s', view s' = view s)) s.
Proof.
intros Hst. change (handleDeletion _ _) with (deleteWorkPlacement None wp "").
apply wp_bind.
destruct (cleanupDeletionFinalizers_spec wp "") as [Hk _].
pose proof (λ f, proj2 (cleanupDeletionFinalizers_spec wp f)) as Hf.
generalize dependent (cleanupDeletionFinalizers wp). intros wp1 Hk Hf.
apply wp_Update; [|by intros e s' Hv].
intros old gen s' Hold Hv. rewrite Hk in Hold.
set (p := on_update gen old wp1) in *.
assert (key p = key wp) as Hkp by done.
assert (∀ f, f ∈ GetFinalizers p ↔ f ∈ GetFinalizers wp ∧
  f ≠ repoCleanupWorkPlacementFinalizer ∧ f ≠ kratixFileCleanupWorkPlacementFinalizer) as Hfp
  by exact Hf.
assert (∀ g, g = repoCleanupWorkPlacementFinalizer ∨ g = kratixFileCleanupWorkPlacementFinalizer →
  ContainsFinalizer (GetFinalizers p) g = false) as Hnot.
{ intros g Hg. rewrite contains_finalizer. apply bool_decide_eq_false. rewrite Hfp. naive_solver. }
apply wp_bind. rewrite bool_decide_false by done. apply wp_ret.
rewrite !Hnot by auto. apply wp_ret.
assert (wps s' = put_or_reap p (wps s)) as Hw by (unfold wps; by rewrite Hv, coll_set).
unfold post. rewrite Hw. unfold put_or_reap. rewrite Hkp. split_and!; [done| |].
- intros k Hne. case_match; [by rewrite lookup_delete_ne|by rewrite lookup_insert_ne].
- intros q f. case_match; [by rewrite lookup_delete_eq|]. rewrite lookup_insert_eq.
  intros [= <-]. apply Hfp.
Qed.

(** ** Reporting *)

Definition wp_cond (wp : WorkPlacement) (t : string) : option string :=
  cond_status <$> FindStatusCondition (wpst_conditions (r_status wp)) t.

Lemma wp_publishWriteEvent wp r v e (Q : outcome unit → S → Prop) s :
  (∀ s', view s' = view s → Q (Ok tt) s') → Prelude.wp (publishWriteEvent wp r v e) Q s.
Proof. intros HQ. unfold publishWriteEvent. repeat case_match; by apply wp_Eventf. Qed.

(** A write neither panics nor changes the cluster. *)
Definition quiet {A} (m : M S A) : Prop :=
  ∀ s, Prelude.wp m (λ r s', r ≠ Panicked ∧ view s' = view s) s.

Lemma wp_writeWorkloads_quiet w wp dest :
  5 ≤ String.length (wps_id (r_spec wp)) → deleting wp = false →
  quiet (writeWorkloadsToStateStore w wp dest).
Proof.
intros Hid Hdel s. destruct (getDir_ok wp Hid) as [dir Hdir].
unfold writeWorkloadsToStateStore. rewrite Hdir. apply wp_bind, wp_lift.
assert (∀ d cr dl s1, view s1 = view s → Prelude.wp (UpdateFiles w d (GetName wp) cr dl)
  (λ r s', r ≠ Panicked ∧ view s' = view s) s1) as Hup
  by (intros; apply wp_UpdateFiles; intros; (split; [done|congruence])).
case_bool_decide as Hm; [|case_bool_decide as Hm'].
- apply wp_bind, wp_bind. unfold handleAggregatedYAML, getAllWorkplacementsForDestination.
  apply wp_bind, wp_bind, wp_try, wp_List; [|intros; by apply wp_fail].
  intros l s1 Hv1 _. apply wp_ret. destruct (filter _ l) as [|p ps].
  { apply wp_ret, wp_ret. simpl. by apply Hup. }
  apply wp_bind. destruct (combineWorkloads _); simpl; [by apply wp_fail|]. apply wp_ret.
  rewrite Hdel. apply wp_ret, wp_ret. simpl. by apply Hup.
- apply wp_bind, wp_bind, wp_bind, wp_generateKratixStateFile; [|done].
  intros old c s1 Hv1 _ _ _. apply wp_ret. simpl. apply wp_bind.
  destruct (decompressWorkloads _ _); simpl; [by apply wp_fail|]. apply wp_ret, wp_ret. by apply Hup.
- apply wp_bind, wp_bind, wp_ret, wp_bind.
  destruct (decompressWorkloads _ _); simpl; [by apply wp_fail|]. apply wp_ret, wp_ret. by apply Hup.
Qed.

Lemma set_wp_conditions_id (wp : WorkPlacement) :
  set_wp_conditions (wpst_conditions (r_status wp)) wp = wp.
Proof. by destruct wp as [? ? []]. Qed.

(** Recording a failed write. *)
Lemma wp_setWriteFail wp err (Q : outcome unit → S → Prop) s :
  wps s !! key wp = Some wp →
  (∀ p s', wps s' !! key wp = Some p → sans_status p = sans_status wp →
     wp_cond p writeSucceededConditionType = Some ConditionFalse →
     wp_cond p "Ready" = Some ConditionFalse → Q (Ok tt) s') →
  (∀ e s', view s' = view s → Q (Fail e) s') →
  Prelude.wp (setWriteFailStatusConditions wp err) Q s.
Proof.
intros Hst HO HE. unfold setWriteFailStatusConditions.
apply wp_bind, wp_setStatusCondition. intros now s1 Hv1.
apply wp_bind, wp_setStatusCondition. intros now' s2 Hv2.
assert (view s2 = view s) as Hv by congruence.
set (cw := mk_cond writeSucceededConditionType _ _ _). set (cr := mk_cond "Ready" _ _ _).
set (cs0 := wpst_conditions (r_status wp)).
pose proof (set_find_same now cs0 cw) as (d & Hd & _ & Hds & _).
pose proof (set_find_same now' (SetStatusCondition now cs0 cw).1 cr) as (d' & Hd' & _ & Hds' & _).
set (r1 := SetStatusCondition now cs0 cw) in *. set (r2 := SetStatusCondition now' r1.1 cr) in *.
assert (∀ p, wpst_conditions (r_status p) = r2.1 →
  wp_cond p writeSucceededConditionType = Some ConditionFalse ∧
  wp_cond p "Ready" = Some ConditionFalse) as Hrep.
{ intros p Hp. unfold wp_cond. rewrite Hp. split.
  - subst r2. rewrite set_find_other by done.
    change writeSucceededConditionType with (cond_type cw). rewrite Hd. simpl. by rewrite Hds.
  - change "Ready" with (cond_type cr). rewrite Hd'. simpl. by rewrite Hds'. }
destruct (r1.2 || r2.2) eqn:Hch.
- apply wp_bind, wp_StatusUpdate.
  + intros old s3 Hold Hv3. assert (old = wp) as ->.
    { rewrite Hv in Hold. change (coll (view s) !! key wp = Some old) in Hold.
      unfold wps in Hst. congruence. }
    apply wp_ret. destruct (Hrep (set_wp_conditions r2.1 wp) eq_refl).
    apply (HO (set_wp_conditions r2.1 wp)); [|done..].
    unfold wps. rewrite Hv3, coll_set. apply lookup_insert_eq.
  + intros e s3 Hv3. apply HE. congruence.
- apply wp_ret. apply orb_false_iff in Hch as [H1' H2'].
  apply (set_unchanged_eq now cs0 cw) in H1'. apply (set_unchanged_eq now' r1.1 cr) in H2'.
  assert (r2.1 = cs0) as Heq by (subst r2 r1; congruence).
  destruct (Hrep wp) as [E1 E2]; [by rewrite Heq|].
  apply (HO wp); [|done..]. unfold wps. by rewrite Hv.
Qed.

(** What the store and the cluster say after an attempt to write. *)
Definition write_reported (wp : WorkPlacement) (rq : Result) (wp' : WorkPlacement) s' : Prop :=
  ∃ p, wps s' !! key wp = Some p ∧ sans_status p = sans_status wp ∧
  if bool_decide (requeueAfter rq = 0)%Z
  then wp' = p ∧ wp_cond p writeSucceededConditionType = Some ConditionTrue
  else p = wp ∨ (wp_cond p writeSucceededConditionType = Some ConditionFalse ∧
                 wp_cond p "Ready" = Some ConditionFalse).

(** [WriteSucceeded] is truthful.  When a write is not put off, the placement
    as stored afterwards (metadata and spec unchanged) reports
    [WriteSucceeded=True]; when it is put off, the placement is stored as it
    was, or reports [WriteSucceeded=False] and [Ready=False].  Only creating the
    writer can make it return an error, and it does not panic unless the store is a
    git store without a secret. *)
Theorem write_outcome_reported wp dest s :
  wps s !! key wp = Some wp → deleting wp = false →
  5 ≤ String.length (wps_id (r_spec wp)) → secured (ds_stateStoreRef (r_spec dest)) (view s) →
  Prelude.wp (writeToStateStore wp dest)
    (post (λ r s', write_reported wp r.1.2 r.2 s') (λ _ s', view s' = view s)) s.
Proof.
intros Hst Hdel Hid Hsec. unfold writeToStateStore. cbv zeta.
assert (∀ s' r v, view s' = view s → requeueAfter r ≠ 0%Z →
  write_reported wp r v s') as Hoff.
{ intros s' r v Hv Hr. exists wp. unfold wps. rewrite Hv, bool_decide_false by done. auto. }
apply wp_bind, wp_try, wp_newWriter_secured; [done|..].
2:{ intros e s1 Hv1 _. case_match; [|by apply wp_fail]. by apply wp_ret, Hoff. }
intros w s1 Hv1 _. apply wp_bind, wp_try.
eapply wp_mono; [by apply wp_writeWorkloads_quiet|]. intros [v|e|] s2 [Hnp Hv2]; [| |done].
- apply wp_bind, wp_publishWriteEvent. intros s3 Hv3.
  apply wp_bind, wp_setStatusCondition. intros now s4 Hv4.
  assert (view s4 = view s) as Hv by congruence.
  match goal with |- context [SetStatusCondition now ?cs ?c] =>
    pose proof (set_find_same now cs c) as (d & Hd & _ & Hds & _);
    pose proof (set_unchanged_eq now cs c) as Hun;
    destruct (SetStatusCondition now cs c) as [cs' []] end; simpl in *.
  + apply wp_bind, wp_try, wp_StatusUpdate.
    * intros old s5 Hold Hv5. assert (old = wp) as ->.
      { rewrite Hv in Hold. change (coll (view s) !! key wp = Some old) in Hold.
        unfold wps in Hst. congruence. }
      apply wp_ret. exists (set_wp_conditions cs' wp). simpl. split_and!; [|done|done|].
      -- unfold wps. rewrite Hv5, coll_set. apply lookup_insert_eq.
      -- unfold wp_cond. simpl. rewrite Hd. simpl. by rewrite Hds.
    * intros e s5 Hv5. apply wp_ret, Hoff; [congruence|done].
  + rewrite Hun, set_wp_conditions_id by done. apply wp_ret. exists wp. simpl.
    split_and!; [|done|done|].
    * unfold wps. by rewrite Hv.
    * unfold wp_cond. rewrite <-Hun, Hd by done. simpl. by rewrite Hds.
- apply wp_bind, wp_publishWriteEvent. intros s3 Hv3. apply wp_bind, wp_try, wp_setWriteFail.
  + unfold wps. by rewrite Hv3, Hv2, Hv1.
  + intros p s4 Hp Hsans E1 E2. apply wp_ret. exists p. simpl. auto.
  + intros e' s4 Hv4. apply wp_ret, Hoff; [congruence|done].
Qed.

(** ** The version cache *)
Implicit Types c : gmap string string.

(** The version to record: the one just written, else the one kept back. *)
Definition pending_version (wp : WorkPlacement) (v : string) c : string :=
  if bool_decide (v = "") then default "" (c !! GetUniqueID wp) else v.

(** a version identifier is not lost.  Given a version to record, either it
    is now the version of the stored placement, or the update of the status
    failed and the version is kept in the cache for the next reconciliation
    (which is asked for right away when the failure was a conflict).  No other
    entry of the cache is affected. *)
Theorem version_is_recorded_or_cached wp v s c :
  wps s !! key wp = Some wp → pending_version wp v c ≠ "" →
  Prelude.wp (updateStatus wp v)
    (λ r sc, (∀ i, i ≠ GetUniqueID wp → sc.2 !! i = c !! i) ∧
       let kept := view sc.1 = view s ∧ sc.2 !! GetUniqueID wp = Some (pending_version wp v c) in
       match r with
       | Ok (rq, wp') =>
           if bool_decide (rq = noRequeue)
           then wps sc.1 !! key wp = Some wp' ∧
                wpst_versionID (r_status wp') = pending_version wp v c
           else rq = fastRequeue ∧ kept
       | Fail e => IsConflict e = false ∧ kept
       | Panicked => False
       end) (s, c).
Proof.
intros Hst Hne. unfold updateStatus.
set (v' := pending_version wp v c) in *.
apply wp_bind, wp_recall. cbv zeta.
assert (∀ (Q : outcome (Result * WorkPlacement) → S * gmap string string → Prop) k,
  (∀ c1, (∀ i, i ≠ (GetUniqueID wp) → c1 !! i = c !! i) → Prelude.wp (k v') Q (s, c1)) →
  Prelude.wp (let! versionID :=
    if bool_decide (v = "") && bool_decide (default "" (c !! (GetUniqueID wp)) ≠ "") then
      remember (base.delete (GetUniqueID wp) c) ;;; ret (default "" (c !! (GetUniqueID wp)))
    else ret v in k versionID) Q (s, c)) as Hpick.
{ intros Q k Hk. apply wp_bind. unfold v', pending_version in *.
  case_bool_decide as Hv; simpl.
  - rewrite bool_decide_true by done. apply wp_bind, wp_remember, wp_ret, Hk.
    intros i Hi. by rewrite lookup_delete_ne.
  - by apply wp_ret, Hk. }
apply Hpick. intros c1 Hc1. clear Hpick. clearbody v'. case_bool_decide as Hdiff.
- apply wp_bind, wp_try, wp_zoom, wp_StatusUpdate.
  + intros old s1 Hold Hv1. change (coll (view s) !! key wp = Some old) in Hold.
    assert (old = wp) as -> by (unfold wps in Hst; congruence).
    apply wp_ret. split; [done|]. rewrite bool_decide_true by done. split; [|done].
    unfold wps. cbn [fst]. rewrite Hv1, coll_set. apply lookup_insert_eq.
  + intros e s1 Hv1. apply wp_bind, wp_recall, wp_bind, wp_remember.
    change (GetUniqueID (set_wp_versionID v' wp)) with (GetUniqueID wp).
    assert (∀ i, i ≠ (GetUniqueID wp) → <[(GetUniqueID wp) := v']> c1 !! i = c !! i) as Hc2
      by (intros i Hi; rewrite lookup_insert_ne by done; auto).
    destruct (IsConflict e) eqn:He; [apply wp_ret|apply wp_fail]; (split; [done|]).
    * rewrite bool_decide_false by done. simpl. by rewrite lookup_insert_eq.
    * simpl. by rewrite lookup_insert_eq.
- apply wp_ret. split; [done|]. rewrite bool_decide_true by done. simpl. split; [done|].
  apply dec_stable. tauto.
Qed.
End facts.
