(* ===== verification/WorkPlacementWitness.v ===== *)
(** * The WorkPlacement controller on concrete placements *)

From S2P Require Import Prelude GoLib Codec Meta Api Kube Client Shared Purge Scheduler.
From S2P Require Import SchedulerPlace WorkController StateStore WorkPlacementController Sim.
From S2P Require Import SimStore WorkPlacementFacts.
Import WorkPlacementReconciler.

Definition dest_of (mode : string) : Destination :=
  mkResource (new_meta "" "d1")
    {| ds_path := ""; ds_stateStoreRef := {| ssr_kind := "BucketStateStore"; ssr_name := "s" |};
       ds_strictMatchLabels := false;
       ds_filepath := {| fp_mode := mode; fp_filename := "" |}; ds_cleanup := "";
       ds_initWorkloadsEnabled := false |}
    {| dst_conditions := [] |}.

(** A placement with one workload. *)
Definition a_placement : WorkPlacement :=
  mkResource
    (om_set_finalizers [repoCleanupWorkPlacementFinalizer] (new_meta "default" "redis.d1-5058f"))
    {| wps_targetDestinationName := "d1";
       wps_workloads := [{| wl_filepath := "ns.yaml"; wl_content := CompressContent "hello" |}];
       wps_promiseName := "redis"; wps_resourceName := "";
       wps_id := "5058f1af8388633f609cadb75a75dc9d" |}
    empty_wp_status.

Definition placement_cluster (mode : string) : Cluster := {|
  c_works := ∅; c_workplacements := of_list [a_placement];
  c_destinations := of_list [dest_of mode];
  c_jobs := ∅; c_parents := ∅; c_serviceaccounts := ∅; c_configmaps := ∅; c_roles := ∅;
  c_rolebindings := ∅; c_clusterroles := ∅; c_clusterrolebindings := ∅;
  c_bucketstores := of_list [a_bucket]; c_gitstores := ∅; c_secrets := ∅; c_releases := ∅; c_healthrecords := ∅;
  c_promises := ∅; c_crds := ∅ |}.

(** The store already holds a stale file of the placement and one of another. *)
Definition placement_sim (mode : string) : Sim :=
  sim_set_files {["dependencies/redis/5058f/old.yaml" := "old"; "other/x.yaml" := "x"]}
    (sim_of (placement_cluster mode)).

Lemma nested_write_mirrors_workloads_witness :
  let s := placement_sim "" in
  let run := writeWorkloadsToStateStore (tt : Writer) a_placement (dest_of "") s in
  run.1 = Ok "v1" ∧ sim_files run.2 !! "dependencies/redis/5058f/old.yaml" = None ∧
  sim_files run.2 !! "dependencies/redis/5058f/ns.yaml" = Some "hello" ∧
  ∃ plain, plain_of (wps_workloads (r_spec a_placement)) plain.
Proof.
cbv zeta.
assert ((writeWorkloadsToStateStore (tt : Writer) a_placement (dest_of "") (placement_sim "")).1
  = Ok "v1") as Hr by (vm_compute; reflexivity). split; [exact Hr|].
assert (nested_mode (dest_of "")) as Hm by (split; vm_compute; discriminate).
assert (getDir a_placement = Ok "dependencies/redis/5058f") as Hd by (vm_compute; reflexivity).
pose proof (nested_write_mirrors_workloads (tt : Writer) a_placement (dest_of "") _
  (placement_sim "") Hm Hd ltac:(discriminate)) as Hwp.
apply run_returns in Hwp as (v & _ & _ & plain & Hp & Hin & _); [|by rewrite Hr].
split; [|split; [vm_compute; reflexivity|by exists plain]].
change (files (tt : Writer) (writeWorkloadsToStateStore (tt : Writer) a_placement (dest_of "")
  (placement_sim "")).2 !! "dependencies/redis/5058f/old.yaml" = None).
vm_compute. reflexivity.
Defined.

Lemma plain_write_tracks_files_witness :
  let s := placement_sim "none" in
  let run := writeWorkloadsToStateStore (tt : Writer) a_placement (dest_of "none") s in
  run.1 = Ok "v1" ∧ listed (tt : Writer) a_placement run.2 ["ns.yaml"].
Proof.
cbv zeta.
assert ((writeWorkloadsToStateStore (tt : Writer) a_placement (dest_of "none")
  (placement_sim "none")).1 = Ok "v1") as Hr by (vm_compute; reflexivity). split; [exact Hr|].
assert (path_in "" (stateFilePath a_placement) ∉ written_paths "" (wps_workloads (r_spec a_placement)))
  as Hp by (apply (bool_decide_unpack _); vm_compute; exact I).
pose proof (plain_write_tracks_files (tt : Writer) a_placement (dest_of "none")
  (placement_sim "none") eq_refl ltac:(vm_compute; lia) Hp) as Hwp.
apply run_returns in Hwp as (v & _ & _ & plain & old & _ & _ & Hl & _); [|by rewrite Hr].
exact Hl.
Defined.


Lemma vanished_destination_releases_witness :
  let s := placement_sim "" in
  let run := handleDeletion a_placement (inl (ApiError ReasonNotFound)) s in
  run.1 = Ok noRequeue ∧ ∀ k, k ≠ key a_placement → wps run.2 !! k = wps s !! k.
Proof.
cbv zeta.
assert ((handleDeletion a_placement (inl (ApiError ReasonNotFound)) (placement_sim "")).1 =
  Ok noRequeue) as Hr by (vm_compute; reflexivity). split; [exact Hr|].
assert (wps (placement_sim "") !! key a_placement = Some a_placement) as Hs
  by (vm_compute; reflexivity).
pose proof (vanished_destination_releases a_placement (placement_sim "") Hs) as Hwp.
apply run_returns in Hwp as (v & _ & _ & Hk & _); [exact Hk|]. by rewrite Hr.
Defined.

Lemma write_outcome_reported_witness :
  let s := placement_sim "" in
  let run := writeToStateStore a_placement (dest_of "") s in
  ∃ r, run.1 = Ok r ∧ r.1.2 = noRequeue ∧ write_reported a_placement noRequeue r.2 run.2.
Proof.
cbv zeta.
assert (wps (placement_sim "") !! key a_placement = Some a_placement) as Hs
  by (vm_compute; reflexivity).
pose proof (write_outcome_reported a_placement (dest_of "") (placement_sim "") Hs eq_refl
  ltac:(vm_compute; lia) ltac:(discriminate)) as Hwp.
apply run_returns in Hwp as (r & Hr & Hq); [|vm_compute; reflexivity].
assert (r.1.2 = noRequeue) as Hn.
{ assert (match (writeToStateStore a_placement (dest_of "") (placement_sim "")).1 with
          | Ok r => r.1.2 = noRequeue | _ => False end) as Hm by (vm_compute; reflexivity).
  by rewrite Hr in Hm. }
exists r. simpl in Hq. rewrite Hn in Hq. auto.
Defined.

(** A conflict on the status update keeps the version in the cache. *)
Lemma version_is_recorded_or_cached_witness :
  let s := {| sim_cluster := placement_cluster ""; sim_faults := [Some FConflict];
              sim_rand := []; sim_clock := 1; sim_events := []; sim_files := ∅ |} in
  let run := updateStatus a_placement "v7" (s, ∅) in
  run.2.2 !! GetUniqueID a_placement = Some "v7" ∧
  ∀ i, i ≠ GetUniqueID a_placement → run.2.2 !! i = None.
Proof.
cbv zeta. split; [vm_compute; reflexivity|].
set (s := {| sim_cluster := placement_cluster ""; sim_faults := [Some FConflict];
              sim_rand := []; sim_clock := 1; sim_events := []; sim_files := ∅ |}).
assert (wps s !! key a_placement = Some a_placement) as Hs by (vm_compute; reflexivity).
pose proof (version_is_recorded_or_cached a_placement "v7" s ∅ Hs ltac:(vm_compute; discriminate))
  as Hwp.
apply run_returns in Hwp as (r & _ & Hi & _); [|vm_compute; reflexivity].
intros i Hne. rewrite (Hi i Hne). apply lookup_empty.
Defined.
