(* ===== verification/Delivery.v ===== *)
(** * From a Work to the files of its destinations

    The scheduler and the WorkPlacement controller together: what the scheduler placed, the
    WorkPlacement controller writes, whatever happens to other objects in between. *)

From S2P Require Import Prelude GoLib Files Codec Meta Api Kube Client Shared Purge Scheduler.
From S2P Require Import SchedulerPlace SchedulerFacts SchedulerWork WorkController StateStore WorkPlacementController Sim.
From S2P Require Import SimStore SchedulerWitness WorkPlacementFacts.
Import WorkPlacementReconciler.

Section delivery.
Context {S : Type} `{World S, Viewed S, !WorldLaws S, Lib, !LibLaws, Codec, !CodecLaws}.
Context `{!StateStoreWriter S, !StoredFiles S, !StateStoreLaws S}.
Implicit Types (s : S) (p : WorkPlacement) (d : Destination).

(** ** Programs that leave the state stores alone *)

(** [π] finds the environment in the state of the program. *)
Definition still {X A} (π : X → S) (m : M X A) : Prop :=
  ∀ x, Prelude.wp m (λ r x', r ≠ Panicked ∧ ∀ w, files w (π x') = files w (π x)) x.

Lemma still_ret {X A} (π : X → S) (a : A) : still π (ret a).
Proof. intros x. by apply wp_ret. Qed.
Lemma still_fail {X A} (π : X → S) e : still π (fail (A:=A) e).
Proof. intros x. by apply wp_fail. Qed.
Lemma still_bind {X A B} (π : X → S) (m : M X A) (k : A → M X B) :
  still π m → (∀ a, still π (k a)) → still π (bind m k).
Proof.
intros Hm Hk x. apply wp_bind. eapply wp_mono; [apply Hm|]. intros [a|e|] x1 [Hp Hf]; [|done|done].
eapply wp_mono; [apply Hk|]. intros r x2 [Hp2 Hf2]. split; [done|]. intros w. by rewrite Hf2.
Qed.
Lemma still_try {X A} (π : X → S) (m : M X A) : still π m → still π (try m).
Proof. intros Hm x. apply wp_try. eapply wp_mono; [apply Hm|]. by intros [] x' [Hp Hf]. Qed.
Lemma still_Update {Sp St} `{C : !Collection Sp St} (o : Resource Sp St) : still id (Update o).
Proof. intros s. by apply wp_Update_files. Qed.
Lemma still_StatusUpdate {Sp St} `{C : !Collection Sp St} (o : Resource Sp St) : still id (StatusUpdate o).
Proof. intros s. by apply wp_StatusUpdate_files. Qed.
Lemma still_Now : still id Now.
Proof. intros s. by apply wp_Now_files. Qed.
Lemma still_Eventf {Sp St} (o : Resource Sp St) t r m : still id (Eventf o t r m).
Proof. intros s. by apply wp_Eventf_files. Qed.
Lemma still_zoom {T A} (m : M S A) : still id m → still fst (zoom (T:=T) m).
Proof. intros Hm [s t]. apply wp_zoom, Hm. Qed.
Lemma still_recall {T} : still (X:=S * T) fst recall.
Proof. intros [s t]. by apply wp_recall. Qed.
Lemma still_remember {T} (t : T) : still fst (remember t).
Proof. intros [s t']. by apply wp_remember. Qed.

Create HintDb still.
Hint Resolve still_ret still_fail still_Update still_StatusUpdate still_Now still_Eventf still_recall
  still_remember : still.
Ltac still :=
  repeat first
    [ solve [auto with still]
    | apply still_bind; [|intros ?]
    | apply still_try
    | apply still_zoom
    | case_match ].

Lemma still_publishWriteEvent p r v e : still id (publishWriteEvent p r v e).
Proof. unfold publishWriteEvent. still. Qed.
Lemma still_setStatusCondition cs c : still id (setStatusCondition cs c).
Proof. unfold setStatusCondition. still. Qed.
Hint Resolve still_publishWriteEvent still_setStatusCondition : still.
Lemma still_setWriteFail p e : still id (setWriteFailStatusConditions p e).
Proof. unfold setWriteFailStatusConditions. still. Qed.
Lemma still_setReady p : still id (setWorkplacementReady p).
Proof. unfold setWorkplacementReady. still. Qed.
Lemma still_updateStatus p v : still fst (updateStatus p v).
Proof. unfold updateStatus. still. Qed.
Lemma still_addFinalizers {Sp St} `{C : !Collection Sp St} (o : Resource Sp St) fs : still id (addFinalizers o fs).
Proof. unfold addFinalizers. still. Qed.
Hint Resolve still_setWriteFail still_setReady still_updateStatus still_addFinalizers : still.

(** ** Writing *)

(** A writer for the state store and the path of the destination. *)
Definition writer_of d s (w : Writer) : Prop :=
  let ref := ds_stateStoreRef (r_spec d) in
  ∃ s0 s1, view s0 = view s ∧ newWriter (ssr_name ref) (ssr_kind ref) (ds_path (r_spec d)) s0 = (Ok w, s1).

(** The directory of the placement holds the workloads, decompressed, and nothing else; what lies
    elsewhere is as before. *)
Definition delivered d p (ws : list Workload) s s' : Prop :=
  ∃ w dir plain, writer_of d s w ∧ getDir p = Ok dir ∧ plain_of ws plain ∧
    (∀ path, below dir path = true ∨ path ∈ written_paths dir plain →
       files w s' !! path = final_content dir plain path) ∧
    (∀ path, near dir path = false → path ∉ written_paths dir plain →
       files w s' !! path = files w s !! path).

Lemma delivered_later d p ws s s1 s2 :
  (∀ w, files w s2 = files w s1) → delivered d p ws s s1 → delivered d p ws s s2.
Proof.
intros Hf (w & dir & plain & Hw & Hd & Hp & Hin & Hout). exists w, dir, plain.
split_and!; [done..| |]; intros path; rewrite Hf; auto.
Qed.

Lemma join_nonempty e es : e ≠ "" → Filepath.Join (e :: es) ≠ "".
Proof. intros He. unfold Filepath.Join. rewrite filter_cons_True by exact He. apply clean_nonempty. Qed.

Lemma getDir_nonempty p dir : getDir p = Ok dir → dir ≠ "".
Proof.
unfold getDir. destruct (shortID _) as [i|e|]; [|done|done].
case_bool_decide; intros [= <-]; by apply join_nonempty.
Qed.

Lemma wp_writeToStateStore p d s :
  nested_mode d → 5 ≤ String.length (wps_id (r_spec p)) → secured (ds_stateStoreRef (r_spec d)) (view s) →
  Prelude.wp (writeToStateStore p d) (λ r s', r ≠ Panicked ∧
    ∀ v rq p', r = Ok (v, rq, p') → ¬ (0 < requeueAfter rq)%Z → delivered d p (wps_workloads (r_spec p)) s s') s.
Proof.
intros Hm Hid Hsec. destruct (getDir_ok p Hid) as [dir Hdir]. pose proof (getDir_nonempty _ _ Hdir) as Hne.
unfold writeToStateStore. cbv zeta. apply wp_bind, wp_try, wp_exec, wp_newWriter_secured; [done|..].
2:{ intros e s1 Hv1 Hf1 _. case_match; [apply wp_ret|apply wp_fail]; (split; [done|]); [|done].
    intros v rq p' [= <- <- <-] Hz. by destruct Hz. }
intros w s1 Hv1 Hf1 Hnew. apply wp_bind, wp_try, (wp_nested_write _ _ _ dir); [done|done|done|..].
2:{ intros e s2 Hv2.
    apply wp_bind. eapply wp_mono; [apply still_publishWriteEvent|]. intros [[]|e'|] s3 [Hp3 _]; [|done|done].
    apply wp_bind. eapply wp_mono; [apply still_try, still_setWriteFail|]. intros [x|e'|] s4 [Hp4 _]; [|done|done].
    apply wp_ret. split; [done|]. intros v rq p' [= <- <- <-] Hz. by destruct Hz. }
intros v plain s2 Hv2 Hp Hin Hout.
assert (delivered d p (wps_workloads (r_spec p)) s s2) as Hd.
{ exists w, dir, plain. split_and!; [by exists s, s1|done|done|done|]. intros path Hn Hw. rewrite Hout by done.
  by rewrite Hf1. }
match goal with |- Prelude.wp ?m _ _ => assert (still id m) as Hs by still end.
eapply wp_mono; [apply Hs|]. intros r s3 [Hr Hf]. split; [done|]. intros _ _ _ _ _. by eapply delivered_later.
Qed.

Lemma delivered_from d p ws s s0 s' :
  view s0 = view s → (∀ w, files w s0 = files w s) → delivered d p ws s0 s' → delivered d p ws s s'.
Proof.
intros Hv Hf (w & dir & plain & (a & b & Ha & Hw) & Hd & Hp & Hin & Hout). exists w, dir, plain.
split_and!; [|done..|].
- exists a, b. split; [congruence|done].
- intros path Hn Hpath. rewrite <-Hf. auto.
Qed.

(** The placement can be written to its destination. *)
Record writable s (k : Key) p d : Prop := {
  wr_placement : wps s !! k = Some p;
  wr_live : deleting p = false;
  wr_destination : c_destinations (view s) !! ("", wps_targetDestinationName (r_spec p)) = Some d;
  wr_nested : nested_mode d;
  wr_secured : secured (ds_stateStoreRef (r_spec d)) (view s);
}.

(** A reconciliation that does not ask to be called again later has written the placement. *)
Lemma wp_Reconcile_delivers k p d s (c : gmap string string) :
  writable s k p d → 5 ≤ String.length (wps_id (r_spec p)) →
  Prelude.wp (WorkPlacementReconciler.Reconcile k) (λ r sc, r ≠ Panicked ∧
    ∀ rq, r = Ok rq → ¬ (0 < requeueAfter rq)%Z →
      delivered d p (wps_workloads (r_spec p)) s sc.1) (s, c).
Proof.
intros [Hp Hlive Hdest Hm Hsec] Hid. unfold WorkPlacementReconciler.Reconcile.
apply wp_bind, wp_try, wp_zoom, wp_Get_files.
2:{ intros e s1 Hv1 _ Hn. destruct (IsNotFound e) eqn:He.
    - unfold wps in Hp. rewrite Hn in Hp by done. discriminate.
    - apply wp_ret. split; [done|]. intros rq [= <-] Hz. by destruct Hz. }
intros p0 s1 Hv1 Hf1 Hp0. assert (p0 = p) as -> by (unfold wps in Hp; congruence).
apply wp_bind, wp_try, wp_zoom. unfold getDestination. apply wp_Get_files.
2:{ intros e s2 _ _ _. rewrite Hlive. apply wp_fail. by split. }
intros d0 s2 Hv2 Hf2 Hd0. rewrite Hlive.
assert (d0 = d) as -> by (rewrite Hv1 in Hd0; unfold coll in Hd0; cbn in Hd0; congruence).
apply wp_bind, wp_zoom. eapply wp_mono; [apply wp_writeToStateStore; [done|done|by rewrite Hv2, Hv1]|].
intros [[[v rq] p']|e|] s3 [Hnp Hdel]; [| |done]; [|by split].
case_bool_decide as Hrq; [by apply wp_ret; split; [|intros rq' [= <-]]|].
assert (delivered d p (wps_workloads (r_spec p)) s s3) as Hdone.
{ apply (delivered_from _ _ _ _ s2); [congruence|intros w; by rewrite Hf2|]. by apply (Hdel v rq p'). }
match goal with |- Prelude.wp ?m _ _ => assert (still fst m) as Hs by still end.
eapply wp_mono; [apply Hs|]. intros r [s4 c4] [Hr Hf]. split; [done|]. intros _ _ _. by eapply delivered_later.
Qed.

(** ** The scheduler and the WorkPlacement controller together *)

(** Where a scheduled group goes: a dependency to every eligible destination, a resource request
    to one of them. *)
Definition destined (work : Work) (wg : WorkloadGroup) s (ds : list Destination) : Prop :=
  let all := filter (eligible (resolveDestinationSelectorsForWorkloadGroup wg))
               (map_values (c_destinations (view s))) in
  ds ≠ [] ∧ if IsResourceRequest work then ∃ d, ds = [d] ∧ d ∈ all else ds ≡ₚ all.

Lemma scheduled_destined wg work s targets :
  group_targets wg work s targets → placing_status targets scheduledStatus →
  ∃ ds, destined work wg s ds ∧ ∀ d, d ∈ ds → (GetName d, false) ∈ map_to_list targets.
Proof.
intros (dests & names & (s1 & _ & Hl) & [Hnil Hch] & Ht) [Hne Hmis].
assert (names ≠ []) as Hnames.
{ intros ->. apply Hne, map_empty. intros t. specialize (Ht t). specialize (Hmis t).
  rewrite bool_decide_false in Ht by set_solver. case_bool_decide; congruence. }
destruct (w_list _ s1).1 as [e|l]; [by destruct Hnames; apply Hnil|].
destruct (IsResourceRequest work) eqn:Hrr.
- destruct Hch as [Hlen Hsub], names as [|n [|]]; [done| |simpl in Hlen; lia].
  destruct (proj1 (list_elem_of_fmap _ _ _) (Hsub n ltac:(left))) as (d & -> & Hd).
  exists [d]. unfold destined. rewrite Hrr. split.
  + split; [done|]. exists d. by rewrite <-Hl.
  + intros d' ->%list_elem_of_singleton. apply elem_of_map_to_list. rewrite Ht, bool_decide_true by left. done.
- subst names. exists dests. unfold destined. rewrite Hrr. split.
  + split; [by intros ->|done].
  + intros d Hd. apply elem_of_map_to_list. rewrite Ht, bool_decide_true; [done|]. by apply list_elem_of_fmap_2.
Qed.

(** Every destination of the group has its placement. *)
Definition group_placed (work : Work) (wg : WorkloadGroup) s (m : gmap Key WorkPlacement) : Prop :=
  ∃ ds, destined work wg s ds ∧ ∀ d, d ∈ ds →
    ∃ p, m !! placement_key work wg (GetName d) = Some p ∧ placed work wg (GetName d) false p.

(** *** Groups do not disturb each other *)
Definition short (wg : WorkloadGroup) : string := String.substring 0 5 (wg_id wg).

Lemma suffix_eq (a b x y : string) : String.length x = String.length y → a +:+ x = b +:+ y → x = y.
Proof.
intros Hl. revert b. induction a as [|c a IH]; intros [|c' b] Heq; [done| | |].
1,2: apply (f_equal String.length) in Heq; cbn in Heq; rewrite ?string_length_app in Heq; cbn in Heq; lia.
injection Heq as _ Heq. by eapply IH.
Qed.

Lemma placement_keys_apart work wg wg' t t' :
  5 ≤ String.length (wg_id wg) → 5 ≤ String.length (wg_id wg') → short wg ≠ short wg' →
  placement_key work wg t ≠ placement_key work wg' t'.
Proof.
intros Hl Hl' Hne Heq. apply Hne. injection Heq as Heq. apply string_app_inj_l, (string_app_inj_l _ _ ".") in Heq.
apply suffix_eq in Heq; [by apply (string_app_inj_l _ _ "-") in Heq|]. rewrite !string_length_app, !substring_length by lia. done.
Qed.

Lemma placed_lookup work wg t b p : placed work wg t b p →
  GetLabels p !! workLabelKey = Some (GetName work) ∧ GetLabels p !! workloadGroupIDKey = Some (wg_id wg).
Proof.
intros Hp. rewrite (placed_labels _ _ _ _ _ Hp). unfold placement_labels.
destruct b; simpl; rewrite ?(lookup_insert_ne _ misscheduledLabel), ?(lookup_insert_ne _ PipelineNameLabel),
  ?lookup_insert_eq, ?(lookup_insert_ne _ workLabelKey workloadGroupIDKey), ?lookup_insert_eq by done; done.
Qed.

Lemma placed_belongs work wg t b p :
  GetNamespace work = GetNamespace p → placed work wg t b p → belongs work wg p.
Proof.
intros Hns [Hw Hg]%placed_lookup. split; [by right|]. unfold group_labels.
apply insert_subseteq_l; [done|]. apply insert_subseteq_l; [done|]. apply map_empty_subseteq.
Qed.

Lemma placed_elsewhere work wg wg' t b p :
  wg_id wg ≠ wg_id wg' → placed work wg t b p → ¬ belongs work wg' p.
Proof.
intros Hne [_ Hg]%placed_lookup [_ Hb]. apply Hne.
assert (GetLabels p !! workloadGroupIDKey = Some (wg_id wg')) as Hg'; [|congruence].
eapply lookup_weaken; [|exact Hb]. unfold group_labels.
by rewrite lookup_insert_ne, lookup_insert_eq by done.
Qed.

(** What may follow on the groups that were done: the others have other identifiers. *)
Lemma group_placed_frame work wg wg' s l m0 m :
  5 ≤ String.length (wg_id wg) → 5 ≤ String.length (wg_id wg') → short wg ≠ short wg' →
  changed_within work wg' l m0 m → group_placed work wg s m0 → group_placed work wg s m.
Proof.
intros Hl Hl' Hne Hch (ds & Hds & Hall). exists ds. split; [done|]. intros d Hd.
destruct (Hall d Hd) as (p & Hp & Hpl). exists p. split; [|done]. rewrite Hch; [done|].
rewrite list_elem_of_fmap. intros (t & Ht & _). by eapply placement_keys_apart in Ht.
Qed.

Lemma destined_frame work wg s s' ds :
  c_destinations (view s') = c_destinations (view s) → destined work wg s' ds → destined work wg s ds.
Proof. unfold destined. by intros ->. Qed.

Lemma group_placed_from work wg s s' m :
  c_destinations (view s') = c_destinations (view s) → group_placed work wg s' m → group_placed work wg s m.
Proof. intros Hv (ds & Hds & Hall). exists ds. split; [by eapply destined_frame|done]. Qed.

(** The placements of a group that had none are none after another group was placed. *)
Lemma placements_in_frame work wg wg' l m0 m :
  wg_id wg ≠ wg_id wg' → placements_of work wg' l m0 m →
  placements_in work wg m0 = [] → placements_in work wg m = [].
Proof.
intros Hne [Hin Hout] Hnil. apply filter_empty, Forall_forall. intros p Hp Hb.
apply elem_of_map_values in Hp as [k Hk].
destruct (decide (k ∈ placement_key work wg' <$> l.*1)) as [Hkl|Hkl].
- apply list_elem_of_fmap in Hkl as (t & -> & ((t', b) & -> & Htb)%list_elem_of_fmap).
  destruct (Hin t' b Htb) as (p' & Hp' & Hpl). simpl in Hk. assert (p' = p) as -> by congruence.
  by eapply (placed_elsewhere work wg' wg); [|exact Hpl|exact Hb].
- rewrite Hout in Hk by done. assert (p ∈ placements_in work wg m0) as Hp; [|by rewrite Hnil in Hp; set_solver].
  apply list_elem_of_filter. split; [done|]. apply elem_of_map_values. eauto.
Qed.

(** *** A pass over all groups *)
Record good_group (work : Work) (wg : WorkloadGroup) : Prop := {
  gg_id : 5 ≤ String.length (wg_id wg);
  gg_parses : group_parses work wg;
  gg_selectors : selectors_parse wg;
}.

Definition fresh (work : Work) (groups : list WorkloadGroup) s : Prop :=
  IsResourceRequest work = false ∨ ∀ wg, wg ∈ groups → placements_in work wg (wps s) = [].

Lemma fresh_cons work wg groups s :
  fresh work (wg :: groups) s →
  (IsResourceRequest work = false ∨ placements_in work wg (wps s) = []) ∧ fresh work groups s.
Proof. intros [Hr|Hf]; [by split; left|]. split; right; [apply Hf; left|]. intros wg' Hin. apply Hf. by right. Qed.

Lemma fresh_next work wg groups l s s' m :
  wps s' = m → (∀ wg', wg' ∈ groups → wg_id wg' ≠ wg_id wg) → placements_of work wg l (wps s) m →
  fresh work groups s → fresh work groups s'.
Proof.
intros <- Hne Hp [Hr|Hf]; [by left|]. right. intros wg' Hin. eapply placements_in_frame; eauto.
Qed.

(** What a pass does to groups it is not about, and to its own when nothing is added to the lists. *)
Definition pass_placed (work : Work) (groups : list WorkloadGroup) (u mis : list string) s
    (r : outcome (string + list string * list string)) s' : Prop :=
  ∃ m, wps_become m s s' ∧ keyed m ∧
    (∀ wg, 5 ≤ String.length (wg_id wg) → short wg ∉ short <$> groups →
       group_placed work wg s (wps s) → group_placed work wg s m) ∧
    ∀ u' mis', r = Ok (inr (u', mis')) → u `prefix_of` u' ∧ mis `prefix_of` mis' ∧
      (u' = u → mis' = mis → ∀ wg, wg ∈ groups → group_placed work wg s m).

(** A group was placed, and the others are. *)
Lemma pass_placed_cons work wg groups u mis u1 mis1 l m1 s s1 r s' :
  5 ≤ String.length (wg_id wg) → short wg ∉ short <$> groups → wps_become m1 s s1 →
  changed_within work wg l (wps s) m1 →
  u `prefix_of` u1 → mis `prefix_of` mis1 → (u1 = u → mis1 = mis → group_placed work wg s m1) →
  pass_placed work groups u1 mis1 s1 r s' → pass_placed work (wg :: groups) u mis s r s'.
Proof.
intros Hid Hnew Hb Hch Hu Hm Hown (m & Hb' & Hkm' & Hfr & Hres).
pose proof (wps_become_wps _ _ _ Hb) as Hw. pose proof (wps_become_destinations _ _ _ Hb) as Hd.
rewrite Hw in Hfr. exists m.
assert (∀ wg', group_placed work wg' s m1 → group_placed work wg' s1 m1) as Hto
  by (intros wg'; by apply group_placed_from).
assert (∀ wg', group_placed work wg' s1 m → group_placed work wg' s m) as Hfrom
  by (intros wg'; by apply group_placed_from).
split_and!; [by eapply wps_become_trans|done| |].
- intros wg' Hl' [Hn Hn']%not_elem_of_cons Hpl'. apply Hfrom, Hfr; [done|done|apply Hto].
  by apply (group_placed_frame work wg' wg s l (wps s)).
- intros u' mis' Hr. destruct (Hres u' mis' Hr) as (Hu' & Hm' & Hall).
  split_and!; [by etrans|by etrans|]. intros -> ->.
  assert (u1 = u) as -> by (by apply prefix_length_eq; [|apply prefix_length]).
  assert (mis1 = mis) as -> by (by apply prefix_length_eq; [|apply prefix_length]).
  intros wg' [->|Hin]%elem_of_cons; apply Hfrom; [|by apply Hall]. apply Hfr, Hto; auto.
Qed.

Lemma wp_scheduleGroups_placed work groups u mis s :
  keyed (wps s) → Forall (good_group work) groups → NoDup (short <$> groups) → fresh work groups s →
  Prelude.wp (scheduleGroups work groups u mis) (pass_placed work groups u mis s) s.
Proof.
revert u mis s. induction groups as [|wg groups IH]; intros u mis s Hk Hg Hnd Hf.
{ apply wp_ret. exists (wps s). split_and!; [by apply wps_become_refl|done|done|].
  intros u' mis' [= <- <-]. split_and!; [done|done|]. intros _ _ wg Hin. by apply elem_of_nil in Hin. }
apply Forall_cons in Hg as [[Hid Hgp Hsp] Hg]. rewrite fmap_cons in Hnd. apply NoDup_cons in Hnd as [Hnew Hnd].
apply fresh_cons in Hf as [Hfw Hf].
simpl. apply wp_bind, wp_try, wp_reconcileWorkloadGroup; [done..| |].
2:{ intros e targets m s1 _ Hb Hkm Hch. apply wp_ret. exists m. split_and!; [done|done| |done].
    intros wg' Hl' [Hn _]%not_elem_of_cons Hpl. by apply (group_placed_frame work wg' wg s (map_to_list targets).*1 (wps s)). }
intros st targets m1 s1 Ht Hb Hkm Hpl Hst.
pose proof (wps_become_wps _ _ _ Hb) as Hw. pose proof (wps_become_destinations _ _ _ Hb) as Hd.
assert (∀ wg', wg' ∈ groups → wg_id wg' ≠ wg_id wg) as Hids.
{ intros wg' Hin Heq. apply Hnew, list_elem_of_fmap. exists wg'. unfold short. by rewrite Heq. }
assert (∀ u1 mis1, Prelude.wp (scheduleGroups work groups u1 mis1) (pass_placed work groups u1 mis1 s1) s1) as HIH.
{ intros u1 mis1. apply IH; [by rewrite Hw|done|done|]. by eapply fresh_next. }
assert (∀ (l : list string) x, l ++ [x] ≠ l) as Hlong
  by (intros l x Heq; apply (f_equal length) in Heq; rewrite length_app in Heq; simpl in Heq; lia).
destruct st; (eapply wp_mono; [apply HIH|]); intros r s'; (eapply pass_placed_cons; [done|done|exact Hb|exact (proj2 Hpl)|..]); try (by apply prefix_app_r); try done;
  intros Hu1 Hm1; try by apply Hlong in Hu1 || apply Hlong in Hm1.
destruct (scheduled_destined _ _ _ _ Ht Hst) as (ds & Hds & Htd). exists ds. split; [done|].
intros d Hd'. by apply (proj1 Hpl), Htd.
Qed.

Lemma group_placed_kept work work' wg s s1 m :
  r_meta work' = r_meta work → r_spec work' = r_spec work → keyed (wps s1) →
  wg ∈ ws_workloadGroups (r_spec work) →
  (∀ k p, wps s1 !! k = Some p → ¬ dangling work' p → m !! k = Some p) →
  group_placed work wg s (wps s1) → group_placed work wg s m.
Proof.
intros Hm Hsp Hk Hin Hkeep (ds & Hds & Hall). exists ds. split; [done|]. intros d Hd.
destruct (Hall d Hd) as (p & Hp & Hpl). exists p. split; [|done]. apply Hkeep; [done|].
intros (_ & _ & Hdang). rewrite Hsp, Forall_forall in Hdang. apply (Hdang wg Hin).
assert (belongs work wg p) as [Hns Hl]
  by (eapply placed_belongs, Hpl; apply Hk in Hp; by injection Hp as Hp _).
unfold belongs, GetNamespace, GetName in *. by rewrite Hm.
Qed.

(** A stored Work whose groups can be told apart. *)
Record schedulable (work : Work) s : Prop := {
  sch_keyed : keyed (wps s);
  sch_stored : c_works (view s) !! key work = Some work;
  sch_namespace : GetNamespace work ≠ "";
  sch_ready : ready_follows work;
  sch_labels : labels_parse work;
  sch_groups : Forall (good_group work) (ws_workloadGroups (r_spec work));
  sch_distinct : NoDup (short <$> ws_workloadGroups (r_spec work));
  sch_fresh : fresh work (ws_workloadGroups (r_spec work)) s;
}.

Lemma wp_cleanup_placed work work' s s1 :
  r_meta work' = r_meta work → r_spec work' = r_spec work →
  keyed (wps s1) → GetNamespace work ≠ "" → labels_parse work →
  (∀ wg, wg ∈ ws_workloadGroups (r_spec work) → group_placed work wg s (wps s1)) →
  Prelude.wp (cleanupDanglingWorkplacements work') (λ r s2, r ≠ Panicked ∧
    ∀ wg, r = Ok tt → wg ∈ ws_workloadGroups (r_spec work) → group_placed work wg s (wps s2)) s1.
Proof.
intros Hm Hsp Hk Hns Hlp Hall.
assert (labels_parse work') as Hlp'.
{ unfold labels_parse, group_parses, GetName in *. by rewrite Hm, Hsp. }
assert (GetNamespace work' ≠ "") as Hns' by (unfold GetNamespace in *; by rewrite Hm).
eapply wp_mono; [by apply cleanup_deletes_dangling|].
intros [[]|e|] s2 Hs2; [|done|done]. split; [done|]. intros wg _ Hin.
destruct Hs2 as (m & Hb & _ & Hm'). rewrite (wps_become_wps _ _ _ Hb).
eapply group_placed_kept; [done|done|done|done| |by apply Hall]. intros k p Hp. apply Hm', Hp.
Qed.

Lemma wp_ReconcileWork_placed work s :
  schedulable work s →
  (scheduleGroups work (ws_workloadGroups (r_spec work)) [] [] s).1 = Ok (inr ([], [])) →
  Prelude.wp (ReconcileWork work) (λ r s1, returns r = true →
    ∀ wg, wg ∈ ws_workloadGroups (r_spec work) → group_placed work wg s (wps s1)) s.
Proof.
intros [Hk Hst Hns Hrd Hlp Hg Hnd Hf] Hrun. unfold ReconcileWork.
pose proof (wp_scheduleGroups_placed work _ [] [] s Hk Hg Hnd Hf) as Hpass.
destruct (scheduleGroups work _ [] [] s) as [r s1] eqn:Hr. apply (wp_intro _ _ _ _ _ Hr) in Hpass.
apply wp_bind, (wp_elim _ _ _ _ _ Hr). simpl in Hrun. subst r.
destruct Hpass as (m & Hb & Hkm & _ & Hres). destruct (Hres [] [] eq_refl) as (_ & _ & Hall).
specialize (Hall eq_refl eq_refl). pose proof (wps_become_wps _ _ _ Hb) as Hw.
apply wp_bind, wp_updateWorkStatus. intros w' ch s2 Hv2 Hkw Hsp Hch _ _ _. simpl.
assert (wps s2 = m) as Hw2 by (unfold wps in *; congruence).
assert (∀ work' s3, r_meta work' = r_meta work → r_spec work' = r_spec work → wps s3 = m →
  Prelude.wp (cleanupDanglingWorkplacements work' ;;; ret (work', ([] : list string))) (λ r s4, returns r = true →
    ∀ wg, wg ∈ ws_workloadGroups (r_spec work) → group_placed work wg s (wps s4)) s3) as Hend.
{ intros work' s3 Hm' Hsp' Hw3. apply wp_bind.
  eapply wp_mono; [by apply (wp_cleanup_placed work work' s s3); rewrite ?Hw3|].
  intros [[]|e|] s4 [Hp Hpl]; [apply wp_ret|done|done]. intros _ wg. by apply Hpl. }
destruct ch; [|specialize (Hch eq_refl) as ->; apply wp_bind, wp_ret, Hend; done].
apply wp_bind, wp_StatusUpdate; [|done]. intros old s3 Hold Hv3.
assert (c_works (view s2) !! key work = Some old) as Hold' by (by rewrite <-Hkw).
rewrite Hv2, Hb in Hold'. cbn in Hold'. assert (old = work) as -> by congruence.
apply Hend; [done|done|]. rewrite <-Hw2. unfold wps. by rewrite Hv3.
Qed.

Lemma scheduled_pass work' uns r :
  reports_pass work' uns r → reports work' ConditionTrue → r = Ok (inr ([], [])).
Proof.
destruct r as [[failed|[u mis]]|e|]; cbn; [intros [_ Hf]|intros [_ Hf]|done|done]; intros Ht.
- destruct Hf, Ht. by simplify_eq.
- case_bool_decide as Hu; [by destruct Hu as [-> ->]|]. destruct Hf, Ht. by simplify_eq.
Qed.

End delivery.

(** ** On a concrete cluster *)

(** Two groups with one compressed workload each. *)
Definition parcel (id content : string) : WorkloadGroup := {|
  wg_workloads := [{| wl_filepath := "ns.yaml"; wl_content := CompressContent content |}];
  wg_directory := "."; wg_id := id; wg_destinationSelectors := wg_destinationSelectors group |}.
Definition parcels : list WorkloadGroup := [parcel (wg_id group) "hello"; parcel "00112233" "world"].
Definition parcel_work : Work :=
  mkResource (new_meta "default" "redis")
    {| ws_workloadGroups := parcels; ws_promiseName := "redis"; ws_resourceName := "" |}
    {| wst_conditions := []; wst_workPlacements := 0; wst_workPlacementsCreated := 0 |}.

(** Two destinations, of which one matches, and their state store with a stale file. *)
Definition depot : Sim :=
  sim_set_files {["dependencies/redis/5058f/old.yaml" := "old"]}
    (sim_of (set_coll (of_list [parcel_work]) (set_coll (of_list [a_bucket]) (cluster_with [])))).

Lemma depot_schedulable : schedulable parcel_work depot.
Proof.
assert (Forall (good_group parcel_work) parcels) as Hg.
{ apply Forall_cons; split; [|apply Forall_cons; split; [|apply Forall_nil; exact I]];
    (split; [vm_compute; lia|vm_compute; exact I|right; vm_compute; exact I]). }
split.
- exact (of_list_keyed []).
- vm_compute. reflexivity.
- discriminate.
- intros st Hst. vm_compute in Hst. discriminate.
- split; [vm_compute; exact I|]. intros wg Hin. rewrite Forall_forall in Hg. apply (Hg wg Hin).
- exact Hg.
- apply (bool_decide_unpack _). vm_compute. exact I.
- by left.
Qed.

