(* ===== verification/DestinationController.v ===== *)
(** * The Destination controller: [internal/controller/destination_controller.go]

    Writes test documents to the state store of a destination, reports whether
    that worked, and cleans up after a destination that is deleted. *)

From S2P Require Import Prelude GoLib Codec Meta Api Kube Client Shared Scheduler StateStore.
From S2P Require Import WorkController WorkPlacementController.

Definition canaryWorkload := "kratix-canary".
Definition canaryNamespacePath := "kratix-canary-namespace.yaml".
Definition canaryConfigMapPath := "kratix-canary-configmap.yaml".
Definition destinationCleanupFinalizer := KratixPrefix +:+ "destination-cleanup".
Definition destinationNotReadyReason := "DestinationNotReady".
Definition destinationReadyReason := "DestinationReady".

(** [yaml.Marshal] of a namespace and of a config map; its errors are ignored. *)
Class CanaryLib := {
  marshal_Namespace : string → string;
  marshal_ConfigMap : Key → Labels → string;
}.

Module DestinationReconciler.
Section controller.
Context {S : Type} `{World S, Lib, StateStoreWriter S, CanaryLib}.

(** Whether the finalizers must be written back, and the destination with them. *)
Definition needsFinalizerUpdate (d : Destination) : bool * Destination :=
  let hasFinalizer := ContainsFinalizer (GetFinalizers d) destinationCleanupFinalizer in
  if bool_decide (GetCleanup d = DestinationCleanupAll) then
    if negb hasFinalizer
    then (true, SetFinalizers (AddFinalizer (GetFinalizers d) destinationCleanupFinalizer) d)
    else (false, d)
  else if bool_decide (GetCleanup d = DestinationCleanupNone) then
    if hasFinalizer
    then (true, SetFinalizers (RemoveFinalizer (GetFinalizers d) destinationCleanupFinalizer) d)
    else (false, d)
  else (false, d).

(** ** Test documents *)

Definition canary_path (dir path filePathMode : string) : string :=
  if bool_decide (filePathMode = FilepathModeNestedByMetadata)
  then Filepath.Join [dir; path] else path.

Definition createResourcePathWithExample (writer : Writer) (filePathMode : string) : M S unit :=
  let content := marshal_ConfigMap ("kratix-worker-system", "kratix-info")
    (<["canary" := "this confirms your infrastructure is reading from Kratix state stores"]> ∅) in
  UpdateFiles writer "" canaryWorkload
    [{| wl_filepath := canary_path resourcesDir canaryConfigMapPath filePathMode;
        wl_content := content |}] [] ;;;
  ret tt.

Definition createDependenciesPathWithExample (writer : Writer) (filePathMode : string) : M S unit :=
  UpdateFiles writer "" canaryWorkload
    [{| wl_filepath := canary_path dependenciesDir canaryNamespacePath filePathMode;
        wl_content := marshal_Namespace "kratix-worker-system" |}] [] ;;;
  ret tt.

Definition writeTestFiles (writer : Writer) (filePathMode : string) : M S unit :=
  createDependenciesPathWithExample writer filePathMode ;;;
  createResourcePathWithExample writer filePathMode.

Definition deleteInitWorkloads (writer : Writer) : M S unit :=
  let! r := try (UpdateFiles writer "" canaryWorkload [] [canaryNamespacePath; canaryConfigMapPath]) in
  match r with
  | inl e => fail (ErrorWrap ("error deleting canary resources [" +:+ canaryNamespacePath +:+ " " +:+
                              canaryConfigMapPath +:+ "]") e)
  | inr _ => ret tt
  end.

(** ** Status *)

Definition updateStatus (d : Destination) (condition : Condition)
    (eventType eventReason eventMessage : string) : M S unit :=
  let! r := setStatusCondition (dst_conditions (r_status d)) condition in
  if r.2 then
    Eventf d eventType eventReason eventMessage ;;;
    StatusUpdate (set_status {| dst_conditions := r.1 |} d) ;;;
    ret tt
  else ret tt.

Definition updateReadyCondition (d : Destination) (err : option error) : M S unit :=
  match err with
  | None =>
      let! c := stamped "Ready" ConditionTrue "TestDocumentsWritten"
                  "Test documents written to State Store" in
      updateStatus d c EventTypeNormal destinationReadyReason
        ("Destination " +:+ Strings.quote (GetName d) +:+ " is ready")
  | Some e =>
      let! c := stamped "Ready" ConditionFalse "StateStoreWriteFailed"
                  "Unable to write test documents to State Store" in
      updateStatus d c EventTypeWarning destinationNotReadyReason
        ("Failed to write test documents to Destination " +:+ Strings.quote (GetName d) +:+ ": " +:+
         Error e)
  end.

Definition setConditionReadyInitWorkloads (d : Destination) : M S unit :=
  let! c := stamped "Ready" ConditionTrue "ReconciledSuccessfully"
              "Reconciled successfully, no init workloads were written" in
  updateStatus d c EventTypeNormal destinationReadyReason
    ("Destination " +:+ Strings.quote (GetName d) +:+
     " is ready, skipped writing of the init workloads").

(** ** Deletion *)

Definition deleteStateStoreContents (writer : Writer) : M S unit :=
  UpdateFiles writer dependenciesDir canaryWorkload [] [] ;;;
  UpdateFiles writer resourcesDir canaryWorkload [] [] ;;;
  ret tt.

Definition deleteDestinationWorkplacements (d : Destination) : M S bool :=
  let! resourcesRemaining := deleteAllResourcesWithKindMatchingLabel WorkPlacementSpec
    WorkPlacementStatus (<[TargetDestinationNameLabel := GetName d]> ∅) in
  ret (negb resourcesRemaining).

Definition deleteDestination (d : Destination) (writer : Writer) : M S Result :=
  if ContainsFinalizer (GetFinalizers d) destinationCleanupFinalizer then
    let! success := try (deleteDestinationWorkplacements d) in
    match success with
    | inr true =>
        let! r := try (deleteStateStoreContents writer) in
        match r with
        | inl _ => ret defaultRequeue
        | inr _ =>
            Update (SetFinalizers (RemoveFinalizer (GetFinalizers d) destinationCleanupFinalizer) d) ;;;
            ret noRequeue
        end
    | _ => ret defaultRequeue
    end
  else ret noRequeue.

(** ** Reconcile *)

Definition reconcileStored (d : Destination) : M S Result :=
  let '(needed, d) := needsFinalizerUpdate d in
  if needed : bool then Update d ;;; ret noRequeue
  else
    let ref := ds_stateStoreRef (r_spec d) in
    let! rw := try (newWriter (ssr_name ref) (ssr_kind ref) (ds_path (r_spec d))) in
    match rw with
    | inl e => updateReadyCondition d (Some e) ;;; fail e
    | inr writer =>
        if deleting d then deleteDestination d writer
        else if negb (ds_initWorkloadsEnabled (r_spec d)) then
          deleteInitWorkloads writer ;;;
          setConditionReadyInitWorkloads d ;;;
          ret noRequeue
        else
          let! r := try (writeTestFiles writer (GetFilepathMode d)) in
          let writeErr := match r with inl e => Some e | inr _ => None end in
          updateReadyCondition d writeErr ;;;
          match writeErr with Some e => fail e | None => ret noRequeue end
    end.

Definition Reconcile (req : Key) : M S Result :=
  let! r := try (Get (Sp:=DestinationSpec) (St:=DestinationStatus) ("", req.2)) in
  match r with
  | inl e => if IsNotFound e then ret noRequeue else fail e
  | inr d => reconcileStored d
  end.

(** ** The watch on state stores *)

Definition stateStoreRefKey (kind name : string) : string := kind +:+ "." +:+ name.

(** The destinations indexed under the key of the state store. *)
Definition findDestinationsForStateStore (kind name : string) : M S (list Key) :=
  let! r := try (List (Sp:=DestinationSpec) (St:=DestinationStatus)
                   {| lo_namespace := ""; lo_selector := None |}) in
  match r with
  | inl _ => ret []
  | inr ds => ret (key <$> filter (λ d, stateStoreRefKey (ssr_kind (ds_stateStoreRef (r_spec d)))
                                          (ssr_name (ds_stateStoreRef (r_spec d))) =
                                        stateStoreRefKey kind name) ds)
  end.
End controller.
End DestinationReconciler.
