(* ===== verification/Webhooks.v ===== *)
(** * The admission webhooks

    [internal/webhook/v1alpha1]: what the API server asks before it stores a Promise, a
    Destination, a bucket store or (in [PromiseRelease.v]) a Promise release.  A webhook
    answers with an error or with warnings.  The conversion of the object from its
    general type, which fails only on a wrong registration, is left out. *)

From S2P Require Import Prelude GoLib Meta Api Kube Client Shared Promise PromiseStore PipelineFactory.
From S2P Require Import WorkPlacementController DestinationController.

(** Server-side dry runs, and the validation of labels of the Kubernetes libraries, which lists
    what is wrong. *)
Class Admission (S : Type) := {
  w_dry_create : ∀ {Sp St} `{Collection Sp St}, Resource Sp St → S → (error + unit) * S;
  w_dry_update : ∀ {Sp St} `{Collection Sp St}, Resource Sp St → S → (error + unit) * S;
  IsValidLabelValue : string → list string;
  IsQualifiedName : string → list string;
}.

Class AdmissionLaws (S : Type) `{Viewed S, Admission S} : Prop := {
  dry_create_keeps : ∀ {Sp St} `{Collection Sp St} (o : Resource Sp St) s r s',
    w_dry_create o s = (r, s') → view s' = view s;
  dry_update_keeps : ∀ {Sp St} `{Collection Sp St} (o : Resource Sp St) s r s',
    w_dry_update o s = (r, s') → view s' = view s;
}.

Definition Warnings := list string.

Definition NamespaceScoped := "Namespaced".

Module PromiseWebhook.
Section webhook.
Context {S : Type} `{World S, Lib, PromiseLib, Config, PromiseCodec, !Admission S}.

Definition DryCreate {Sp St} `{Collection Sp St} (o : Resource Sp St) : M S unit := call (w_dry_create o).
Definition DryUpdate {Sp St} `{Collection Sp St} (o : Resource Sp St) : M S unit := call (w_dry_update o).

Definition validatePipelineLabel (workflowType workflowAction : string) (label : string * string) : M S unit :=
  let '(key, value) := label in
  let where_ := " in workflow " +:+ Strings.quote workflowType +:+ " action " +:+
                Strings.quote workflowAction +:+ ": " in
  match IsValidLabelValue value with
  | [] =>
      match IsQualifiedName key with
      | [] => ret tt
      | errors => fail (ErrorMsg ("invalid label key " +:+ Strings.quote key +:+ where_ +:+ Strings.Join errors ","))
      end
  | errors => fail (ErrorMsg ("invalid label value " +:+ Strings.quote value +:+ " for key " +:+
                              Strings.quote key +:+ where_ +:+ Strings.Join errors ","))
  end.

Definition validatePipelineLabels (pipeline : Pipeline) (workflowType workflowAction : string) : M S unit :=
  let! labels := Range (om_labels (pl_meta pipeline)) in
  iterM (validatePipelineLabel workflowType workflowAction) labels.

(** A resource request that does not exist, to build the jobs of resource workflows with. *)
Definition exampleResourceRequest (p : Promise) : M S Unstructured :=
  let! uid := NewUUID in
  ret (mkResource (om_set_system uid None 0 0 (new_meta "default" "webhook-dry-run"))
         {| us_kind := prs_kind (r_spec p); us_apiVersion := prs_apiVersion (r_spec p); us_spec := JObj [] |} None).

Definition max_pipeline_id : nat := 60.

(** One pipeline, given the names of those before it. *)
Definition validate_pipeline (p : Promise) (rr : Unstructured) (workflowType workflowAction : string)
    (names : list string) (pipeline : Pipeline) : M S (list string) :=
  validatePipelineLabels pipeline workflowType workflowAction ;;;
  if bool_decide (pl_name pipeline ∈ names) then
    fail (ErrorMsg ("duplicate pipeline name " +:+ Strings.quote (pl_name pipeline) +:+ " in workflow " +:+
                    Strings.quote workflowType +:+ " action " +:+ Strings.quote workflowAction))
  else
    let! factory :=
      if bool_decide (workflowType = WorkflowTypeResource) then lift (ForResource pipeline p workflowAction rr)
      else ret (ForPromise pipeline p workflowAction) in
    if bool_decide (max_pipeline_id < String.length (pf_id factory)) then
      fail (ErrorMsg (workflowType +:+ "." +:+ workflowAction +:+ " pipeline with name " +:+
        Strings.quote (pl_name pipeline) +:+ " is too long. The name is used when generating resources " +:+
        "for the pipeline,including the ServiceAccount which follows the format of " +:+
        Strings.quote (GetName p +:+ "-" +:+ workflowType +:+ "-" +:+ workflowAction +:+ "-" +:+ pl_name pipeline) +:+
        ", which cannot be longer than 60 characters in total"))
    else
      let! r := try (Resources factory []) in
      match r with
      | inl err => fail (ErrorWrap "failed to generate pipeline resources" err)
      | inr jobResources =>
          let! d := try (DryCreate (pjr_job jobResources)) in
          match d with
          | inl err => fail (ErrorMsg (newline +:+ workflowType +:+ "." +:+ workflowAction +:+ " pipeline with name " +:+
                               pl_name pipeline +:+ " failed to generate Job definition: " +:+ newline +:+ Error err))
          | inr _ => ret (pl_name pipeline :: names)
          end
      end.

Definition validate_action (p : Promise) (rr : Unstructured) (workflowType : string)
    (action : string * list Pipeline) : M S unit :=
  foldM (validate_pipeline p rr workflowType action.1) action.2 [] ;;; ret tt.

Definition validate_type (p : Promise) (rr : Unstructured)
    (typ : string * gmap string (list Pipeline)) : M S unit :=
  let! actions := Range typ.2 in iterM (validate_action p rr typ.1) actions.

Definition validatePipelines (p : Promise) : M S unit :=
  let! promisePipelines := NewPipelinesMap p in
  let! rr := exampleResourceRequest p in
  let! types := Range promisePipelines in
  iterM (validate_type p rr) types.

Definition validateCRD (p : Promise) : M S unit :=
  match GetAPI p with
  | Panicked => panic
  | Fail err => if bool_decide (root_cause err = ErrNoAPI) then ret tt else fail err
  | Ok (_, newCrd) =>
      let! r := try (DryCreate newCrd) in
      match r with
      | inl err =>
          if IsAlreadyExists err then
            let! existingCrd := Get (Sp:=CRDSpec) (St:=CRDStatus) ("", GetName newCrd) in
            let! u := try (DryUpdate (set_spec (r_spec newCrd) existingCrd)) in
            match u with
            | inl err => fail (ErrorWrap "invalid CRD changes" err)
            | inr _ => ret tt
            end
          else fail (ErrorWrap "invalid CRD" err)
      | inr _ =>
          if bool_decide (crd_scope (r_spec newCrd) ≠ NamespaceScoped)
          then fail (ErrorMsg ("promise api needs to be namespace scoped; spec.api.spec.scope cannot be: " +:+
                               crd_scope (r_spec newCrd)))
          else ret tt
      end
  end.

(** One requirement; a failure to look it up other than NotFound is only logged. *)
Definition requirement_warning (p : Promise) (warnings : Warnings) (requirement : RequiredPromise)
    : M S Warnings :=
  let! g := try (GetPromise (GetNamespace p, rp_name requirement)) in
  ret (match g with
       | inl err =>
           if IsNotFound err
           then warnings ++ ["Required Promise " +:+ Strings.quote (rp_name requirement) +:+ " at version " +:+
                             Strings.quote (rp_version requirement) +:+ " not installed"]
           else warnings
       | inr promise =>
           if bool_decide (prst_version (r_status promise) ≠ rp_version requirement)
           then warnings ++ ["Required Promise " +:+ Strings.quote (rp_name requirement) +:+
                             " installed but not at a compatible version, want: " +:+
                             Strings.quote (rp_version requirement) +:+ " have: " +:+
                             Strings.quote (prst_version (r_status promise))]
           else warnings
       end).

Definition validateRequiredPromisesAreAvailable (p : Promise) : M S Warnings :=
  let! warnings := foldM (requirement_warning p) (prs_requiredPromises (r_spec p)) [] in
  ret (if bool_decide (warnings ≠ [])
       then warnings ++ ["Promise will not be available until the above issue(s) is resolved"] else warnings).

Definition validatePromise (p : Promise) : M S Warnings :=
  validateCRD p ;;; validatePipelines p ;;; validateRequiredPromisesAreAvailable p.

(** The kind and version the document of the API gives itself. *)
Definition api_type (p : Promise) : string * string :=
  match prs_api (r_spec p) with Some raw => CRD_TypeMeta raw | None => ("", "") end.

Definition crd_names (crd : CRD) : string * string * string * string :=
  (crd_plural (r_spec crd), crd_singular (r_spec crd), crd_kind (r_spec crd), crd_otherNames (r_spec crd)).

Definition immutable (field value : string) : string :=
  "* " +:+ field +:+ ": Invalid value: " +:+ value +:+ ": field is immutable".

Definition crd_change_errors (p oldPromise : Promise) (newCrd oldCrd : CRD) : list string :=
  (if bool_decide (GetName oldCrd ≠ GetName newCrd)
   then [immutable "spec.api.metadata.name" (Strings.quote (GetName newCrd))] else []) ++
  (if bool_decide ((api_type oldPromise).1 ≠ (api_type p).1)
   then [immutable "spec.api.kind" (Strings.quote (api_type p).1)] else []) ++
  (if bool_decide ((api_type oldPromise).2 ≠ (api_type p).2)
   then [immutable "spec.api.apiVersion" (Strings.quote (api_type p).2)] else []) ++
  (if bool_decide (crd_names oldCrd ≠ crd_names newCrd)
   then [immutable "spec.api.spec.names"
           ("{" +:+ Strings.quote "plural" +:+ ": " +:+ Strings.quote (crd_plural (r_spec newCrd)) +:+ ", " +:+
            Strings.quote "singular" +:+ ": " +:+ Strings.quote (crd_singular (r_spec newCrd)) +:+ ", " +:+
            Strings.quote "kind" +:+ ": " +:+ Strings.quote (crd_kind (r_spec newCrd)) +:+ "}")] else []).

(** Only a missing API is looked at among the errors; after another error the definition is
    nil, and reading its name panics. *)
Definition validateCRDChanges (p oldPromise : Promise) : outcome unit :=
  match GetAPI oldPromise, GetAPI p with
  | Panicked, _ | _, Panicked => Panicked
  | Fail errOldCrd, newAPI =>
      if bool_decide (root_cause errOldCrd = ErrNoAPI) then Ok tt
      else match newAPI with
           | Fail errNewCrd =>
               if bool_decide (root_cause errNewCrd = ErrNoAPI)
               then Fail (ErrorMsg "cannot remove API from existing promise") else Panicked
           | _ => Panicked
           end
  | Ok (_, oldCrd), Fail errNewCrd =>
      if bool_decide (root_cause errNewCrd = ErrNoAPI)
      then Fail (ErrorMsg "cannot remove API from existing promise") else Panicked
  | Ok (_, oldCrd), Ok (_, newCrd) =>
      match crd_change_errors p oldPromise newCrd oldCrd with
      | [] => Ok tt
      | errors => Fail (ErrorMsg ("promises.platform.kratix.io " +:+ Strings.quote (GetName p) +:+
                                  " was not valid:" +:+ newline +:+ Strings.Join errors newline))
      end
  end.

Definition ValidateCreate (promise : Promise) : M S Warnings := validatePromise promise.

Definition ValidateUpdate (oldPromise promise : Promise) : M S Warnings :=
  let! warnings := validatePromise promise in
  lift (validateCRDChanges promise oldPromise) ;;;
  ret warnings.
End webhook.
End PromiseWebhook.

Module DestinationWebhook.
Section webhook.
Context {S : Type} `{World S}.

(** The mutating webhook; the stored destination is fetched, but only an error is looked at. *)
Definition Default (desiredDestination : Destination) : M S Destination :=
  let! g := try (Get (Sp:=DestinationSpec) (St:=DestinationStatus) ("", GetName desiredDestination)) in
  match g with
  | inl err => if negb (IsNotFound err) then fail err else ret tt
  | inr _ => ret tt
  end ;;;
  let sp := r_spec desiredDestination in
  if bool_decide (fp_mode (ds_filepath sp) = FilepathModeAggregatedYAML) &&
     bool_decide (fp_filename (ds_filepath sp) = "")
  then ret (set_spec {| ds_path := ds_path sp; ds_stateStoreRef := ds_stateStoreRef sp;
              ds_strictMatchLabels := ds_strictMatchLabels sp;
              ds_filepath := {| fp_mode := fp_mode (ds_filepath sp); fp_filename := "aggregated.yaml" |};
              ds_cleanup := ds_cleanup sp; ds_initWorkloadsEnabled := ds_initWorkloadsEnabled sp |}
            desiredDestination)
  else ret desiredDestination.

Definition store_key (d : Destination) : string :=
  DestinationReconciler.stateStoreRefKey (ssr_kind (ds_stateStoreRef (r_spec d)))
    (ssr_name (ds_stateStoreRef (r_spec d))).

(** Another destination of the same store with the same path. *)
Definition clashes (destination existingDest : Destination) : bool :=
  bool_decide (GetName existingDest ≠ GetName destination) &&
  bool_decide (ds_path (r_spec existingDest) = ds_path (r_spec destination)).

Definition ValidateCreate (destination : Destination) : M S Warnings :=
  if bool_decide (ds_path (r_spec destination) = "") then fail (ErrorMsg "path field is required")
  else
    let! l := try (List (Sp:=DestinationSpec) (St:=DestinationStatus)
                     {| lo_namespace := ""; lo_selector := None |}) in
    match l with
    | inl err => fail (ErrorWrap "failed to list destinations" err)
    | inr items =>
        let sameStore := filter (λ d, store_key d = store_key destination) items in
        if existsb (clashes destination) sameStore
        then fail (ErrorMsg ("destination path '" +:+ ds_path (r_spec destination) +:+
               "' already exists for state store '" +:+ ssr_name (ds_stateStoreRef (r_spec destination)) +:+ "'"))
        else ret []
    end.

Definition ValidateUpdate (_oldDestination destination : Destination) : M S Warnings :=
  ValidateCreate destination.
End webhook.
End DestinationWebhook.

Module BucketStateStoreWebhook.
Definition ValidateCreate (bucket : BucketStateStore) : error + Warnings :=
  match ValidateSecretRef bucket with Some err => inl err | None => inr [] end.
Definition ValidateUpdate (_oldBucket bucket : BucketStateStore) : error + Warnings :=
  match ValidateSecretRef bucket with Some err => inl err | None => inr [] end.
End BucketStateStoreWebhook.
