(* ===== verification/WebhookFacts.v ===== *)
(** * What the webhooks let through *)

From S2P Require Import Prelude GoLib Meta Api Kube Client Shared Promise PromiseStore Purge Frame.
From S2P Require Import PipelineFactory FactoryFacts WorkPlacementController DestinationController Webhooks.
From S2P Require Import Sim SimPromise FactoryWitness.

(** ** Promises *)
Section promises.
Import PromiseWebhook.
Context {S : Type} `{World S, Viewed S, !WorldLaws S, Lib, !LibLaws, PromiseLib, Config, PromiseCodec}.
Context `{!Admission S, !AdmissionLaws S}.
Implicit Types (s : S) (p : Promise).

Lemma wp_reads_try {A} (m : M S A) P s0 s :
  wp m (reads s0 P) s →
  wp (try m) (reads s0 (λ r, match r with inr a => P a | inl _ => True end)) s.
Proof. intros Hm. apply wp_try. eapply wp_mono; [exact Hm|]. by intros [a|e|] s' [Hv Ha]. Qed.

Lemma wp_reads_fail {A} e (P : A → Prop) s0 s : view s = view s0 → wp (fail e) (reads s0 P) s.
Proof. intros Hv. by apply wp_fail. Qed.

Lemma wp_DryCreate {Sp St} `{Collection Sp St} (o : Resource Sp St) s0 s :
  view s = view s0 → wp (DryCreate o) (reads s0 (λ _, True)) s.
Proof. intros Hv. apply wp_call; intros ? ? ?%dry_create_keeps; (split; [congruence|done]). Qed.
Lemma wp_DryUpdate {Sp St} `{Collection Sp St} (o : Resource Sp St) s0 s :
  view s = view s0 → wp (DryUpdate o) (reads s0 (λ _, True)) s.
Proof. intros Hv. apply wp_call; intros ? ? ?%dry_update_keeps; (split; [congruence|done]). Qed.

Definition label_valid (kv : string * string) : Prop := IsValidLabelValue kv.2 = [] ∧ IsQualifiedName kv.1 = [].

(** The name that resources of the pipeline are built from. *)
Definition pipeline_id p (typ action : string) (pipeline : Pipeline) : string :=
  GetName p +:+ "-" +:+ typ +:+ "-" +:+ action +:+ "-" +:+ pl_name pipeline.

Definition known_type (typ : string) : Prop := typ = WorkflowTypeResource ∨ typ = WorkflowTypePromise.

Record pipeline_ok p (typ action : string) (pipeline : Pipeline) : Prop := {
  po_labels : ∀ k v, om_labels (pl_meta pipeline) !! k = Some v → label_valid (k, v);
  po_fits : String.length (pipeline_id p typ action pipeline) ≤ max_pipeline_id;
}.

Lemma wp_validatePipelineLabels pipeline typ action s0 s :
  view s = view s0 →
  wp (validatePipelineLabels pipeline typ action)
    (reads s0 (λ _, ∀ k v, om_labels (pl_meta pipeline) !! k = Some v → label_valid (k, v))) s.
Proof.
intros Hv. apply wp_bind, wp_Range. intros l s1 Hv1 Hl.
eapply wp_mono; [apply (wp_reads_iterM _ label_valid _ s0); [congruence|]|].
- intros [k v] s2 _ Hv2. unfold validatePipelineLabel. cbv zeta.
  destruct (IsValidLabelValue v) eqn:Ev; [|by apply wp_fail].
  destruct (IsQualifiedName k) eqn:Ek; [|by apply wp_fail]. by apply wp_ret.
- intros [[]|e|] s2 [Hv2 Hall]; (split; [done|]); try done. intros k v Hk. apply Hall.
  rewrite Hl. by apply elem_of_map_to_list.
Qed.

Lemma wp_validate_pipeline p rr typ action names pipeline s0 s :
  view s = view s0 →
  wp (validate_pipeline p rr typ action names pipeline) (reads s0 (λ names',
    (names' = pl_name pipeline :: names) ∧ (pl_name pipeline ∉ names) ∧
    (known_type typ → pipeline_ok p typ action pipeline))) s.
Proof.
intros Hv. unfold validate_pipeline. eapply wp_reads_bind; [by apply wp_validatePipelineLabels|].
intros [] s1 Hv1 Hlabels. case_bool_decide as Hn; [by apply wp_fail|].
eapply (wp_reads_bind _ _ (λ f, known_type typ → pf_id f = pipeline_id p typ action pipeline)).
{ case_bool_decide as Hr.
  - subst typ. eapply wp_mono; [by apply wp_reads_lift|]. intros [f|e|] s2 [Hv2 Hf]; (split; [done|]); try done.
    unfold ForResource in Hf. destruct (GetAPI p) as [[? crd]|e|]; by simplify_eq.
  - apply wp_reads_ret; [done|]. by intros [-> | ->]. }
intros f s2 Hv2 Hf. case_bool_decide as Hlen; [by apply wp_fail|].
eapply wp_reads_bind; [apply wp_reads_try; by apply (wp_Resources f [] s0)|].
intros [e|r] s3 Hv3 _; [by apply wp_fail|].
eapply wp_reads_bind; [apply wp_reads_try; by apply wp_DryCreate|].
intros [e|[]] s4 Hv4 _; [by apply wp_fail|]. apply wp_reads_ret; [done|]. split_and!; [done..|].
intros Ht. split; [done|]. rewrite <-Hf by done. lia.
Qed.

Lemma in_rev_elem {A} (x : A) l : x ∈ l → x ∈ rev l.
Proof. rewrite !list_elem_of_In. apply in_rev. Qed.

Definition pipelines_ok p (typ action : string) (ps : list Pipeline) : Prop :=
  NoDup (pl_name <$> ps) ∧ ∀ pl, pl ∈ ps → pipeline_ok p typ action pl.

Lemma wp_validate_action p rr typ a s0 s :
  view s = view s0 →
  wp (validate_action p rr typ a) (reads s0 (λ _, known_type typ → pipelines_ok p typ a.1 a.2)) s.
Proof.
intros Hv. unfold validate_action. apply wp_bind.
apply (wp_foldM _ (λ done _ names s', view s' = view s0 ∧ names = rev (pl_name <$> done) ∧
  NoDup (pl_name <$> done) ∧ (known_type typ → ∀ pl, pl ∈ done → pipeline_ok p typ a.1 pl))).
- split; [done|]. split; [done|]. split; [constructor|]. intros _ pl. by rewrite elem_of_nil.
- intros done pl todo names s1 _ (Hv1 & -> & Hnd & Hok).
  eapply wp_mono; [by apply wp_validate_pipeline|].
  intros [names'|e|] s2 [Hv2 Hs]; [|by split|by split]. destruct Hs as (-> & Hfresh & Hpl).
  split; [done|]. rewrite fmap_app. split; [by rewrite rev_app_distr|]. split.
  + apply NoDup_app. split; [done|]. split; [|by apply NoDup_singleton].
    intros x Hx ->%list_elem_of_singleton. apply Hfresh, in_rev_elem, Hx.
  + intros Ht pl' [?| ->%list_elem_of_singleton]%elem_of_app; auto.
- intros names s1 (Hv1 & _ & Hnd & Hok). apply wp_ret. split; [done|]. intros Ht. split; auto.
Qed.

Lemma wp_validateCRD p s0 s :
  view s = view s0 →
  wp (validateCRD p) (reads s0 (λ _, (∀ e, GetAPI p = Fail e → root_cause e = ErrNoAPI) ∧
    ∀ gvk crd, GetAPI p = Ok (gvk, crd) →
      crd_scope (r_spec crd) = NamespaceScoped ∨ is_Some (c_crds (view s0) !! ("", GetName crd)))) s.
Proof.
intros Hv. unfold validateCRD. destruct (GetAPI p) as [[gvk crd]|e|] eqn:Hapi; [| |by apply wp_panic].
2:{ case_bool_decide; [|by apply wp_fail]. apply wp_reads_ret; [done|]. split; [by intros ? [= <-]|done]. }
eapply wp_reads_bind; [apply wp_reads_try; by apply wp_DryCreate|].
intros [e|[]] s1 Hv1 _.
- destruct (IsAlreadyExists e); [|by apply wp_fail].
  apply wp_bind, wp_Get; [|intros e1 s2 Hv2 _; split; [congruence|done]].
  intros old s2 Hv2 Hold. eapply wp_reads_bind; [apply wp_reads_try; apply wp_DryUpdate; congruence|].
  intros [e1|[]] s3 Hv3 _; [by apply wp_fail|]. apply wp_reads_ret; [done|]. split; [done|].
  intros gvk' crd' [= <- <-]. right. rewrite Hv1 in Hold. by eexists.
- case_bool_decide as Hs; [by apply wp_fail|]. apply wp_reads_ret; [done|]. split; [done|].
  intros gvk' crd' [= <- <-]. left. destruct (decide (crd_scope (r_spec crd) = NamespaceScoped)); tauto.
Qed.

(** Every pipeline list of the Promise parses, to pipelines in order. *)
Definition all_pipelines_ok p : Prop := ∀ typ action acts us,
  unstructuredMap p !! typ = Some acts → acts !! action = Some us →
  ∃ pls, PipelinesFromUnstructured us = inr pls ∧ pipelines_ok p typ action pls.

Lemma wp_validatePipelines p s0 s :
  view s = view s0 → wp (validatePipelines p) (reads s0 (λ _, all_pipelines_ok p)) s.
Proof.
intros Hv. unfold validatePipelines. eapply wp_reads_bind; [by apply wp_NewPipelinesMap|].
intros pm s1 Hv1 Hpm. eapply (wp_reads_bind _ _ (λ _, True)).
{ apply wp_bind, wp_NewUUID. intros uid s2 Hv2. apply wp_reads_ret; [congruence|done]. }
intros rr s2 Hv2 _. apply wp_bind, wp_Range. intros types s3 Hv3 Htypes.
eapply wp_mono; [apply (wp_reads_iterM _ (λ t, known_type t.1 →
  ∀ action ps, t.2 !! action = Some ps → pipelines_ok p t.1 action ps) _ s0); [congruence|]|].
- intros [typ actions] s4 Hin Hv4. unfold validate_type. cbn [fst snd].
  apply wp_bind, wp_Range. intros l s5 Hv5 Hl. eapply wp_mono.
  { apply (wp_reads_iterM _ (λ a, known_type typ → pipelines_ok p typ a.1 a.2) _ s0); [congruence|].
    intros a s6 _ Hv6. by apply wp_validate_action. }
  intros [[]|e|] s6 [Hv6 Hall]; (split; [done|]); try done. intros Ht action ps Hps.
  apply (Hall (action, ps)); [|done]. rewrite Hl. by apply elem_of_map_to_list.
- intros [[]|e|] s4 [Hv4 Hall]; (split; [done|]); try done. intros typ action acts us Hacts Hus.
  destruct (Hpm _ _ _ _ Hacts Hus) as (pls & Hpls & Hget). exists pls. split; [done|].
  assert (known_type typ) as Ht.
  { unfold unstructuredMap in Hacts. apply lookup_insert_Some in Hacts as [[<- _]|[_ Hacts]]; [by left|].
    apply lookup_insert_Some in Hacts as [[<- _]|[_ Hacts]]; [by right|done]. }
  assert (pipelines_ok p typ action []) by (split; [constructor|]; intros pl; by rewrite elem_of_nil).
  destruct (pm !! typ) as [m|] eqn:Hm; cbn in Hget; [|rewrite lookup_empty in Hget; by subst pls].
  destruct (m !! action) as [ps|] eqn:Hps; cbn in Hget; subst pls; [|done].
  apply (Hall (typ, m)); [|done..]. rewrite Htypes. by apply elem_of_map_to_list.
Qed.

(** The warning a requirement deserves, given the stored Promises. *)
Definition requirement_met (c : Cluster) p (req : RequiredPromise) : Prop :=
  ∃ q, typed_promises c !! (GetNamespace p, rp_name req) = Some q ∧ prst_version (r_status q) = rp_version req.

Lemma wp_validateRequired p s0 s :
  view s = view s0 →
  wp (validateRequiredPromisesAreAvailable p) (reads s0 (λ warnings,
    (∀ req, req ∈ prs_requiredPromises (r_spec p) → requirement_met (view s0) p req) → warnings = [])) s.
Proof.
intros Hv. apply wp_bind.
apply (wp_foldM _ (λ done _ warnings s', view s' = view s0 ∧
  ((∀ req, req ∈ done → requirement_met (view s0) p req) → warnings = []))).
- split; [done|]. done.
- intros done req todo warnings s1 _ [Hv1 Hw]. apply wp_bind, wp_try, wp_GetPromise_missing.
  + intros q s2 Hv2 Hq. apply wp_ret. split; [congruence|]. intros Hall.
    rewrite Hw by (intros; apply Hall; set_solver). destruct (Hall req) as (q' & Hq' & Hver); [set_solver|].
    rewrite Hv1 in Hq. assert (q' = q) as -> by congruence. by rewrite bool_decide_false by tauto.
  + intros e s2 Hv2 Hnf. apply wp_ret. split; [congruence|]. intros Hall.
    rewrite Hw by (intros; apply Hall; set_solver). destruct (Hall req) as (q' & Hq' & Hver); [set_solver|].
    destruct (IsNotFound e); [|done]. rewrite Hv1 in Hnf. by rewrite Hnf in Hq' by done.
- intros warnings s1 [Hv1 Hw]. apply wp_ret. split; [done|]. intros Hall. by rewrite Hw.
Qed.

(** What an admitted Promise has: an API that can be read, served in namespaces unless the
    cluster already serves it, and pipelines whose resources can be named. *)
Record valid_promise (c : Cluster) p : Prop := {
  ad_api : ∀ e, GetAPI p = Fail e → root_cause e = ErrNoAPI;
  ad_namespaced : ∀ gvk crd, GetAPI p = Ok (gvk, crd) →
    crd_scope (r_spec crd) = NamespaceScoped ∨ is_Some (c_crds c !! ("", GetName crd));
  ad_pipelines : all_pipelines_ok p;
}.

Lemma wp_validatePromise p s0 s :
  view s = view s0 →
  wp (validatePromise p) (reads s0 (λ warnings, valid_promise (view s0) p ∧
    ((∀ req, req ∈ prs_requiredPromises (r_spec p) → requirement_met (view s0) p req) → warnings = []))) s.
Proof.
intros Hv. eapply wp_reads_bind; [by apply wp_validateCRD|]. intros [] s1 Hv1 [Hapi Hns].
eapply wp_reads_bind; [by apply wp_validatePipelines|]. intros [] s2 Hv2 Hpl.
eapply wp_mono; [by apply (wp_validateRequired p s0)|].
by intros [w|e|] s3 [Hv3 Hw].
Qed.

(** What stays of the API of a Promise. *)
Definition same_api (oldPromise p : Promise) (oldCrd newCrd : CRD) : Prop :=
  GetName newCrd = GetName oldCrd ∧ crd_names newCrd = crd_names oldCrd ∧ api_type p = api_type oldPromise.

Lemma injective_projections_iff {A B} (x y : A * B) : x = y ↔ x.1 = y.1 ∧ x.2 = y.2.
Proof. destruct x, y. cbn. split; [by intros [=]|intros [-> ->]; done]. Qed.

Lemma reported_nil {A} (P : Prop) `{Decision P} (e : A) :
  (if bool_decide (¬ P) then [e] else []) = [] ↔ P.
Proof. by case_bool_decide. Qed.

Lemma crd_change_errors_nil p oldPromise newCrd oldCrd :
  crd_change_errors p oldPromise newCrd oldCrd = [] ↔ same_api oldPromise p oldCrd newCrd.
Proof.
unfold crd_change_errors, same_api. rewrite !app_nil, !reported_nil.
rewrite (injective_projections_iff (api_type p)).
split; [intros (?&?&?&?)|intros (?&?&?&?)]; split_and!; congruence.
Qed.

Lemma validateCRDChanges_ok p oldPromise :
  validateCRDChanges p oldPromise = Ok tt →
  (∀ gvk oldCrd, GetAPI oldPromise = Ok (gvk, oldCrd) →
     ∃ gvk' newCrd, GetAPI p = Ok (gvk', newCrd) ∧ same_api oldPromise p oldCrd newCrd) ∧
  (∀ e, GetAPI oldPromise = Fail e → root_cause e = ErrNoAPI).
Proof.
unfold validateCRDChanges. destruct (GetAPI oldPromise) as [[g oldCrd]|e|], (GetAPI p) as [[g' newCrd]|e'|]; try done;
  repeat case_bool_decide; try done; intros Hok; (split; [|naive_solver]); try done.
intros ? ? [= <- <-]. exists g', newCrd. split; [done|]. apply crd_change_errors_nil.
by destruct (crd_change_errors p oldPromise newCrd oldCrd).
Qed.

Lemma validateCRDChanges_same p oldPromise gvk gvk' oldCrd newCrd :
  GetAPI oldPromise = Ok (gvk, oldCrd) → GetAPI p = Ok (gvk', newCrd) →
  same_api oldPromise p oldCrd newCrd → validateCRDChanges p oldPromise = Ok tt.
Proof.
intros Hold Hnew Hsame%crd_change_errors_nil. unfold validateCRDChanges. by rewrite Hold, Hnew, Hsame.
Qed.

(** C14: A Promise the webhook lets through has an API that can be read or none, scoped to
    namespaces unless the cluster already has the definition; each of its pipeline lists parses,
    its pipelines have distinct names and valid labels, and identifiers of at most 60 characters.
    It is admitted without warnings when the Promises it requires are there at their versions,
    and asking changes nothing in the cluster. *)
Theorem admitted_promise_valid p s :
  wp (ValidateCreate p) (reads s (λ warnings, valid_promise (view s) p ∧
    ((∀ req, req ∈ prs_requiredPromises (r_spec p) → requirement_met (view s) p req) → warnings = []))) s.
Proof. by apply wp_validatePromise. Qed.

(** C15: An update the webhook lets through is as valid as a new Promise, and keeps the API: when
    the old Promise has one, so has the new one, with the same name, the same names of its
    resources and the same kind and version of the definition.  When these are the same, the
    API is no reason to reject the update. *)
Theorem promise_update_keeps_api oldPromise p s :
  wp (ValidateUpdate oldPromise p) (reads s (λ _, valid_promise (view s) p ∧
    (∀ gvk oldCrd, GetAPI oldPromise = Ok (gvk, oldCrd) →
       ∃ gvk' newCrd, GetAPI p = Ok (gvk', newCrd) ∧ same_api oldPromise p oldCrd newCrd))) s ∧
  (∀ gvk gvk' oldCrd newCrd, GetAPI oldPromise = Ok (gvk, oldCrd) → GetAPI p = Ok (gvk', newCrd) →
     same_api oldPromise p oldCrd newCrd → validateCRDChanges p oldPromise = Ok tt).
Proof.
split; [|intros; by eapply validateCRDChanges_same].
eapply wp_reads_bind; [by apply wp_validatePromise|]. intros w s1 Hv1 [Ha _].
eapply wp_reads_bind; [by apply wp_reads_lift|]. intros [] s2 Hv2 Hok%validateCRDChanges_ok.
apply wp_reads_ret; [done|]. split; [done|]. apply Hok.
Qed.
End promises.

(** ** Destinations *)
Section destinations.
Import DestinationWebhook.
Context {S : Type} `{World S, Viewed S, !WorldLaws S}.
Implicit Types (s : S) (d : Destination).

(** Destinations have no namespace. *)
Definition cluster_scoped (c : Cluster) : Prop :=
  ∀ k d, c_destinations c !! k = Some d → k = ("", GetName d).

(** No two destinations write to the same path of the same store. *)
Definition paths_distinct (c : Cluster) : Prop := ∀ k1 k2 d1 d2,
  c_destinations c !! k1 = Some d1 → c_destinations c !! k2 = Some d2 → k1 ≠ k2 →
  store_key d1 = store_key d2 → ds_path (r_spec d1) ≠ ds_path (r_spec d2).

Definition clash_in (c : Cluster) d : Prop := ∃ k d', c_destinations c !! k = Some d' ∧
  store_key d' = store_key d ∧ GetName d' ≠ GetName d ∧ ds_path (r_spec d') = ds_path (r_spec d).

Lemma clashes_spec d items :
  existsb (clashes d) (filter (λ d', store_key d' = store_key d) items) = true ↔
  ∃ d', d' ∈ items ∧ store_key d' = store_key d ∧ GetName d' ≠ GetName d ∧
        ds_path (r_spec d') = ds_path (r_spec d).
Proof.
rewrite existsb_exists. unfold clashes. setoid_rewrite andb_true_iff. setoid_rewrite bool_decide_eq_true.
setoid_rewrite <-list_elem_of_In. setoid_rewrite list_elem_of_filter. naive_solver.
Qed.

Lemma paths_distinct_insert c d d' :
  cluster_scoped c → paths_distinct c → GetNamespace d = "" → ¬ clash_in c d →
  key d' = key d → r_spec d' = r_spec d →
  paths_distinct (set_coll (<[key d := d']> (c_destinations c)) c).
Proof.
intros Hcs Hpd Hns Hno Hk Hsp.
assert (∀ k d2, c_destinations c !! k = Some d2 → k ≠ key d → store_key d2 = store_key d →
  ds_path (r_spec d2) ≠ ds_path (r_spec d)) as Hother.
{ intros k d2 Hd2 Hne Hst Hp. apply Hno. exists k, d2. split_and!; [done..| |done].
  intros Hn. apply Hne. rewrite (Hcs _ _ Hd2), Hn. unfold key, om_key. by unfold GetNamespace in Hns; rewrite Hns. }
assert (store_key d' = store_key d) as Hst by (unfold store_key; by rewrite Hsp).
intros k1 k2 d1 d2. cbn. rewrite !lookup_insert_Some.
intros [[<- <-]|[Hne1 Hd1]] [[<- <-]|[Hne2 Hd2]] Hne Hs; [done| | |by eapply Hpd];
  rewrite Hst in Hs; rewrite Hsp; [symmetry in Hs; intros Hx; symmetry in Hx; revert Hx|]; by eapply Hother.
Qed.

(** C16: The webhook keeps the destinations apart: once a destination it lets through is stored,
    created or updated, no two destinations have the same path in the same state store if that
    was so before.  It lets through nothing without a path, changes nothing itself, and rejects
    a destination only for a missing path, for a clash with another destination, or because the
    destinations could not be listed. *)
Theorem destination_paths_distinct d s
    (Hcs : cluster_scoped (view s)) (Hns : GetNamespace d = "") (Hpd : paths_distinct (view s)) :
  wp (ValidateCreate d) (λ r s', view s' = view s ∧
    match r with
    | Ok warnings => warnings = [] ∧ ds_path (r_spec d) ≠ "" ∧
        ∀ d', key d' = key d → r_spec d' = r_spec d →
          paths_distinct (set_coll (<[key d := d']> (c_destinations (view s'))) (view s'))
    | Fail e => ds_path (r_spec d) = "" ∨ clash_in (view s) d ∨
                ∃ e', e = ErrorWrap "failed to list destinations" e'
    | Panicked => False
    end) s.
Proof.
unfold ValidateCreate. case_bool_decide as Hp; [apply wp_fail; by split; [|left]|].
apply wp_bind, wp_try, wp_List; [|intros e s1 Hv1; apply wp_fail; split; [done|]; eauto].
intros l s1 Hv1 Hl.
assert (existsb (clashes d) (filter (λ d', store_key d' = store_key d) l) = true ↔ clash_in (view s) d) as Hc.
{ rewrite clashes_spec. unfold clash_in. setoid_rewrite Hl. setoid_rewrite list_elem_of_filter.
  setoid_rewrite elem_of_map_values. split; [naive_solver|]. intros (k & d' & Hd' & Hrest).
  exists d'. split; [|done]. split; [done|]. by exists k. }
cbv zeta. destruct (existsb _ _) eqn:Ee.
- apply wp_fail. split; [done|]. right. left. by apply Hc.
- apply wp_ret. split; [done|]. split_and!; [done..|]. intros d' Hk Hsp. rewrite Hv1.
  apply paths_distinct_insert; [done..| |done|done]. intros Hx%Hc. congruence.
Qed.

(** Defaulting gives an aggregated destination a file name and changes nothing else. *)
Lemma wp_Default d s :
  wp (Default d) (reads s (λ d', r_meta d' = r_meta d ∧ store_key d' = store_key d ∧
    ds_path (r_spec d') = ds_path (r_spec d) ∧ fp_mode (ds_filepath (r_spec d')) = fp_mode (ds_filepath (r_spec d)) ∧
    (fp_mode (ds_filepath (r_spec d)) = FilepathModeAggregatedYAML → fp_filename (ds_filepath (r_spec d')) ≠ "") ∧
    (fp_filename (ds_filepath (r_spec d)) ≠ "" → d' = d))) s.
Proof.
unfold Default. eapply (wp_reads_bind _ _ (λ _, True)).
{ apply wp_try, wp_Get; by split. }
intros g s1 Hv1 _. eapply (wp_reads_bind _ _ (λ _, True)).
{ destruct g as [e|o]; [destruct (IsNotFound e)|]; cbn; first [by apply wp_ret | by apply wp_fail]. }
intros [] s2 Hv2 _. cbv zeta. destruct (bool_decide _ && bool_decide _) eqn:Eb.
- apply andb_true_iff in Eb as [Hm%bool_decide_eq_true Hf%bool_decide_eq_true].
  apply wp_reads_ret; [done|]. cbn. split_and!; [done..|]. by rewrite Hf.
- apply wp_reads_ret; [done|]. apply andb_false_iff in Eb. rewrite !bool_decide_eq_false in Eb. naive_solver.
Qed.
End destinations.

(** ** The webhooks on concrete objects *)
#[local] Existing Instances Sim_PromiseLib Sim_Config.

(** A dry run answers like the request, and changes nothing stored. *)
Definition dry_run {A} (r : (error + A) * Sim) (s : Sim) : (error + unit) * Sim :=
  (match r.1 with inl e => inl e | inr _ => inr tt end, sim_set_cluster (sim_cluster s) r.2).

Definition short (s : string) : list string :=
  if bool_decide (String.length s ≤ 63) then [] else ["must be no more than 63 characters"].

#[global] Instance Sim_Admission : Admission Sim := {|
  w_dry_create _ _ _ o s := dry_run (w_create o s) s;
  w_dry_update _ _ _ o s := dry_run (w_update o s) s;
  IsValidLabelValue := short;
  IsQualifiedName := short;
|}.

#[global] Instance Sim_admission_laws : AdmissionLaws Sim.
Proof. split; intros ? ? ? ? ? ? ? [= <- <-]; done. Qed.

(** The Promise redis, asking for other Promises. *)
Definition redis_requiring (reqs : list RequiredPromise) : Promise :=
  let sp := r_spec redis in
  set_spec {| prs_kind := prs_kind sp; prs_apiVersion := prs_apiVersion sp; prs_api := prs_api sp;
              prs_workflows := prs_workflows sp; prs_requiredPromises := reqs;
              prs_dependencies := prs_dependencies sp;
              prs_destinationSelectors := prs_destinationSelectors sp |} redis.

Definition other_v1 : Promise :=
  let st := r_status redis in
  mkResource (new_meta "" "other") (r_spec redis)
    {| prst_conditions := []; prst_version := "v1"; prst_observedGeneration := 0; prst_kind := "";
       prst_apiVersion := ""; prst_status := ""; prst_workflows := 0; prst_workflowsSucceeded := 0;
       prst_workflowsFailed := 0; prst_requiredPromises := []; prst_requiredBy := [];
       prst_lastAvailableTime := None |}.

Definition hook_sim (ps : list Promise) : Sim :=
  sim_of (set_coll (Collection:=promises_coll) (of_list (encode_promise <$> ps)) empty_cluster).

Definition needs (v : string) : Promise := redis_requiring [{| rp_name := "other"; rp_version := v |}].

(** Admitted without a warning while the required version is there, with warnings otherwise. *)
Lemma admitted_promise_valid_witness :
  let s := hook_sim [other_v1] in
  (PromiseWebhook.ValidateCreate (needs "v1") s).1 = Ok [] ∧ valid_promise (view s) (needs "v1") ∧
  ∃ w, (PromiseWebhook.ValidateCreate (needs "v2") s).1 = Ok w ∧ length w = 2.
Proof.
pose proof (admitted_promise_valid (needs "v1") (hook_sim [other_v1])) as Hwp.
read_off Hwp. destruct Hwp as (w & Hr & _ & Hv & Hw).
split; [|split; [exact Hv|eexists; split; [vm_compute; reflexivity|reflexivity]]].
rewrite Hr, Hw; [reflexivity|]. intros req ->%list_elem_of_singleton. exists other_v1.
split; [|reflexivity]. apply typed_lookup. exists (encode_promise other_v1).
split; [reflexivity|apply decode_encode_promise].
Defined.

(** The API of an existing Promise is not renamed. *)
Definition redis_renamed : Promise :=
  let sp := r_spec redis in
  set_spec {| prs_kind := prs_kind sp; prs_apiVersion := prs_apiVersion sp; prs_api := Some "crd2";
              prs_workflows := prs_workflows sp; prs_requiredPromises := [];
              prs_dependencies := []; prs_destinationSelectors := [] |} redis.

Lemma promise_update_keeps_api_witness :
  let s := hook_sim [] in
  (∃ e, (PromiseWebhook.ValidateUpdate redis redis_renamed s).1 = Fail e) ∧
  (PromiseWebhook.ValidateUpdate redis (needs "v1") s).1 =
    Ok ["Required Promise " +:+ Strings.quote "other" +:+ " at version " +:+ Strings.quote "v1" +:+ " not installed";
        "Promise will not be available until the above issue(s) is resolved"] ∧
  ∃ gvk oldCrd gvk' newCrd, GetAPI redis = Ok (gvk, oldCrd) ∧ GetAPI (needs "v1") = Ok (gvk', newCrd) ∧
    same_api redis (needs "v1") oldCrd newCrd.
Proof.
cbv zeta. split; [eexists; vm_compute; reflexivity|].
destruct (promise_update_keeps_api redis (needs "v1") (hook_sim [])) as [Hwp _].
read_off Hwp. destruct Hwp as (w & Hr & _ & _ & Hapi). split; [vm_compute; reflexivity|].
destruct (GetAPI redis) as [[gvk crd]|e|] eqn:Ha; [|discriminate Ha..].
destruct (Hapi gvk crd eq_refl) as (gvk' & crd' & Hn & Hs). exists gvk, crd, gvk', crd'. auto.
Defined.

(** ** Destinations *)
Definition dest_at (name path store : string) : Destination :=
  mkResource (new_meta "" name)
    {| ds_path := path; ds_stateStoreRef := {| ssr_kind := "BucketStateStore"; ssr_name := store |};
       ds_strictMatchLabels := false; ds_filepath := {| fp_mode := ""; fp_filename := "" |};
       ds_cleanup := ""; ds_initWorkloadsEnabled := false |} {| dst_conditions := [] |}.

Definition dests (ds : list Destination) : Sim := sim_of (set_coll (of_list ds) empty_cluster).

Lemma destination_paths_distinct_witness :
  let s := dests [dest_at "a" "team-a" "s"] in
  (DestinationWebhook.ValidateCreate (dest_at "b" "team-b" "s") s).1 = Ok [] ∧
  (∃ e, (DestinationWebhook.ValidateCreate (dest_at "b" "team-a" "s") s).1 = Fail e) ∧
  paths_distinct (set_coll (<[("", "b") := dest_at "b" "team-b" "s"]> (c_destinations (view s))) (view s)).
Proof.
cbv zeta. split; [vm_compute; reflexivity|]. split; [eexists; vm_compute; reflexivity|].
assert (cluster_scoped (view (dests [dest_at "a" "team-a" "s"]))) as Hcs.
{ intros k d [->%list_elem_of_singleton <-]%(of_list_lookup [_]). reflexivity. }
assert (paths_distinct (view (dests [dest_at "a" "team-a" "s"]))) as Hpd.
{ intros k1 k2 d1 d2 [->%list_elem_of_singleton <-]%(of_list_lookup [_])
    [->%list_elem_of_singleton <-]%(of_list_lookup [_]). done. }
pose proof (destination_paths_distinct (dest_at "b" "team-b" "s") _ Hcs eq_refl Hpd) as Hwp.
read_off Hwp. destruct Hwp as (w & _ & Hv & _ & _ & Hd). rewrite Hv in Hd. by apply Hd.
Defined.

(** ** Where the webhooks are surprised *)

(** The path is compared as a string: two spellings of a directory are both let through. *)
Lemma same_directory_twice :
  (DestinationWebhook.ValidateCreate (dest_at "b" "team-a/" "s") (dests [dest_at "a" "team-a" "s"])).1 = Ok [] ∧
  Filepath.Clean "team-a/" = Filepath.Clean "team-a".
Proof. split; vm_compute; reflexivity. Qed.

(** An API that is no definition makes the update webhook panic: the repair of a Promise whose
    stored API does not decode is never judged. *)
Section undecodable.
#[local] Instance fussy_lib : PromiseLib := {|
  unmarshal_CRD raw := if bool_decide (raw = "crd") then @unmarshal_CRD Sim_PromiseLib raw
                       else inl (ErrorMsg "not a CRD");
  CRD_TypeMeta := @CRD_TypeMeta Sim_PromiseLib;
  ToUnstructured := @ToUnstructured Sim_PromiseLib;
  MarshalJSON := @MarshalJSON Sim_PromiseLib;
  decode_Pipeline := @decode_Pipeline Sim_PromiseLib;
  yaml_scheduling := @yaml_scheduling Sim_PromiseLib;
|}.

Lemma repair_of_api_panics :
  (@PromiseWebhook.ValidateUpdate Sim _ _ fussy_lib _ _ _ redis_renamed redis (hook_sim [])).1 = Panicked.
Proof. vm_compute. reflexivity. Qed.
End undecodable.
