(* ===== verification/PromiseRelease.v ===== *)
(** * Promise releases

    [internal/controller/promiserelease_controller.go], the webhook for releases
    ([promiserelease_webhook.go]) and [lib/fetchers/url.go]: a release names the source of a
    Promise and the version wanted; its controller fetches the Promise and installs it. *)

From S2P Require Import Prelude GoLib Meta Api Kube Client Shared Promise PromiseStore Webhooks.

(** [v1alpha1.PromiseFetcher] *)
Class PromiseFetcher (S : Type) := {
  FromURL : string → string → M S Promise;
}.

Class PromiseFetcherLaws (S : Type) `{Viewed S, PromiseFetcher S} : Prop := {
  fetch_keeps : ∀ url auth s r s', FromURL url auth s = (r, s') → view s' = view s ∧ r ≠ Panicked;
}.

(** ** lib/fetchers/url.go *)

(** HTTP and decoding: a response is its status code and its body; decoding reads one document
    of the body and leaves the rest. *)
Class HTTP (S : Type) := {
  Request : Type;
  http_NewRequest : string → error + Request;
  Header_Add : string → string → Request → Request;
  http_Do : Request → S → (error + (Z * string)) * S;
  yaml_Decode : string → error + (Unstructured * string);
  FromUnstructured : Unstructured → error + Promise;
}.

Definition StatusOK : Z := 200.

Module URLFetcher.
Section fetcher.
Context {S : Type} `{HTTP S}.

Definition FromURL (urlString authHeader : string) : M S Promise :=
  let! req := of_sum (http_NewRequest urlString) in
  let req := if bool_decide (authHeader ≠ "") then Header_Add "Authorization" authHeader req else req in
  let! d := try (call (http_Do req)) in
  match d with
  | inl err => fail (ErrorWrap "failed to get url" err)
  | inr (code, body) =>
      if bool_decide (code ≠ StatusOK)
      then fail (ErrorMsg ("failed to get Promise from URL: status code " +:+ pretty code))
      else match yaml_Decode body with
      | inl err => fail (ErrorMsg ("failed to unmarshal into Kubernetes object: " +:+ Error err))
      | inr (unstructuredPromise, rest) =>
          if bool_decide (us_kind (r_spec unstructuredPromise) ≠ "Promise")
          then fail (ErrorMsg ("expected single Promise object but found object of kind: " +:+
                               us_kind (r_spec unstructuredPromise)))
          else match FromUnstructured unstructuredPromise with
          | inl err => fail (ErrorWrap "failed to unmarshal into Promise" err)
          | inr promise =>
              match yaml_Decode rest with
              | inr _ => fail (ErrorMsg "expected single document yaml, but found multiple documents")
              | inl _ => ret promise
              end
          end
      end
  end.
End fetcher.

#[global] Instance url_fetcher {S} `{HTTP S} : PromiseFetcher S := {| PromiseRelease.FromURL := FromURL |}.
End URLFetcher.

(** ** The release *)
Definition statusInstalled := "Installed".
Definition statusErrorInstalling := "Error installing".
Definition conditionMessageInstalled := "Installed successfully".
Definition conditionReasonInstalled := "InstalledSuccessfully".
Definition promiseCleanupFinalizer := KratixPrefix +:+ "promise-cleanup".
Definition promiseReleaseNameLabel := KratixPrefix +:+ "promise-release-name".

(** [annotations.AddAnnotations] of cluster-api *)
Class ReleaseLib := {
  AddAnnotations : Labels → Labels → Labels;
}.

Section release.
Context {S : Type} `{World S}.

(** The data of the secret, if one is referred to and has any. *)
Definition FetchSecretFromReference (pr : PromiseRelease) : M S (option (gmap string string)) :=
  match src_secretRef (prl_sourceRef (r_spec pr)) with
  | None => ret None
  | Some ref =>
      let ns := if bool_decide (sr_namespace ref ≠ "") then sr_namespace ref else GetNamespace pr in
      let! fetchSecret := Get (Sp:=SecretSpec) (St:=unit) (ns, sr_name ref) in
      ret (sec_data (r_spec fetchSecret))
  end.

(** [string(data["authorizationHeader"])]; nothing in a nil map. *)
Definition auth_header (secretRefData : option (gmap string string)) : string :=
  default "" (default ∅ secretRefData !! "authorizationHeader").
End release.

(** [existingPromise.Spec = spec]; kind and API version belong to the object. *)
Definition overwrite_spec (sp : PromiseSpec) (existing : Promise) : Promise :=
  set_spec {| prs_kind := prs_kind (r_spec existing); prs_apiVersion := prs_apiVersion (r_spec existing);
              prs_api := prs_api sp; prs_workflows := prs_workflows sp;
              prs_requiredPromises := prs_requiredPromises sp; prs_dependencies := prs_dependencies sp;
              prs_destinationSelectors := prs_destinationSelectors sp |} existing.

(** A Promise with a name only; the client writes its kind and API version. *)
Definition new_Promise (name : string) : Promise :=
  mkResource (new_meta "" name)
    {| prs_kind := "Promise"; prs_apiVersion := "platform.kratix.io/v1alpha1"; prs_api := None;
       prs_workflows := {| wf_resource := {| wt_configure := []; wt_delete := [] |};
                           wf_promise := {| wt_configure := []; wt_delete := [] |} |};
       prs_requiredPromises := []; prs_dependencies := []; prs_destinationSelectors := [] |}
    {| prst_conditions := []; prst_version := ""; prst_observedGeneration := 0; prst_kind := "";
       prst_apiVersion := ""; prst_status := ""; prst_workflows := 0; prst_workflowsSucceeded := 0;
       prst_workflowsFailed := 0; prst_requiredPromises := []; prst_requiredBy := [];
       prst_lastAvailableTime := None |}.

(** ** The controller *)
Module PromiseReleaseReconciler.
Section controller.
Context {S : Type} `{World S, Lib, PromiseCodec, !PromiseFetcher S, ReleaseLib}.

(** Leaves a status alone whose condition already says this; a failed write is only logged. *)
Definition updateStatusAndConditions (pr : PromiseRelease) (status conditionMessage conditionReason : string)
    : M S unit :=
  let said :=
    match FindStatusCondition (prls_conditions (r_status pr)) "Installed" with
    | Some existingCondition =>
        bool_decide (cond_message existingCondition = conditionMessage) &&
        bool_decide (cond_reason existingCondition = conditionReason)
    | None => false
    end in
  if said then ret tt
  else
    let condition :=
      {| cond_type := "Installed"; cond_message := conditionMessage; cond_reason := conditionReason;
         cond_status := if bool_decide (conditionMessage = conditionMessageInstalled)
                        then ConditionTrue else ConditionFalse;
         cond_lastTransitionTime := 0 |} in
    let! u := setStatusCondition (prls_conditions (r_status pr)) condition in
    try (StatusUpdate (set_status {| prls_status := status; prls_conditions := u.1 |} pr)) ;;;
    ret tt.

Definition labelled (promiseRelease : PromiseRelease) : ListOptions :=
  {| lo_namespace := "";
     lo_selector := Some (SelectorFromSet (<[promiseReleaseNameLabel := GetName promiseRelease]> ∅)) |}.

Definition promiseExistsAtDesiredVersion (promiseRelease : PromiseRelease) : M S bool :=
  let! l := try (ListPromises (labelled promiseRelease)) in
  match l with
  | inl err => fail (ErrorWrap "failed to list promises" err)
  | inr [promise] =>
      ret (bool_decide (label (GetLabels promise) PromiseVersionLabel = prl_version (r_spec promiseRelease)))
  | inr [] => ret false
  | inr promises => fail (ErrorMsg ("expected 0 or 1 promises, got " +:+ pretty (length promises)))
  end.

Definition set_version (version : string) (promiseRelease : PromiseRelease) : PromiseRelease :=
  set_spec {| prl_version := version; prl_sourceRef := prl_sourceRef (r_spec promiseRelease) |} promiseRelease.

(** Whether the release was updated. *)
Definition validateVersion (promiseRelease : PromiseRelease) (promise : Promise) : M S bool :=
  match GetLabels promise !! PromiseVersionLabel with
  | None =>
      updateStatusAndConditions promiseRelease statusErrorInstalling "Version label not found on Promise"
        "VersionLabelNotFound" ;;;
      fail (ErrorMsg ("version label (" +:+ PromiseVersionLabel +:+ ") not found on promise; refusing to install"))
  | Some promiseVersion =>
      if bool_decide (prl_version (r_spec promiseRelease) = "") then
        let! u := try (Update (set_version promiseVersion promiseRelease)) in
        match u with
        | inl err => fail (ErrorWrap "failed to set promise release version" err)
        | inr _ => ret true
        end
      else if bool_decide (promiseVersion ≠ prl_version (r_spec promiseRelease)) then
        let msg := "Version labels do not match, found: " +:+ promiseVersion +:+ ", expected: " +:+
                   prl_version (r_spec promiseRelease) in
        updateStatusAndConditions promiseRelease statusErrorInstalling msg "VersionNotMatching" ;;;
        fail (ErrorMsg ("version label on promise (" +:+ promiseVersion +:+
          ") does not match version on promise release (" +:+ prl_version (r_spec promiseRelease) +:+
          "); refusing to install"))
      else ret false
  end.

(** The existing Promise, or an empty one, as it should be. *)
Definition mutate_promise (promiseRelease : PromiseRelease) (promise existingPromise : Promise)
    : error + Promise :=
  let existing := overwrite_spec (r_spec promise) existingPromise in
  let existing := SetLabels (<[promiseReleaseNameLabel := GetName promiseRelease]>
                               (labels_Merge (GetLabels existing) (GetLabels promise))) existing in
  let existing := SetAnnotations (AddAnnotations (GetAnnotations existing) (GetAnnotations promise)) existing in
  match SetControllerReference "PromiseRelease" (r_meta promiseRelease) (r_meta existing) with
  | inl err => inl err
  | inr m => inr (set_meta m existing)
  end.

Definition installPromise (promiseRelease : PromiseRelease) (promise : Promise) : M S unit :=
  let! r := try (CreateOrUpdatePromise (new_Promise (GetName promise)) (mutate_promise promiseRelease promise)) in
  match r with
  | inl err =>
      let eventReason := if IsInvalid err then "Invalid Promise" else "Failed" in
      Eventf promiseRelease EventTypeWarning eventReason
        ("Failed to install Promise " +:+ Strings.quote (GetName promise) +:+ ": " +:+ Error err) ;;;
      fail err
  | inr _ => ret tt
  end.

Definition delete_promise (promise : Promise) : M S unit :=
  if deleting promise then ret tt
  else
    let! d := try (DeletePromise promise) in
    match d with
    | inl err => fail (ErrorWrap "failed to delete Promise" err)
    | inr _ => ret tt
    end.

Definition delete (promiseRelease : PromiseRelease) : M S Result :=
  if negb (ContainsFinalizer (GetFinalizers promiseRelease) promiseCleanupFinalizer) then ret noRequeue
  else
    let! l := try (ListPromises (labelled promiseRelease)) in
    match l with
    | inl err => fail (ErrorWrap "failed to list promises" err)
    | inr [] =>
        let! u := try (Update (SetFinalizers
          (RemoveFinalizer (GetFinalizers promiseRelease) promiseCleanupFinalizer) promiseRelease)) in
        match u with
        | inl err => fail (ErrorWrap "failed to remove finalizer" err)
        | inr _ => ret noRequeue
        end
    | inr promises => iterM delete_promise promises ;;; ret defaultRequeue
    end.

(** Fetch, check and install; the end of [Reconcile]. *)
Definition install (promiseRelease : PromiseRelease) : M S Result :=
  let! d := try (FetchSecretFromReference promiseRelease) in
  match d with
  | inl err => fail (ErrorWrap "failed to fetch data from secretRef" err)
  | inr secretRefData =>
      let authHeader := auth_header secretRefData in
      if bool_decide (src_type (prl_sourceRef (r_spec promiseRelease)) = TypeHTTP) then
        let! f := try (FromURL (src_url (prl_sourceRef (r_spec promiseRelease))) authHeader) in
        match f with
        | inl err =>
            updateStatusAndConditions promiseRelease statusErrorInstalling "Failed to fetch Promise from URL"
              "FailedToFetchPromise" ;;;
            fail (ErrorWrap "failed to fetch promise from url" err)
        | inr promise =>
            let! updated := validateVersion promiseRelease promise in
            if updated : bool then ret noRequeue
            else
              let! i := try (installPromise promiseRelease promise) in
              match i with
              | inl err =>
                  updateStatusAndConditions promiseRelease statusErrorInstalling
                    "Failed to create or update Promise" "FailedToCreateOrUpdatePromise" ;;;
                  fail (ErrorWrap "failed to create or update promise" err)
              | inr _ =>
                  updateStatusAndConditions promiseRelease statusInstalled conditionMessageInstalled
                    conditionReasonInstalled ;;;
                  ret noRequeue
              end
        end
      else ret noRequeue
  end.

Definition Reconcile (req : Key) : M S Result :=
  let! g := try (Get (Sp:=PromiseReleaseSpec) (St:=PromiseReleaseStatus) req) in
  match g with
  | inl err => if IsNotFound err then ret noRequeue else ret defaultRequeue
  | inr promiseRelease =>
      if deleting promiseRelease then delete promiseRelease
      else if DoesNotContainFinalizer (GetFinalizers promiseRelease) promiseCleanupFinalizer
      then addFinalizers promiseRelease [promiseCleanupFinalizer]
      else
        let! e := try (promiseExistsAtDesiredVersion promiseRelease) in
        match e with
        | inl err => fail (ErrorWrap "failed to check if promise exists" err)
        | inr true =>
            updateStatusAndConditions promiseRelease statusInstalled conditionMessageInstalled
              conditionReasonInstalled ;;;
            ret noRequeue
        | inr false => install promiseRelease
        end
  end.
End controller.
End PromiseReleaseReconciler.

(** ** The webhook *)
Module PromiseReleaseWebhook.
Section webhook.
Context {S : Type} `{World S, !PromiseFetcher S}.

Definition validate (r : PromiseRelease) : option error :=
  if bool_decide (src_url (prl_sourceRef (r_spec r)) = "")
  then Some (ErrorMsg "sourceRef.url must be set") else None.

Definition ValidateCreate (r : PromiseRelease) : M S Warnings :=
  match validate r with
  | Some err => fail err
  | None =>
      let! d := try (FetchSecretFromReference r) in
      match d with
      | inl err => fail (ErrorWrap "failed to fetch data from secretRef" err)
      | inr secretRefData =>
          let! f := try (FromURL (src_url (prl_sourceRef (r_spec r))) (auth_header secretRefData)) in
          match f with
          | inl err => fail (ErrorWrap "failed to fetch promise" err)
          | inr promise =>
              ret match GetLabels promise !! PromiseVersionLabel with
                  | None => ["Warning: version label (" +:+ PromiseVersionLabel +:+
                             ") not found on promise, installation will fail"]
                  | Some promiseVersion =>
                      if bool_decide (promiseVersion ≠ prl_version (r_spec r))
                      then ["Warning: version labels do not match, found: " +:+ promiseVersion +:+
                            ", expected: " +:+ prl_version (r_spec r) +:+ ", installation will fail"]
                      else []
                  end
          end
      end
  end.

Definition ValidateUpdate (_old r : PromiseRelease) : M S Warnings :=
  match validate r with Some err => fail err | None => ret [] end.
End webhook.
End PromiseReleaseWebhook.
