(* ===== verification/PromiseReleaseFacts.v ===== *)
(** * What a release installs, and what it says *)

From S2P Require Import Prelude GoLib Meta Api Kube Client Shared Promise PromiseStore Frame.
From S2P Require Import Webhooks WebhookFacts PromiseRelease.
Import PromiseReleaseReconciler.

(** ** The fetcher *)
Section fetcher.
Context {S : Type} `{Viewed S, HTTP S}.
Context (http_keeps : ∀ (r : Request) (s : S), view (http_Do r s).2 = view s).
Implicit Types s : S.

Lemma wp_url_FromURL url auth s :
  wp (URLFetcher.FromURL url auth) (λ r s', view s' = view s ∧ r ≠ Panicked ∧ ∀ p, r = Ok p →
    ∃ req body u rest, http_NewRequest url = inr req ∧
      (http_Do (if bool_decide (auth ≠ "") then Header_Add "Authorization" auth req else req) s).1 =
        inr (StatusOK, body) ∧
      yaml_Decode body = inr (u, rest) ∧ us_kind (r_spec u) = "Promise" ∧ FromUnstructured u = inr p ∧
      ∃ e, yaml_Decode rest = inl e) s.
Proof.
unfold URLFetcher.FromURL. apply wp_bind. unfold of_sum.
destruct (http_NewRequest url) as [e|req] eqn:Hreq; [by apply wp_fail|]. apply wp_ret. cbv zeta.
set (req' := if bool_decide _ then _ else _). apply wp_bind, wp_try. pose proof (http_keeps req' s) as Hk.
apply wp_call; intros x s' Hdo; rewrite Hdo in Hk; cbn in Hk; [|by apply wp_fail].
destruct x as [code body]. case_bool_decide as Hcode; [by apply wp_fail|].
destruct (yaml_Decode body) as [e|[u rest]] eqn:Hy; [by apply wp_fail|].
case_bool_decide as Hkind; [by apply wp_fail|].
destruct (FromUnstructured u) as [e|p] eqn:Hu; [by apply wp_fail|].
destruct (yaml_Decode rest) as [e|q] eqn:Hr; [|by apply wp_fail]. apply wp_ret.
split; [done|]. split; [done|]. intros p' [= <-]. subst code.
exists req, body, u, rest. fold req'. rewrite Hdo. eauto 10.
Qed.

Lemma url_fetcher_laws : PromiseFetcherLaws S.
Proof.
split. intros url auth s r s' E. pose proof (wp_url_FromURL url auth s) as Hwp.
apply (wp_intro _ _ _ _ _ E) in Hwp as (Hv & Hr & _). done.
Qed.

(** The fetcher returns a Promise only for a document the server gave with status 200: the
    first of the body, of kind Promise, with no second one that can be read after it; it is asked
    for with the authorization header, if there is one.  Fetching does not touch the cluster. *)
Theorem fetched_promise_is_single url auth s :
  wp (URLFetcher.FromURL url auth) (λ r s', view s' = view s ∧ r ≠ Panicked ∧ ∀ p, r = Ok p →
    ∃ req body u rest, http_NewRequest url = inr req ∧
      (http_Do (if bool_decide (auth ≠ "") then Header_Add "Authorization" auth req else req) s).1 =
        inr (StatusOK, body) ∧
      yaml_Decode body = inr (u, rest) ∧ us_kind (r_spec u) = "Promise" ∧ FromUnstructured u = inr p ∧
      ∃ e, yaml_Decode rest = inl e) s.
Proof. apply wp_url_FromURL. Qed.
End fetcher.

(** ** The controller *)
Section release.
Context {S : Type} `{World S, Viewed S, !WorldLaws S, Lib, !LibLaws, PromiseCodec, !PromiseCodecLaws}.
Context `{!PromiseFetcher S, !PromiseFetcherLaws S, ReleaseLib}.
Implicit Types (s : S) (rel : PromiseRelease) (p q : Promise).

Definition installed_condition rel : option Condition :=
  FindStatusCondition (prls_conditions (r_status rel)) "Installed".
Definition reports_installed rel : bool := status_is (installed_condition rel) ConditionTrue.

(** A write to the release [rel], which keeps everything but its status. *)
Definition told rel (installed : bool) (c c' : Cluster) : Prop :=
  c' = c ∨ ∃ st, c' = set_coll (<[key rel := set_status st rel]> (c_releases c)) c ∧
    reports_installed (set_status st rel) = installed.

Lemma wp_release_status rel status msg reason (Q : outcome unit → S → Prop) s :
  c_releases (view s) !! key rel = Some rel →
  (∀ s', told rel (bool_decide (msg = conditionMessageInstalled)) (view s) (view s') → Q (Ok tt) s') →
  wp (updateStatusAndConditions rel status msg reason) Q s.
Proof.
intros Hrel HQ. unfold updateStatusAndConditions. cbv zeta.
match goal with |- wp (if ?b then _ else _) _ _ => destruct b end; [apply wp_ret, HQ; by left|].
apply wp_bind, wp_setStatusCondition. intros now s1 Hv1. apply wp_bind, wp_try, wp_StatusUpdate.
- intros old s2 Hold Hv2. apply wp_ret, HQ. right. rewrite Hv1 in Hv2, Hold.
  change (c_releases (view s) !! key rel = Some old) in Hold. assert (old = rel) as -> by congruence.
  eexists. split; [exact Hv2|]. unfold reports_installed, installed_condition. cbn.
  destruct (set_find_same now (prls_conditions (r_status rel))
    {| cond_type := "Installed"; cond_message := msg; cond_reason := reason;
       cond_status := if bool_decide (msg = conditionMessageInstalled) then ConditionTrue else ConditionFalse;
       cond_lastTransitionTime := 0 |}) as (d & Hd & _ & Hst & _).
  cbn [cond_type] in Hd. rewrite Hd. cbn. rewrite Hst. cbn. by case_bool_decide.
- intros e s2 Hv2. apply wp_ret, HQ. left. congruence.
Qed.

(** The Promise of the release, at the version it asks for. *)
Definition at_version rel (c : Cluster) : Prop := ∃ k q, typed_promises c !! k = Some q ∧
  GetLabels q !! promiseReleaseNameLabel = Some (GetName rel) ∧
  label (GetLabels q) PromiseVersionLabel = prl_version (r_spec rel).

Lemma wp_exists rel s :
  wp (promiseExistsAtDesiredVersion rel)
    (post (λ b s', view s' = view s ∧ (b = true → at_version rel (view s))) (λ _ s', view s' = view s)) s.
Proof.
apply wp_bind, wp_try, (wp_ListPromises _ (<[promiseReleaseNameLabel := GetName rel]> ∅));
  [apply selector_from_set| |by intros; apply wp_fail].
intros ps us s1 Hv1 Hd Hus. destruct ps as [|q [|q' ps]]; [by apply wp_ret| |by apply wp_fail].
apply wp_ret. split; [done|]. intros Hver%bool_decide_eq_true.
destruct (proj1 (decode_promises_spec _ _ Hd q)) as (u & Hu & Hq); [left|].
apply Hus in Hu as [Hl [k Hk]]. exists k, q. split; [apply typed_lookup; eauto|].
split; [|done]. unfold GetLabels in *. rewrite (decode_promise_meta _ _ Hq).
eapply lookup_weaken; [|exact Hl]. apply lookup_insert_eq.
Qed.

(** What is installed for [rel] from the fetched [p]. *)
Record installed_from rel p q : Prop := {
  inst_key : key q = ("", GetName p);
  inst_api : prs_api (r_spec q) = prs_api (r_spec p);
  inst_workflows : prs_workflows (r_spec q) = prs_workflows (r_spec p);
  inst_required : prs_requiredPromises (r_spec q) = prs_requiredPromises (r_spec p);
  inst_dependencies : prs_dependencies (r_spec q) = prs_dependencies (r_spec p);
  inst_selectors : prs_destinationSelectors (r_spec q) = prs_destinationSelectors (r_spec p);
  inst_release : GetLabels q !! promiseReleaseNameLabel = Some (GetName rel);
  inst_labels : ∀ l v, l ≠ promiseReleaseNameLabel → GetLabels p !! l = Some v → GetLabels q !! l = Some v;
}.

Lemma mutate_installs rel p existing q :
  mutate_promise rel p existing = inr q → key existing = ("", GetName p) →
  installed_from rel p q ∧ GetFinalizers q = GetFinalizers existing.
Proof.
unfold mutate_promise. cbv zeta. destruct (SetControllerReference _ _ _) as [e|m] eqn:Hm; [done|].
intros [= <-] Hk. apply set_controller_reference_meta in Hm. rewrite Hm. split; [|done].
split; try done; cbn.
- apply lookup_insert_eq.
- intros l v Hne Hl. rewrite lookup_insert_ne by done. rewrite merge_spec. by apply lookup_union_Some_l.
Qed.

Lemma installed_server rel p q m :
  installed_from rel p q → om_key m = key q → om_labels m = GetLabels q → ∀ st,
  installed_from rel p (mkResource m (r_spec q) st).
Proof. intros [] Hk Hl st. split; unfold key, GetLabels in *; cbn; rewrite ?Hk, ?Hl; done. Qed.

Lemma wp_installPromise rel p s :
  keyed (c_promises (view s)) → no_zombies (c_promises (view s)) →
  wp (installPromise rel p) (post
    (λ _ s', only_promises (view s) (view s') ∧ ∃ q, installed_from rel p q ∧
       typed_promises (view s') = <[("", GetName p) := q]> (typed_promises (view s)))
    (λ _ s', view s' = view s)) s.
Proof.
intros Hkeyed Hnz. assert (key (encode_promise (new_Promise (GetName p))) = ("", GetName p)) as Hkey by done.
apply wp_bind, wp_try, wp_bind, wp_CreateOrUpdate.
- intros o uid t gen op s1 Hn Hf Hk Hv. rewrite decode_encode_promise in Hf.
  destruct (mutate_promise _ _ _) as [e|q] eqn:Hm; [done|]. injection Hf as <-.
  apply mutate_installs in Hm as [Hi _]; [|done].
  destruct (decode_created uid t gen q) as [st Hst]. apply wp_bind. unfold of_sum. cbn [fst].
  rewrite Hst. apply wp_ret, wp_ret, wp_ret. split; [by rewrite Hv|].
  eexists. split; [|rewrite Hv, Hkey; by apply typed_insert].
  by apply (installed_server _ _ q).
- intros u o gen op s1 Hu Hf Hk Hv. destruct (decode_promise u) as [e|existing] eqn:Hd; [done|].
  destruct (mutate_promise _ _ _) as [e|q] eqn:Hm; [done|]. injection Hf as <-. rewrite Hkey in Hu.
  assert (key existing = ("", GetName p)) as Hke by (rewrite (decode_promise_key _ _ Hd); by apply Hkeyed).
  apply mutate_installs in Hm as [Hi Hfin]; [|done]. pose proof (decode_updated gen u existing q Hd) as Hup.
  apply wp_bind. unfold of_sum. cbn [fst]. rewrite Hup. apply wp_ret, wp_ret, wp_ret.
  split; [by rewrite Hv|]. exists (on_update gen existing q). split; [by apply (installed_server _ _ q)|].
  rewrite Hv. change (coll (view s)) with (c_promises (view s)). rewrite (typed_put gen u existing q) by done.
  unfold put_or_reap. change (key (on_update gen existing q)) with (key q). rewrite (inst_key _ _ _ Hi).
  destruct (deleting (on_update gen existing q)) eqn:Hdel; [|done]. rewrite bool_decide_false; [done|].
  change (GetFinalizers q ≠ []). rewrite Hfin. unfold GetFinalizers. rewrite (decode_promise_meta _ _ Hd).
  apply (Hnz _ _ Hu). unfold deleting in *. by rewrite <-(decode_promise_meta _ _ Hd).
- intros e s1 Hv. apply wp_bind, wp_Eventf. intros s2 Hv2. apply wp_fail. cbn. congruence.
Qed.

(** Nothing of the cluster changes but Promises and releases. *)
Definition beside (c c' : Cluster) : Prop :=
  c' = set_coll (Collection:=promises_coll) (c_promises c') (set_coll (c_releases c') c).

(** What a reconciliation of [rel] may do to the stored Promises: nothing, or install one
    fetched from the source of the release, at the version asked for. *)
Definition installs rel (c c' : Cluster) : Prop :=
  c_promises c' = c_promises c ∨
  ∃ p q auth s1, (FromURL (src_url (prl_sourceRef (r_spec rel))) auth (s1 : S)).1 = Ok p ∧
    GetLabels p !! PromiseVersionLabel = Some (prl_version (r_spec rel)) ∧ prl_version (r_spec rel) ≠ "" ∧
    installed_from rel p q ∧ typed_promises c' = <[("", GetName p) := q]> (typed_promises c).

(** The release as it is stored then says "installed" only if it did so before, or rightly. *)
Definition truthful rel (c c' : Cluster) : Prop := ∀ rel',
  c_releases c' !! key rel = Some rel' → reports_installed rel' = true →
  reports_installed rel = true ∨ (r_spec rel' = r_spec rel ∧ at_version rel c').

Record release_step rel (c c' : Cluster) : Prop := {
  rs_beside : beside c c';
  rs_installs : installs rel c c';
  rs_truthful : truthful rel c c';
}.

Lemma release_step_refl rel c : c_releases c !! key rel = Some rel → release_step rel c c.
Proof. intros Hrel. split; [by destruct c|by left|]. intros rel' Hr Hi. left. congruence. Qed.

Lemma release_step_told rel b c c' :
  c_releases c !! key rel = Some rel → (b = true → at_version rel c) → told rel b c c' → release_step rel c c'.
Proof.
intros Hrel Hb [->|(st & -> & Hst)]; [by apply release_step_refl|].
split; [done|by left|]. intros rel' Hr Hi. cbn in Hr. rewrite lookup_insert_eq in Hr. injection Hr as <-.
right. split; [done|]. apply Hb. congruence.
Qed.

Lemma installed_at_version rel p q c :
  installed_from rel p q → GetLabels p !! PromiseVersionLabel = Some (prl_version (r_spec rel)) →
  typed_promises c !! ("", GetName p) = Some q → at_version rel c.
Proof.
intros Hi Hl Hq. exists ("", GetName p), q. split; [done|]. split; [apply Hi|].
unfold label. assert (PromiseVersionLabel ≠ promiseReleaseNameLabel) as Hne by (vm_compute; discriminate).
by rewrite (inst_labels _ _ _ Hi _ _ Hne Hl).
Qed.

(** A Promise is installed, then the status is written. *)
Lemma release_step_installed rel p q auth s1 c c1 c' :
  c_releases c !! key rel = Some rel → only_promises c c1 → installed_from rel p q →
  typed_promises c1 = <[("", GetName p) := q]> (typed_promises c) →
  (FromURL (src_url (prl_sourceRef (r_spec rel))) auth (s1 : S)).1 = Ok p →
  GetLabels p !! PromiseVersionLabel = Some (prl_version (r_spec rel)) → prl_version (r_spec rel) ≠ "" →
  told rel true c1 c' → release_step rel c c'.
Proof.
intros Hrel Ho Hi Ht Hf Hl Hne Hto.
assert (c_releases c1 = c_releases c) as Hr1 by (rewrite Ho; done).
assert (at_version rel c1) as Hat by (eapply installed_at_version; [done..|]; rewrite Ht; apply lookup_insert_eq).
assert (c_promises c' = c_promises c1) as Hp by (by destruct Hto as [->|(st & -> & _)]).
assert (typed_promises c' = typed_promises c1) as Htp by (unfold typed_promises; by rewrite Hp).
split.
- unfold beside. destruct Hto as [->|(st & -> & _)]; rewrite Ho; by destruct c.
- right. exists p, q, auth, s1. rewrite Htp. auto.
- intros rel' Hr' Hi'. destruct (release_step_told rel true c1 c') as [_ _ Htr]; [congruence|done|done|].
  exact (Htr _ Hr' Hi').
Qed.

Lemma wp_FetchSecret rel s :
  wp (FetchSecretFromReference rel) (post (λ _ s', view s = view s') (λ _ s', view s = view s')) s.
Proof. revert s. change (keeps (S:=S) eq (FetchSecretFromReference rel)). unfold FetchSecretFromReference. keeps. Qed.

Lemma wp_FromURL url auth (Q : outcome Promise → S → Prop) s :
  (∀ p s', view s' = view s → (FromURL url auth s).1 = Ok p → Q (Ok p) s') →
  (∀ e s', view s' = view s → Q (Fail e) s') → wp (FromURL url auth) Q s.
Proof.
intros HO HE. destruct (FromURL url auth s) as [r s'] eqn:E. apply (wp_elim _ _ _ _ _ E).
apply fetch_keeps in E as [Hv Hr]. destruct r as [p|e|]; [by apply HO|by apply HE|done].
Qed.

Lemma wp_validateVersion rel p s :
  c_releases (view s) !! key rel = Some rel → deleting rel = false →
  wp (validateVersion rel p) (post
    (λ (updated : bool) s', if updated then release_step rel (view s) (view s')
       else view s' = view s ∧ GetLabels p !! PromiseVersionLabel = Some (prl_version (r_spec rel)) ∧
            prl_version (r_spec rel) ≠ "")
    (λ _ s', release_step rel (view s) (view s'))) s.
Proof.
intros Hrel Hdel. unfold validateVersion. destruct (GetLabels p !! PromiseVersionLabel) as [v|] eqn:Hv.
- case_bool_decide as Hempty.
  + apply wp_bind, wp_try, wp_Update.
    * intros old gen s1 Hold Hv1. apply wp_ret. change (c_releases (view s) !! key rel = Some old) in Hold.
      assert (old = rel) as -> by congruence. cbn. rewrite Hv1. unfold put_or_reap.
      change (deleting (on_update gen rel (set_version v rel))) with (deleting rel). rewrite Hdel. cbn.
      split; [done|by left|]. intros rel' Hr Hi. cbn in Hr.
      change (key (on_update gen rel (set_version v rel))) with (key rel) in Hr.
      rewrite lookup_insert_eq in Hr. injection Hr as <-. by left.
    * intros e s1 Hv1. apply wp_fail. cbn. rewrite Hv1. by apply release_step_refl.
  + case_bool_decide as Hmatch; [|apply wp_ret; split; [done|]; split; [congruence|done]].
    apply wp_bind, wp_release_status; [done|]. intros s1 Hto. apply wp_fail. cbn.
    eapply release_step_told; [done| |exact Hto]. by intros Hx%bool_decide_eq_true.
- apply wp_bind, wp_release_status; [done|]. intros s1 Hto. apply wp_fail. cbn.
  eapply release_step_told; [done| |exact Hto]. by intros Hx%bool_decide_eq_true.
Qed.

Lemma wp_install rel s :
  c_releases (view s) !! key rel = Some rel → deleting rel = false →
  keyed (c_promises (view s)) → no_zombies (c_promises (view s)) →
  wp (install rel) (post (λ _ s', release_step rel (view s) (view s'))
                         (λ _ s', release_step rel (view s) (view s'))) s.
Proof.
intros Hrel Hdel Hkeyed Hnz. unfold install. apply wp_bind, wp_try.
eapply wp_mono; [by apply (wp_FetchSecret rel s)|]. intros [data|e|] s1 Hv1; cbn in Hv1; [symmetry in Hv1| |done];
  [|apply wp_fail; cbn; rewrite <-Hv1; by apply release_step_refl].
cbv zeta. case_bool_decide as Htype; [|apply wp_ret; cbn; rewrite Hv1; by apply release_step_refl].
apply wp_bind, wp_try, wp_FromURL.
2:{ intros e s2 Hv2. apply wp_bind, wp_release_status; [by rewrite Hv2, Hv1|]. intros s3 Hto. apply wp_fail.
    cbn. rewrite Hv2, Hv1 in Hto. eapply release_step_told; [done| |exact Hto]. by intros Hx%bool_decide_eq_true. }
intros p s2 Hv2 Hf. rewrite Hv1 in Hv2. apply wp_bind.
eapply wp_mono; [apply wp_validateVersion; [by rewrite Hv2|done]|].
intros [[]|e|] s3 Hs3; cbn in Hs3; [rewrite Hv2 in Hs3; by apply wp_ret| |rewrite Hv2 in Hs3; exact Hs3|done].
destruct Hs3 as (Hv3 & Hl & Hne). rewrite Hv2 in Hv3. apply wp_bind, wp_try.
eapply wp_mono; [apply wp_installPromise; by rewrite Hv3|]. intros [[]|e|] s4 Hs4; cbn in Hs4; [| |done].
- rewrite Hv3 in Hs4. destruct Hs4 as (Ho & q & Hi & Ht). apply wp_bind, wp_release_status; [rewrite Ho; done|].
  intros s5 Hto. apply wp_ret. cbn. rewrite bool_decide_true in Hto by done.
  by eapply release_step_installed.
- rewrite Hv3 in Hs4. apply wp_bind, wp_release_status; [by rewrite Hs4|]. intros s5 Hto. apply wp_fail. cbn.
  rewrite Hs4 in Hto. eapply release_step_told; [done| |exact Hto]. by intros Hx%bool_decide_eq_true.
Qed.

(** C12: Reconciling a release that is not being deleted changes only Promises and the release.
    The Promises stay as they are, or one is created or overwritten: with the spec of what was
    fetched from the source of the release, its labels and the label that names the release, and
    only if the version label of what was fetched is the version the release asks for.  The
    release is then recorded as installed only if that was so before, or if a Promise labelled with
    the release is there at the version asked for; on every path, errors included. *)
Theorem release_installs_its_version k rel s
    (Hrel : c_releases (view s) !! k = Some rel) (Hdel : deleting rel = false)
    (Hkr : keyed (c_releases (view s))) (Hkp : keyed (c_promises (view s)))
    (Hz : no_zombies (c_promises (view s))) :
  wp (Reconcile k) (post (λ _ s', release_step rel (view s) (view s'))
                         (λ _ s', release_step rel (view s) (view s'))) s.
Proof.
pose proof (Hkr _ _ Hrel) as <-. apply wp_bind, wp_try, wp_Get.
2:{ intros e s1 Hv1 _. destruct (IsNotFound e); apply wp_ret; cbn; rewrite Hv1; by apply release_step_refl. }
intros rel' s1 Hv1 Hrel'. change (c_releases (view s) !! key rel = Some rel') in Hrel'.
assert (rel' = rel) as -> by congruence. rewrite Hdel. destruct (DoesNotContainFinalizer _ _).
- apply wp_bind, wp_Update.
  + intros old gen s2 Hold Hv2. rewrite Hv1 in Hold, Hv2. change (c_releases (view s) !! key rel = Some old) in Hold.
    assert (old = rel) as -> by congruence. apply wp_ret. cbn. rewrite Hv2. unfold put_or_reap.
    change (deleting (on_update gen rel _)) with (deleting rel). rewrite Hdel. cbn. split; [done|by left|].
    intros rel' Hr Hi. cbn in Hr. change (key (on_update gen rel _)) with (key rel) in Hr.
    rewrite lookup_insert_eq in Hr. injection Hr as <-. by left.
  + intros e s2 Hv2. cbn. rewrite Hv2, Hv1. by apply release_step_refl.
- apply wp_bind, wp_try. eapply wp_mono; [apply wp_exists|]. rewrite Hv1. intros [[]|e|] s2 Hs2; cbn in Hs2; [..|done].
  + destruct Hs2 as [Hv2 Hat]. apply wp_bind, wp_release_status; [by rewrite Hv2|]. intros s3 Hto. apply wp_ret.
    cbn. rewrite Hv2 in Hto. eapply release_step_told; [done| |exact Hto]. auto.
  + destruct Hs2 as [Hv2 _]. rewrite <-Hv2 in Hrel, Hkp, Hz |- *. by apply wp_install.
  + apply wp_fail. cbn. rewrite Hs2. by apply release_step_refl.
Qed.

(** *** Deletion *)
Definition belongs rel (u : Unstructured) : Prop := <[promiseReleaseNameLabel := GetName rel]> ∅ ⊆ GetLabels u.

(** Deletion is requested for some Promises of the release; nothing else changes. *)
Record retiring rel (c c' : Cluster) : Prop := {
  ret_only : only_promises c c';
  ret_from : ∀ k u', c_promises c' !! k = Some u' → ∃ u, c_promises c !! k = Some u ∧
    (u' = u ∨ belongs rel u ∧ ∃ t, u' = mark_deleting t u);
  ret_others : ∀ k u, c_promises c !! k = Some u → ¬ belongs rel u → c_promises c' !! k = Some u;
}.

Lemma retiring_refl rel c : retiring rel c c.
Proof. split; [reflexivity|eauto|done]. Qed.

Lemma deleting_mark {Sp St} t (o : Resource Sp St) : deleting (mark_deleting t o) = true.
Proof. unfold mark_deleting. by destruct (deleting o) eqn:E. Qed.
Lemma mark_twice {Sp St} t t' (o : Resource Sp St) : mark_deleting t' (mark_deleting t o) = mark_deleting t o.
Proof. unfold mark_deleting at 1. by rewrite deleting_mark. Qed.

Lemma retiring_delete rel c c1 k u t old :
  retiring rel c c1 → c_promises c !! k = Some u → belongs rel u → c_promises c1 !! k = Some old →
  retiring rel c (set_coll (Collection:=promises_coll) (on_delete t k old (c_promises c1)) c1).
Proof.
intros [Ho Hf Hot] Hu Hb Hold.
assert (∀ k', k' ≠ k → on_delete t k old (c_promises c1) !! k' = c_promises c1 !! k') as Hne.
{ intros k' Hk. unfold on_delete. case_bool_decide; [by rewrite lookup_delete_ne|by rewrite lookup_insert_ne]. }
split.
- rewrite Ho. by destruct c.
- intros k' u' Hu'. cbn in Hu'. destruct (decide (k' = k)) as [->|Hk]; [|rewrite Hne in Hu' by done; auto].
  exists u. split; [done|]. right. split; [done|]. unfold on_delete in Hu'. case_bool_decide.
  { by rewrite lookup_delete_eq in Hu'. }
  rewrite lookup_insert_eq in Hu'. injection Hu' as <-.
  destruct (Hf _ _ Hold) as (u2 & Hu2 & [->|(_ & t' & ->)]); assert (u2 = u) as -> by congruence;
    [eauto|rewrite mark_twice; eauto].
- intros k' v Hv Hnb. cbn. destruct (decide (k' = k)) as [->|Hk]; [by simplify_eq|]. rewrite Hne; auto.
Qed.

(** After the Promises [done] were seen to. *)
Definition seen_to (ps : list Promise) (c : Cluster) : Prop :=
  ∀ p u, p ∈ ps → c_promises c !! key p = Some u → deleting u = true.

Lemma seen_to_delete t k old ps c :
  c_promises c !! k = Some old → seen_to ps c →
  seen_to ps (set_coll (Collection:=promises_coll) (on_delete t k old (c_promises c)) c).
Proof.
intros Hold Hs p u Hp. cbn. unfold on_delete. case_bool_decide.
- rewrite lookup_delete_Some. intros [_ Hu]. by eapply Hs.
- rewrite lookup_insert_Some. intros [[_ <-]|[_ Hu]]; [apply deleting_mark|by eapply Hs].
Qed.

Lemma deleted_gone_or_marked (t : Z) (k : Key) (old u : Unstructured) (m : gmap Key Unstructured) :
  on_delete t k old m !! k = Some u → deleting u = true.
Proof.
unfold on_delete. case_bool_decide; [by rewrite lookup_delete_eq|]. rewrite lookup_insert_eq.
intros [= <-]. apply deleting_mark.
Qed.

Lemma seen_to_snoc ps p c :
  seen_to ps c → (∀ u, c_promises c !! key p = Some u → deleting u = true) → seen_to (ps ++ [p]) c.
Proof. intros Hs Hp p' u [Hin| ->%list_elem_of_singleton]%elem_of_app; eauto. Qed.

Lemma wp_delete_promises rel ps s0 s :
  view s = view s0 →
  (∀ p, p ∈ ps → ∃ u, c_promises (view s0) !! key p = Some u ∧ belongs rel u ∧ deleting p = deleting u) →
  wp (iterM delete_promise ps) (post
    (λ _ s', retiring rel (view s0) (view s') ∧ seen_to ps (view s'))
    (λ _ s', retiring rel (view s0) (view s'))) s.
Proof.
intros Hv Hps. apply (wp_foldM _ (λ done _ _ s', retiring rel (view s0) (view s') ∧ seen_to done (view s'))).
- rewrite Hv. split; [apply retiring_refl|]. by intros p u ?%elem_of_nil.
- intros done p todo [] s1 Hl [Hr Hs]. destruct (Hps p) as (u & Hu & Hb & Hd); [set_solver|].
  unfold delete_promise. destruct (deleting p) eqn:Hdp.
  + apply wp_ret. split; [done|]. apply seen_to_snoc; [done|]. intros u' Hu'.
    destruct (ret_from _ _ _ Hr _ _ Hu') as (u2 & Hu2 & [->|(_ & t & ->)]); [congruence|apply deleting_mark].
  + apply wp_bind, wp_try, wp_Delete.
    * intros old t s2 Hold Hv2. apply wp_ret. rewrite Hv2. change (key (encode_promise p)) with (key p) in *.
      change (coll (view s1)) with (c_promises (view s1)) in *.
      split; [by eapply retiring_delete|]. apply seen_to_snoc; [by apply seen_to_delete|].
      intros u'. apply deleted_gone_or_marked.
    * intros e s2 Hv2 _. apply wp_fail. cbn. by rewrite Hv2.
- done.
Qed.

(** What a reconciliation does for a release that is going away. *)
Definition retired rel (c c' : Cluster) : Prop :=
  retiring rel c c' ∨
  (∀ k u, c_promises c !! k = Some u → ¬ belongs rel u) ∧
  ∃ m, c' = set_coll m c ∧ ∀ k, k ≠ key rel → m !! k = c_releases c !! k.

Lemma wp_delete_release rel s :
  keyed (c_promises (view s)) →
  wp (delete rel) (post
    (λ r s', retired rel (view s) (view s') ∧
       (r = defaultRequeue → ∀ k u, c_promises (view s') !! k = Some u → belongs rel u → deleting u = true))
    (λ _ s', retired rel (view s) (view s'))) s.
Proof.
intros Hkp. unfold delete. destruct (ContainsFinalizer _ _); cbn [negb].
2:{ apply wp_ret. split; [left; apply retiring_refl|done]. }
apply wp_bind, wp_try, (wp_ListPromises _ (<[promiseReleaseNameLabel := GetName rel]> ∅));
  [apply selector_from_set| |intros e s1 Hv1; apply wp_fail; left; rewrite Hv1; apply retiring_refl].
intros ps us s1 Hv1 Hd Hus. destruct ps as [|p ps'].
- assert (∀ k u, c_promises (view s) !! k = Some u → ¬ belongs rel u) as Hnone.
  { intros k u Hu Hb. destruct (decode_promises_all us [] u Hd) as (? & ?%elem_of_nil & _); [|done].
    apply Hus. eauto. }
  apply wp_bind, wp_try, wp_Update.
  + intros old gen s2 Hold Hv2. apply wp_ret. split; [|done]. right. split; [done|]. rewrite Hv1 in Hv2.
    eexists. split; [exact Hv2|]. intros k Hk. unfold put_or_reap. case_match;
      [by rewrite lookup_delete_ne|by rewrite lookup_insert_ne].
  + intros e s2 Hv2. apply wp_fail. left. cbn. rewrite Hv2, Hv1. apply retiring_refl.
- apply wp_bind. eapply wp_mono; [apply (wp_delete_promises rel _ s); [done|]|].
  + intros q Hq. destruct (proj1 (decode_promises_spec _ _ Hd q) Hq) as (u & Hu & Hdq).
    apply Hus in Hu as [Hb [k Hk]]. exists u. rewrite (decode_promise_key _ _ Hdq), (Hkp _ _ Hk).
    unfold deleting. by rewrite (decode_promise_meta _ _ Hdq).
  + intros [[]|e|] s2 Hs2; [|by left|done]. destruct Hs2 as [Hr Hs]. apply wp_ret. split; [by left|].
    intros _ k u' Hu' Hb'. destruct (ret_from _ _ _ Hr _ _ Hu') as (u & Hu & [->|(_ & t & ->)]); [|apply deleting_mark].
    destruct (decode_promises_all us (p :: ps') u Hd) as (q & Hq & Hdq); [apply Hus; eauto|].
    apply (Hs q); [done|]. by rewrite (decode_promise_key _ _ Hdq), (Hkp _ _ Hu).
Qed.

(** C13: When a release is being deleted, its reconciliation requests the deletion of Promises
    labelled with it and touches no other Promise; the release itself is written to (and its
    finalizer taken away) only when no stored Promise is labelled with it.  And when the clean-up
    asks to be called again, every Promise of the release that is left is being deleted. *)
Theorem release_outlives_its_promises k rel s
    (Hrel : c_releases (view s) !! k = Some rel) (Hdel : deleting rel = true)
    (Hkp : keyed (c_promises (view s))) :
  wp (Reconcile k) (post (λ _ s', retired rel (view s) (view s')) (λ _ s', retired rel (view s) (view s'))) s ∧
  wp (delete rel) (post (λ r s', r = defaultRequeue →
    ∀ k u, c_promises (view s') !! k = Some u → belongs rel u → deleting u = true) (λ _ _, True)) s.
Proof.
split.
- apply wp_bind, wp_try, wp_Get.
  + intros rel' s1 Hv1 Hrel'. change (c_releases (view s) !! k = Some rel') in Hrel'.
    assert (rel' = rel) as -> by congruence. rewrite Hdel. rewrite <-Hv1 in Hkp |- *.
    eapply wp_mono; [by apply wp_delete_release|]. by intros [r|e|] s2; [intros [? _]|..].
  + intros e s1 Hv1 _. destruct (IsNotFound e); apply wp_ret; left; rewrite Hv1; apply retiring_refl.
- eapply wp_mono; [by apply wp_delete_release|]. by intros [r|e|] s2; [intros [_ ?]|..].
Qed.
End release.
