(* ===== verification/HealthRecord.v ===== *)
(** * Health records

    [internal/controller/healthrecord_controller.go]: what a health check found about a
    resource request, copied into the status of the request.  The requests are those of the
    Promise the record names. *)

From S2P Require Import Prelude GoLib Meta Api Kube Client Shared Promise PromiseStore.

(** [json.Unmarshal] into an [interface{}] *)
Class DetailsLib := {
  json_Unmarshal : string → error + JSON;
}.

Module HealthRecordReconciler.
Section controller.
Context {S : Type} `{World S, Lib, PromiseLib, PromiseCodec, DetailsLib}.

Definition ignoreNotFound (err : error) : M S Result :=
  if IsNotFound err then ret noRequeue else ret defaultRequeue.

Definition getResourceRequest (healthRecord : HealthRecord) : M S Unstructured :=
  Get (rref_namespace (hr_resourceRef (r_spec healthRecord)), rref_name (hr_resourceRef (r_spec healthRecord))).

Definition fireEvent (healthRecord : HealthRecord) (resReq : Unstructured) : M S unit :=
  let state := hr_state (r_spec healthRecord) in
  let message := "Health state is " +:+ state in
  if bool_decide (state ≠ "healthy") && bool_decide (state ≠ "ready")
  then Eventf resReq EventTypeWarning "HealthRecord" message
  else Eventf resReq EventTypeNormal "HealthRecord" message.

(** [fields["state"].(string)], empty when it is missing or no string. *)
Definition state_field (fields : list (string * JSON)) : string :=
  match list_find (λ f, f.1 = "state") fields with Some (_, (_, JStr st)) => st | _ => "" end.

(** The health record of the status so far is taken for a map without looking. *)
Definition getInitialHealthRecordState (status : gmap string JSON) : outcome string :=
  match status !! "healthRecord" with
  | None => Ok ""
  | Some (JObj fields) => Ok (state_field fields)
  | Some _ => Panicked
  end.

Definition health_data (healthRecord : HealthRecord) : error + JSON :=
  let fields := [("state", JStr (hr_state (r_spec healthRecord)));
                 ("lastRun", JInt (hr_lastRun (r_spec healthRecord)))] in
  match hr_details (r_spec healthRecord) with
  | None => inr (JObj fields)
  | Some raw =>
      match json_Unmarshal raw with
      | inl err => inl err
      | inr details => inr (JObj (fields ++ [("details", details)]))
      end
  end.

Definition updateResourceStatus (resReq : Unstructured) (healthRecord : HealthRecord) : M S unit :=
  let status : gmap string JSON := default ∅ (r_status resReq) in
  let! initialHealthRecordState := lift (getInitialHealthRecordState status) in
  let! healthData := of_sum (health_data healthRecord) in
  let resReq := set_status (Some (<["healthRecord" := healthData]> status) : UnstructuredStatus) resReq in
  (if bool_decide (initialHealthRecordState ≠ hr_state (r_spec healthRecord))
   then fireEvent healthRecord resReq else ret tt) ;;;
  StatusUpdate resReq ;;;
  ret tt.

Definition Reconcile (req : Key) : M S Result :=
  let! g := try (Get (Sp:=HealthRecordData) (St:=unit) req) in
  match g with
  | inl err => ignoreNotFound err
  | inr healthRecord =>
      let! p := try (GetPromise ("", hr_promiseRef (r_spec healthRecord))) in
      match p with
      | inl err => ignoreNotFound err
      | inr promise =>
          let! a := try (lift (GetAPI promise)) in
          match a with
          | inl _ => ret defaultRequeue
          | inr _ =>
              let! r := try (getResourceRequest healthRecord) in
              match r with
              | inl _ => ret defaultRequeue
              | inr resReq => updateResourceStatus resReq healthRecord ;;; ret noRequeue
              end
          end
      end
  end.
End controller.
End HealthRecordReconciler.

Section facts.
Import HealthRecordReconciler.
Context {S : Type} `{World S, Viewed S, !WorldLaws S, Lib, PromiseLib, PromiseCodec, !PromiseCodecLaws, DetailsLib}.
Implicit Types (s : S) (hr : HealthRecord) (u : Unstructured).

Definition request_key hr : Key :=
  (rref_namespace (hr_resourceRef (r_spec hr)), rref_name (hr_resourceRef (r_spec hr))).

(** The request with the health data in its status, and nothing else changed. *)
Definition with_health (data : JSON) u : Unstructured :=
  set_status (Some (<["healthRecord" := data]> (default ∅ (r_status u)))) u.

(** The request whose status holds a health record that is no map. *)
Definition odd_health u : Prop :=
  ∃ j, default ∅ (r_status u : UnstructuredStatus) !! "healthRecord" = Some j ∧ ∀ fields, j ≠ JObj fields.

Lemma wp_fireEvent hr u (Q : outcome unit → S → Prop) s :
  (∀ s', view s' = view s → Q (Ok tt) s') → wp (fireEvent hr u) Q s.
Proof. intros HQ. unfold fireEvent. cbv zeta. by case_match; apply wp_Eventf. Qed.

Lemma getInitial_panics u : getInitialHealthRecordState (default ∅ (r_status u)) = Panicked → odd_health u.
Proof.
unfold getInitialHealthRecordState, odd_health. destruct (default ∅ _ !! "healthRecord") as [[]|]; try done; eauto.
Qed.

Lemma wp_updateResourceStatus hr u s :
  c_parents (view s) !! key u = Some u →
  wp (updateResourceStatus u hr) (λ r s',
    match r with
    | Ok _ => ∃ data, health_data hr = inr data ∧
        view s' = set_coll (<[key u := with_health data u]> (c_parents (view s))) (view s)
    | Fail _ => view s' = view s
    | Panicked => view s' = view s ∧ odd_health u
    end) s.
Proof.
intros Hu. unfold updateResourceStatus. cbv zeta. apply wp_bind, wp_lift.
destruct (getInitialHealthRecordState _) as [st|e|] eqn:Hi; [|done|by apply getInitial_panics in Hi].
apply wp_bind. unfold of_sum. destruct (health_data hr) as [e|data]; [by apply wp_fail|]. apply wp_ret, wp_bind.
assert (∀ s1, view s1 = view s → wp (StatusUpdate (with_health data u) ;;; ret tt) (λ r s',
  match r with
  | Ok _ => ∃ data0, inr data = inr (A:=error) data0 ∧
      view s' = set_coll (<[key u := with_health data0 u]> (c_parents (view s))) (view s)
  | Fail _ => view s' = view s
  | Panicked => view s' = view s ∧ odd_health u
  end) s1) as Hwrite.
{ intros s1 Hv1. apply wp_bind, wp_StatusUpdate; rewrite Hv1; [|done]. intros old s2 Hold Hv2. apply wp_ret.
  change (c_parents (view s) !! key u = Some old) in Hold. assert (old = u) as -> by congruence. eauto. }
case_bool_decide; [apply wp_fireEvent; auto|apply wp_ret; auto].
Qed.

(** C18: A health record is copied into [status.healthRecord] of the request it refers to, with
    its state, the time of its run and its details, and the rest of the cluster and of that
    request stays as it is; otherwise nothing is written.  The controller then asks to be called
    again if something could not be read, gives up silently only if the record or its Promise is
    gone, and panics only on a definition without versions or when the request already has a
    health record that is no map. *)
Theorem health_record_copied k s
    (Hkp : keyed (c_parents (view s))) :
  wp (HealthRecordReconciler.Reconcile k) (λ r s',
    (∃ hr u data, c_healthrecords (view s) !! k = Some hr ∧ c_parents (view s) !! request_key hr = Some u ∧
       health_data hr = inr data ∧ r = Ok noRequeue ∧
       view s' = set_coll (<[request_key hr := with_health data u]> (c_parents (view s))) (view s)) ∨
    view s' = view s ∧
      match r with
      | Ok res => res = defaultRequeue ∨ (res = noRequeue ∧ (c_healthrecords (view s) !! k = None ∨
          ∃ hr, c_healthrecords (view s) !! k = Some hr ∧
                typed_promises (view s) !! ("", hr_promiseRef (r_spec hr)) = None))
      | Fail _ => ∃ hr u, c_healthrecords (view s) !! k = Some hr ∧ c_parents (view s) !! request_key hr = Some u
      | Panicked => ∃ hr, c_healthrecords (view s) !! k = Some hr ∧
          ((∃ p, typed_promises (view s) !! ("", hr_promiseRef (r_spec hr)) = Some p ∧ GetAPI p = Panicked) ∨
           (∃ u, c_parents (view s) !! request_key hr = Some u ∧ odd_health u))
      end) s.
Proof.
apply wp_bind, wp_try, wp_Get.
2:{ intros e s1 Hv1 Hn. unfold ignoreNotFound. destruct (IsNotFound e); apply wp_ret; right; (split; [done|]); auto. }
intros hr s1 Hv1 Hhr. change (c_healthrecords (view s) !! k = Some hr) in Hhr.
apply wp_bind, wp_try, wp_GetPromise_missing; rewrite Hv1.
2:{ intros e s2 Hv2 Hn. unfold ignoreNotFound. destruct (IsNotFound e); apply wp_ret; right; (split; [done|]);
      [right; split; [done|]; right; eauto|by left]. }
intros p s2 Hv2 Hp. apply wp_bind, wp_try, wp_lift.
destruct (GetAPI p) as [[gvk crd]|e|] eqn:Hapi; [| |right; split; [done|]; eauto 10].
2:{ apply wp_ret. right. split; [done|]. by left. }
apply wp_bind, wp_try, wp_Get; rewrite Hv2.
2:{ intros e s3 Hv3 _. apply wp_ret. right. split; [done|]. by left. }
intros u s3 Hv3 Hu. change (c_parents (view s) !! request_key hr = Some u) in Hu.
assert (key u = request_key hr) as Hk by by apply Hkp. apply wp_bind.
eapply wp_mono; [apply (wp_updateResourceStatus hr u); rewrite Hv3, Hk; done|]. rewrite Hv3, Hk.
intros [[]|e|] s4 Hs4.
- destruct Hs4 as (data & Hd & Hv4). apply wp_ret. left. by exists hr, u, data.
- right. eauto.
- destruct Hs4 as [Hv4 Hodd]. right. split; [done|]. exists hr. split; [done|]. right. eauto.
Qed.
End facts.
