(* ===== verification/ReleaseWitness.v ===== *)
(** * Releases and health records on concrete objects *)

From S2P Require Import Prelude GoLib Codec Meta Api Kube Client Sim SimPromise Shared Promise PromiseStore Frame.
From S2P Require Import FactoryWitness Webhooks PromiseRelease PromiseReleaseFacts HealthRecord.
Import PromiseReleaseReconciler.
#[local] Existing Instances Sim_PromiseLib.

(** ** A server with one Promise per version *)
Definition release_of (v : string) : Promise := SetLabels {[PromiseVersionLabel := v]} redis.

(** The path of a URL is the body of the response; a body names a version. *)
#[global] Instance Sim_HTTP : HTTP Sim := {|
  Request := string * string;
  http_NewRequest url := inr (url, "");
  Header_Add _ v r := (r.1, v);
  http_Do r s := (inr (if bool_decide (r.1 = "") then 404%Z else StatusOK, r.1), s);
  yaml_Decode body := if bool_decide (body = "") then inl (ErrorMsg "EOF")
    else inr (encode_promise (if bool_decide (body = "none") then redis else release_of body), "");
  FromUnstructured := decode_promise;
|}.
#[global] Instance Sim_fetcher_laws : PromiseFetcherLaws Sim := url_fetcher_laws (λ _ _, eq_refl).
#[global] Instance Sim_ReleaseLib : ReleaseLib := {| AddAnnotations existing desired := desired ∪ existing |}.

Lemma fetched_promise_is_single_witness :
  ∃ p, (URLFetcher.FromURL "v1" "token" (sim_of empty_cluster)).1 = Ok p ∧
    FromUnstructured (encode_promise (release_of "v1")) = inr p.
Proof.
pose proof (fetched_promise_is_single (S:=Sim) (λ _ _, eq_refl) "v1" "token" (sim_of empty_cluster)) as Hwp.
read_off Hwp. destruct Hwp as (p & Hr & _ & _ & Hp). exists p. split; [exact Hr|].
destruct (Hp p eq_refl) as (req & body & u & rest & [= <-] & Hdo & Hy & _ & Hu & _).
vm_compute in Hdo. injection Hdo as <-. injection Hy as <- _. exact Hu.
Defined.

(** ** Installing *)
Definition rel_meta (fs : list string) : ObjectMeta := om_set_finalizers fs (new_meta "" "redis-release").
Definition release (m : ObjectMeta) (version url : string) : PromiseRelease :=
  mkResource m {| prl_version := version;
                  prl_sourceRef := {| src_type := TypeHTTP; src_url := url; src_secretRef := None |} |}
    empty_release_status.

Definition rel_sim (r : PromiseRelease) (ps : list Promise) : Sim :=
  sim_of (set_coll (of_list [r])
    (set_coll (Collection:=promises_coll) (of_list (encode_promise <$> ps)) empty_cluster)).

Definition after (s : Sim) : Sim := (Reconcile (S:=Sim) ("", "redis-release") s).2.
Definition reported (s : Sim) : option bool :=
  reports_installed <$> c_releases (view s) !! ("", "redis-release").
Definition versions (s : Sim) : list (option string) :=
  (λ u : Unstructured, GetLabels u !! PromiseVersionLabel) <$> map_values (c_promises (view s)).

Definition ready : list string := [promiseCleanupFinalizer].

Lemma release_installs_its_version_witness :
  let r := release (rel_meta ready) "v1" "v1" in
  let s := rel_sim r [] in
  release_step (S:=Sim) r (view s) (view (after s)) ∧
  reported (after s) = Some true ∧ versions (after s) = [Some "v1"] ∧
  versions (after (rel_sim (release (rel_meta ready) "v2" "v1") [])) = [].
Proof.
cbv zeta. set (r := release (rel_meta ready) "v1" "v1"). set (s := rel_sim r []).
split; [|split_and!; vm_compute; reflexivity].
assert (keyed (c_promises (view s))) as Hkp by exact (of_list_keyed []).
assert (no_zombies (c_promises (view s))) as Hz by (apply (of_list_no_zombies []); constructor).
pose proof (release_installs_its_version (S:=Sim) ("", "redis-release") r s eq_refl eq_refl
  (of_list_keyed [r]) Hkp Hz) as Hwp.
read_off Hwp. destruct Hwp as (x & _ & Hs). exact Hs.
Defined.

(** ** Deleting *)
Definition dying_meta : ObjectMeta :=
  om_set_system "" (Some 5%Z) 1 1 (rel_meta ready).
Definition dying : PromiseRelease := release dying_meta "v1" "v1".
Definition its_promise (name : string) : Promise :=
  mkResource (om_set_labels {[promiseReleaseNameLabel := "redis-release"]}
    (om_set_finalizers ["kratix.io/x"] (new_meta "" name))) (r_spec redis) (r_status redis).

Definition left_promises (s : Sim) : list (string * bool) :=
  (λ u : Unstructured, (GetName u, deleting u)) <$> map_values (c_promises (view s)).

Definition unrelated : Promise := mkResource (new_meta "" "unrelated") (r_spec redis) (r_status redis).

Lemma release_outlives_its_promises_witness :
  let s := rel_sim dying [its_promise "redis"; unrelated] in
  retired dying (view s) (view (after s)) ∧
  (∀ k u, c_promises (view (delete (S:=Sim) dying s).2) !! k = Some u → belongs dying u → deleting u = true) ∧
  c_releases (view (after s)) !! ("", "redis-release") = Some dying ∧
  c_releases (view (after (rel_sim dying [unrelated]))) !! ("", "redis-release") = None.
Proof.
cbv zeta. set (s := rel_sim dying [its_promise "redis"; unrelated]).
assert (keyed (c_promises (view s))) as Hkp by exact (of_list_keyed _).
assert (c_releases (view s) !! ("", "redis-release") = Some dying) as Hrel by (vm_compute; reflexivity).
destruct (release_outlives_its_promises (S:=Sim) ("", "redis-release") dying s Hrel eq_refl Hkp) as [Hr Hd].
read_off Hr. destruct Hr as (x & _ & Hr). read_off Hd. destruct Hd as (y & Hy & Hd).
split; [exact Hr|]. split; [|split; vm_compute; reflexivity].
apply Hd. assert ((delete (S:=Sim) dying s).1 = Ok defaultRequeue) as He by (vm_compute; reflexivity). congruence.
Defined.

(** ** Health records *)
#[global] Instance Sim_Details : DetailsLib := {| json_Unmarshal s := inr (JStr s) |}.

Definition record : HealthRecord := mkResource (new_meta "default" "check")
  {| hr_promiseRef := "redis";
     hr_resourceRef := {| rref_name := "db"; rref_namespace := "default"; rref_generation := 1 |};
     hr_state := "degraded"; hr_lastRun := 7; hr_details := Some "slow" |} tt.

Definition db_with (st : UnstructuredStatus) : Unstructured := set_status st db.
Definition health_sim (st : UnstructuredStatus) : Sim :=
  sim_of (set_coll (of_list [record]) (set_coll (Collection:=parents_coll) (of_list [db_with st])
    (set_coll (Collection:=promises_coll) (of_list [encode_promise redis]) empty_cluster))).
Definition check_run (st : UnstructuredStatus) := HealthRecordReconciler.Reconcile ("default", "check") (health_sim st).

Lemma health_record_copied_witness :
  let s := health_sim (Some {["message" := JStr "running"]}) in
  let data := JObj [("state", JStr "degraded"); ("lastRun", JInt 7); ("details", JStr "slow")] in
  view (check_run (Some {["message" := JStr "running"]})).2 =
    set_coll (<[("default", "db") := with_health data (db_with (Some {["message" := JStr "running"]}))]>
      (c_parents (view s))) (view s) ∧
  (view (check_run (Some {["message" := JStr "running"]})).2 ≠ view s).
Proof.
cbv zeta. set (s := health_sim (Some {["message" := JStr "running"]})).
assert (keyed (c_parents (view s))) as Hk by exact (of_list_keyed [_]).
pose proof (health_record_copied ("default", "check") s Hk) as Hwp.
assert (view (check_run (Some {["message" := JStr "running"]})).2 ≠ view s) as Hne.
{ intros Hx.
  apply (f_equal (λ c, (λ u : Unstructured, default ∅ (r_status u) !! "healthRecord") <$> c_parents c !! ("default", "db"))) in Hx.
  vm_compute in Hx. discriminate Hx. }
split; [|exact Hne]. read_off Hwp. destruct Hwp as (x & _ & [Hw|[Hv _]]); [|by destruct Hne].
destruct Hw as (hr & u & data & Hhr & Hu & Hd & _ & Hv).
vm_compute in Hhr. injection Hhr as <-. vm_compute in Hd. injection Hd as <-.
assert (u = db_with (Some {["message" := JStr "running"]})) as -> by (vm_compute in Hu; by injection Hu as <-).
exact Hv.
Defined.

(** ** Surprises *)

(** A health record in the status that is no map stops the controller. *)
Lemma odd_health_panics : (check_run (Some {["healthRecord" := JStr "ok"]})).1 = Panicked.
Proof. vm_compute. reflexivity. Qed.

(** The webhook announces that a release without a version will not be installed; the controller
    fills the version in and installs it. *)
Lemma warned_release_is_installed :
  let r := release (rel_meta ready) "" "v1" in
  (∃ w, (PromiseReleaseWebhook.ValidateCreate (S:=Sim) r (rel_sim r [])).1 = Ok [w]) ∧
  reported (after (after (rel_sim r []))) = Some true ∧ versions (after (after (rel_sim r []))) = [Some "v1"].
Proof. cbv zeta. split; [eexists|split]; vm_compute; reflexivity. Qed.

(** A Promise without a version label counts as installed for a release without a version. *)
Lemma unversioned_counts_as_installed :
  reported (after (rel_sim (release (rel_meta ready) "" "v1") [its_promise "redis"])) = Some true.
Proof. vm_compute. reflexivity. Qed.
