(* ===== verification/DestinationFacts.v ===== *)
(** * Properties of the Destination controller *)

From S2P Require Import Prelude GoLib Codec Meta Api Kube Client Shared Purge Scheduler.
From S2P Require Import StateStore WorkController WorkPlacementController DestinationController.
From S2P Require Import Sim SimStore.
From Stdlib Require Import Ascii.
Import DestinationReconciler.

Section facts.
Context {S : Type} `{World S, Viewed S, !WorldLaws S, Lib, !LibLaws, CanaryLib}.
Context `{!StateStoreWriter S, !StoredFiles S, !StateStoreLaws S}.
Implicit Types s : S.

Definition dests s : gmap Key Destination := c_destinations (view s).
Definition dest_cond (d : Destination) (t : string) : option string :=
  cond_status <$> FindStatusCondition (dst_conditions (r_status d)) t.

(** A destination as it was, its status aside. *)
Definition status_only (d d' : Destination) : Prop := ∃ st, d' = set_status st d.

(** ** Status *)

Lemma wp_updateStatus d c et er em (Q : outcome unit → S → Prop) s :
  dests s !! key d = Some d →
  (∀ d' s', view s' = set_coll (<[key d := d']> (c_destinations (view s))) (view s) →
     (∀ w, files w s' = files w s) → status_only d d' →
     dest_cond d' (cond_type c) = Some (cond_status c) → Q (Ok tt) s') →
  (∀ e s', view s' = view s → (∀ w, files w s' = files w s) → Q (Fail e) s') →
  wp (updateStatus d c et er em) Q s.
Proof.
intros Hst HO HE. unfold updateStatus, setStatusCondition.
apply wp_bind, wp_bind, wp_Now_files. intros now s1 Hv1 Hf1. apply wp_ret.
pose proof (set_find_same now (dst_conditions (r_status d)) c) as (x & Hx & _ & Hxs & _).
pose proof (set_unchanged_eq now (dst_conditions (r_status d)) c) as Hun.
destruct (SetStatusCondition now (dst_conditions (r_status d)) c) as [cs []]; cbn [fst snd] in *.
- apply wp_bind, wp_Eventf_files. intros s2 Hv2 Hf2.
  apply wp_bind, wp_StatusUpdate_files.
  + intros old s3 Hold Hv3 Hf3. change (key (set_status _ d)) with (key d) in Hold, Hv3.
    assert (old = d) as ->.
    { rewrite Hv2, Hv1 in Hold. unfold dests in Hst. cbn in Hold. congruence. }
    apply wp_ret, (HO (set_status {| dst_conditions := cs |} d)).
    * by rewrite Hv3, Hv2, Hv1.
    * intros w. by rewrite Hf3, Hf2, Hf1.
    * by eexists.
    * unfold dest_cond. cbn. rewrite Hx. cbn. by rewrite Hxs.
  + intros e s3 Hv3 Hf3. apply HE; [congruence|]. intros w. by rewrite Hf3, Hf2, Hf1.
- specialize (Hun eq_refl). subst cs. apply wp_ret, (HO d).
  + rewrite Hv1. unfold dests in Hst. rewrite insert_id by done.
    symmetry. apply (set_coll_coll (Collection:=destinations_coll)).
  + done.
  + exists (r_status d). by destruct d.
  + unfold dest_cond. rewrite Hx. cbn. by rewrite Hxs.
Qed.

Lemma wp_stamped_files t st r m (Q : outcome Condition → S → Prop) s :
  (∀ now s', view s' = view s → (∀ w, files w s' = files w s) →
     Q (Ok {| cond_type := t; cond_status := st; cond_reason := r;
              cond_message := m; cond_lastTransitionTime := now |}) s') →
  wp (stamped t st r m) Q s.
Proof. intros HO. apply wp_bind, wp_Now_files. intros now s' Hv Hf. by apply wp_ret, HO. Qed.

(** The Ready condition after the controller reported [err]. *)
Lemma wp_updateReadyCondition d err (Q : outcome unit → S → Prop) s :
  dests s !! key d = Some d →
  (∀ d' s', view s' = set_coll (<[key d := d']> (c_destinations (view s))) (view s) →
     (∀ w, files w s' = files w s) → status_only d d' →
     dest_cond d' "Ready" =
       Some (match err with None => ConditionTrue | Some _ => ConditionFalse end) → Q (Ok tt) s') →
  (∀ e s', view s' = view s → (∀ w, files w s' = files w s) → Q (Fail e) s') →
  wp (updateReadyCondition d err) Q s.
Proof.
intros Hst HO HE. unfold updateReadyCondition.
assert (∀ s1 now t, view s1 = view s → (∀ w, files w s1 = files w s) → ∀ st r m et er em,
  t = "Ready" → st = match err with None => ConditionTrue | Some _ => ConditionFalse end →
  wp (updateStatus d {| cond_type := t; cond_status := st; cond_reason := r; cond_message := m;
                        cond_lastTransitionTime := now |} et er em) Q s1) as Hup.
{ intros s1 now t Hv Hf st r m et er em -> ->. apply wp_updateStatus.
  - unfold dests. by rewrite Hv.
  - intros d' s' Hv' Hf'. rewrite Hv in Hv'. apply HO; [done|]. intros w. by rewrite Hf', Hf.
  - intros e s' Hv' Hf'. apply HE; [congruence|]. intros w. by rewrite Hf', Hf. }
destruct err; apply wp_bind, wp_stamped_files; intros now s1 Hv1 Hf1; by apply Hup.
Qed.

(** ** Writing the test documents *)

(** What the writer sees after the test documents were written. *)
Definition canaries_written (w : Writer) (mode : string) s : Prop :=
  files w s !! path_in "" (canary_path dependenciesDir canaryNamespacePath mode) =
    Some (marshal_Namespace "kratix-worker-system") ∧
  is_Some (files w s !! path_in "" (canary_path resourcesDir canaryConfigMapPath mode)).

Lemma canary_paths_differ mode :
  path_in "" (canary_path dependenciesDir canaryNamespacePath mode) ≠
  path_in "" (canary_path resourcesDir canaryConfigMapPath mode).
Proof. unfold canary_path. by case_bool_decide. Qed.

Lemma update_one dir x del f f' :
  update_spec dir [x] del f f' → f' !! path_in dir (wl_filepath x) = Some (wl_content x).
Proof. intros U. apply (us_written _ _ _ _ _ U [] x []); [done|set_solver]. Qed.

Lemma wp_writeTestFiles w mode (Q : outcome unit → S → Prop) s :
  (∀ s', view s' = view s → canaries_written w mode s' → Q (Ok tt) s') →
  (∀ e s', view s' = view s → Q (Fail e) s') →
  wp (writeTestFiles w mode) Q s.
Proof.
intros HO HE. unfold writeTestFiles, createDependenciesPathWithExample, createResourcePathWithExample.
apply wp_bind, wp_bind, wp_UpdateFiles; [|done]. intros v1 s1 Hv1 U1. apply wp_ret.
apply wp_bind, wp_UpdateFiles; [|intros; apply HE; congruence].
intros v2 s2 Hv2 U2. apply wp_ret, HO; [congruence|]. split.
- rewrite (us_untouched _ _ _ _ _ U2).
  + exact (update_one _ _ _ _ _ U1).
  + intros Hin. apply list_elem_of_singleton in Hin. by apply canary_paths_differ in Hin.
  + done.
  + set_solver.
- eexists. exact (update_one _ _ _ _ _ U2).
Qed.

(** ** Reconciling a live destination *)

(** The finalizers are as the clean-up policy wants them. *)
Definition finalizers_settled (d : Destination) : Prop := needsFinalizerUpdate d = (false, d).

(** A destination reports Ready truthfully.  When a destination that is not
    being deleted and whose finalizers are settled is reconciled successfully, it
    is stored with Ready=True and otherwise unchanged, and the test documents
    are in its state store, or the root copies of them are gone when they are
    disabled.  When the writer or a write fails and the failure can be recorded,
    it is stored with Ready=False.  Nothing else in the cluster changes, and the
    controller does not panic, given that a git store refers to a secret. *)
Theorem destination_ready_truthful d s :
  dests s !! key d = Some d → deleting d = false → finalizers_settled d →
  secured (ds_stateStoreRef (r_spec d)) (view s) →
  let stored d' s' := view s' = set_coll (<[key d := d']> (c_destinations (view s))) (view s) ∧
                      status_only d d' in
  wp (reconcileStored d)
    (post (λ r s', r = noRequeue ∧ ∃ d', stored d' s' ∧ dest_cond d' "Ready" = Some ConditionTrue ∧
             ∃ w, if ds_initWorkloadsEnabled (r_spec d)
                  then canaries_written w (GetFilepathMode d) s'
                  else ∀ p, p ∈ [canaryNamespacePath; canaryConfigMapPath] →
                         files w s' !! path_in "" p = None)
          (λ e s', view s' = view s ∨
             ∃ d', stored d' s' ∧ dest_cond d' "Ready" = Some ConditionFalse)) s.
Proof.
intros Hst Hdel Hfin Hsec stored. subst stored. cbv beta. unfold reconcileStored. rewrite Hfin, Hdel. cbv zeta.
apply wp_bind, wp_try, wp_newWriter_secured; [done|..].
2:{ intros e s1 Hv1 _. apply wp_bind, wp_updateReadyCondition; [unfold dests; by rewrite Hv1| |].
  - intros d' s2 Hv2 _ Hso Hc. apply wp_fail. right. exists d'. rewrite Hv1 in Hv2. done.
  - intros e' s2 Hv2 _. left. congruence. }
intros w s1 Hv1 _. assert (dests s1 !! key d = Some d) as Hst1 by (unfold dests; by rewrite Hv1).
destruct (ds_initWorkloadsEnabled (r_spec d)); cbn [negb].
- apply wp_bind, wp_try, wp_writeTestFiles.
  + intros s2 Hv2 Hcan. apply wp_bind, wp_updateReadyCondition; [unfold dests; by rewrite Hv2| |].
    * intros d' s3 Hv3 Hf3 Hso Hc. apply wp_ret. split; [done|]. exists d'.
      split; [split; [by rewrite Hv3, Hv2, Hv1|done]|]. split; [done|]. exists w. unfold canaries_written.
      by rewrite Hf3.
    * intros e s3 Hv3 _. left. congruence.
  + intros e s2 Hv2. apply wp_bind, wp_updateReadyCondition; [unfold dests; by rewrite Hv2| |].
    * intros d' s3 Hv3 _ Hso Hc. apply wp_fail. right. exists d'.
      split; [|done]. split; [by rewrite Hv3, Hv2, Hv1|done].
    * intros e' s3 Hv3 _. left. congruence.
- unfold deleteInitWorkloads. apply wp_bind, wp_bind, wp_try, wp_UpdateFiles.
  2:{ intros e s2 Hv2. apply wp_fail. left. congruence. }
  intros v s2 Hv2 U. apply wp_ret. unfold setConditionReadyInitWorkloads.
  apply wp_bind, wp_bind, wp_stamped_files. intros now s3 Hv3 Hf3.
  apply wp_updateStatus; [unfold dests; by rewrite Hv3, Hv2| |].
  + intros d' s4 Hv4 Hf4 Hso Hc. apply wp_ret. split; [done|]. exists d'.
    split; [split; [by rewrite Hv4, Hv3, Hv2, Hv1|done]|]. split; [done|]. exists w. intros p Hp.
    rewrite Hf4, Hf3. apply (us_deleted _ _ _ _ _ U); [done|done|set_solver].
  + intros e s4 Hv4 _. left. congruence.
Qed.

(** Disabling the test documents does not remove the ones written below the
    metadata directories: a nested destination keeps both of its documents. *)
Theorem nested_canaries_survive_disabling w s :
  wp (deleteInitWorkloads w)
    (post (λ _ s', ∀ dir path, (dir, path) ∈ [(dependenciesDir, canaryNamespacePath);
                                              (resourcesDir, canaryConfigMapPath)] →
             let p := path_in "" (canary_path dir path FilepathModeNestedByMetadata) in
             files w s' !! p = files w s !! p) (λ _ s', view s' = view s)) s.
Proof.
unfold deleteInitWorkloads. apply wp_bind, wp_try, wp_UpdateFiles; [|intros; by apply wp_fail].
intros v s1 Hv U. apply wp_ret. intros dir path Hin. cbv zeta.
apply (us_untouched _ _ _ _ _ U); [set_solver|done|]. intros _.
set_unfold in Hin. destruct Hin as [[= -> ->]|[[= -> ->]|[]]]; vm_compute; set_solver.
Qed.

(** ** Deletion *)

(** Both directories of the store are empty. *)
Definition contents_removed (w : Writer) s : Prop :=
  ∀ p, below dependenciesDir p = true ∨ below resourcesDir p = true → files w s !! p = None.

Lemma below_dependencies_not_resources p : below dependenciesDir p = true → near resourcesDir p = false.
Proof.
unfold below, near.
assert (Filepath.Clean dependenciesDir = "dependencies") as -> by (vm_compute; reflexivity).
assert (Filepath.Clean resourcesDir = "resources") as -> by (vm_compute; reflexivity).
destruct p as [|c p]; [done|]. unfold Strings.HasPrefix.
change ("dependencies" +:+ "/") with "dependencies/". cbn [String.prefix].
destruct (ascii_dec "d"%char c) as [<-|]; [|done]. by intros _.
Qed.

Lemma wp_deleteStateStoreContents w (Q : outcome unit → S → Prop) s :
  (∀ s', view s' = view s → contents_removed w s' → Q (Ok tt) s') →
  (∀ e s', view s' = view s → Q (Fail e) s') →
  wp (deleteStateStoreContents w) Q s.
Proof.
intros HO HE. unfold deleteStateStoreContents.
apply wp_bind, wp_UpdateFiles; [|done]. intros v1 s1 Hv1 U1.
apply wp_bind, wp_UpdateFiles; [|intros; apply HE; congruence]. intros v2 s2 Hv2 U2.
apply wp_ret, HO; [congruence|]. intros p [Hp|Hp].
- rewrite (us_untouched _ _ _ _ _ U2); [|set_solver|by intros _; apply below_dependencies_not_resources|done].
  apply (us_emptied _ _ _ _ _ U1); [done|done|set_solver].
- apply (us_emptied _ _ _ _ _ U2); [done|done|set_solver].
Qed.

End facts.

(** ** On concrete destinations *)

#[local] Instance Sim_Canary : CanaryLib := {|
  marshal_Namespace name := "namespace " +:+ name;
  marshal_ConfigMap k _ := "configmap " +:+ k.2 |}.

Definition destination_with (m : ObjectMeta) (cleanup : string) : Destination :=
  mkResource m
    {| ds_path := ""; ds_stateStoreRef := {| ssr_kind := "BucketStateStore"; ssr_name := "s" |};
       ds_strictMatchLabels := false;
       ds_filepath := {| fp_mode := ""; fp_filename := "" |}; ds_cleanup := cleanup;
       ds_initWorkloadsEnabled := true |}
    {| dst_conditions := [] |}.

Definition live_destination : Destination := destination_with (new_meta "" "d1") "none".
Definition dying_destination : Destination :=
  destination_with (om_set_system "u" (Some 5%Z) 1 1
    (om_set_finalizers [destinationCleanupFinalizer] (new_meta "" "d1"))) "all".

Definition destination_sim (d : Destination) : Sim :=
  sim_set_files {["dependencies/redis/a.yaml" := "a"; "resources/x.yaml" := "x"]} (sim_of {|
    c_works := ∅; c_workplacements := ∅; c_destinations := of_list [d];
    c_jobs := ∅; c_parents := ∅; c_serviceaccounts := ∅; c_configmaps := ∅; c_roles := ∅;
    c_rolebindings := ∅; c_clusterroles := ∅; c_clusterrolebindings := ∅;
  c_bucketstores := of_list [a_bucket]; c_gitstores := ∅; c_secrets := ∅; c_releases := ∅; c_healthrecords := ∅;
  c_promises := ∅; c_crds := ∅ |}).

Lemma destination_ready_truthful_witness :
  let s := destination_sim live_destination in
  let run := reconcileStored live_destination s in
  run.1 = Ok noRequeue ∧ canaries_written (tt : Writer) (GetFilepathMode live_destination) run.2.
Proof.
cbv zeta.
assert (dests (destination_sim live_destination) !! key live_destination = Some live_destination) as Hst
  by (vm_compute; reflexivity).
assert (finalizers_settled live_destination) as Hfin by (vm_compute; reflexivity).
pose proof (destination_ready_truthful live_destination (destination_sim live_destination)
  Hst eq_refl Hfin ltac:(discriminate)) as Hwp.
read_off Hwp. destruct Hwp as (r & Hr & -> & d' & _ & _ & w & Hw). destruct w.
split; [exact Hr|exact Hw].
Defined.

Lemma nested_canaries_survive_disabling_witness :
  let s := destination_sim live_destination in
  let s' := (deleteInitWorkloads (tt : Writer) s).2 in
  files (tt : Writer) s' !! "dependencies/kratix-canary-namespace.yaml" =
  files (tt : Writer) s !! "dependencies/kratix-canary-namespace.yaml".
Proof.
cbv zeta.
pose proof (nested_canaries_survive_disabling (tt : Writer) (destination_sim live_destination)) as Hwp.
read_off Hwp. destruct Hwp as (r & _ & Hp).
specialize (Hp dependenciesDir canaryNamespacePath ltac:(left)).
assert (path_in "" (canary_path dependenciesDir canaryNamespacePath FilepathModeNestedByMetadata) =
  "dependencies/kratix-canary-namespace.yaml") as E by (vm_compute; reflexivity).
cbv zeta in Hp. rewrite E in Hp. exact Hp.
Defined.

