(* ===== verification/SystemFrames.v ===== *)
(** * What each component may do to the cluster

    For any preorder [R] that contains the requests the API server accepts, every
    controller and every program of a pipeline moves the cluster along [R],
    however it ends. *)

From S2P Require Import Prelude GoLib Files Codec Meta Api Kube Client Shared ResourceUtil Promise.
From S2P Require Import PromiseStore WorkCreator StatusUpdater PipelineFactory Frame Workflow.
From S2P Require Import FactoryFacts DynamicController PromiseController Scheduler WorkController.
From S2P Require Import StateStore StateStoreController WorkPlacementController DestinationController.
From S2P Require Import PromiseRelease PromiseReleaseFacts HealthRecord.

Section system.
Context {S : Type} `{World S, Viewed S, !WorldLaws S, Lib, !LibLaws}.
Context (R : Cluster → Cluster → Prop) `{!PreOrder R}.
Context `{!Allowed R works_coll, !Allowed R workplacements_coll, !Allowed R destinations_coll}.
Context `{!Allowed R jobs_coll, !Allowed R parents_coll, !Allowed R promises_coll, !Allowed R crds_coll}.
Context `{!Allowed R serviceaccounts_coll, !Allowed R configmaps_coll, !Allowed R roles_coll}.
Context `{!Allowed R rolebindings_coll, !Allowed R clusterroles_coll, !Allowed R clusterrolebindings_coll}.
Context `{!Allowed R bucketstores_coll, !Allowed R gitstores_coll, !Allowed R releases_coll}.

Local Abbreviation fr m := (frames (S:=S) R m).

(** ** Helpers *)
Lemma frames_reads {A} (m : M S A) (P : S → A → Prop) : (∀ s, wp m (reads s (P s)) s) → fr m.
Proof. intros Hm s. eapply wp_mono; [apply Hm|]. intros r s' [Hv _]. by rewrite Hv. Qed.

Lemma frames_stamped t st r m : fr (stamped t st r m).
Proof. unfold stamped. frames. Qed.
Lemma frames_setStatusCondition cs c : fr (setStatusCondition cs c).
Proof. unfold setStatusCondition. frames. Qed.
Lemma frames_mark obj t st m r : fr (mark obj t st m r).
Proof. unfold mark, stamped, SetCondition. frames. Qed.
Lemma frames_getExistingWorks ns ls : fr (getExistingWorks ns ls).
Proof. unfold getExistingWorks. frames. Qed.
#[local] Hint Resolve frames_stamped frames_setStatusCondition frames_mark frames_getExistingWorks : frames.
Lemma frames_GetWork ns ls : fr (GetWork ns ls).
Proof. unfold GetWork. frames. Qed.
Lemma frames_addFinalizers {Sp St} `{C : !Collection Sp St, !Allowed R C} (o : Resource Sp St) fs :
  fr (addFinalizers o fs).
Proof. unfold addFinalizers. frames. Qed.
Lemma frames_deleteAll Sp St `{C : !Collection Sp St, !Allowed R C} ls :
  fr (deleteAllResourcesWithKindMatchingLabel Sp St ls).
Proof. unfold deleteAllResourcesWithKindMatchingLabel. frames. Qed.
Lemma frames_GenerateObjectName name : fr (GenerateObjectName name).
Proof. unfold GenerateObjectName. frames. Qed.
#[local] Hint Resolve frames_GetWork frames_addFinalizers frames_deleteAll frames_GenerateObjectName : frames.

(** ** Workflows *)
Section workflow.
Context {PC : Collection UnstructuredSpec UnstructuredStatus} `{!Allowed R PC}.

Lemma frames_applyResources l : fr (applyResources l).
Proof. unfold applyResources, applyResource, mayUpdate, createObject, updateObject. frames. Qed.
Lemma frames_deleteResources l : fr (Workflow.deleteResources l).
Proof. unfold Workflow.deleteResources, deleteObject. frames. Qed.
Lemma frames_getObjectsToDelete p : fr (getObjectsToDelete p).
Proof.
unfold getObjectsToDelete, getRolesToDelete, getClusterRolesToDelete, getRoleBindingsToDelete,
  getClusterRoleBindingsToDelete, list_or_empty. frames.
Qed.
Lemma frames_getJobsWithLabels ls ns : fr (getJobsWithLabels ls ns).
Proof. unfold getJobsWithLabels. frames. Qed.
Lemma frames_deleteJobs l : fr (deleteJobs l).
Proof. induction l; cbn [deleteJobs]; frames. Qed.
#[local] Hint Resolve frames_applyResources frames_deleteResources frames_getObjectsToDelete
  frames_getJobsWithLabels frames_deleteJobs : frames.

Lemma frames_ReconcileConfigure opts parent : fr (ReconcileConfigure opts parent).
Proof.
unfold ReconcileConfigure, updateCounters, reconcilePipeline, failWorkflow, cleanup, cleanupJobs,
  GetWorksByType, createConfigurePipeline, setConfigureWorkflowCompletedConditionStatus,
  removeManualReconciliationLabel, suspendJob, MarkConfigureWorkflowAsFailed, MarkReconciledFailing,
  MarkConfigureWorkflowAsRunning, MarkReconciledPending. frames.
Qed.
Lemma frames_ReconcileDelete opts parent : fr (ReconcileDelete opts parent).
Proof.
unfold ReconcileDelete, getMostRecentDeletePipelineJob, createDeletePipeline,
  removeManualReconciliationLabel, suspendJob. frames.
Qed.
End workflow.
#[local] Hint Resolve frames_ReconcileConfigure frames_ReconcileDelete : frames.

(** ** The scheduler and the Work controller *)
Lemma frames_updateWorkPlacementStatus wp misplaced : fr (updateWorkPlacementStatus wp misplaced).
Proof. unfold updateWorkPlacementStatus. frames. Qed.
Lemma frames_listWorkplacementWithLabels ns ls : fr (listWorkplacementWithLabels ns ls).
Proof. unfold listWorkplacementWithLabels. frames. Qed.
Lemma frames_getDestinationsForWorkloadGroup sel : fr (getDestinationsForWorkloadGroup sel).
Proof. unfold getDestinationsForWorkloadGroup. frames. Qed.
#[local] Hint Resolve frames_updateWorkPlacementStatus frames_listWorkplacementWithLabels
  frames_getDestinationsForWorkloadGroup : frames.
Lemma frames_reconcileWorkloadGroup wg work : fr (reconcileWorkloadGroup wg work).
Proof.
unfold reconcileWorkloadGroup, updateExisting, updateWorkPlacement, getTargetDestinationNames,
  applyWorkplacementsForTargetDestinations, applyWorkplacement,
  getExistingWorkPlacementsForWorkloadGroup. frames.
Qed.
#[local] Hint Resolve frames_reconcileWorkloadGroup : frames.
Lemma frames_scheduleGroups work groups u m : fr (scheduleGroups work groups u m).
Proof. revert u m. induction groups; intros u m; cbn [scheduleGroups]; frames. Qed.
#[local] Hint Resolve frames_scheduleGroups : frames.
Lemma frames_ReconcileWork work : fr (ReconcileWork work).
Proof.
unfold ReconcileWork, updateWorkStatus, cleanupDanglingWorkplacements, collectNames,
  getExistingWorkPlacementsForWork, getExistingWorkPlacementsForWorkloadGroup. frames.
Qed.
#[local] Hint Resolve frames_ReconcileWork : frames.

Lemma frames_WorkReconciler req : fr (WorkReconciler.Reconcile req).
Proof.
unfold WorkReconciler.Reconcile, WorkReconciler.deleteWork, WorkReconciler.updateWorkStatus,
  scheduleWork, Scheduler_WorkScheduler. frames.
Qed.

(** ** Pipelines *)
Section requests.
Context `{PromiseLib, Config, PromiseCodec, TimeLib}.

Lemma frames_GenerateResourcePipelines p action rr :
  action ∈ [WorkflowActionConfigure; WorkflowActionDelete] → fr (GenerateResourcePipelines p action rr).
Proof. intros Ha. eapply frames_reads. intros s. by apply wp_generatePipelinesObjects; [left|]. Qed.
Lemma frames_GeneratePromisePipelines p action :
  action ∈ [WorkflowActionConfigure; WorkflowActionDelete] → fr (GeneratePromisePipelines p action).
Proof. intros Ha. eapply frames_reads. intros s. by apply wp_generatePipelinesObjects; [right; left|]. Qed.
Lemma frames_configure_pipelines p rr : fr (GenerateResourcePipelines p WorkflowActionConfigure rr).
Proof. apply frames_GenerateResourcePipelines. left. Qed.
Lemma frames_delete_pipelines p rr : fr (GenerateResourcePipelines p WorkflowActionDelete rr).
Proof. apply frames_GenerateResourcePipelines. right. left. Qed.
Lemma frames_promise_configure p : fr (GeneratePromisePipelines p WorkflowActionConfigure).
Proof. apply frames_GeneratePromisePipelines. left. Qed.
Lemma frames_promise_delete p : fr (GeneratePromisePipelines p WorkflowActionDelete).
Proof. apply frames_GeneratePromisePipelines. right. left. Qed.

(** ** The typed client of Promises *)
Lemma frames_GetPromise k : fr (GetPromise k).
Proof. unfold GetPromise. frames. Qed.
Lemma frames_UpdatePromise p : fr (UpdatePromise p).
Proof. unfold UpdatePromise. frames. Qed.
Lemma frames_StatusUpdatePromise p : fr (StatusUpdatePromise p).
Proof. unfold StatusUpdatePromise. frames. Qed.
#[local] Hint Resolve frames_configure_pipelines frames_delete_pipelines frames_promise_configure
  frames_promise_delete frames_GetPromise frames_UpdatePromise frames_StatusUpdatePromise : frames.

(** ** Releases and health records *)
Lemma frames_CreateOrUpdatePromise p f : fr (CreateOrUpdatePromise p f).
Proof. unfold CreateOrUpdatePromise. frames. Qed.
Lemma frames_ListPromises o : fr (ListPromises o).
Proof. unfold ListPromises. frames. Qed.
Lemma frames_DeletePromise p : fr (DeletePromise p).
Proof. unfold DeletePromise. frames. Qed.
#[local] Hint Resolve frames_CreateOrUpdatePromise frames_ListPromises frames_DeletePromise : frames.

Section releases.
Context `{!PromiseFetcher S, !PromiseFetcherLaws S, ReleaseLib}.
Import PromiseReleaseReconciler.

Lemma frames_FromURL url auth : fr (FromURL url auth).
Proof. intros s. apply wp_FromURL; intros ? s' Hv **; by rewrite Hv. Qed.
Lemma frames_updateStatusAndConditions pr st m r : fr (updateStatusAndConditions pr st m r).
Proof. unfold updateStatusAndConditions. frames. Qed.
#[local] Hint Resolve frames_FromURL frames_updateStatusAndConditions : frames.
Lemma frames_PromiseReleaseReconciler req : fr (PromiseReleaseReconciler.Reconcile req).
Proof.
unfold PromiseReleaseReconciler.Reconcile, promiseExistsAtDesiredVersion, install,
  FetchSecretFromReference, validateVersion, installPromise, delete, delete_promise. frames.
Qed.
End releases.

Lemma frames_HealthRecordReconciler `{DetailsLib} req : fr (HealthRecordReconciler.Reconcile req).
Proof.
unfold HealthRecordReconciler.Reconcile, HealthRecordReconciler.ignoreNotFound,
  HealthRecordReconciler.getResourceRequest, HealthRecordReconciler.updateResourceStatus,
  HealthRecordReconciler.fireEvent. frames.
Qed.

(** ** Resource requests *)
Lemma frames_generateResourceStatus r rr n : fr (DynamicReconciler.generateResourceStatus r rr n).
Proof.
unfold DynamicReconciler.generateResourceStatus, DynamicReconciler.getWorksStatus,
  DynamicReconciler.updateWorksSucceededCondition, DynamicReconciler.updateReconciledCondition,
  MarkReconciledPending, MarkReconciledFailing, MarkReconciledTrue, MarkResourceRequestAsWorksFailed,
  MarkResourceRequestAsWorksMisplaced, MarkResourceRequestAsWorksPending,
  MarkResourceRequestAsWorksSucceeded. frames.
Qed.
#[local] Hint Resolve frames_generateResourceStatus : frames.
Lemma frames_dynamic_configure r p rr : fr (DynamicReconciler.configure r p rr).
Proof.
unfold DynamicReconciler.configure, DynamicReconciler.shouldForcePipelineRun,
  DynamicReconciler.updateManualReconciliationLabel, DynamicReconciler.report,
  DynamicReconciler.updateObservedGeneration, DynamicReconciler.updateWorkflowStatusCountersToZero,
  DynamicReconciler.updateLastSuccessfulConfigureWorkflowTime. frames.
Qed.
Lemma frames_dynamic_delete r p rr : fr (DynamicReconciler.deleteResources r p rr).
Proof.
unfold DynamicReconciler.deleteResources, DynamicReconciler.run_delete_workflows,
  MarkDeleteWorkflowAsFailed, DynamicReconciler.deleteWork, GetAllWorksForResource,
  DynamicReconciler.deleteWorkflows. frames.
Qed.
#[local] Hint Resolve frames_dynamic_configure frames_dynamic_delete : frames.
Lemma frames_DynamicReconciler r req : fr (DynamicReconciler.Reconcile r req).
Proof.
unfold DynamicReconciler.Reconcile, DynamicReconciler.reconcileRequest,
  DynamicReconciler.setPausedReconciliationStatusConditions, MarkReconciledPaused,
  DynamicReconciler.setPromiseLabels, DynamicReconciler.ensurePromiseIsUnavailable,
  DynamicReconciler.ensurePromiseIsAvailable, MarkPromiseConditionAsNotAvailable,
  MarkPromiseConditionAsAvailable. frames.
Qed.

(** ** Promises *)
Section promises.
Context `{Codec, YamlEncoder, ControllerManager S, !ControllerManagerLaws S}.
Import PromiseReconciler.

Lemma frames_StartController gvk : fr (StartController gvk).
Proof. intros s. apply wp_call; intros ? s' E; by rewrite (start_controller_ok _ _ _ _ E). Qed.
Lemma frames_RestartManager : fr RestartManager.
Proof. intros s. apply wp_total. intros ? s' E. by rewrite (restart_manager_ok _ _ _ E). Qed.
#[local] Hint Resolve frames_StartController frames_RestartManager : frames.

Lemma frames_mark_promise p t st r m : fr (mark_promise p (stamped t st r m)).
Proof. unfold mark_promise. frames. Qed.
Lemma frames_updatePromiseStatus p : fr (updatePromiseStatus p).
Proof. unfold updatePromiseStatus. frames. Qed.
Lemma frames_addPromiseFinalizers p fs : fr (addPromiseFinalizers p fs).
Proof. unfold addPromiseFinalizers. frames. Qed.
Lemma frames_removePromiseFinalizer p f : fr (removePromiseFinalizer p f).
Proof. unfold removePromiseFinalizer. frames. Qed.
#[local] Hint Resolve frames_mark_promise frames_updatePromiseStatus frames_addPromiseFinalizers
  frames_removePromiseFinalizer : frames.

Lemma frames_promise_paused p : fr (PromiseReconciler.setPausedReconciliationStatusConditions p).
Proof. unfold PromiseReconciler.setPausedReconciliationStatusConditions. frames. Qed.
Lemma frames_generateConditions p n : fr (generateConditions p n).
Proof.
unfold generateConditions, getWorksStatus, updateWorksSucceededCondition, updateReconciledCondition.
frames.
Qed.
Lemma frames_hasPromiseRequirementsChanged p : fr (hasPromiseRequirementsChanged p).
Proof.
unfold hasPromiseRequirementsChanged, generateStatusAndMarkRequirements, evaluateRequirement,
  markRequiredPromiseAsRequired. frames.
Qed.
Lemma frames_ensureAPI p : fr (ensureAPI p).
Proof.
unfold ensureAPI, ensureCRDExists, createResourcesForDynamicControllerIfTheyDontExist, updateStatus.
frames.
Qed.
Lemma frames_dependencies n t p u : fr (reconcileDependenciesAndPromiseWorkflows n t p u).
Proof.
unfold reconcileDependenciesAndPromiseWorkflows, applyWorkForStaticDependencies,
  deleteWorkForStaticDependencies, updateWorkflowStatusCountersToZero,
  DynamicReconciler.shouldForcePipelineRun. frames.
Qed.
Lemma frames_deleteKinds ks ls : fr (deleteKinds ks ls).
Proof. induction ks; cbn [deleteKinds]; unfold deleteKind; frames. Qed.
#[local] Hint Resolve frames_promise_paused frames_generateConditions
  frames_hasPromiseRequirementsChanged frames_ensureAPI frames_dependencies frames_deleteKinds : frames.

Lemma frames_deletePromise n t p : frames R (deletePromise n t p).
Proof.
unfold deletePromise, runDeleteWorkflows, deletePromiseWorkflowJobs, deleteResourceRequests,
  ensureDynamicControllerIsStarted, disableDynamicController,
  deleteDynamicControllerAndWorkflowResources, deleteWork, deleteCRDs. frames.
Qed.
Lemma frames_installPromise n t p o b : frames R (installPromise n t p o b).
Proof.
unfold installPromise, ensurePromiseDeleteWorkflowFinalizer, serveRequests,
  ensureDynamicControllerIsStarted, reconcileResources, reconcileAllRRs,
  removeReconcileResourcesLabel, reportPromise, setPromiseStatusToAvailable. frames.
Qed.
#[local] Hint Resolve frames_deletePromise frames_installPromise : frames.
Lemma frames_PromiseReconciler n t req : frames R (PromiseReconciler.Reconcile n t req).
Proof. unfold PromiseReconciler.Reconcile, reconcilePromise, reportRequirements. frames. Qed.
End promises.
End requests.

(** ** State stores: placements and destinations *)
Section stores.
Context `{Codec, !StateStoreWriter S, !StoredFiles S, !StateStoreLaws S}.

Lemma frames_newWriter n k p : fr (newWriter n k p).
Proof. intros s. apply wp_newWriter; [intros ? s' Hv _; by rewrite Hv..|intros s' _ Hv; by rewrite Hv]. Qed.
Lemma frames_ReadFile w n : fr (ReadFile w n).
Proof. intros s. apply wp_ReadFile; intros ? s' Hv **; by rewrite Hv. Qed.
Lemma frames_UpdateFiles w d n cs ds : fr (UpdateFiles w d n cs ds).
Proof. intros s. apply wp_UpdateFiles; intros ? s' Hv **; by rewrite Hv. Qed.
Lemma frames_ValidatePermissions w : fr (ValidatePermissions w).
Proof. intros s. apply wp_ValidatePermissions; [intros s' Hv _|intros ? s' Hv _]; by rewrite Hv. Qed.
#[local] Hint Resolve frames_newWriter frames_ReadFile frames_UpdateFiles frames_ValidatePermissions : frames.

Lemma frames_reconcile_store {Sp} `{C : !Collection Sp StateStoreStatus, !Allowed R C, !StateStore.StateStore Sp} t req :
  fr (reconcile_store (Sp:=Sp) t req).
Proof.
unfold reconcile_store, reconcileStateStoreCommon, updateStateStoreReadyStatusAndCondition. frames.
Qed.
Lemma frames_BucketStateStoreReconciler req : fr (BucketStateStoreReconciler.Reconcile req).
Proof. apply frames_reconcile_store. Qed.
Lemma frames_GitStateStoreReconciler req : fr (GitStateStoreReconciler.Reconcile req).
Proof. apply frames_reconcile_store. Qed.

Lemma frames_handleAggregatedYAML wp d dir w :
  fr (WorkPlacementReconciler.handleAggregatedYAML wp d dir w).
Proof.
unfold WorkPlacementReconciler.handleAggregatedYAML,
  WorkPlacementReconciler.getAllWorkplacementsForDestination. frames.
Qed.
#[local] Hint Resolve frames_handleAggregatedYAML : frames.
Lemma frames_writeToStateStore wp d : fr (WorkPlacementReconciler.writeToStateStore wp d).
Proof.
unfold WorkPlacementReconciler.writeToStateStore, WorkPlacementReconciler.writeWorkloadsToStateStore,
  WorkPlacementReconciler.generateKratixStateFile, WorkPlacementReconciler.publishWriteEvent,
  WorkPlacementReconciler.setWriteFailStatusConditions. frames.
Qed.
Lemma frames_handleDeletion wp d : fr (WorkPlacementReconciler.handleDeletion wp d).
Proof.
unfold WorkPlacementReconciler.handleDeletion, WorkPlacementReconciler.deleteWorkPlacement,
  WorkPlacementReconciler.workloads_to_delete, WorkPlacementReconciler.delete,
  WorkPlacementReconciler.requeueIfNotFound. frames.
Qed.
#[local] Hint Resolve frames_writeToStateStore frames_handleDeletion : frames.
Lemma frames_WorkPlacementReconciler req : frames R (WorkPlacementReconciler.Reconcile req).
Proof.
unfold WorkPlacementReconciler.Reconcile, WorkPlacementReconciler.updateStatus,
  WorkPlacementReconciler.getDestination, WorkPlacementReconciler.setWorkplacementReady. frames.
Qed.

Lemma frames_DestinationReconciler `{CanaryLib} req : fr (DestinationReconciler.Reconcile req).
Proof.
unfold DestinationReconciler.Reconcile, DestinationReconciler.reconcileStored,
  DestinationReconciler.updateReadyCondition, DestinationReconciler.updateStatus,
  DestinationReconciler.deleteDestination, DestinationReconciler.deleteDestinationWorkplacements,
  DestinationReconciler.deleteStateStoreContents, DestinationReconciler.deleteInitWorkloads,
  DestinationReconciler.setConditionReadyInitWorkloads, DestinationReconciler.writeTestFiles,
  DestinationReconciler.createDependenciesPathWithExample,
  DestinationReconciler.createResourcePathWithExample. frames.
Qed.
End stores.

(** ** The programs of a pipeline's last steps *)
Lemma frames_Execute `{Codec, WorkCreatorLib} fs dir pn ns rn wt pl :
  fr (Execute fs dir pn ns rn wt pl).
Proof. unfold Execute. frames. Qed.
Lemma frames_status_updater `{StatusLib, PC : !Collection UnstructuredSpec UnstructuredStatus, !Allowed R PC} fs params :
  fr (StatusUpdater.run fs params).
Proof. unfold StatusUpdater.run, wrapped, MergeStatuses, mergeRecursive, merge_field, mergeConditions, MarkAsCompleted. frames. Qed.
End system.
