(* ===== verification/PlacementGuard.v ===== *)
(** * Placements cannot slip away

    A placement that is not being deleted carries the finalizer that makes the
    WorkPlacement controller clean its files up first.  Every program of the
    system keeps this so. *)

From S2P Require Import Prelude GoLib Files Codec Meta Api Kube Client Shared ResourceUtil Promise.
From S2P Require Import PromiseStore WorkCreator StatusUpdater PipelineFactory Frame Workflow.
From S2P Require Import FactoryFacts DynamicController PromiseController Scheduler WorkController.
From S2P Require Import SchedulerPlace StateStore WorkPlacementController DestinationController.
From S2P Require Import SystemFrames.

Local Abbreviation repo := repoCleanupWorkPlacementFinalizer.

Definition guarded (c : Cluster) : Prop :=
  keyed (c_workplacements c) ∧
  ∀ k p, c_workplacements c !! k = Some p → deleting p = false → repo ∈ GetFinalizers p.

(** Writing the copy [p] back leaves the placement guarded. *)
Definition safe (c : Cluster) (p : WorkPlacement) : Prop :=
  repo ∈ GetFinalizers p ∨ ∀ old, c_workplacements c !! key p = Some old → deleting old = true.

(** A program that works on the copies [L]. *)
Definition keeping (L : list WorkPlacement) (c c' : Cluster) : Prop :=
  guarded c ∧ Forall (safe c) L → guarded c' ∧ Forall (safe c') L.

#[global] Instance keeping_preorder L : PreOrder (keeping L).
Proof. split; [by intros c Hc|]. intros a b c Hab Hbc Ha. auto. Qed.

Lemma keeping_same L c c' : c_workplacements c' = c_workplacements c → keeping L c c'.
Proof.
unfold keeping, guarded, safe. by intros ->.
Qed.

Section harmless.
Context (L : list WorkPlacement).
Local Ltac other := intros m c; by apply keeping_same.
#[export] Instance keeping_works : Harmless (keeping L) WorkSpec WorkStatus.
Proof. other. Qed.
#[export] Instance keeping_destinations : Harmless (keeping L) DestinationSpec DestinationStatus.
Proof. other. Qed.
#[export] Instance keeping_jobs : Harmless (keeping L) JobSpec JobStatus.
Proof. other. Qed.
#[export] Instance keeping_parents : Harmless (keeping L) UnstructuredSpec UnstructuredStatus.
Proof. other. Qed.
#[export] Instance keeping_promises :
  Harmless (keeping L) UnstructuredSpec UnstructuredStatus (H:=promises_coll).
Proof. other. Qed.
#[export] Instance keeping_crds : Harmless (keeping L) CRDSpec CRDStatus.
Proof. other. Qed.
#[export] Instance keeping_serviceaccounts : Harmless (keeping L) ServiceAccountSpec unit.
Proof. other. Qed.
#[export] Instance keeping_configmaps : Harmless (keeping L) ConfigMapSpec unit.
Proof. other. Qed.
#[export] Instance keeping_roles : Harmless (keeping L) RoleSpec unit.
Proof. other. Qed.
#[export] Instance keeping_rolebindings : Harmless (keeping L) RoleBindingSpec unit.
Proof. other. Qed.
#[export] Instance keeping_clusterroles : Harmless (keeping L) ClusterRoleSpec unit.
Proof. other. Qed.
#[export] Instance keeping_clusterrolebindings : Harmless (keeping L) ClusterRoleBindingSpec unit.
Proof. other. Qed.
#[export] Instance keeping_bucketstores : Harmless (keeping L) BucketStateStoreSpec StateStoreStatus.
Proof. other. Qed.
#[export] Instance keeping_gitstores : Harmless (keeping L) GitStateStoreSpec StateStoreStatus.
Proof. other. Qed.
#[export] Instance keeping_secrets : Harmless (keeping L) SecretSpec unit.
Proof. other. Qed.
#[export] Instance keeping_releases : Harmless (keeping L) PromiseReleaseSpec PromiseReleaseStatus.
Proof. other. Qed.
#[export] Instance keeping_healthrecords : Harmless (keeping L) HealthRecordData unit.
Proof. other. Qed.
End harmless.

(** One placement is replaced, by one that is guarded and no less marked for deletion. *)
Lemma keeping_insert L c k p :
  key p = k → (deleting p = false → repo ∈ GetFinalizers p) →
  (∀ q, q ∈ L → key q = k → safe c q → repo ∈ GetFinalizers q ∨ deleting p = true) →
  keeping L c (set_coll (<[k := p]> (c_workplacements c)) c).
Proof.
intros Hk Hp HL [[Hkey Hg] Hs]. split; [split|].
- cbn. by apply keyed_insert.
- cbn. intros k' p'. rewrite lookup_insert_Some. intros [[_ <-]|[_ Hk']]; [done|by eapply Hg].
- apply Forall_forall. intros q Hq. pose proof (proj1 (Forall_forall _ _) Hs q Hq) as Hsq.
  destruct (decide (key q = k)) as [Hkq|Hkq].
  + destruct (HL q Hq Hkq Hsq) as [Hf|Hd]; [by left|]. right. cbn. intros old.
    rewrite Hkq, lookup_insert_eq. by intros [= <-].
  + destruct Hsq as [Hf|Hd]; [by left|]. right. cbn. intros old. rewrite lookup_insert_ne by done. auto.
Qed.

Lemma keeping_delete L c k : keeping L c (set_coll (base.delete k (c_workplacements c)) c).
Proof.
intros [[Hkey Hg] Hs]. split; [split|].
- cbn. intros k' o [_ Ho]%lookup_delete_Some. by apply Hkey.
- cbn. intros k' o [_ Ho]%lookup_delete_Some. by eapply Hg.
- eapply Forall_impl; [exact Hs|]. intros q [Hf|Hd]; [by left|]. right. cbn.
  intros old [_ Ho]%lookup_delete_Some. auto.
Qed.

(** [p] may be written back: it has the finalizer, or is a copy of [L] as far as this matters. *)
Definition derived (L : list WorkPlacement) (p : WorkPlacement) : Prop :=
  repo ∈ GetFinalizers p ∨
  ∃ q, q ∈ L ∧ key p = key q ∧ (repo ∈ GetFinalizers q → repo ∈ GetFinalizers p).

Lemma keeping_update L c gen old p :
  derived L p → c_workplacements c !! key p = Some old →
  keeping L c (set_coll (put_or_reap (on_update gen old p) (c_workplacements c)) c).
Proof.
intros Hp Hold Hpre. assert (∀ q, q ∈ L → key q = key p → safe c q →
  repo ∈ GetFinalizers q ∨ deleting old = true) as HL.
{ intros q _ Hk [Hf|Hd]; [by left|]. right. apply Hd. by rewrite Hk. }
assert (deleting old = false → repo ∈ GetFinalizers p) as Hf.
{ intros Hd. destruct Hp as [Hf|(q & Hq & Hk & Himp)]; [done|]. apply Himp.
  destruct (HL q Hq (eq_sym Hk) (proj1 (Forall_forall _ _) (proj2 Hpre) q Hq)); congruence. }
revert Hpre. change (keeping L c (set_coll (put_or_reap (on_update gen old p) (c_workplacements c)) c)).
unfold put_or_reap. case_match; [apply keeping_delete|].
apply keeping_insert; [done|exact Hf|exact HL].
Qed.

(** A program on copies the world agrees with keeps the placements guarded. *)
Lemma keeping_with {S A} `{Viewed S} L (m : M S A) s :
  frames (keeping L) m → (guarded (view s) → Forall (safe (view s)) L) →
  wp m (λ _ s', keeping [] (view s) (view s')) s.
Proof.
intros Hm HL. eapply wp_mono; [apply Hm|]. intros r s' Hk [Hg _].
destruct (Hk (conj Hg (HL Hg))) as [Hg' _]. split; [done|constructor].
Qed.

Section programs.
Context {S : Type} `{World S, Viewed S, !WorldLaws S, Lib, !LibLaws}.
Implicit Types s : S.

Lemma keeping_Update L (p : WorkPlacement) : derived L p → frames (S:=S) (keeping L) (Update p).
Proof.
intros Hp s. apply wp_Update; [|intros e s' Hv; by rewrite Hv].
intros old gen s' Hold Hv. rewrite Hv. by apply keeping_update.
Qed.

Lemma keeping_StatusUpdate L (p : WorkPlacement) : frames (S:=S) (keeping L) (StatusUpdate p).
Proof.
intros s. apply wp_StatusUpdate; [|intros e s' Hv; by rewrite Hv].
intros old s' Hold Hv Hpre. rewrite Hv. revert Hpre.
intros [[Hkey Hg] Hs]. pose proof (Hkey _ _ Hold) as Hk. apply (keeping_insert L).
- exact Hk.
- exact (Hg _ _ Hold).
- intros q Hq Hkq [Hf|Hd]; [by left|]. right. apply (Hd old). by rewrite Hkq.
- done.
Qed.

Lemma keeping_Delete L (p : WorkPlacement) : frames (S:=S) (keeping L) (Delete p).
Proof.
intros s. apply wp_Delete; [|intros e s' Hv _; by rewrite Hv].
intros old t s' Hold Hv Hpre. rewrite Hv. revert Hpre. unfold on_delete.
case_match; [apply keeping_delete|]. intros [[Hkey Hg] Hs]. pose proof (Hkey _ _ Hold) as Hk.
assert (deleting (mark_deleting t old) = true) as Hdel
  by (unfold mark_deleting; destruct (deleting old) eqn:E; [done|by unfold deleting]).
apply (keeping_insert L); [| |auto|done].
- unfold mark_deleting. by destruct (deleting old).
- congruence.
Qed.
#[local] Hint Resolve keeping_StatusUpdate keeping_Delete : frames.
#[local] Hint Resolve frames_stamped frames_setStatusCondition frames_listWorkplacementWithLabels
  frames_getDestinationsForWorkloadGroup frames_mark : frames.

Lemma stored_safe c k p : guarded c → c_workplacements c !! k = Some p → safe c p.
Proof.
intros [Hk Hg] Hp. destruct (deleting p) eqn:Hd; [|left; by eapply Hg].
right. rewrite (Hk _ _ Hp). congruence.
Qed.

Lemma listed_safe c (l : list WorkPlacement) (P : WorkPlacement → Prop) `{∀ p, Decision (P p)} :
  guarded c → l ≡ₚ filter P (map_values (c_workplacements c)) → Forall (safe c) l.
Proof.
intros Hg Hl. apply Forall_forall. intros p Hp. rewrite Hl in Hp.
apply list_elem_of_filter in Hp as [_ (k & Hk)%elem_of_map_values]. by eapply stored_safe.
Qed.

(** ** The scheduler *)
Lemma keeping_updateWorkPlacementStatus L p mis : frames (S:=S) (keeping L) (updateWorkPlacementStatus p mis).
Proof. unfold updateWorkPlacementStatus. frames. Qed.
#[local] Hint Resolve keeping_updateWorkPlacementStatus : frames.

Lemma keeping_updateExisting L wg acc p : p ∈ L → frames (S:=S) (keeping L) (updateExisting wg acc p).
Proof.
intros Hp. unfold updateExisting, updateWorkPlacement. cbv zeta.
assert (∀ b : bool, derived L (set_wp_workloads (wg_workloads wg)
  (if b then labelWorkplacementAsMisplaced p else p))) as Hd
  by (intros []; right; exists p; auto).
frames; apply keeping_Update; [exact (Hd true)|exact (Hd false)].
Qed.

Lemma keeping_foldM {A B} L (f : B → A → M S B) l b :
  (∀ acc a, a ∈ l → frames (keeping L) (f acc a)) → frames (keeping L) (foldM f l b).
Proof.
revert b. induction l as [|a l IH]; intros b Hf; [apply frames_ret, _|].
apply frames_bind; [exact _|apply Hf; left|]. intros b'. apply IH. intros. apply Hf. by right.
Qed.

Lemma keeping_applyWorkplacement wg work b t : frames (S:=S) (keeping []) (applyWorkplacement wg work b t).
Proof.
destruct t as [t mis]. unfold applyWorkplacement. apply frames_bind; [exact _|frames|]. intros name.
apply frames_bind; [exact _| |intros []; frames]. intros s. apply wp_CreateOrUpdate.
- intros p uid now gen op s' _ (Hk & _ & _ & Hf)%mutate_placement_ok Hkey Hv. rewrite Hv.
  apply keeping_insert; [exact Hkey|by intros _|]. intros q Hq. by apply elem_of_nil in Hq.
- intros old p gen op s' Hold (Hk & _ & _ & Hf)%mutate_placement_ok Hkey Hv. rewrite Hv.
  apply keeping_update; [by left|]. by rewrite Hkey.
- intros e s' Hv. by rewrite Hv.
Qed.
#[local] Hint Resolve keeping_applyWorkplacement : frames.

Lemma keeping_reconcileWorkloadGroup wg work : frames (S:=S) (keeping []) (reconcileWorkloadGroup wg work).
Proof.
intros s. unfold reconcileWorkloadGroup, getExistingWorkPlacementsForWorkloadGroup,
  listWorkplacementWithLabels. apply wp_bind, wp_List; [|intros e s' Hv; by rewrite Hv].
intros l s1 Hv Hl. rewrite <-Hv. destruct (_ && _).
- apply (keeping_with l); [|intros Hg; eapply listed_safe; [done|by rewrite Hv]].
  apply frames_bind; [exact _| |intros ?; frames].
  apply keeping_foldM. intros acc p Hp. by apply keeping_updateExisting.
- apply (keeping_with []); [|constructor].
  unfold getTargetDestinationNames, applyWorkplacementsForTargetDestinations. frames.
Qed.
#[local] Hint Resolve keeping_reconcileWorkloadGroup : frames.

Lemma keeping_WorkReconciler req : frames (S:=S) (keeping []) (WorkReconciler.Reconcile req).
Proof.
assert (∀ work groups u m, frames (S:=S) (keeping []) (scheduleGroups work groups u m)) as Hg.
{ intros work groups. induction groups; intros u m; cbn [scheduleGroups]; frames. }
unfold WorkReconciler.Reconcile, WorkReconciler.deleteWork, WorkReconciler.updateWorkStatus,
  scheduleWork, Scheduler_WorkScheduler, ReconcileWork, updateWorkStatus, cleanupDanglingWorkplacements,
  collectNames, getExistingWorkPlacementsForWork, getExistingWorkPlacementsForWorkloadGroup,
  deleteAllResourcesWithKindMatchingLabel, addFinalizers. frames.
Qed.

(** ** The WorkPlacement and the Destination controllers *)
Section stores.
Context `{Codec, !StateStoreWriter S, !StoredFiles S, !StateStoreLaws S}.
#[local] Hint Extern 1 (frames _ (newWriter _ _ _)) => eapply frames_newWriter; exact _ : frames.
#[local] Hint Extern 1 (frames _ (ReadFile _ _)) => eapply frames_ReadFile; exact _ : frames.
#[local] Hint Extern 1 (frames _ (UpdateFiles _ _ _ _ _)) => eapply frames_UpdateFiles; exact _ : frames.
Import WorkPlacementReconciler.

(** A copy that is only safe to write back while the placement is being deleted. *)
Definition bare (p : WorkPlacement) : WorkPlacement := SetFinalizers [] p.

Lemma bare_derived p q : key q = key p → derived [bare p] q.
Proof.
intros Hk. right. exists (bare p). split_and!; [left|done|]. intros Hf. by apply elem_of_nil in Hf.
Qed.
Lemma bare_safe c p k : guarded c → c_workplacements c !! k = Some p → deleting p = true → safe c (bare p).
Proof. intros [Hk _] Hp Hd. right. change (key (bare p)) with (key p). rewrite (Hk _ _ Hp). congruence. Qed.

Lemma keeping_handleAggregatedYAML L p d dir w :
  deleting p = false ∨ L = [bare p] → frames (S:=S) (keeping L) (handleAggregatedYAML p d dir w).
Proof.
intros HL. unfold handleAggregatedYAML, getAllWorkplacementsForDestination.
destruct (deleting p); [destruct HL as [?| ->]; [done|]|]; frames. by apply keeping_Update, bare_derived.
Qed.

Lemma keeping_delete_files p w dir ws f : frames (S:=S) (keeping [bare p]) (delete w dir p ws f).
Proof. unfold delete. frames. by apply keeping_Update, bare_derived. Qed.
#[local] Hint Resolve keeping_delete_files : frames.

Lemma frames_ret_bind {A B} R (a : A) (k : A → M S B) : frames R (k a) → frames R (bind (ret a) k).
Proof. intros Hk s. apply wp_bind, wp_ret, Hk. Qed.

Lemma keeping_deleteWorkPlacement target p mode :
  frames (S:=S) (keeping [bare p]) (deleteWorkPlacement target p mode).
Proof.
assert (∀ dest dir w, frames (S:=S) (keeping [bare p]) (handleAggregatedYAML p dest dir w)) as Ha
  by (intros; apply keeping_handleAggregatedYAML; by right).
unfold deleteWorkPlacement, workloads_to_delete. destruct target as [[d w]|].
- apply frames_ret_bind. frames.
- apply frames_bind; [exact _| |intros q; frames]. apply keeping_Update, bare_derived.
  unfold cleanupDeletionFinalizers. by repeat case_match.
Qed.
#[local] Hint Resolve keeping_deleteWorkPlacement : frames.

Lemma keeping_handleDeletion p d : frames (S:=S) (keeping [bare p]) (handleDeletion p d).
Proof. unfold handleDeletion, requeueIfNotFound. frames. Qed.

Lemma keeping_writeToStateStore p d : deleting p = false → frames (S:=S) (keeping []) (writeToStateStore p d).
Proof.
intros Hd.
assert (∀ dest dir w, frames (S:=S) (keeping []) (handleAggregatedYAML p dest dir w)) as Ha
  by (intros; apply keeping_handleAggregatedYAML; by left).
unfold writeToStateStore, writeWorkloadsToStateStore, generateKratixStateFile, publishWriteEvent,
  setWriteFailStatusConditions. frames.
Qed.

Lemma missing_finalizers_held (p : WorkPlacement) mode :
  repo ∈ foldl AddFinalizer (GetFinalizers p) (checkWorkPlacementFinalizers p mode).
Proof.
assert (∀ fs l, repo ∈ l → repo ∈ foldl AddFinalizer l fs) as Hmono.
{ induction fs as [|f fs IH]; [done|]. intros l Hl. apply IH, elem_of_add_finalizer. by right. }
unfold checkWorkPlacementFinalizers. rewrite contains_finalizer.
case_bool_decide as Hin; cbn [negb app]; [by apply Hmono|]. cbn [foldl].
apply Hmono, elem_of_add_finalizer. by left.
Qed.

Lemma keeping_WorkPlacementReconciler req :
  frames (S:=S * gmap string string) (keeping []) (WorkPlacementReconciler.Reconcile req).
Proof.
intros [s t]. unfold WorkPlacementReconciler.Reconcile. apply wp_bind, wp_try, wp_zoom, wp_Get;
  [|intros e s' Hv _; case_match; apply wp_ret; unfold view, viewed_memory; cbn; by rewrite Hv].
intros p s1 Hv Hp. change (view (s, t)) with (view s). rewrite <-Hv.
change (view s1) with (view (s1, t)). destruct (deleting p) eqn:Hd.
- apply (keeping_with [bare p]).
  + apply frames_bind; [exact _|unfold getDestination; frames|]. intros dest.
    apply frames_zoom, keeping_handleDeletion.
  + intros Hg. constructor; [|constructor]. apply (bare_safe _ _ req); [done| |done].
    change (c_workplacements (view s1) !! req = Some p). by rewrite Hv.
- apply (keeping_with []); [|constructor].
  assert (∀ d, frames (S:=S) (keeping []) (writeToStateStore p d)) as Hw
    by (intros; by apply keeping_writeToStateStore).
  unfold getDestination, WorkPlacementReconciler.updateStatus, setWorkplacementReady.
  frames. apply keeping_Update. left.
  match goal with Hf : checkWorkPlacementFinalizers _ _ = _ |- _ => rewrite <-Hf end.
  apply missing_finalizers_held.
Qed.

Lemma keeping_DestinationReconciler `{CanaryLib} req :
  frames (S:=S) (keeping []) (DestinationReconciler.Reconcile req).
Proof.
unfold DestinationReconciler.Reconcile, DestinationReconciler.reconcileStored,
  DestinationReconciler.updateReadyCondition, DestinationReconciler.updateStatus,
  DestinationReconciler.deleteDestination, DestinationReconciler.deleteDestinationWorkplacements,
  DestinationReconciler.deleteStateStoreContents, DestinationReconciler.deleteInitWorkloads,
  DestinationReconciler.setConditionReadyInitWorkloads, DestinationReconciler.writeTestFiles,
  DestinationReconciler.createDependenciesPathWithExample,
  DestinationReconciler.createResourcePathWithExample, deleteAllResourcesWithKindMatchingLabel. frames.
Qed.
End stores.
End programs.
#[export] Hint Resolve keeping_StatusUpdate keeping_Delete : frames.
