(* ===== verification/System.v ===== *)
(** * The whole system

    The controllers, the programs of the pipelines and everybody else who talks to
    the API server take turns; a state is the environment with the memory of the
    controllers.  What holds in every reachable state is proved by induction on the
    steps, from the frames of the components. *)

From S2P Require Import Prelude GoLib Files Codec Meta Api Kube Client Shared ResourceUtil Promise.
From S2P Require Import PromiseStore WorkCreator StatusUpdater PipelineFactory Frame Workflow.
From S2P Require Import FactoryFacts DynamicController PromiseController Scheduler WorkController.
From S2P Require Import SchedulerPlace StateStore WorkPlacementController DestinationController.
From S2P Require Import StateStoreController PromiseRelease HealthRecord SystemFrames PlacementGuard.

(** ** Well-formed clusters *)
Definition sound {Sp St} (m : gmap Key (Resource Sp St)) : Prop := keyed m ∧ no_zombies m.

Section sound.
Context {Sp St : Type} `{C : !Collection Sp St}.
Implicit Types (m : gmap Key (Resource Sp St)) (o : Resource Sp St).

Lemma sound_insert m k o :
  sound m → key o = k → (deleting o = true → GetFinalizers o ≠ []) → sound (<[k := o]> m).
Proof.
intros [Hk Hz] Ho Hd. split; intros k' o'; rewrite lookup_insert_Some;
  intros [[<- <-]|[_ Ho']]; eauto.
Qed.
Lemma sound_delete m k : sound m → sound (base.delete k m).
Proof. intros [Hk Hz]. split; intros k' o' [_ Ho']%lookup_delete_Some; eauto. Qed.
Lemma sound_put m o : sound m → sound (put_or_reap o m).
Proof.
intros Hm. unfold put_or_reap. destruct (deleting o) eqn:Hd; cbn [andb].
- case_bool_decide; [by apply sound_delete|by apply sound_insert].
- apply sound_insert; [done|done|congruence].
Qed.
Lemma sound_on_delete t m k o : sound m → m !! k = Some o → sound (on_delete t k o m).
Proof.
intros Hm Ho. unfold on_delete. case_bool_decide as Hf; [by apply sound_delete|].
apply sound_insert; [done| |].
- rewrite <-(proj1 Hm _ _ Ho). unfold mark_deleting. by destruct (deleting o).
- intros _. unfold mark_deleting. by destruct (deleting o).
Qed.
End sound.

Definition cluster_ok (c : Cluster) : Prop :=
  sound (c_works c) ∧ sound (c_workplacements c) ∧ sound (c_destinations c) ∧ sound (c_jobs c) ∧
  sound (c_parents c) ∧ sound (c_promises c) ∧ sound (c_crds c) ∧ sound (c_serviceaccounts c) ∧
  sound (c_configmaps c) ∧ sound (c_roles c) ∧ sound (c_rolebindings c) ∧ sound (c_clusterroles c) ∧
  sound (c_clusterrolebindings c) ∧ sound (c_bucketstores c) ∧ sound (c_gitstores c) ∧
  sound (c_secrets c) ∧ sound (c_releases c) ∧ sound (c_healthrecords c).

Definition stays_ok (c c' : Cluster) : Prop := cluster_ok c → cluster_ok c'.
#[global] Instance stays_ok_preorder : PreOrder stays_ok.
Proof. split; [by intros c Hc|]. intros a b c Hab Hbc Ha. auto. Qed.

Lemma sound_allowed {Sp St} (C : Collection Sp St) :
  (∀ c, cluster_ok c → sound (coll c)) →
  (∀ m c, cluster_ok c → sound m → cluster_ok (set_coll m c)) → Allowed stays_ok C.
Proof.
intros Hget Hset. split.
- intros c uid t gen o _ Hc. apply Hset; [done|]. apply sound_insert; [auto|done|].
  by unfold on_create, deleting.
- intros c gen old o _ Hc. apply Hset; [done|]. apply sound_put. auto.
- intros c old o Hold Hc. apply Hset; [done|]. destruct (Hget c Hc) as [Hk Hz].
  apply sound_insert; [done|exact (Hk _ _ Hold)|exact (Hz _ _ Hold)].
- intros c t k old Hold Hc. apply Hset; [done|]. apply sound_on_delete; auto.
Qed.

Local Ltac allowed := apply sound_allowed; [intros c Hc|intros m c Hc Hm]; unfold cluster_ok in *; cbn; tauto.
#[global] Instance ok_works : Allowed stays_ok works_coll. Proof. allowed. Qed.
#[global] Instance ok_workplacements : Allowed stays_ok workplacements_coll. Proof. allowed. Qed.
#[global] Instance ok_destinations : Allowed stays_ok destinations_coll. Proof. allowed. Qed.
#[global] Instance ok_jobs : Allowed stays_ok jobs_coll. Proof. allowed. Qed.
#[global] Instance ok_parents : Allowed stays_ok parents_coll. Proof. allowed. Qed.
#[global] Instance ok_promises : Allowed stays_ok promises_coll. Proof. allowed. Qed.
#[global] Instance ok_crds : Allowed stays_ok crds_coll. Proof. allowed. Qed.
#[global] Instance ok_serviceaccounts : Allowed stays_ok serviceaccounts_coll. Proof. allowed. Qed.
#[global] Instance ok_configmaps : Allowed stays_ok configmaps_coll. Proof. allowed. Qed.
#[global] Instance ok_roles : Allowed stays_ok roles_coll. Proof. allowed. Qed.
#[global] Instance ok_rolebindings : Allowed stays_ok rolebindings_coll. Proof. allowed. Qed.
#[global] Instance ok_clusterroles : Allowed stays_ok clusterroles_coll. Proof. allowed. Qed.
#[global] Instance ok_clusterrolebindings : Allowed stays_ok clusterrolebindings_coll. Proof. allowed. Qed.
#[global] Instance ok_bucketstores : Allowed stays_ok bucketstores_coll. Proof. allowed. Qed.
#[global] Instance ok_gitstores : Allowed stays_ok gitstores_coll. Proof. allowed. Qed.
#[global] Instance ok_secrets : Allowed stays_ok secrets_coll. Proof. allowed. Qed.
#[global] Instance ok_releases : Allowed stays_ok releases_coll. Proof. allowed. Qed.
#[global] Instance ok_healthrecords : Allowed stays_ok healthrecords_coll. Proof. allowed. Qed.

(** ** Requests from outside *)

(** What the API server does with a request it accepts. *)
Inductive accepted {Sp St} (C : Collection Sp St) (c : Cluster) : Cluster → Prop :=
  | accepted_create uid t gen (o : Resource Sp St) : coll c !! key o = None →
      accepted C c (set_coll (<[key o := on_create uid t gen o]> (coll c)) c)
  | accepted_update gen (old o : Resource Sp St) : coll c !! key o = Some old →
      accepted C c (set_coll (put_or_reap (on_update gen old o) (coll c)) c)
  | accepted_status (old o : Resource Sp St) : coll c !! key o = Some old →
      accepted C c (set_coll (<[key o := on_status_update old o]> (coll c)) c)
  | accepted_delete t k (old : Resource Sp St) : coll c !! k = Some old →
      accepted C c (set_coll (on_delete t k old (coll c)) c).

Lemma accepted_allowed {Sp St} (C : Collection Sp St) R c c' :
  Allowed R C → accepted C c c' → R c c'.
Proof. intros HR []; [apply allow_create|by eapply allow_update|by eapply allow_status|by eapply allow_delete]; done. Qed.

(** The kinds of object in the cluster *)
Inductive managed : ∀ {Sp St}, Collection Sp St → Prop :=
  | managed_works : managed works_coll
  | managed_workplacements : managed workplacements_coll
  | managed_destinations : managed destinations_coll
  | managed_jobs : managed jobs_coll
  | managed_parents : managed parents_coll
  | managed_promises : managed promises_coll
  | managed_crds : managed crds_coll
  | managed_serviceaccounts : managed serviceaccounts_coll
  | managed_configmaps : managed configmaps_coll
  | managed_roles : managed roles_coll
  | managed_rolebindings : managed rolebindings_coll
  | managed_clusterroles : managed clusterroles_coll
  | managed_clusterrolebindings : managed clusterrolebindings_coll
  | managed_bucketstores : managed bucketstores_coll
  | managed_gitstores : managed gitstores_coll
  | managed_secrets : managed secrets_coll
  | managed_releases : managed releases_coll
  | managed_healthrecords : managed healthrecords_coll.

(** Others neither create placements nor touch their finalizers. *)
Definition respects (c c' : Cluster) : Prop :=
  ∀ k p', c_workplacements c' !! k = Some p' → ∃ p, c_workplacements c !! k = Some p ∧
    GetFinalizers p' = GetFinalizers p ∧ (deleting p = true → deleting p' = true).

(** A user, the Job controller, the garbage collector, ... *)
Definition outside (c c' : Cluster) : Prop :=
  (∃ Sp St (C : Collection Sp St), managed C ∧ accepted C c c') ∧ respects c c'.

Lemma outside_ok c c' : outside c c' → stays_ok c c'.
Proof. intros [(Sp & St & C & Hm & Ha) _]. destruct Hm; exact (accepted_allowed _ stays_ok _ _ _ Ha). Qed.

Lemma outside_guarded c c' : cluster_ok c → outside c c' → guarded c → guarded c'.
Proof.
intros Hok Ho [_ Hg]. split.
- by apply (outside_ok _ _ Ho Hok).
- intros k p' Hp' Hd'. destruct Ho as [_ Hr]. destruct (Hr _ _ Hp') as (p & Hp & Hf & Hdel).
  rewrite Hf. apply (Hg k); [done|]. destruct (deleting p); [|done]. by rewrite Hdel in Hd'.
Qed.

(** ** The memory of the Promise controller *)

(** A started controller is filed under the name of its Promise, followed by the
    name of the CRD, and knows five characters of the Promise's identifier. *)
Definition filed (name : string) (d : DynamicResourceRequestController) : Prop :=
  String.length (dc_uid d) = 5 ∧
  (name = dc_promiseIdentifier d ∨ ∃ crd, name = dc_promiseIdentifier d +:+ "_" +:+ crd).
Definition started_ok (started : Started) : Prop := map_Forall filed started.

Section memory.
Context {S T : Type} (P : T → Prop).

Definition recalls {A} (m : M (S * T) A) : Prop := ∀ s t, P t → wp m (λ _ st, P st.2) (s, t).

Lemma recalls_ret {A} (a : A) : recalls (ret a).
Proof. intros s t Ht. by apply wp_ret. Qed.
Lemma recalls_fail {A} e : recalls (fail (A:=A) e).
Proof. intros s t Ht. by apply wp_fail. Qed.
Lemma recalls_lift {A} (r : outcome A) : recalls (lift r).
Proof. intros s t Ht. by apply wp_lift. Qed.
Lemma recalls_zoom {A} (m : M S A) : recalls (zoom m).
Proof. intros s t Ht. apply wp_zoom. by apply (wp_mono _ (λ _ _, True)). Qed.
Lemma recalls_remember t : P t → recalls (remember t).
Proof. intros Ht s t' _. by apply wp_remember. Qed.
Lemma recalls_bind {A B} (m : M (S * T) A) (k : A → M (S * T) B) :
  recalls m → (∀ a, recalls (k a)) → recalls (bind m k).
Proof.
intros Hm Hk s t Ht. apply wp_bind. eapply wp_mono; [by apply Hm|].
intros [a|e|] [s' t'] Ht'; [by apply Hk|done..].
Qed.
Lemma recalls_recall {B} (k : T → M (S * T) B) : (∀ t, P t → recalls (k t)) → recalls (bind recall k).
Proof. intros Hk s t Ht. apply wp_bind, wp_recall. by apply Hk. Qed.
Lemma recalls_try {A} (m : M (S * T) A) : recalls m → recalls (try m).
Proof. intros Hm s t Ht. apply wp_try. eapply wp_mono; [by apply Hm|]. by intros []. Qed.
End memory.

Create HintDb recalls.
#[export] Hint Resolve recalls_ret recalls_fail recalls_lift recalls_zoom : recalls.
Ltac recalls :=
  repeat first
    [ solve [auto with recalls]
    | apply recalls_recall; intros ? ?
    | apply recalls_bind; [|intros ?]
    | apply recalls_try
    | case_match ].

Section promises.
Context {S : Type} `{World S, Lib, PromiseLib, Config, PromiseCodec, Codec, YamlEncoder, TimeLib, ControllerManager S}.
Import PromiseReconciler.

Lemma dynamic_name_filed promise name :
  GetDynamicControllerName promise = Ok name →
  name = GetName promise ∨ ∃ crd, name = GetName promise +:+ "_" +:+ crd.
Proof.
unfold GetDynamicControllerName. destruct (GetAPI promise) as [[? crd]|e|]; [|by intros [= <-]; left|done].
intros [= <-]. right. eauto.
Qed.

Lemma shortID_length id i : shortID id = Ok i → String.length i = 5.
Proof.
unfold shortID, Strings.slice. destruct (_ && _) eqn:E; [|done]. intros [= <-].
apply andb_true_iff in E as [_ Hl%Nat.leb_le]. by apply substring_length.
Qed.

Lemma recalls_lift_bind {T A B} (P : T → Prop) (r : outcome A) (k : A → M (S * T) B) :
  (∀ a, r = Ok a → recalls P (k a)) → recalls P (bind (lift r) k).
Proof. intros Hk s t Ht. apply wp_bind, wp_lift. destruct r; [by apply Hk|done..]. Qed.

Lemma recalls_ensureStarted n t promise crd gvk b :
  recalls (S:=S) started_ok (ensureDynamicControllerIsStarted n t promise crd gvk b).
Proof.
unfold ensureDynamicControllerIsStarted. apply recalls_lift_bind. intros name Hname.
apply recalls_recall. intros started Hs. destruct (started !! name) as [d|] eqn:Hd.
- apply recalls_remember, map_Forall_insert_2; [|done]. exact (Hs _ _ Hd).
- apply recalls_lift_bind. intros uid Hu. apply recalls_bind; [|intros; apply recalls_zoom].
  apply recalls_remember, map_Forall_insert_2; [|done]. split; [by eapply shortID_length|].
  by apply dynamic_name_filed.
Qed.

Lemma recalls_disable promise : recalls (S:=S) started_ok (disableDynamicController promise).
Proof.
unfold disableDynamicController. apply recalls_lift_bind. intros name Hname.
apply recalls_recall. intros started Hs. destruct (started !! name) as [d|] eqn:Hd; [|recalls].
apply recalls_bind; [recalls|]. intros _. apply recalls_remember, map_Forall_insert_2; [|done].
exact (Hs _ _ Hd).
Qed.
#[local] Hint Resolve recalls_ensureStarted recalls_disable : recalls.

Lemma recalls_PromiseReconciler n t req : recalls (S:=S) started_ok (PromiseReconciler.Reconcile n t req).
Proof.
unfold PromiseReconciler.Reconcile, deletePromise, deleteResourceRequests, reconcilePromise,
  installPromise, serveRequests. recalls.
Qed.
End promises.

(** What a run that has both frames leaves. *)
Lemma run_keeps {S A} `{Viewed S} (m : M S A) s :
  frames stays_ok m → frames (keeping []) m →
  cluster_ok (view s) → guarded (view s) → cluster_ok (view (m s).2) ∧ guarded (view (m s).2).
Proof.
intros Ho Hg Hc Hp. destruct (m s) as [r s'] eqn:E. split.
- exact (wp_intro _ _ _ _ _ E (Ho s) Hc).
- exact (proj1 (wp_intro _ _ _ _ _ E (Hg s) (conj Hp (List.Forall_nil _)))).
Qed.

(** ** Steps *)
Record SystemState (S : Type) := mkSystem {
  sys_env : S;
  sys_started : Started;  (** [r.StartedDynamicControllers] *)
  sys_versions : gmap string string;  (** [r.VersionCache] *)
}.
Arguments mkSystem {S} _ _ _.
Arguments sys_env {S} _.
Arguments sys_started {S} _.
Arguments sys_versions {S} _.

Section steps.
Context {S : Type} `{World S, Viewed S, !WorldLaws S, Lib, !LibLaws, PromiseLib, Config, PromiseCodec}.
Context `{Codec, YamlEncoder, TimeLib, ControllerManager S, !ControllerManagerLaws S}.
Context `{!StateStoreWriter S, !StoredFiles S, !StateStoreLaws S, CanaryLib, WorkCreatorLib, StatusLib}.
Context `{!PromiseFetcher S, !PromiseFetcherLaws S, ReleaseLib, DetailsLib}.
Context (NumberOfJobsToKeep : nat) (ReconciliationInterval : Z).
Local Abbreviation sys := (SystemState S).

(** One run of a controller or of a program, or a request from outside.  A run may end
    in an error or a panic. *)
Inductive step : sys → sys → Prop :=
  | step_work req s st v :
      step (mkSystem s st v) (mkSystem (WorkReconciler.Reconcile req s).2 st v)
  | step_workplacement req s st v :
      step (mkSystem s st v)
           (let s' := (WorkPlacementReconciler.Reconcile req (s, v)).2 in mkSystem s'.1 st s'.2)
  | step_destination req s st v :
      step (mkSystem s st v) (mkSystem (DestinationReconciler.Reconcile req s).2 st v)
  | step_promise req s st v :
      step (mkSystem s st v)
           (let s' := (PromiseReconciler.Reconcile NumberOfJobsToKeep ReconciliationInterval
                         req (s, st)).2 in mkSystem s'.1 s'.2 v)
  | step_dynamic name d req s st v : st !! name = Some d →
      step (mkSystem s st v) (mkSystem (DynamicReconciler.Reconcile d req s).2 st v)
  | step_bucket_store req s st v :
      step (mkSystem s st v) (mkSystem (BucketStateStoreReconciler.Reconcile req s).2 st v)
  | step_git_store req s st v :
      step (mkSystem s st v) (mkSystem (GitStateStoreReconciler.Reconcile req s).2 st v)
  | step_release req s st v :
      step (mkSystem s st v) (mkSystem (PromiseReleaseReconciler.Reconcile req s).2 st v)
  | step_health_record req s st v :
      step (mkSystem s st v) (mkSystem (HealthRecordReconciler.Reconcile req s).2 st v)
  | step_work_creator fs dir promiseName namespace resourceName workflowType pipelineName s st v :
      step (mkSystem s st v)
           (mkSystem (Execute fs dir promiseName namespace resourceName workflowType pipelineName s).2 st v)
  | step_status_updater PC fs params s st v : ParentKind PC →
      step (mkSystem s st v) (mkSystem (StatusUpdater.run (PC:=PC) fs params s).2 st v)
  | step_outside s s' st v : outside (view s) (view s') →
      step (mkSystem s st v) (mkSystem s' st v)
  | step_unseen s s' st v : view s' = view s → step (mkSystem s st v) (mkSystem s' st v).

Definition initial (x : sys) : Prop :=
  view (sys_env x) = empty_cluster ∧ sys_started x = ∅.

Record invariant (x : sys) : Prop := {
  inv_cluster : cluster_ok (view (sys_env x));
  inv_placements : guarded (view (sys_env x));
  inv_started : started_ok (sys_started x);
}.

Lemma initial_invariant x : initial x → invariant x.
Proof.
intros [Hv Hs]. split.
- rewrite Hv. unfold cluster_ok. cbn. split_and!; split; by intros ? ? ?%lookup_empty_Some.
- rewrite Hv. split; cbn; by intros ? ? ?%lookup_empty_Some.
- rewrite Hs. apply map_Forall_empty.
Qed.

#[local] Instance parent_allowed R PC `{!Allowed R parents_coll, !Allowed R promises_coll} :
  ParentKind PC → Allowed R PC.
Proof. by intros [-> | ->]. Qed.

Lemma step_invariant x x' : step x x' → invariant x → invariant x'.
Proof.
intros Hstep [Hc Hp Hs].
assert (∀ A (m : M S A) s st v, frames stays_ok m → frames (keeping []) m →
  cluster_ok (view s) → guarded (view s) → started_ok st → invariant (mkSystem (m s).2 st v)) as Hrun.
{ intros A m s st v Ho Hg Hc' Hp' Hs'. destruct (run_keeps m s Ho Hg Hc' Hp'). by split. }
destruct Hstep; cbn in *.
- apply Hrun; [apply frames_WorkReconciler; exact _|apply keeping_WorkReconciler|done..].
- destruct (run_keeps (WorkPlacementReconciler.Reconcile req) (s, v)); [| |done|done|by split].
  + eapply frames_WorkPlacementReconciler; exact _.
  + eapply keeping_WorkPlacementReconciler; exact _.
- apply Hrun; [eapply frames_DestinationReconciler; exact _
              |eapply keeping_DestinationReconciler; exact _|done..].
- destruct (run_keeps (PromiseReconciler.Reconcile NumberOfJobsToKeep ReconciliationInterval req)
    (s, st)); [| |done|done|split; [done|done|]].
  + apply frames_PromiseReconciler; exact _.
  + apply frames_PromiseReconciler; exact _.
  + pose proof (recalls_PromiseReconciler NumberOfJobsToKeep ReconciliationInterval req s st Hs) as Hr.
    by destruct (PromiseReconciler.Reconcile _ _ _ _) eqn:E; apply (wp_intro _ _ _ _ _ E) in Hr.
- apply Hrun; [apply frames_DynamicReconciler; exact _|apply frames_DynamicReconciler; exact _|done..].
- apply Hrun; [eapply frames_BucketStateStoreReconciler; exact _
              |eapply frames_BucketStateStoreReconciler; exact _|done..].
- apply Hrun; [eapply frames_GitStateStoreReconciler; exact _
              |eapply frames_GitStateStoreReconciler; exact _|done..].
- apply Hrun; [eapply frames_PromiseReleaseReconciler; exact _
              |eapply frames_PromiseReleaseReconciler; exact _|done..].
- apply Hrun; [eapply frames_HealthRecordReconciler; exact _
              |eapply frames_HealthRecordReconciler; exact _|done..].
- apply Hrun; [apply frames_Execute; exact _|apply frames_Execute; exact _|done..].
- apply Hrun; [apply frames_status_updater; exact _|apply frames_status_updater; exact _|done..].
- split; cbn; [by apply (outside_ok (view s))|by apply (outside_guarded (view s))|done].
- split; cbn; [congruence|congruence|done].
Qed.

(** C3: In every state the system can reach, whatever the order of runs, the failures on the way
    and the requests of others: every object is stored under its own namespace and
    name; an object marked for deletion is held by a finalizer; a placement that is
    not marked for deletion carries the finalizer that makes its files be cleaned
    up first, provided others leave placements and their finalizers alone; and
    every controller started for resource requests is filed under its Promise. *)
Theorem system_invariant x0 x : initial x0 → rtc step x0 x → invariant x.
Proof.
intros Hinit Hsteps. apply initial_invariant in Hinit.
induction Hsteps as [|x y z Hxy _ IH]; [done|]. apply IH. by eapply step_invariant.
Qed.
End steps.
