(* ===== verification/SystemWitness.v ===== *)
(** * A run of the whole system

    Someone registers a destination and creates a Work; the Work controller takes the
    Work in and places it; the WorkPlacement controller writes it to the state
    store. *)

From S2P Require Import Prelude GoLib Files Codec Meta Api Kube Client Sim SimPromise SimStore Shared ResourceUtil.
From S2P Require Import Promise PromiseStore WorkCreator WorkCreatorWitness StatusUpdater PipelineFactory Frame.
From S2P Require Import FactoryWitness DynamicController DynamicWitness PromiseController Scheduler.
From S2P Require Import SchedulerWitness WorkController StateStore WorkPlacementController.
From S2P Require Import DestinationController DestinationFacts PromiseRelease ReleaseWitness HealthRecord PlacementGuard System.

#[local] Existing Instances Sim_PromiseLib Sim_Config Sim_Time Sim_Canary foo_selectors.
#[global] Instance Sim_Manager : ControllerManager Sim := {|
  w_start_controller _ s := (inr tt, s); w_restart_manager s := (tt, s) |}.
#[global] Instance Sim_manager_laws : ControllerManagerLaws Sim.
Proof. split; [intros gvk s r s'|intros s u s']; by intros [= _ <-]. Qed.
#[global] Instance Sim_Yaml : YamlEncoder := λ buf _, inr (buf +:+ "---").

Definition nothing : SystemState Sim :=
  mkSystem (sim_of empty_cluster) ∅ ∅.
Definition with_destination : SystemState Sim :=
  mkSystem (sim_set_cluster (set_coll (<[("", "d1") := on_create "u1" 0 1 (dest "d1" "dev")]> ∅)
    (view (sys_env nothing))) (sys_env nothing)) ∅ ∅.
Definition with_work : SystemState Sim :=
  mkSystem (sim_set_cluster (set_coll (<[("default", "redis") := on_create "u2" 0 1 (work_for "")]> ∅)
    (view (sys_env with_destination))) (sys_env with_destination)) ∅ ∅.
Definition after_work (x : SystemState Sim) : SystemState Sim :=
  mkSystem (WorkReconciler.Reconcile ("default", "redis") (sys_env x)).2 (sys_started x) (sys_versions x).
Definition after_placement (x : SystemState Sim) : SystemState Sim :=
  let s' := (WorkPlacementReconciler.Reconcile ("default", "redis.d1-5058f")
               (sys_env x, sys_versions x)).2 in
  mkSystem s'.1 (sys_started x) s'.2.

Definition placed_state : SystemState Sim := after_placement (after_work (after_work with_work)).

Lemma placed_reachable : rtc (step 5 36000) nothing placed_state.
Proof.
eapply rtc_l; [apply (step_outside _ _ _ (sys_env with_destination))|].
{ split; [|by intros k p' Hp']. eexists _, _, destinations_coll. split; [constructor|].
  exact (accepted_create destinations_coll (view (sys_env nothing)) "u1" 0 1 (dest "d1" "dev") eq_refl). }
eapply rtc_l; [apply (step_outside _ _ _ (sys_env with_work))|].
{ split; [|by intros k p' Hp']. eexists _, _, works_coll. split; [constructor|].
  exact (accepted_create works_coll (view (sys_env with_destination)) "u2" 0 1 (work_for "") eq_refl). }
eapply rtc_l; [exact (step_work _ _ ("default", "redis") (sys_env with_work) ∅ ∅)|].
eapply rtc_l; [exact (step_work _ _ ("default", "redis") (sys_env (after_work with_work)) ∅ ∅)|].
apply rtc_once.
exact (step_workplacement _ _ ("default", "redis.d1-5058f") (sys_env (after_work (after_work with_work))) ∅ ∅).
Qed.

Lemma system_invariant_witness :
  invariant placed_state ∧
  ∃ p, c_workplacements (view (sys_env placed_state)) !! ("default", "redis.d1-5058f") = Some p ∧
    repoCleanupWorkPlacementFinalizer ∈ GetFinalizers p.
Proof.
assert (invariant placed_state) as Hinv.
{ apply (system_invariant 5 36000 nothing); [by split|]. exact placed_reachable. }
split; [exact Hinv|].
assert (match c_workplacements (view (sys_env placed_state)) !! ("default", "redis.d1-5058f") with
  Some p => deleting p = false | None => False end) as Hp by (vm_compute; reflexivity).
destruct (c_workplacements _ !! _) as [p|] eqn:E; [|destruct Hp]. exists p. split; [done|].
apply (proj2 (inv_placements _ Hinv) _ _ E Hp).
Defined.
