(* ===== verification/PromiseServe.v ===== *)
(** * Properties of the Promise controller: the API and the controller for its requests *)

From S2P Require Import Prelude GoLib Codec Meta Api Kube Client Shared ResourceUtil Promise PromiseStore.
From S2P Require Import Frame PipelineFactory Workflow DynamicController PromiseController PromiseInstall.
From S2P Require Import System.
Import PromiseReconciler.

Section serve.
Context {S : Type} `{World S, Lib, !LibLaws, PromiseLib, Config, PromiseCodec, TimeLib, ControllerManager S}.
Context (NumberOfJobsToKeep : nat) (ReconciliationInterval : Z).
Implicit Types s : S.

(** The controller kept for the Promise is up to date with it. *)
Record follows (promise : Promise) (crd : CRD) (gvk : GVK) (can : bool)
    (d : DynamicResourceRequestController) : Prop := {
  fo_crd : dc_crd d = crd;
  fo_gvk : dc_gvk d = gvk;
  fo_selectors : dc_promiseDestinationSelectors d = prs_destinationSelectors (r_spec promise);
  fo_can : dc_canCreateResources d = can;
}.

Lemma wp_ensureStarted promise crd gvk can (Q : outcome unit → S * Started → Prop) s st :
  (∀ name d s', GetDynamicControllerName promise = Ok name → follows promise crd gvk can d →
     (∀ old, st !! name = Some old → dc_enabled d = dc_enabled old ∧ s' = s) →
     (st !! name = None → dc_enabled d = true ∧ dc_promiseIdentifier d = GetName promise) →
     Q (Ok tt) (s', <[name := d]> st) ∧ ∀ e, Q (Fail e) (s', <[name := d]> st)) →
  Q Panicked (s, st) → (∀ e, Q (Fail e) (s, st)) →
  wp (ensureDynamicControllerIsStarted NumberOfJobsToKeep ReconciliationInterval promise crd gvk can) Q (s, st).
Proof.
intros HO HP HF. unfold ensureDynamicControllerIsStarted. apply wp_bind, wp_lift.
destruct (GetDynamicControllerName promise) as [name|e|] eqn:En; [|by apply HF|done].
apply wp_bind, wp_recall. destruct (st !! name) as [old|] eqn:Eo.
- apply wp_remember, (HO name); [done|by split| |congruence].
  intros old' Ho. rewrite Eo in Ho. by injection Ho as <-.
- apply wp_bind, wp_lift. destruct (shortID _) as [uid|e|]; [|by apply HF|done].
  apply wp_bind, wp_remember, wp_zoom.
  match goal with |- context [<[name := ?x]> st] => set (d := x) end.
  assert (∀ s', Q (Ok tt) (s', <[name := d]> st) ∧ ∀ e, Q (Fail e) (s', <[name := d]> st)) as HQ
    by (intros s'; apply (HO name); [done|by split|congruence|done]).
  apply wp_call; [intros [] s' _|intros e s' _]; by apply HQ.
Qed.

(** C25: The controller for the requests of a Promise follows the Promise: when serving them
    gets that far, the controller on record knows the current CRD, kind, and destination
    selectors, and may create resources exactly when all requirements are
    installed.  The Promise goes on to become available only when they are, and
    only with the finalizer that makes its requests be deleted first. *)
Theorem requests_follow_promise promise crd gvk s st :
  wp (serveRequests NumberOfJobsToKeep ReconciliationInterval promise (Some (crd, gvk))) (λ r x,
    match r with
    | Ok res =>
        (∃ name d, GetDynamicControllerName promise = Ok name ∧ x.2 !! name = Some d ∧
           follows promise crd gvk (requirements_installed promise) d) ∧
        (res = None → requirements_installed promise = true ∧
           resourceRequestCleanupFinalizer ∈ GetFinalizers promise)
    | _ => True
    end) (s, st).
Proof.
unfold serveRequests. apply wp_bind, wp_ensureStarted; [|done..].
intros name d s1 Hname Hd _ _. split; [|done].
assert (∀ (m : M S Result), wp (let! r := zoom m in ret (Some r)) (λ r x,
  match r with
  | Ok res => (∃ name d, GetDynamicControllerName promise = Ok name ∧ x.2 !! name = Some d ∧
      follows promise crd gvk (requirements_installed promise) d) ∧
      (res = None → requirements_installed promise = true ∧
         resourceRequestCleanupFinalizer ∈ GetFinalizers promise)
  | _ => True
  end) (s1, <[name := d]> st)) as Hsome.
{ intros m. apply wp_bind, wp_zoom. apply (wp_mono _ (λ _ _, True)); [done|].
  intros [r|e|] s2 _; [|done..]. apply wp_ret. split; [|done]. exists name, d. split; [done|]. split; [apply lookup_insert_eq|done]. }
unfold DoesNotContainFinalizer. rewrite contains_finalizer.
case_bool_decide as Hfin; cbn [negb]; [|apply Hsome].
destruct (requirements_installed promise) eqn:Hreq; cbn [negb].
2:{ apply wp_ret. split; [|done]. exists name, d. split; [done|]. split; [apply lookup_insert_eq|done]. }
destruct (shouldReconcileResources promise); [apply Hsome|]. apply wp_ret. split; [|done].
exists name, d. split; [done|]. split; [apply lookup_insert_eq|done].
Qed.

(** A controller whose start failed is on record all the same, so it is not started again. *)
Lemma failed_start_remembered promise crd gvk can name uid e s s1 st :
  GetDynamicControllerName promise = Ok name → st !! name = None →
  shortID (om_uid (r_meta promise)) = Ok uid → w_start_controller gvk s = (inl e, s1) →
  let ensure := ensureDynamicControllerIsStarted NumberOfJobsToKeep ReconciliationInterval promise crd gvk can in
  (ensure (s, st)).1 = Fail e ∧
  ∀ s2, (ensure (s2, (ensure (s, st)).2.2)).1 = Ok tt ∧ (ensure (s2, (ensure (s, st)).2.2)).2.1 = s2.
Proof.
intros Hname Hst Huid Hstart ensure.
assert (∀ s2 st' old, st' !! name = Some old → (ensure (s2, st')).1 = Ok tt ∧ (ensure (s2, st')).2.1 = s2)
  as Hknown.
{ intros s2 st' old Ho. subst ensure. unfold ensureDynamicControllerIsStarted, lift, bind, recall.
  rewrite Hname. cbn -[lookup]. by rewrite Ho. }
assert (∃ d, ensure (s, st) = (Fail e, (s1, <[name := d]> st))) as (d & Hd).
{ subst ensure. unfold ensureDynamicControllerIsStarted, lift, bind, recall, remember.
  rewrite Hname. cbn -[lookup]. rewrite Hst, Huid. unfold StartController, zoom, call. cbn -[insert].
  rewrite Hstart. by eexists. }
rewrite Hd. split; [done|]. intros s2. cbn [fst snd]. eapply Hknown, lookup_insert_eq.
Qed.
End serve.

(** ** The API *)
Definition crd_ready (crd : CRD) (c : Cluster) : Prop :=
  ∃ o, c_crds c !! ("", GetName crd) = Some o ∧
    crd_versions (r_spec o) = crd_versions (r_spec crd) ∧
    crd_conversion (r_spec o) = crd_conversion (r_spec crd) ∧ GetLabels crd ⊆ GetLabels o ∧
    ∃ cond, cond ∈ crdst_conditions (r_status o) ∧ crdc_type cond = "Established" ∧
      crdc_status cond = ConditionTrue.

(** The controller may do everything to the requests. *)
Definition access_ready (promise : Promise) (crd : CRD) (gvk : GVK) (c : Cluster) : Prop :=
  let name := GetControllerResourceName promise in
  (∃ role, c_clusterroles c !! ("", name) = Some role ∧
     crole_rules (r_spec role) = GenerateFullAccessForRR (gvk_group gvk) (crd_plural (r_spec crd)) ∧
     GenerateSharedLabels promise ⊆ GetLabels role) ∧
  (∃ crb, c_clusterrolebindings c !! ("", name) = Some crb ∧ rr_name (crb_roleRef (r_spec crb)) = name ∧
     crb_subjects (r_spec crb) = [{| sub_kind := "ServiceAccount";
                                     sub_name := "kratix-platform-controller-manager";
                                     sub_namespace := SystemNamespace |}] ∧
     GenerateSharedLabels promise ⊆ GetLabels crb).

Section api.
Context {S : Type} `{World S, Viewed S, !WorldLaws S, Lib, !LibLaws, PromiseLib, PromiseCodec}.
Implicit Types s : S.

(** Creating or updating an object with a mutation that keeps its finalizers stores it. *)
Lemma wp_apply {Sp St} `{C : !Collection Sp St} (o : Resource Sp St) f (P : Resource Sp St → Prop)
    (Q : outcome (Resource Sp St * string) → S → Prop) s :
  sound (coll (view s)) →
  (∀ x y, f x = inr y → GetFinalizers y = GetFinalizers x ∧ P y) →
  (∀ x y, r_spec x = r_spec y → GetLabels x = GetLabels y → P x → P y) →
  (∀ m x op s', view s' = set_coll m (view s) → m !! key o = Some x → P x → sound m → Q (Ok (x, op)) s') →
  (∀ e s', view s' = view s → Q (Fail e) s') →
  wp (CreateOrUpdate o f) Q s.
Proof.
intros Hs Hf HP HO HE. apply wp_CreateOrUpdate; [| |done].
- intros o1 uid t gen op s' _ [_ Hp]%Hf Hk Hv. eapply HO; [exact Hv|apply lookup_insert_eq| |].
  + by apply (HP o1).
  + by apply sound_insert.
- intros old o1 gen op s' Hold Hf1 Hk Hv. pose proof (Hf _ _ Hf1) as [Hfin Hp].
  assert (put_or_reap (on_update gen old o1) (coll (view s)) =
    <[key o := on_update gen old o1]> (coll (view s))) as Hput.
  { unfold put_or_reap. change (key (on_update gen old o1)) with (key o1). rewrite Hk.
    destruct (deleting (on_update gen old o1)) eqn:Hd; [|done]. rewrite bool_decide_false; [done|].
    intros E. apply (proj2 Hs _ _ Hold Hd). by rewrite <-Hfin. }
  rewrite Hput in Hv. eapply HO; [exact Hv|apply lookup_insert_eq|by apply (HP o1)|].
  rewrite <-Hput. by apply sound_put.
Qed.

Lemma wp_ensureCRDExists promise crd s :
  cluster_ok (view s) →
  wp (ensureCRDExists promise crd)
    (λ r s', r = Ok None → crd_ready crd (view s') ∧ cluster_ok (view s')) s.
Proof.
intros Hc. unfold ensureCRDExists. apply wp_bind, wp_try, wp_Create; [by intros; apply wp_ret|].
intros e s1 Hv1. destruct (IsAlreadyExists e); cbn [negb]; [|by apply wp_fail].
apply wp_bind, wp_Get; [|done]. intros o1 s2 Hv2 Ho1. apply wp_bind, wp_Update; [|done].
intros old gen s3 Hold Hv3. cbv zeta. match type of Hv3 with context [on_update gen old ?x] => set (new := x) in * end.
assert (key new = ("", GetName crd)) as Hkey.
{ change (key new) with (key o1). unfold cluster_ok, sound in Hc. rewrite Hv1 in Ho1.
  destruct Hc as (_ & _ & _ & _ & _ & _ & [Hkc _] & _). exact (Hkc _ _ Ho1). }
apply wp_bind. unfold updateStatus. cbv zeta. case_match.
2:{ apply wp_bind. apply (wp_mono _ (λ _ _, True)); [done|].
    intros [|e'|] s4 _; [|done..]. apply wp_ret, wp_ret. done. }
apply wp_ret. cbn match. apply wp_bind, wp_Get; [|done]. intros o2 s4 Hv4 Ho2.
destruct (existsb _ _) eqn:Ee; apply wp_ret; [|done]. intros _. split.
- exists o2. change (c_crds (view s3) !! ("", GetName crd) = Some o2) in Ho2. split; [by rewrite Hv4|].
  rewrite Hv3 in Ho2. cbn in Ho2. unfold put_or_reap in Ho2.
  change (key (on_update gen old new)) with (key new) in Ho2. rewrite Hkey in Ho2.
  case_match; [by rewrite lookup_delete_eq in Ho2|]. rewrite lookup_insert_eq in Ho2.
  injection Ho2 as <-. split_and!; [done|done| |].
  + cbn. rewrite merge_spec. apply map_union_subseteq_l.
  + apply existsb_exists in Ee as (cond & Hin & [Ht Hs]%andb_true_iff). exists cond.
    rewrite list_elem_of_In. split; [done|]. split; by apply (bool_decide_eq_true_1 _).
- rewrite Hv4, Hv3. apply (allow_update (R:=stays_ok) (C:=crds_coll) (view s2) gen old new Hold).
  by rewrite Hv2, Hv1.
Qed.

Lemma merge_shared (ls ls' : Labels) : ls' ⊆ labels_Merge ls ls'.
Proof. rewrite merge_spec. apply map_union_subseteq_l. Qed.

Lemma wp_createAccess promise crd gvk s :
  cluster_ok (view s) →
  wp (createResourcesForDynamicControllerIfTheyDontExist promise crd gvk) (λ r s',
    r = Ok tt → access_ready promise crd gvk (view s') ∧ c_crds (view s') = c_crds (view s)) s.
Proof.
intros Hc. unfold createResourcesForDynamicControllerIfTheyDontExist. cbv zeta.
set (name := GetControllerResourceName promise).
set (full := GenerateFullAccessForRR (gvk_group gvk) (crd_plural (r_spec crd))).
apply wp_bind, wp_try, (wp_apply _ _ (λ role : ClusterRole, crole_rules (r_spec role) = full ∧
  GenerateSharedLabels promise ⊆ GetLabels role)).
- unfold cluster_ok in Hc. cbn. tauto.
- intros x y [= <-]. split; [done|]. split; [done|apply merge_shared].
- intros x y Hsp Hl [Hr Hs]. by rewrite <-Hsp, <-Hl.
- intros m role op s1 Hv1 Hrole [Hr Hs] _.
  apply wp_bind, wp_try, (wp_apply _ _ (λ crb : ClusterRoleBinding,
    rr_name (crb_roleRef (r_spec crb)) = name ∧
    crb_subjects (r_spec crb) = [{| sub_kind := "ServiceAccount";
      sub_name := "kratix-platform-controller-manager"; sub_namespace := SystemNamespace |}] ∧
    GenerateSharedLabels promise ⊆ GetLabels crb)).
  + rewrite Hv1. unfold cluster_ok in Hc. cbn. tauto.
  + intros x y [= <-]. split; [done|]. split_and!; [done|done|apply merge_shared].
  + intros x y Hsp Hl HP. by rewrite <-Hsp, <-Hl.
  + intros m' crb op' s2 Hv2 Hcrb (Hn & Hsub & Hs') _. apply wp_ret. intros _.
    rewrite Hv2, Hv1. split; [|done]. split; [by exists role|by exists crb].
  + intros e s2 _. by apply wp_fail.
- intros e s1 _. by apply wp_fail.
Qed.

(** C8: Requests are not served before the API is there.  The controller goes on to serve
    requests of a Promise only when the Promise's CRD is stored with the current
    versions and conversion and the Promise's labels and is established, the cluster role
    with full access to the kind and the binding of it to the controller's service
    account are there, and the Promise has the two finalizers that get them
    removed.  Without an API there is nothing to do. *)
Theorem api_ready_before_requests promise s :
  cluster_ok (view s) →
  wp (ensureAPI promise) (λ r s',
    match r with
    | Ok (inr (Some (crd, gvk))) =>
        generateCRDAndGVK promise = Ok (crd, gvk) ∧ crd_ready crd (view s') ∧
        access_ready promise crd gvk (view s') ∧ crdCleanupFinalizer ∈ GetFinalizers promise ∧
        dynamicControllerDependantResourcesCleanupFinalizer ∈ GetFinalizers promise
    | Ok (inr None) => ContainsAPI promise = false ∧ view s' = view s
    | _ => True
    end) s.
Proof.
intros Hc. unfold ensureAPI. destruct (ContainsAPI promise); cbn [negb]; [|by apply wp_ret].
apply wp_bind, wp_lift. destruct (generateCRDAndGVK promise) as [[crd gvk]|e|]; [|done|done].
apply wp_bind. eapply wp_mono; [by apply wp_ensureCRDExists|].
intros [[res|]|e|] s1 Hs1; [by apply wp_ret| |done|done].
destruct (Hs1 eq_refl) as [Hready Hc1]. unfold DoesNotContainFinalizer. rewrite !contains_finalizer.
assert (∀ (m : M S Result), wp (let! r := m in ret (inl r)) (λ r s',
  match r with
  | Ok (inr (Some (crd0, gvk0))) =>
      Ok (crd, gvk) = Ok (crd0, gvk0) ∧ crd_ready crd0 (view s') ∧
      access_ready promise crd0 gvk0 (view s') ∧ crdCleanupFinalizer ∈ GetFinalizers promise ∧
      dynamicControllerDependantResourcesCleanupFinalizer ∈ GetFinalizers promise
  | Ok (inr None) => true = false ∧ view s' = view s
  | _ => True
  end) s1) as Hstop.
{ intros m. apply wp_bind, (wp_mono _ (λ _ _, True)); [done|]. intros [r|e|] s2 _; [by apply wp_ret|done..]. }
case_bool_decide as Hf1; cbn [negb]; [|apply Hstop].
apply wp_bind. eapply wp_mono; [by apply wp_createAccess|].
intros [[]|e|] s2 Hs2; [|done..]. destruct (Hs2 eq_refl) as [Hacc Hcrds].
case_bool_decide as Hf2; cbn [negb].
- apply wp_ret. split_and!; [done| |done|done|done]. unfold crd_ready. by rewrite Hcrds.
- apply wp_bind, (wp_mono _ (λ _ _, True)); [done|]. intros [r|e|] s3 _; [by apply wp_ret|done..].
Qed.
End api.
