(* ===== verification/PromiseDeletion.v ===== *)
(** * Properties of the Promise controller: deletion *)

From S2P Require Import Prelude GoLib Codec Meta Api Kube Client Shared ResourceUtil Promise PromiseStore.
From S2P Require Import Purge ResourceFacts Frame PipelineFactory Workflow WorkflowPlan WorkflowFacts.
From S2P Require Import WorkflowDelete FactoryFacts DynamicController PromiseController SystemFrames System.
Import PromiseReconciler.

(** ** The phases of a deletion *)
Inductive PromisePhase :=
  | PWorkflows | PJobs | PRequests | PDynamicResources | PDependencies | PCRD | PDone.

Definition promise_phase (promise : Promise) : PromisePhase :=
  let has f := bool_decide (f ∈ GetFinalizers promise) in
  if has runDeleteWorkflowsFinalizer then PWorkflows
  else if has removeAllWorkflowJobsFinalizer then PJobs
  else if has resourceRequestCleanupFinalizer then PRequests
  else if has dynamicControllerDependantResourcesCleanupFinalizer then PDynamicResources
  else if has dependenciesCleanupFinalizer then PDependencies
  else if has crdCleanupFinalizer then PCRD else PDone.

Definition promise_phase_finalizer (ph : PromisePhase) : option string :=
  match ph with
  | PWorkflows => Some runDeleteWorkflowsFinalizer
  | PJobs => Some removeAllWorkflowJobsFinalizer
  | PRequests => Some resourceRequestCleanupFinalizer
  | PDynamicResources => Some dynamicControllerDependantResourcesCleanupFinalizer
  | PDependencies => Some dependenciesCleanupFinalizer
  | PCRD => Some crdCleanupFinalizer
  | PDone => None
  end.

(** What the later phases are to delete is not touched. *)
Definition later_kept (ph : PromisePhase) (c c' : Cluster) : Prop :=
  match ph with
  | PWorkflows | PJobs =>
      c_parents c' = c_parents c ∧ c_works c' = c_works c ∧ c_crds c' = c_crds c
  | PRequests | PDynamicResources => c_works c' = c_works c ∧ c_crds c' = c_crds c
  | PDependencies => c_crds c' = c_crds c
  | PCRD => c_works c' = c_works c
  | PDone => c' = c
  end.
#[local] Instance later_kept_preorder ph : PreOrder (later_kept ph).
Proof.
split; [by intros c; destruct ph|]. intros a b c. destruct ph; cbn; intros; destruct_and?;
  split_and?; congruence.
Qed.
#[local] Hint Extern 1 (Harmless (later_kept _) _ _) => (intros ? ?; done) : typeclass_instances.

(** The finalizer [f] is on the Promise stored at [k]. *)
Definition promise_held (f : string) (k : Key) (c : Cluster) : Prop :=
  ∃ u, c_promises c !! k = Some u ∧ f ∈ GetFinalizers u.

Definition promise_stored (promise : Promise) (c : Cluster) : Prop :=
  ∃ u, c_promises c !! key promise = Some u ∧ GetFinalizers u = GetFinalizers promise.

(** No object of the kind carries the labels. *)
Definition none_left (kd : DependentKind) (ls : Labels) (c : Cluster) : Prop :=
  match kd with
  | KClusterRoleBinding => ∀ k o, c_clusterrolebindings c !! k = Some o → ¬ carries ls o
  | KClusterRole => ∀ k o, c_clusterroles c !! k = Some o → ¬ carries ls o
  | KRoleBinding => ∀ k o, c_rolebindings c !! k = Some o → ¬ carries ls o
  | KRole => ∀ k o, c_roles c !! k = Some o → ¬ carries ls o
  | KServiceAccount => ∀ k o, c_serviceaccounts c !! k = Some o → ¬ carries ls o
  | KConfigMap => ∀ k o, c_configmaps c !! k = Some o → ¬ carries ls o
  end.

Definition promise_job_labels (promise : Promise) : Labels :=
  <[WorkflowTypeLabel := WorkflowTypePromise]> (<[PromiseNameLabel := GetName promise]> ∅).
Definition promise_job_legacy_labels (promise : Promise) : Labels :=
  <[WorkTypeLabel := WorkTypePromise]> (<[PromiseNameLabel := GetName promise]> ∅).

(** The conversion to an unstructured object keeps the metadata and the API version. *)
Class ConverterLaws `{PromiseLib} : Prop := {
  to_unstructured_meta : ∀ p u, ToUnstructured p = inr u → r_meta u = r_meta p;
  to_unstructured_version : ∀ p u, ToUnstructured p = inr u →
    us_apiVersion (r_spec u) = prs_apiVersion (r_spec p);
}.

Section deletion.
Context {S : Type} `{World S, Viewed S, !WorldLaws S, Lib, !LibLaws, PromiseLib, !ConverterLaws, Config}.
Context `{PromiseCodec, Codec, YamlEncoder, TimeLib, ControllerManager S, !ControllerManagerLaws S}.
Context (NumberOfJobsToKeep : nat) (ReconciliationInterval : Z).
Implicit Types s : S.
Implicit Types promise : Promise.

(** The delete workflow has nothing to run, or its newest job has succeeded. *)
Definition promise_delete_over promise (c : Cluster) : Prop :=
  ∃ u (s0 : S) ps, ToUnstructured promise = inr u ∧ view s0 = c ∧
    (GeneratePromisePipelines promise WorkflowActionDelete s0).1 = Ok ps ∧
    match head ps with
    | None => True
    | Some p => ∃ j, delete_newest u p c (Some j) ∧ isRunning (Some j) = false ∧
                     (0 < js_succeeded (r_status j))%Z
    end.

(** What must hold before the finalizer of a phase is released. *)
Definition promise_phase_goal promise (c c' : Cluster) : Prop :=
  match promise_phase promise with
  | PWorkflows => promise_delete_over promise c
  | PJobs =>
      (∀ k j, c_jobs c !! k = Some j → ¬ carries (promise_job_labels promise) j) ∨
      (∀ k j, c_jobs c' !! k = Some j → ¬ carries (promise_job_legacy_labels promise) j)
  | PRequests => c_parents c' = ∅
  | PDynamicResources => ∀ kd, none_left kd (GenerateSharedLabels promise) c'
  | PDependencies => ∀ k w, c_works c' !! k = Some w → ¬ carries (GenerateSharedLabels promise) w
  | PCRD => match GetAPI promise with
            | Ok (_, crd) => c_crds c' !! ("", GetName crd) = None
            | _ => True
            end
  | PDone => False
  end.

Definition promise_deletion_step promise (c c' : Cluster) : Prop :=
  later_kept (promise_phase promise) c c' ∧
  ∀ f, f ∈ GetFinalizers promise →
    promise_held f (key promise) c' ∨
    promise_phase_finalizer (promise_phase promise) = Some f ∧ promise_phase_goal promise c c'.

(** Every finalizer is still there, but for [f], which may go when [G] holds. *)
Definition releases promise (f : string) (G : Cluster → Prop) (c' : Cluster) : Prop :=
  ∀ g, g ∈ GetFinalizers promise → promise_held g (key promise) c' ∨ g = f ∧ G c'.

Lemma releases_stored promise f G c : promise_stored promise c → releases promise f G c.
Proof. intros (u & Hu & Hf) g Hg. left. exists u. by rewrite Hf. Qed.

Lemma stored_promises promise c c' :
  c_promises c' = c_promises c → promise_stored promise c → promise_stored promise c'.
Proof. unfold promise_stored. by intros ->. Qed.

Lemma wp_removePromiseFinalizer promise f (G : Cluster → Prop) s :
  promise_stored promise (view s) → G (view s) →
  (∀ c c', only_promises c c' → G c → G c') →
  wp (removePromiseFinalizer promise f) (λ _ s', releases promise f G (view s')) s.
Proof.
intros Hst HG Hmono. unfold removePromiseFinalizer, UpdatePromise. apply wp_bind, wp_bind, wp_Update.
2:{ intros e s' Hv. rewrite Hv. by apply releases_stored. }
intros old gen s' Hold Hv. set (new := on_update gen old _) in *.
assert (∀ g, g ∈ GetFinalizers promise → g = f ∨ g ∈ GetFinalizers new) as Hin.
{ intros g Hg. destruct (decide (g = f)) as [|Hne]; [by left|right]. by apply elem_of_remove_finalizer. }
assert (releases promise f G (view s')) as Hrel.
{ intros g [->|Hg]%Hin; [right|left].
  - split; [done|]. eapply Hmono; [|exact HG]. by rewrite Hv.
  - rewrite Hv. unfold promise_held. cbn. unfold put_or_reap.
    rewrite (bool_decide_false (GetFinalizers new = [])); [|by intros E; rewrite E in Hg; apply elem_of_nil in Hg].
    rewrite andb_false_r. exists new. split; [apply lookup_insert_eq|done]. }
unfold of_sum. destruct (decode_promise _); [by apply wp_fail|]. by apply wp_ret, wp_ret.
Qed.

(** ** The delete workflow *)
Lemma wp_runDeleteWorkflows promise s :
  keyed (c_jobs (view s)) → promise_stored promise (view s) → GetFinalizers promise ≠ [] →
  wp (runDeleteWorkflows NumberOfJobsToKeep promise)
    (λ _ s', releases promise runDeleteWorkflowsFinalizer (λ _, promise_delete_over promise (view s))
       (view s')) s.
Proof.
intros Hk Hst Hf. set (G := λ _ : Cluster, promise_delete_over promise (view s)).
unfold runDeleteWorkflows. apply wp_bind. unfold of_sum.
destruct (ToUnstructured promise) as [e|u] eqn:Eu; [by apply wp_fail, releases_stored|].
pose proof (to_unstructured_meta _ _ Eu) as Hm.
assert (key u = key promise ∧ GetFinalizers u = GetFinalizers promise) as [Hku Hfu]
  by (unfold key, GetFinalizers; by rewrite Hm).
assert (∀ c, parent_stored (PC:=promises_coll) u c → promise_stored promise c) as Hback
  by (intros c (u' & Hu & Hfs); exists u'; rewrite <-Hku, <-Hfu; auto).
assert (parent_stored (PC:=promises_coll) u (view s)) as Hus
  by (destruct Hst as (u' & Hu & Hfs); exists u'; rewrite Hku, Hfu; auto).
apply wp_ret, wp_bind.
destruct (GeneratePromisePipelines promise WorkflowActionDelete s) as [res s1] eqn:Eg.
assert (reads s (λ ps, ∀ p, p ∈ ps → GetLabels (pjr_job p) ≠ ∅) res s1) as [Hv1 Hl].
{ eapply wp_intro; [exact Eg|]. apply wp_generated_labelled; set_solver. }
eapply wp_elim; [exact Eg|]. destruct res as [ps|e|]; [|rewrite Hv1; by apply releases_stored..].
assert (∀ p, head ps = Some p → GetLabels (pjr_job p) ≠ ∅) as Hl'
  by (intros p Hh; apply Hl; destruct ps; simplify_eq/=; by left).
apply wp_bind. eapply wp_mono.
{ apply wp_and.
  - apply wp_ReconcileDelete; [by rewrite Hv1|exact Hl'].
  - apply wp_ReconcileDelete_held; rewrite ?Hv1, ?Hfu; done. }
rewrite Hv1. intros [[requeue u']|e|] s2 [Hplan Hs2]; cbn [post] in *; [| |done].
2:{ by apply releases_stored, Hback, Hs2. }
destruct Hs2 as [[Hs2 _] Hsame]. destruct requeue; [by apply wp_ret, releases_stored, Hback|].
cbn in Hsame. destruct (Hsame eq_refl) as [-> Hv2].
apply wp_bind. eapply wp_mono; [apply (wp_removePromiseFinalizer promise _ G)|].
- by rewrite Hv2.
- exists u, s, ps. split_and!; [done|done|by rewrite Eg|]. unfold delete_done in Hplan. cbn in Hplan.
  destruct (head ps) as [p|]; [|done]. destruct Hplan as (mj & Hnew & Heff).
  by apply delete_over in Heff as (j & -> & Hrun & Hsucc); exists j.
- done.
- intros [[]|e|] s3 Hs3; [by apply wp_ret|done|done].
Qed.

(** ** Jobs *)
Lemma wp_deletePromiseWorkflowJobs promise s :
  keyed (c_jobs (view s)) → promise_stored promise (view s) →
  wp (deletePromiseWorkflowJobs promise removeAllWorkflowJobsFinalizer)
    (λ _ s', releases promise removeAllWorkflowJobsFinalizer (λ c',
       (∀ k j, c_jobs (view s) !! k = Some j → ¬ carries (promise_job_labels promise) j) ∨
       (∀ k j, c_jobs c' !! k = Some j → ¬ carries (promise_job_legacy_labels promise) j)) (view s')) s.
Proof.
intros Hk Hst. apply wp_deleteTwice; [done| |].
- intros b b' m s1 Hb Hno Hno'.
  assert (promise_stored promise (view s1)) as Hst1 by (unfold becomes in Hb; by rewrite Hb).
  destruct b; [destruct b'|]; cbn [negb orb].
  + by apply wp_ret, releases_stored.
  + apply wp_removePromiseFinalizer; [done|right; by apply Hno'|]. intros c c' -> Hg. exact Hg.
  + apply wp_removePromiseFinalizer; [done|left; by apply Hno|]. intros c c' -> Hg. exact Hg.
- intros e m s1 Hb. apply releases_stored. unfold becomes in Hb. by rewrite Hb.
Qed.

(** ** Resource requests *)
Lemma frames_started promise crd gvk b :
  frames (S:=S * Started) (@eq Cluster)
    (ensureDynamicControllerIsStarted NumberOfJobsToKeep ReconciliationInterval promise crd gvk b).
Proof. unfold ensureDynamicControllerIsStarted. frames; apply frames_StartController; exact _. Qed.

Lemma wp_deleteResourceRequests promise s st :
  keyed (c_parents (view s)) → promise_stored promise (view s) →
  wp (deleteResourceRequests NumberOfJobsToKeep ReconciliationInterval promise)
    (λ _ x, releases promise resourceRequestCleanupFinalizer (λ c', c_parents c' = ∅) (view x.1)) (s, st).
Proof.
intros Hk Hst. unfold deleteResourceRequests. apply wp_bind, wp_lift.
destruct (generateCRDAndGVK promise) as [[crd gvk]|e|]; [|by apply releases_stored..].
apply wp_bind, wp_zoom, wp_deleteAllResources; [done|..].
- intros s1 Hv1 Hno. apply wp_bind. eapply wp_mono; [apply frames_started|].
  intros [[]|e|] [s2 st2] Hv2; change (view s1 = view s2) in Hv2; cbn [fst];
    rewrite Hv1 in Hv2; [|rewrite <-Hv2; by apply releases_stored..].
  apply wp_zoom. eapply wp_mono; [apply (wp_removePromiseFinalizer _ _ (λ c', c_parents c' = ∅)); rewrite <-?Hv2|].
  + done.
  + apply map_eq. intros k. rewrite lookup_empty. destruct (_ !! k) as [o|] eqn:E; [|done].
    destruct (Hno k o E). apply map_empty_subseteq.
  + intros c c' -> Hg. exact Hg.
  + intros [[]|e|] s3 Hs3; exact Hs3.
- intros m s1 Hb _.
  assert (promise_stored promise (view s1)) as Hst1 by (unfold becomes in Hb; by rewrite Hb).
  apply wp_bind. eapply wp_mono; [apply frames_started|].
  intros [[]|e|] [s2 st2] Hv2; change (view s1 = view s2) in Hv2; cbn [fst];
    [apply wp_ret; cbn [fst]|..]; rewrite <-Hv2; by apply releases_stored.
- intros e m s1 Hb _. apply releases_stored. unfold becomes in Hb. cbn [fst]. by rewrite Hb.
Qed.

(** ** What the controller for requests and the workflows needed *)
Lemma wp_deleteKind kd ls (Q : outcome bool → S → Prop) s :
  cluster_ok (view s) →
  (∀ s', view s' = view s → none_left kd ls (view s) → Q (Ok false) s') →
  (∀ s', c_promises (view s') = c_promises (view s) → Q (Ok true) s') →
  (∀ e s', c_promises (view s') = c_promises (view s) → Q (Fail e) s') →
  wp (deleteKind kd ls) Q s.
Proof.
intros Hc HF HT HE. unfold cluster_ok, sound in Hc.
destruct kd; cbn [deleteKind]; (apply wp_deleteAllResources; [tauto| | |]);
  try (intros s' Hv Hno; by apply HF);
  try (intros m s' Hb _; apply HT; unfold becomes in Hb; by rewrite Hb);
  (intros e m s' Hb _; apply HE; unfold becomes in Hb; by rewrite Hb).
Qed.

Lemma wp_deleteKinds ks ls (Q : outcome bool → S → Prop) s :
  cluster_ok (view s) →
  (∀ s', view s' = view s → (∀ kd, kd ∈ ks → none_left kd ls (view s)) → Q (Ok false) s') →
  (∀ s', c_promises (view s') = c_promises (view s) → Q (Ok true) s') →
  (∀ e s', c_promises (view s') = c_promises (view s) → Q (Fail e) s') →
  wp (deleteKinds ks ls) Q s.
Proof.
intros Hc HF HT HE. revert s Hc HF HT HE. induction ks as [|kd ks IH]; intros s Hc HF HT HE; cbn [deleteKinds].
- apply wp_ret, HF; [done|]. intros kd Hin. by apply elem_of_nil in Hin.
- apply wp_bind, wp_deleteKind; [done| | |by apply HE].
  + intros s1 Hv1 Hno. apply IH; rewrite Hv1; [done| |done|done].
    intros s2 Hv2 Hks. apply HF; [done|]. intros kd' [-> |Hin]%elem_of_cons; auto.
  + intros s1 Hp1. by apply wp_ret, HT.
Qed.

(** The map lists every kind. *)
Lemma resourcesToDelete_all (l : list (string * list DependentKind)) kd :
  l ≡ₚ map_to_list resourcesToDelete → kd ∈ concat l.*2.
Proof.
intros Hl. assert (∃ g ks, resourcesToDelete !! g = Some ks ∧ kd ∈ ks) as (g & ks & Hg & Hin).
{ destruct kd; [exists "rbac.authorization.k8s.io/v1"..|exists "v1"|exists "v1"];
    (eexists; split; [vm_compute; reflexivity|set_solver]). }
apply list_elem_of_In, in_concat. exists ks. split; [|by apply list_elem_of_In].
apply list_elem_of_In, list_elem_of_fmap. exists (g, ks). split; [done|].
rewrite Hl. by apply elem_of_map_to_list.
Qed.

Lemma wp_deleteDynamicResources promise s :
  cluster_ok (view s) → promise_stored promise (view s) →
  wp (deleteDynamicControllerAndWorkflowResources promise)
    (λ _ s', releases promise dynamicControllerDependantResourcesCleanupFinalizer
       (λ c', ∀ kd, none_left kd (GenerateSharedLabels promise) c') (view s')) s.
Proof.
intros Hc Hst. unfold deleteDynamicControllerAndWorkflowResources.
apply wp_bind, wp_Range. intros l s1 Hv1 Hl. apply wp_bind, wp_deleteKinds; rewrite Hv1; [done| | |].
- intros s2 Hv2 Hno. apply (wp_removePromiseFinalizer _ _
    (λ c', ∀ kd, none_left kd (GenerateSharedLabels promise) c')); rewrite ?Hv2; [done| |].
  + intros kd. by apply Hno, resourcesToDelete_all.
  + intros c c' -> Hg kd. specialize (Hg kd). by destruct kd.
- intros s2 Hp2. apply wp_ret. by eapply releases_stored, stored_promises.
- intros e s2 Hp2. by eapply releases_stored, stored_promises.
Qed.

(** ** Works and the CRD *)
Lemma wp_deletePromiseWork promise s :
  keyed (c_works (view s)) → promise_stored promise (view s) →
  wp (deleteWork promise) (λ _ s', releases promise dependenciesCleanupFinalizer
    (λ c', ∀ k w, c_works c' !! k = Some w → ¬ carries (GenerateSharedLabels promise) w) (view s')) s.
Proof.
intros Hk Hst. unfold deleteWork. apply wp_bind, wp_deleteAllResources; [done|..].
- intros s1 Hv1 Hno. apply (wp_removePromiseFinalizer _ _ (λ c', ∀ k w, c_works c' !! k = Some w →
    ¬ carries (GenerateSharedLabels promise) w)); rewrite ?Hv1; [done|exact Hno|]. by intros c c' ->.
- intros m s1 Hb _. apply wp_ret, releases_stored. unfold becomes in Hb. by rewrite Hb.
- intros e m s1 Hb _. apply releases_stored. unfold becomes in Hb. by rewrite Hb.
Qed.

Lemma wp_deleteCRDs promise s :
  promise_stored promise (view s) →
  wp (deleteCRDs promise) (λ _ s', releases promise crdCleanupFinalizer (λ c',
    match GetAPI promise with Ok (_, crd) => c_crds c' !! ("", GetName crd) = None | _ => True end)
    (view s')) s.
Proof.
intros Hst. unfold deleteCRDs. destruct (GetAPI promise) as [[gvk crd]|e|].
- assert (∀ G (o : CRD) s1, view s1 = view s → wp (Delete o)
    (λ _ s', releases promise crdCleanupFinalizer G (view s')) s1) as Hdel.
  { intros G o s1 Hv1. apply wp_Delete; rewrite Hv1.
    - intros old t s2 _ Hv2. apply releases_stored. by rewrite Hv2.
    - intros e s2 Hv2 _. rewrite Hv2. by apply releases_stored. }
  apply wp_bind, wp_try, wp_Get; [intros o s1 Hv1 _; by apply Hdel|]. intros e s1 Hv1 Hnf.
  destruct (IsNotFound e); [|by apply Hdel].
  apply (wp_removePromiseFinalizer _ _ (λ c', c_crds c' !! ("", GetName crd) = None));
    rewrite ?Hv1; [done|by apply Hnf|]. by intros c c' ->.
- by apply (wp_removePromiseFinalizer _ _ (λ _, True)).
- by apply wp_panic, releases_stored.
Qed.

(** ** Deletion in phases *)
#[local] Hint Resolve frames_removePromiseFinalizer frames_deleteAll frames_ReconcileDelete
  frames_promise_delete frames_deleteKinds frames_StartController frames_RestartManager : frames.

Lemma frames_phase promise :
  frames (S:=S * Started) (later_kept (promise_phase promise))
    (deletePromise NumberOfJobsToKeep ReconciliationInterval promise).
Proof.
unfold deletePromise, promise_phase. rewrite !contains_finalizer.
destruct (FinalizersAreDeleted _ _) eqn:Ed.
{ frames. }
unfold runDeleteWorkflows, deletePromiseWorkflowJobs, deleteResourceRequests,
  ensureDynamicControllerIsStarted, disableDynamicController, deleteDynamicControllerAndWorkflowResources,
  deleteWork, deleteCRDs.
repeat (case_bool_decide; [frames|]). frames.
Qed.

Lemma frames_disable promise :
  frames (S:=S * Started) (@eq Cluster) (disableDynamicController promise).
Proof. unfold disableDynamicController. frames. Qed.

(** A phase that ends by returning a fixed answer. *)
Lemma wp_phase {A B} (m : M (S * Started) A) (k : A → B) promise f G x :
  wp m (λ _ x', releases promise f G (view x'.1)) x →
  wp (let! a := m in ret (k a)) (λ _ x', releases promise f G (view x'.1)) x.
Proof.
intros Hm. apply wp_bind. eapply wp_mono; [exact Hm|]. intros [a|e|] x' Hx; [by apply wp_ret|done..].
Qed.

Lemma wp_deletePromise promise s st :
  cluster_ok (view s) → promise_stored promise (view s) →
  wp (deletePromise NumberOfJobsToKeep ReconciliationInterval promise)
    (λ _ x, promise_deletion_step promise (view s) (view x.1)) (s, st).
Proof.
intros Hc Hst.
assert (keyed (c_jobs (view s)) ∧ keyed (c_parents (view s)) ∧ keyed (c_works (view s))) as (Hkj & Hkp & Hkw)
  by (unfold cluster_ok, sound in Hc; tauto).
unfold promise_deletion_step. apply wp_and; [exact (frames_phase promise (s, st))|].
assert (∀ f, f ∈ GetFinalizers promise → promise_held f (key promise) (view s)) as Hkept
  by (intros f Hf; destruct Hst as (u & Hu & Hfs); exists u; by rewrite Hfs).
assert (∀ A (m : M (S * Started) A) g G s1 st1, promise_phase_finalizer (promise_phase promise) = Some g →
  (∀ c', G c' → promise_phase_goal promise (view s) c') →
  wp m (λ _ x, releases promise g G (view x.1)) (s1, st1) →
  wp m (λ _ x, ∀ f, f ∈ GetFinalizers promise → promise_held f (key promise) (view x.1) ∨
    promise_phase_finalizer (promise_phase promise) = Some f ∧
    promise_phase_goal promise (view s) (view x.1)) (s1, st1)) as Hrel.
{ intros A m g G s1 st1 Hg HG Hm. eapply wp_mono; [exact Hm|].
  intros r x Hx f [?|[-> ?]]%Hx; [by left|right]. split; [done|by apply HG]. }
unfold promise_phase_goal, deletePromise, promise_phase in *. rewrite !contains_finalizer.
destruct (FinalizersAreDeleted _ _) eqn:Ed.
{ apply wp_ret. intros f Hf. left. by apply Hkept. }
case_bool_decide as Hrun.
{ eapply Hrel; [done|intros c' HG; exact HG|]. apply wp_zoom, wp_runDeleteWorkflows; [done|done|].
  intros E. rewrite E in Hrun. by apply elem_of_nil in Hrun. }
case_bool_decide.
{ eapply Hrel; [done|intros c' HG; exact HG|].
  by apply (wp_phase _ (λ _, fastRequeue)), wp_zoom, wp_deletePromiseWorkflowJobs. }
case_bool_decide.
{ eapply Hrel; [done|intros c' HG; exact HG|].
  by apply (wp_phase _ (λ _, fastRequeue)), wp_deleteResourceRequests. }
apply wp_bind. eapply wp_mono; [apply frames_disable|].
intros [[]|e|] [s1 st1] Hv1; change (view s = view s1) in Hv1; cbn [fst] in *;
  [|rewrite <-Hv1; intros f Hf; left; by apply Hkept..].
case_bool_decide.
{ eapply Hrel; [done|intros c' HG; exact HG|]. apply wp_bind, wp_try, wp_zoom.
  eapply wp_mono; [apply wp_deleteDynamicResources; by rewrite <-Hv1|].
  intros [[]|e|] s2 Hs2; [by apply wp_ret|by apply wp_ret|done]. }
case_bool_decide.
{ eapply Hrel; [done|intros c' HG; exact HG|].
  apply (wp_phase _ (λ _, fastRequeue)), wp_zoom, wp_deletePromiseWork; by rewrite <-Hv1. }
case_bool_decide.
{ eapply Hrel; [done|intros c' HG; exact HG|].
  apply (wp_phase _ (λ _, fastRequeue)), wp_zoom, wp_deleteCRDs. by rewrite <-Hv1. }
apply wp_ret. intros f Hf. left. cbn [fst]. rewrite <-Hv1. by apply Hkept.
Qed.

End deletion.
