(* ===== verification/PromiseWitness.v ===== *)
(** * The Promise controller on concrete Promises

    Witnesses of its properties, and runs that show where what it reports is not what one
    would expect. *)

From S2P Require Import Prelude GoLib Codec Meta Api Kube Client Sim SimPromise Shared ResourceUtil Promise.
From S2P Require Import PromiseStore Frame WorkCreatorFacts PipelineFactory FactoryWitness Workflow.
From S2P Require Import DynamicController DynamicWitness PromiseController PromiseInstall System.
From S2P Require Import SystemWitness PromiseServe PromiseDeletion.
Import PromiseReconciler.
#[local] Existing Instances Sim_Config Sim_Time.

(** Every API is this CRD, under the name written in the Promise. *)
#[local] Instance redis_lib : PromiseLib := {|
  unmarshal_CRD raw := inr (mkResource (new_meta "" raw)
    {| crd_group := "example.com"; crd_kind := "Redis"; crd_plural := "redis";
       crd_singular := "redis"; crd_otherNames := "";
       crd_scope := "Namespaced"; crd_conversion := ""; crd_preserveUnknownFields := false;
       crd_versions := [{| cv_name := "v1"; cv_storage := true;
                           cv_schema := Some (mkSchema "object" None (Some []) "");
                           cv_statusSubresource := false; cv_printerColumns := [] |}] |}
    {| crdst_conditions := [] |});
  CRD_TypeMeta _ := ("CustomResourceDefinition", "apiextensions.k8s.io/v1");
  ToUnstructured p := inr (encode_promise p);
  MarshalJSON o := inr (GetName o);
  decode_Pipeline name := inr (pipeline_named name all_permissions);
  yaml_scheduling _ := inr "[]";
|}.
#[local] Instance redis_converter : ConverterLaws.
Proof. split; by intros p u [= <-]. Qed.

Definition new_status : PromiseStatus :=
  {| prst_conditions := []; prst_version := ""; prst_observedGeneration := 0; prst_kind := "";
     prst_apiVersion := ""; prst_status := ""; prst_workflows := 0; prst_workflowsSucceeded := 0;
     prst_workflowsFailed := 0; prst_requiredPromises := []; prst_requiredBy := [];
     prst_lastAvailableTime := None |}.

Definition a_promise (m : ObjectMeta) (api : option string) (configure : list string)
    (required : list RequiredPromise) (dependencies : list JSON) (st : PromiseStatus) : Promise :=
  mkResource m
    {| prs_kind := "Promise"; prs_apiVersion := "platform.kratix.io/v1alpha1"; prs_api := api;
       prs_workflows := {| wf_resource := {| wt_configure := []; wt_delete := [] |};
                           wf_promise := {| wt_configure := pipeline_object <$> configure;
                                            wt_delete := [] |} |};
       prs_requiredPromises := required; prs_dependencies := dependencies;
       prs_destinationSelectors := [] |} st.

Definition redis_meta : ObjectMeta := om_set_system "12345678" None 1 1 (new_meta "" "redis").

Definition promise_cluster (ps : list Promise) (crds : list CRD) : Cluster :=
  mkCluster ∅ ∅ ∅ ∅ ∅ (of_list (encode_promise <$> ps)) (of_list crds) ∅ ∅ ∅ ∅ ∅ ∅ ∅ ∅ ∅ ∅ ∅.
Definition promise_sim (ps : list Promise) (crds : list CRD) : Sim := sim_of (promise_cluster ps crds).

(** ** Runs *)
Definition reconcile (x : Sim * Started) : Sim * Started := (Reconcile 5 36000 ("", "redis") x).2.
Definition stored (x : Sim * Started) : option Promise := typed_promises (view x.1) !! ("", "redis").

(** A Promise with a workflow is reported available by its third reconciliation, before any job
    of the workflow exists. *)
Lemma available_before_workflow :
  let x := Nat.iter 3 reconcile
    (promise_sim [a_promise redis_meta None ["configure"] [] [] new_status] [], ∅) in
  prst_status ∘ r_status <$> stored x = Some PromiseStatusAvailable ∧ c_jobs (view x.1) = ∅.
Proof. split; vm_compute; reflexivity. Qed.

(** A Promise without an API is reported available while its requirement is not installed. *)
Lemma available_without_requirements :
  let x := Nat.iter 3 reconcile
    (promise_sim [a_promise redis_meta None [] [{| rp_name := "other"; rp_version := "v1" |}] []
                    new_status] [], ∅) in
  (λ p, (prst_status (r_status p), rps_state <$> prst_requiredPromises (r_status p))) <$> stored x =
    Some (PromiseStatusAvailable, [requirementStateNotInstalled]).
Proof. vm_compute. reflexivity. Qed.

(** An available Promise that stays available is stored with a new transition time. *)
Definition available (x : Sim * Started) : option (string * Z) :=
  p ← stored x; c ← Promise_GetCondition p PromiseAvailableConditionType;
  Some (cond_status c, cond_lastTransitionTime c).
Definition bare_run (n : nat) : Sim * Started :=
  Nat.iter n reconcile (promise_sim [a_promise redis_meta None [] [] [] new_status] [], ∅).
Lemma transition_time_moves :
  available (bare_run 3) = Some (ConditionTrue, 106%Z) ∧ available (bare_run 4) = Some (ConditionTrue, 108%Z).
Proof. split; vm_compute; reflexivity. Qed.

(** ** Witnesses *)
Definition dying_redis : Promise :=
  a_promise (om_set_system "12345678" (Some 7%Z) 1 1
    (om_set_finalizers [dependenciesCleanupFinalizer; crdCleanupFinalizer] (new_meta "" "redis")))
    (Some "redis.example.com") [] [] [] new_status.

Lemma sound_empty {Sp St} : sound (∅ : gmap Key (Resource Sp St)).
Proof. split; by intros ? ? ?%lookup_empty_Some. Qed.
Lemma sound_one {Sp St} (o : Resource Sp St) :
  (deleting o = true → GetFinalizers o ≠ []) → sound (of_list [o]).
Proof. intros Ho. by apply sound_insert; [apply sound_empty|..]. Qed.

Lemma promise_cluster_ok p crd :
  deleting crd = false → (deleting p = true → GetFinalizers p ≠ []) → cluster_ok (promise_cluster [p] [crd]).
Proof.
intros Hd Hp. unfold cluster_ok, promise_cluster. cbn [c_works c_workplacements c_destinations c_jobs
  c_parents c_promises c_crds c_serviceaccounts c_configmaps c_roles c_rolebindings c_clusterroles
  c_clusterrolebindings c_bucketstores c_gitstores c_secrets c_releases c_healthrecords
  fmap list_fmap].
split_and!; try apply sound_empty; apply sound_one; [exact Hp|congruence].
Qed.

Definition redis_crd : CRD := mkResource
  (om_set_labels (GenerateSharedLabelsForPromise "redis") (new_meta "" "redis.example.com"))
  {| crd_group := "example.com"; crd_kind := "Redis"; crd_plural := "redis";
       crd_singular := "redis"; crd_otherNames := ""; crd_scope := "Namespaced";
     crd_conversion := ""; crd_preserveUnknownFields := false; crd_versions := [] |}
  {| crdst_conditions := [{| crdc_type := "Established"; crdc_status := "True" |}] |}.


Definition with_dependencies : Promise :=
  a_promise redis_meta None [] [] [JStr "namespace"] new_status.
Lemma dependencies_delivered_witness :
  let s := promise_sim [with_dependencies] [redis_crd] in
  let s' := (applyWorkForStaticDependencies with_dependencies s).2 in
  ∃ yaml w wl, Dependencies_Marshal [JStr "namespace"] = inr yaml ∧ c_works (view s') !! key w = Some w ∧
    mjoin (wg_workloads <$> ws_workloadGroups (r_spec w)) = [wl] ∧ DecompressContent (wl_content wl) = inr yaml.
Proof.
cbv zeta. pose proof (dependencies_delivered with_dependencies
  (promise_sim [with_dependencies] [redis_crd]) (proj1 sound_empty) (proj2 sound_empty)) as Hwp.
read_off Hwp. destruct Hwp as (x & _ & yaml & w & wl & Hy & Hw & Hj & Hd & _).
exists yaml, w, wl. split_and!; [exact Hy|exact (ow_stored _ _ _ _ _ _ Hw)|exact Hj|exact Hd].
Defined.

Definition other (state : string) : Promise :=
  a_promise (om_set_system "87654321" None 1 1 (new_meta "" "other")) None [] [] []
    (with_state state (with_version "v1" new_status)).
Definition requiring : Promise :=
  a_promise redis_meta None [] [{| rp_name := "other"; rp_version := "v1" |}] [] new_status.


Definition served : Promise :=
  a_promise (om_set_finalizers [crdCleanupFinalizer; dynamicControllerDependantResourcesCleanupFinalizer;
                                resourceRequestCleanupFinalizer] redis_meta)
    (Some "redis.example.com") [] [] [] (with_api "Redis" "example.com/v1" new_status).

Lemma api_ready_before_requests_witness :
  let s := promise_sim [served] [redis_crd] in
  ∃ crd gvk, (ensureAPI served s).1 = Ok (inr (Some (crd, gvk))) ∧
    crd_ready crd (view (ensureAPI served s).2) ∧ access_ready served crd gvk (view (ensureAPI served s).2).
Proof.
cbv zeta. pose proof (api_ready_before_requests served (promise_sim [served] [redis_crd])
  (promise_cluster_ok served redis_crd eq_refl ltac:(discriminate))) as Hwp.
assert (match (ensureAPI served (promise_sim [served] [redis_crd])).1 with
  Ok (inr (Some _)) => true | _ => false end = true) as Hr by (vm_compute; reflexivity).
destruct (ensureAPI served _) as [r s'] eqn:E. apply (wp_intro _ _ _ _ _ E) in Hwp. cbn [fst snd] in *.
destruct r as [[?|[[crd gvk]|]]|?|]; try discriminate Hr.
destruct Hwp as (_ & Hc & Ha & _). exists crd, gvk. split_and!; [reflexivity|exact Hc|exact Ha].
Defined.

Lemma requests_follow_promise_witness :
  let x := serveRequests 5 36000 served (Some (redis_crd, {| gvk_group := "example.com"; gvk_version := "v1";
    gvk_kind := "Redis" |})) (promise_sim [served] [redis_crd], ∅) in
  x.1 = Ok None ∧ requirements_installed served = true ∧
  dc_canCreateResources <$> x.2.2 !! "redis_redis.example.com" = Some true.
Proof.
cbv zeta. pose proof (requests_follow_promise 5 36000 served redis_crd {| gvk_group := "example.com";
  gvk_version := "v1"; gvk_kind := "Redis" |} (promise_sim [served] [redis_crd]) ∅) as Hwp.
read_off Hwp. destruct Hwp as (res & Hr & (name & d & Hn & Hd & Hf) & Hnone).
assert (res = None) as ->.
{ apply (f_equal (λ r, match r with Ok o => Some o | _ => None end)) in Hr. vm_compute in Hr. by injection Hr. }
split; [exact Hr|]. destruct (Hnone eq_refl) as [Hreq _]. split; [exact Hreq|].
assert (GetDynamicControllerName served = Ok "redis_redis.example.com") as Hn' by (vm_compute; reflexivity).
rewrite Hn' in Hn. injection Hn as <-. rewrite Hd. cbn. f_equal. rewrite (fo_can _ _ _ _ _ Hf). exact Hreq.
Defined.
