(* ===== verification/Programs.v ===== *)
(** * The programs of a pipeline's pod

    [work-creator/pipeline/cmd]: the three programs of the pipeline adapter image, which run
    before and after the containers of a pipeline.  The reader ([lib/reader.go]) puts the object
    of the workflow into a file, the work creator ([cmd/work-creator]) is the command around
    [Execute], and the status updater ([cmd/update-status]) the one around [run].  Each is
    started from the command and the environment of its container. *)

From S2P Require Import Prelude GoLib Files Codec Meta Api Kube Client Shared ResourceUtil Promise.
From S2P Require Import PipelineFactory WorkCreator StatusUpdater.
From Stdlib Require Import Ascii.

(** ** The [flag] package, for flags with a string value *)
Module Flag.
Inductive word :=
  | NotAFlag
  | Terminator
  | BadSyntax
  | Named (name : string) (value : option string).

(** The part before the first equals sign, and the part after it. *)
Fixpoint cut (s : string) : string * option string :=
  match s with
  | "" => ("", None)
  | String c s' =>
      if bool_decide (c = "="%char) then ("", Some s')
      else let '(name, value) := cut s' in (String c name, value)
  end.

Definition named (name : string) : word :=
  match name with
  | "" => BadSyntax
  | String c _ =>
      if bool_decide (c = "-"%char) || bool_decide (c = "="%char) then BadSyntax
      else let '(n, value) := cut name in Named n value
  end.

Definition read (s : string) : word :=
  match s with
  | String c (String d rest) =>
      if bool_decide (c = "-"%char) then
        if bool_decide (d = "-"%char) then
          match rest with "" => Terminator | _ => named rest end
        else named (String d rest)
      else NotAFlag
  | _ => NotAFlag
  end.

Inductive result :=
  | Parsed (flags : gmap string string) (args : list string)
  | Refused
  | HelpRequested.

(** [FlagSet.Parse]; the map holds the values so far, at first the defaults. *)
Fixpoint Parse (flags : gmap string string) (args : list string) : result :=
  match args with
  | [] => Parsed flags []
  | s :: rest =>
      match read s with
      | NotAFlag => Parsed flags args
      | Terminator => Parsed flags rest
      | BadSyntax => Refused
      | Named name value =>
          if bool_decide (is_Some (flags !! name)) then
            match value, rest with
            | Some v, _ => Parse (<[name := v]> flags) rest
            | None, v :: rest' => Parse (<[name := v]> flags) rest'
            | None, [] => Refused
            end
          else if bool_decide (name = "help") || bool_decide (name = "h") then HelpRequested
          else Refused
      end
  end.
End Flag.

(** ** What the programs use of the pod *)

(** Clients, files and standard output. *)
Class Pod (S : Type) := {
  RestConfig : Type;
  InClusterConfig : M S RestConfig;
  BuildConfigFromFlags : string → string → M S RestConfig;
  NewForConfig : RestConfig → M S unit;
  (** [ctrl.GetConfigOrDie], whose failure ends the program, and [client.New] *)
  GetConfigOrDie : M S RestConfig;
  client_New : RestConfig → M S unit;
  (** [v1alpha1.AddToScheme] *)
  AddToScheme : M S unit;
  os_WriteFile : string → string → M S unit;
  os_ReadFile : string → M S string;
  Fprint : string → M S unit;
  yaml_Marshal : Unstructured → error + string;
}.

(** ** helpers.go *)
Record GroupVersionResource := { gvr_group : string; gvr_version : string; gvr_resource : string }.
#[global] Instance gvr_eq_dec : EqDecision GroupVersionResource.
Proof. solve_decision. Defined.

Definition ObjectGVR (params : Parameters) : GroupVersionResource :=
  {| gvr_group := p_objectGroup params; gvr_version := p_objectVersion params;
     gvr_resource := p_crdPlural params |}.

Definition PromiseGVR : GroupVersionResource :=
  {| gvr_group := "platform.kratix.io"; gvr_version := "v1alpha1"; gvr_resource := "promises" |}.

(** The objects a resource of the API stands for: the Promises, or the requests made of one. *)
Definition kind_of (gvr : GroupVersionResource) : Collection UnstructuredSpec UnstructuredStatus :=
  if bool_decide (gvr = PromiseGVR) then promises_coll else parents_coll.

Section programs.
Context {S : Type} `{World S, Pod S}.

(** The configuration of the pod, or else the one in the home directory. *)
Definition getK8sClient (Getenv : string → string) : M S unit :=
  let! r := try InClusterConfig in
  let! config := match r with
                 | inr config => ret config
                 | inl _ => BuildConfigFromFlags "" (Filepath.Join [Getenv "HOME"; ".kube"; "config"])
                 end in
  NewForConfig config.

Definition WriteToYaml (obj : Unstructured) (objectFilePath : string) : M S unit :=
  let! objYAML := wrapped "failed to marshal object" (of_sum (yaml_Marshal obj)) in
  wrapped "failed to write object to file" (os_WriteFile objectFilePath objYAML).

Definition PrintFileHead (filename : string) (n : nat) : M S unit :=
  let! content := os_ReadFile filename in
  let! head := lift (Strings.slice content 0 (Nat.min (String.length content) n)) in
  Fprint head.

End programs.

(** ** The reader *)
Module Reader.
Section reader.
Context {S : Type} `{World S, Pod S}.

Definition writeObjectToFile (params : Parameters) : M S unit :=
  let! obj := wrapped "failed to get object"
    (Get (H0:=kind_of (ObjectGVR params)) (p_objectNamespace params, p_objectName params)) in
  let objectFilePath := GetObjectPath params in
  wrapped "failed to write object to file" (WriteToYaml obj objectFilePath) ;;;
  Fprint ("Object file written to: " +:+ objectFilePath +:+ " head of file:" +:+ String "010"%char "") ;;;
  wrapped "failed to print file head" (PrintFileHead objectFilePath 500).

Definition Run (Getenv : string → string) : M S unit :=
  let params := getParametersFromEnv Getenv in
  wrapped "failed to create Kubernetes client" (getK8sClient Getenv) ;;;
  writeObjectToFile params.
End reader.
End Reader.

(** ** The commands

    A command ends with an exit code; [log.Fatalf] ends it with 1. *)
Definition exit_code {S} (m : M S unit) : M S Z :=
  let! r := try m in
  ret match r with inl _ => 1%Z | inr _ => 0%Z end.

Section commands.
Context {S : Type} `{World S, Pod S, Lib, Codec, WorkCreatorLib, StatusLib}.

Definition reader_main (Getenv : string → string) : M S Z := exit_code (Reader.Run Getenv).

(** The client is made before the object is looked up; [fs] are the files the pod sees. *)
Definition update_status_run (fs : Entry) (Getenv : string → string) : M S unit :=
  let params := getParametersFromEnv Getenv in
  wrapped "failed to create Kubernetes client" (getK8sClient Getenv) ;;;
  run (PC:=kind_of (ObjectGVR params)) fs params.
Definition update_status_main (fs : Entry) (Getenv : string → string) : M S Z :=
  exit_code (update_status_run fs Getenv).

Definition getClient : M S unit :=
  let! config := GetConfigOrDie in client_New config.

Definition work_creator_flags : gmap string string :=
  list_to_map [("input-directory", ""); ("promise-name", ""); ("pipeline-name", "");
               ("namespace", SystemNamespace); ("resource-name", ""); ("workflow-type", "resource")].

(** The rest of the command, once it knows what it is to do. *)
Definition create_work (fs : Entry)
    (inputDirectory promiseName namespace resourceName workflowType pipelineName : string) : M S Z :=
  exit_code (AddToScheme ;;; getClient ;;;
    Execute fs inputDirectory promiseName namespace resourceName workflowType pipelineName).

(** An error in the flags ends the program with 2, a request for help with 0. *)
Definition work_creator_main (fs : Entry) (args : list string) : M S Z :=
  match Flag.Parse work_creator_flags args with
  | Flag.Refused => ret 2%Z
  | Flag.HelpRequested => ret 0%Z
  | Flag.Parsed flags _ =>
      let flag name := default "" (flags !! name) in
      if bool_decide (flag "input-directory" = "") then ret 1%Z
      else if bool_decide (flag "promise-name" = "") then ret 1%Z
      else if bool_decide (flag "pipeline-name" = "") then ret 1%Z
      else create_work fs (flag "input-directory") (flag "promise-name") (flag "namespace")
             (flag "resource-name") (flag "workflow-type") (flag "pipeline-name")
  end.
End commands.

(** ** Starting a container *)

(** The words of a command line the shell is given. *)
Class Shell := sh_words : string → list string.

(** The environment of a container: its own variables, the last of a name counting, over those
    of the image. *)
Definition container_env (image : string → string) (c : PodContainer) (name : string) : string :=
  match list_find (λ e, env_name e = name) (reverse (pc_env c)) with
  | Some (_, e) => env_value e
  | None => image name
  end.

Section adapter.
Context {S : Type} `{World S, Pod S, Lib, Codec, WorkCreatorLib, StatusLib, Shell}.

(** What a container of the pipeline adapter image runs; the image has the three programs and
    the shell. *)
Definition adapter (fs : Entry) (image : string → string) (c : PodContainer) : M S Z :=
  match pc_command c with
  | ["sh"; "-c"; line] =>
      match sh_words line with
      | program :: args =>
          if bool_decide (program = "reader") then reader_main (container_env image c)
          else if bool_decide (program = "work-creator") then work_creator_main fs args
          else if bool_decide (program = "update-status") then update_status_main fs (container_env image c)
          else ret 127%Z
      | [] => ret 0%Z
      end
  | _ => ret 127%Z
  end.
End adapter.
