(* ===== verification/ProgramFacts.v ===== *)
(** * The programs of a pod do what its job was made for

    What the factory writes into the containers of a job is what the programs of the pipeline
    adapter read from them: the command lines parse to the arguments meant, and the environment
    names the object of the workflow. *)

From S2P Require Import Prelude GoLib Files Codec Meta Api Kube Client Shared ResourceUtil Promise.
From S2P Require Import PipelineFactory WorkCreator StatusUpdater FactoryFacts StatusUpdaterFacts.
From S2P Require Import PromiseDeletion Programs.
From Stdlib Require Import Ascii.

(** ** What a pod promises *)
Class PodFiles (S : Type) := pod_fs : S → gmap string string.

(** Whatever comes of it, no object of the cluster and no file changes. *)
Definition quiet {S A} `{Viewed S, PodFiles S} (m : M S A) : Prop :=
  ∀ s, wp m (post (λ _ s', view s' = view s ∧ pod_fs s' = pod_fs s)
                  (λ _ s', view s' = view s ∧ pod_fs s' = pod_fs s)) s.

Class PodLaws (S : Type) `{World S, Viewed S, Pod S, PodFiles S} : Prop := {
  in_cluster_quiet : quiet InClusterConfig;
  build_config_quiet : ∀ a b, quiet (BuildConfigFromFlags a b);
  new_for_config_quiet : ∀ c, quiet (NewForConfig c);
  config_or_die_quiet : quiet GetConfigOrDie;
  client_new_quiet : ∀ c, quiet (client_New c);
  scheme_quiet : quiet AddToScheme;
  print_quiet : ∀ t, quiet (Fprint t);
  get_quiet : ∀ {Sp St} `{C : !Collection Sp St} k, quiet (Get (H0:=C) k);
  write_file : ∀ path content s,
    wp (os_WriteFile path content)
      (post (λ _ s', view s' = view s ∧ pod_fs s' = <[path := content]> (pod_fs s))
            (λ _ s', view s' = view s)) s;
  read_file : ∀ path s,
    wp (os_ReadFile path)
      (post (λ content s', view s' = view s ∧ pod_fs s' = pod_fs s ∧ pod_fs s !! path = Some content)
            (λ _ s', view s' = view s)) s;
}.

(** The shell splits a line of plain words at the spaces. *)
Definition word_char (c : ascii) : Prop :=
  let n := nat_of_ascii c in
  (48 ≤ n ≤ 57) ∨ (65 ≤ n ≤ 90) ∨ (97 ≤ n ≤ 122) ∨ n = 45 ∨ n = 46 ∨ n = 47 ∨ n = 95.
Definition plain_word (s : string) : Prop := s ≠ "" ∧ Forall word_char (String.list_ascii_of_string s).
Definition adapter_programs : list string := ["reader"; "work-creator"; "update-status"].

Class ShellLaws `{Shell} : Prop :=
  sh_plain : ∀ program args, program ∈ adapter_programs → Forall plain_word args →
    sh_words (Strings.Join (program :: args) " ") = program :: args.

#[global] Instance word_char_dec c : Decision (word_char c).
Proof. unfold word_char. cbv zeta. apply _. Defined.
#[global] Instance plain_word_dec s : Decision (plain_word s).
Proof. unfold plain_word. apply _. Defined.

(** Plainness of a given word, by evaluation. *)
Ltac plain := apply (bool_decide_unpack _); vm_compute; exact I.

(** ** The reader *)
Section reader.
Context {S : Type} `{World S, Viewed S, !WorldLaws S, !Pod S, !PodFiles S, !PodLaws S}.
Implicit Types s : S.

Lemma quiet_bind {A B} (m : M S A) (k : A → M S B) : quiet m → (∀ a, quiet (k a)) → quiet (bind m k).
Proof.
intros Hm Hk s. apply wp_bind. eapply wp_mono; [apply Hm|]. intros [a|e|] s1; cbn [post]; [|done|done].
intros [Hv Hf]. eapply wp_mono; [apply Hk|]. rewrite Hv, Hf. by intros [].
Qed.
Lemma quiet_ret {A} (a : A) : quiet (S:=S) (ret a).
Proof. intros s. by apply wp_ret. Qed.
Lemma quiet_try {A} (m : M S A) : quiet m → quiet (try m).
Proof. intros Hm s. apply wp_try. eapply wp_mono; [apply Hm|]. by intros []. Qed.

Lemma getK8sClient_quiet Getenv : quiet (S:=S) (getK8sClient Getenv).
Proof.
apply quiet_bind; [apply quiet_try, in_cluster_quiet|]. intros r.
apply quiet_bind; [|intros; apply new_for_config_quiet].
destruct r; [apply build_config_quiet|apply quiet_ret].
Qed.

Lemma wp_get_object {Sp St} {C : Collection Sp St} k s :
  wp (Get k) (post
    (λ o s', view s' = view s ∧ pod_fs s' = pod_fs s ∧ coll (view s) !! k = Some o)
    (λ _ s', view s' = view s)) s.
Proof.
eapply wp_mono; [apply wp_and; [apply (get_quiet (C:=C))|]|].
- apply (wp_Get _ (post (λ o _, coll (view s) !! k = Some o) (λ _ _, True))); by intros.
- intros [o|e|] s' [Ha Hb]; cbn [post] in *; [by destruct Ha|by destruct Ha|done].
Qed.

Lemma wp_WriteToYaml u path s :
  wp (WriteToYaml u path) (post
    (λ _ s', view s' = view s ∧ ∃ y, yaml_Marshal u = inr y ∧ pod_fs s' = <[path := y]> (pod_fs s))
    (λ _ s', view s' = view s)) s.
Proof.
unfold WriteToYaml. apply wp_bind. unfold wrapped at 1, of_sum. apply wp_bind, wp_try.
destruct (yaml_Marshal u) as [e|y]; [by apply wp_fail, wp_fail|]. apply wp_ret, wp_ret.
eapply wp_mono; [apply wp_wrapped; [|apply write_file]; done|].
intros [[]|e|] s'; cbn [post]; [|done|done]. intros [Hv Hf]. eauto.
Qed.

Lemma wp_PrintFileHead path n s :
  wp (PrintFileHead path n) (post
    (λ _ s', view s' = view s ∧ pod_fs s' = pod_fs s) (λ _ s', view s' = view s)) s.
Proof.
unfold PrintFileHead. apply wp_bind. eapply wp_mono; [apply read_file|].
intros [content|e|] s1; cbn [post]; [|done|done]. intros (Hv1 & Hf1 & _). apply wp_bind, wp_lift.
rewrite Strings.slice_ok by lia. eapply wp_mono; [apply print_quiet|].
intros [[]|e|] s2; cbn [post]; [|intros [? _]; congruence|done]. intros []; split; congruence.
Qed.

(** A run that succeeds leaves the stored object in its file, whole. *)
Lemma wp_Reader Getenv s :
  let params := getParametersFromEnv Getenv in
  wp (Reader.Run Getenv) (post
    (λ _ s', view s' = view s ∧ ∃ u y,
       coll (Collection:=kind_of (ObjectGVR params)) (view s) !!
         (p_objectNamespace params, p_objectName params) = Some u ∧
       yaml_Marshal u = inr y ∧ pod_fs s' = <[GetObjectPath params := y]> (pod_fs s))
    (λ _ s', view s' = view s)) s.
Proof.
cbv zeta. set (params := getParametersFromEnv Getenv). unfold Reader.Run. cbv zeta. fold params.
apply wp_bind. eapply wp_mono; [apply wp_wrapped; [|apply getK8sClient_quiet]; done|].
intros [[]|e|] s1; cbn [post]; [|by intros []|done]. intros [Hv1 Hf1].
unfold Reader.writeObjectToFile. apply wp_bind.
eapply wp_mono; [apply wp_wrapped; [|apply wp_get_object]; done|].
intros [u|e|] s2; cbn [post]; [|congruence|done]. intros (Hv2 & Hf2 & Hu). cbv zeta.
rewrite Hv1 in Hu. apply wp_bind.
eapply wp_mono; [apply wp_wrapped; [|apply wp_WriteToYaml]; done|].
intros [[]|e|] s3; cbn [post]; [|congruence|done]. intros (Hv3 & y & Hy & Hf3). apply wp_bind.
eapply wp_mono; [apply print_quiet|]. intros [[]|e|] s4; cbn [post]; [|intros [? _]; congruence|done].
intros [Hv4 Hf4]. eapply wp_mono; [apply wp_wrapped; [|apply wp_PrintFileHead]; done|].
intros [[]|e|] s5; cbn [post]; [|congruence|done]. intros [Hv5 Hf5]. split; [congruence|].
exists u, y. split_and!; [done|done|]. congruence.
Qed.
End reader.

(** ** The command line of the work creator *)
Definition creator_args (dir promiseName pipelineName namespace workflowType : string)
    (resourceName : option string) : list string :=
  ["-input-directory"; dir; "-promise-name"; promiseName; "-pipeline-name"; pipelineName;
   "-namespace"; namespace; "-workflow-type"; workflowType] ++
  match resourceName with Some n => ["-resource-name"; n] | None => [] end.

Lemma parse_creator_args dir p pl ns t rn :
  ∃ flags, Flag.Parse work_creator_flags (creator_args dir p pl ns t rn) = Flag.Parsed flags [] ∧
    flags !! "input-directory" = Some dir ∧ flags !! "promise-name" = Some p ∧
    flags !! "pipeline-name" = Some pl ∧ flags !! "namespace" = Some ns ∧
    flags !! "workflow-type" = Some t ∧ flags !! "resource-name" = Some (default "" rn).
Proof. destruct rn as [n|]; (eexists; split; [reflexivity|]); split_and!; reflexivity. Qed.

Section commands.
Context {S : Type} `{World S, Pod S, Lib, Codec, WorkCreatorLib, StatusLib}.

Lemma work_creator_main_args (fs : Entry) dir p pl ns t rn :
  dir ≠ "" → p ≠ "" → pl ≠ "" →
  work_creator_main (S:=S) fs (creator_args dir p pl ns t rn) =
  create_work fs dir p ns (default "" rn) t pl.
Proof.
intros Hd Hp Hpl. destruct (parse_creator_args dir p pl ns t rn) as (flags & Hparse & H1' & H2' & H3' & H4' & H5' & H6').
unfold work_creator_main. rewrite Hparse. cbv zeta. rewrite H1', H2', H3', H4', H5', H6'. cbn [default].
by rewrite !bool_decide_eq_false_2 by done.
Qed.
End commands.

(** ** The object of a workflow *)
Section subject.
Context {S : Type} `{World S, Viewed S, !WorldLaws S, Lib, !LibLaws, PromiseLib, !ConverterLaws, Config}.
Context `{Codec, WorkCreatorLib, StatusLib, !Pod S, !PodFiles S, !PodLaws S, Shell, !ShellLaws}.
Implicit Types (s : S) (p : Promise) (f : PipelineFactory).

(** The request of a resource workflow, the Promise itself of a Promise workflow. *)
Definition subject_kind (typ : string) : Collection UnstructuredSpec UnstructuredStatus :=
  if bool_decide (typ = WorkflowTypeResource) then parents_coll else promises_coll.
Definition subject_key (typ : string) p (rr : option Unstructured) : Key :=
  match bool_decide (typ = WorkflowTypeResource), rr with
  | true, Some r => key r
  | _, _ => ("", GetName p)
  end.
Definition request_name (typ : string) (rr : option Unstructured) : option string :=
  if bool_decide (typ = WorkflowTypeResource) then GetName <$> rr else None.

(** Names are plain, as the API server requires; a request is of a namespaced API that is not
    one of Kratix's own; a Promise carries its API version. *)
Definition well_addressed p (typ : string) (rr : option Unstructured) (pl : Pipeline) : Prop :=
  plain_word (GetName p) ∧ plain_word (pl_name pl) ∧
  if bool_decide (typ = WorkflowTypeResource) then
    ∀ r, rr = Some r → plain_word (GetName r) ∧ plain_word (GetNamespace r) ∧
      (ParseGroupVersion (us_apiVersion (r_spec r))).1 ≠ gvr_group PromiseGVR ∧
      ∀ gvk crd, GetAPI p = Ok (gvk, crd) → crd_scope (r_spec crd) ≠ ClusterScopedScope
  else ParseGroupVersion (prs_apiVersion (r_spec p)) = (gvr_group PromiseGVR, gvr_version PromiseGVR).

(** The parameters a program reads from its container lead to the object. *)
Definition addresses typ p rr (params : Parameters) : Prop :=
  kind_of (ObjectGVR params) = subject_kind typ ∧
  (p_objectNamespace params, p_objectName params) = subject_key typ p rr.

Lemma params_of (Getenv : string → string) g v n ns plural scoped :
  Getenv "KRATIX_OBJECT_GROUP" = g → Getenv "KRATIX_OBJECT_VERSION" = v →
  Getenv "KRATIX_OBJECT_NAME" = n → Getenv "KRATIX_OBJECT_NAMESPACE" = ns →
  Getenv "KRATIX_CRD_PLURAL" = plural → Getenv "KRATIX_CLUSTER_SCOPED" = show_bool scoped →
  let params := getParametersFromEnv Getenv in
  ObjectGVR params = {| gvr_group := g; gvr_version := v; gvr_resource := plural |} ∧
  p_objectName params = n ∧ p_objectNamespace params = if scoped then "" else or_default ns "default".
Proof. intros <- <- <- <- <- Hs. unfold getParametersFromEnv. cbn. rewrite Hs. by destruct scoped. Qed.

Lemma addresses_request typ p r params g v plural ns :
  typ = WorkflowTypeResource → g ≠ gvr_group PromiseGVR → ns ≠ "" → ns = GetNamespace r →
  ObjectGVR params = {| gvr_group := g; gvr_version := v; gvr_resource := plural |} →
  p_objectName params = GetName r → p_objectNamespace params = or_default ns "default" →
  addresses typ p (Some r) params.
Proof.
intros -> Hg Hns -> Hgvr Hn Hp. unfold addresses, kind_of, subject_kind, subject_key. cbn. split.
- rewrite Hgvr, bool_decide_eq_false_2; [done|]. intros [= -> _ _]. by apply Hg.
- rewrite Hp, Hn. unfold or_default. by rewrite bool_decide_eq_false_2.
Qed.

Lemma addresses_promise typ p rr params :
  typ ≠ WorkflowTypeResource → ObjectGVR params = PromiseGVR →
  p_objectName params = GetName p → p_objectNamespace params = "" → addresses typ p rr params.
Proof.
intros Ht Hgvr Hn Hp. unfold addresses, kind_of, subject_kind, subject_key.
rewrite (bool_decide_eq_false_2 (typ = _)) by done. rewrite Hgvr, Hn, Hp. done.
Qed.

(** What the factory knows of the object. *)
Lemma factory_subject p typ action rr pl f :
  factory_for p typ action rr pl f → well_addressed p typ rr pl →
  (∃ r id plural, typ = WorkflowTypeResource ∧ rr = Some r ∧ f = {|
     pf_id := id; pf_promise := p; pf_pipeline := pl; pf_namespace := GetNamespace r;
     pf_resourceRequest := Some r; pf_resourceWorkflow := true; pf_workflowAction := action;
     pf_workflowType := typ; pf_clusterScoped := false; pf_crdPlural := plural |}) ∨
  (typ ≠ WorkflowTypeResource ∧ f = ForPromise pl p action).
Proof.
unfold factory_for, well_addressed. case_bool_decide as Ht; [|by right]. intros (r & -> & Hf) (_ & _ & Ha).
left. destruct (Ha r eq_refl) as (_ & _ & _ & Hscope). unfold ForResource in Hf.
destruct (GetAPI p) as [[gvk crd]|e|]; [|eexists r, _, ""; by simplify_eq|done].
eexists r, _, (crd_plural (r_spec crd)). rewrite bool_decide_eq_false_2 in Hf by (by eapply Hscope). by simplify_eq.
Qed.

Lemma reader_addresses p typ action rr pl f image :
  factory_for p typ action rr pl f → well_addressed p typ rr pl →
  addresses typ p rr (getParametersFromEnv (container_env image (readerContainer f))).
Proof.
intros Hf Ha. destruct (factory_subject _ _ _ _ _ _ Hf Ha) as [(r & id & plural & Ht & -> & ->)|[Ht ->]];
  unfold well_addressed in Ha.
- rewrite bool_decide_eq_true_2 in Ha by done. destruct Ha as (_ & _ & Ha).
  destruct (Ha r eq_refl) as (_ & [Hns _] & Hg & _).
  destruct (ParseGroupVersion (us_apiVersion (r_spec r))) as [g v] eqn:Egv.
  match goal with |- addresses _ _ _ (getParametersFromEnv ?G) =>
    destruct (params_of G g v (GetName r) (GetNamespace r) plural false) as (Hgvr & Hn & Hp) end;
    try (unfold container_env, readerContainer, defaultEnvVars, workflow_object; cbn; by rewrite Egv).
  by eapply addresses_request.
- rewrite bool_decide_eq_false_2 in Ha by done. destruct Ha as (_ & _ & Egv).
  match goal with |- addresses _ _ _ (getParametersFromEnv ?G) =>
    destruct (params_of G (gvr_group PromiseGVR) (gvr_version PromiseGVR) (GetName p) "" "promises" true)
      as (Hgvr & Hn & Hp) end;
    try (unfold container_env, readerContainer, defaultEnvVars, workflow_object; cbn; by rewrite Egv).
  by apply addresses_promise.
Qed.

Lemma status_addresses p typ action rr pl f obj hash isLast image :
  factory_for p typ action rr pl f → well_addressed p typ rr pl → getObjAndHash f = Ok (obj, hash) →
  let params := getParametersFromEnv (container_env image
    (statusWriterContainer f obj [env "IS_LAST_PIPELINE" (show_bool isLast)])) in
  addresses typ p rr params ∧ p_isLastPipeline params = isLast.
Proof.
intros Hf Ha Ho. split; [|unfold getParametersFromEnv, container_env, statusWriterContainer;
  destruct (ParseGroupVersion _); by destruct isLast].
destruct (factory_subject _ _ _ _ _ _ Hf Ha) as [(r & id & plural & Ht & -> & ->)|[Ht ->]];
  unfold well_addressed in Ha; unfold getObjAndHash in Ho; cbn in Ho;
  (destruct (ToUnstructured p) as [|u] eqn:Eu; [done|]); (destruct (ComputeHashForResource u) as [|hp]; [done|]).
- rewrite bool_decide_eq_true_2 in Ha by done. destruct Ha as (_ & _ & Ha).
  destruct (Ha r eq_refl) as (_ & [Hns _] & Hg & _).
  destruct (ComputeHashForResource r); [done|]. injection Ho as <- _.
  destruct (ParseGroupVersion (us_apiVersion (r_spec r))) as [g v] eqn:Egv.
  match goal with |- addresses _ _ _ (getParametersFromEnv ?G) =>
    destruct (params_of G g v (GetName r) (GetNamespace r) plural false) as (Hgvr & Hn & Hp) end;
    try (unfold container_env, statusWriterContainer; rewrite Egv; done).
  by eapply addresses_request.
- rewrite bool_decide_eq_false_2 in Ha by done. destruct Ha as (_ & _ & Egv).
  injection Ho as <- _. rewrite <-(to_unstructured_version _ _ Eu) in Egv.
  pose proof (to_unstructured_meta _ _ Eu) as Hm.
  match goal with |- addresses _ _ _ (getParametersFromEnv ?G) =>
    destruct (params_of G (gvr_group PromiseGVR) (gvr_version PromiseGVR) (GetName u) SystemNamespace "promises" true)
      as (Hgvr & Hn & Hp) end;
    try (unfold container_env, statusWriterContainer; rewrite Egv; done).
  apply addresses_promise; [done|done| |done]. rewrite Hn. unfold GetName. by rewrite Hm.
Qed.
Lemma plain_creator_args (pn pl ns t : string) rn :
  Forall plain_word [pn; pl; ns; t] → (∀ n, rn = Some n → plain_word n) →
  Forall plain_word (creator_args "/work-creator-files" pn pl ns t rn).
Proof.
rewrite !Forall_cons. intros (Hp & Hpl & Hns & Ht & _) Hn. unfold creator_args. apply Forall_app. split.
- repeat (apply Forall_cons; split; [first [done|plain]|]). by apply Forall_nil.
- destruct rn as [n|]; [|by apply Forall_nil].
  repeat (apply Forall_cons; split; [first [by apply Hn|plain]|]). by apply Forall_nil.
Qed.

Lemma writer_command p typ action rr pl f fs image :
  typ ∈ [WorkflowTypeResource; WorkflowTypePromise] →
  factory_for p typ action rr pl f → well_addressed p typ rr pl →
  adapter (S:=S) fs image (workCreatorContainer f) =
  create_work fs "/work-creator-files" (GetName p) (pf_namespace f)
    (default "" (request_name typ rr)) typ (pl_name pl).
Proof.
intros Ht Hf Ha. pose proof Ha as (Hp & Hpl & Har).
assert (plain_word (pf_namespace f) ∧ (∀ n, request_name typ rr = Some n → plain_word n) ∧
  pc_command (workCreatorContainer f) = ["sh"; "-c"; Strings.Join ("work-creator" ::
    creator_args "/work-creator-files" (GetName p) (pl_name pl) (pf_namespace f) typ (request_name typ rr)) " "])
  as (Hns & Hn & Hc).
{ destruct (factory_subject _ _ _ _ _ _ Hf Ha) as [(r & id & plural & -> & -> & ->)|[Hne ->]].
  - destruct (Har r eq_refl) as (Hrn & Hrns & _). split_and!; [done| |done]. by intros n [= <-].
  - assert (typ = WorkflowTypePromise) as -> by (set_unfold in Ht; destruct Ht as [?|[?|[]]]; congruence).
    split_and!; [plain|done|done]. }
unfold adapter. rewrite Hc, sh_plain; [|by right; left|].
- apply work_creator_main_args; [done|apply Hp|apply Hpl].
- apply plain_creator_args; [|done]. rewrite !Forall_cons. split_and!; try done.
  set_unfold in Ht. destruct Ht as [->|[->|[]]]; plain.
Qed.

Lemma reader_outcome p typ action rr pl f fs image s :
  factory_for p typ action rr pl f → well_addressed p typ rr pl → image "INPUT_DIR" = "" →
  wp (adapter fs image (readerContainer f)) (λ r s', view s' = view s ∧ ∃ code, r = Ok code ∧
    (code = 0%Z → ∃ u y, coll (Collection:=subject_kind typ) (view s) !! subject_key typ p rr = Some u ∧
       yaml_Marshal u = inr y ∧ pod_fs s' = <["/kratix/input/object.yaml" := y]> (pod_fs s))) s.
Proof.
intros Hf Ha Hi. destruct (reader_addresses _ _ _ _ _ _ image Hf Ha) as [Hk Hkey].
assert (sh_words "reader" = ["reader"]) as Hw by by apply (sh_plain "reader" []); [left|constructor].
unfold adapter. cbn [pc_command readerContainer]. rewrite Hw. cbn.
unfold reader_main, exit_code. apply wp_bind, wp_try.
eapply wp_mono; [apply wp_Reader|]. cbv zeta. rewrite Hk, Hkey.
intros [[]|e|] s'; cbn [post]; [|intros Hv; apply wp_ret; split; [done|by exists 1%Z]|done].
intros (Hv & u & y & Hu & Hy & Hfiles). apply wp_ret. split; [done|]. exists 0%Z. split; [done|]. intros _.
exists u, y. split_and!; [done|done|]. rewrite Hfiles. do 2 f_equal.
unfold GetObjectPath, getParametersFromEnv, container_env, readerContainer, defaultEnvVars.
destruct (workflow_object f) as [[[[? ?] ?] ?] ?]. cbn. by rewrite Hi.
Qed.
Definition mounted (path volume : string) (readOnly : bool) (c : PodContainer) : Prop :=
  {| vm_mountPath := path; vm_name := volume; vm_readOnly := readOnly |} ∈ pc_volumeMounts c.

Lemma user_containers_mounted f c :
  c ∈ (pipelineContainers f).1 →
  mounted "/kratix/input" "shared-input" true c ∧ mounted "/kratix/output" "shared-output" false c.
Proof.
intros (c0 & -> & _)%list_elem_of_fmap. unfold mounted, pipelineContainer, defaultPipelineVolumes. cbn.
set_solver.
Qed.

(** C19: The pod of a configure job works on the object the job was generated for, a request or a
    Promise, whatever else the environment of its image holds.  Its first container puts that object, as
    it is stored when it runs, into the file the containers of the pipeline can read, without a
    change to the cluster; after them the command line of the next parses to the work creator for
    the same Promise, pipeline, namespace and request, on the directory the output is
    mounted in; and the last merges the status of the same object, told whether
    its pipeline is the last of the workflow. *)
Theorem job_steps_act_on_their_object p typ rr pl isLast r fs image
    (Ht : typ ∈ [WorkflowTypeResource; WorkflowTypePromise])
    (Hb : built p typ WorkflowActionConfigure rr pl isLast r)
    (Ha : well_addressed p typ rr pl)
    (Hi : image "INPUT_DIR" = "") :
  let pod := pt_spec (jsp_template (r_spec (pjr_job r))) in
  ∃ reader steps writer status params,
    pod_initContainers pod = reader :: steps ++ [writer] ∧ pod_containers pod = [status] ∧
    mounted "/kratix/input" "shared-input" false reader ∧
    (∀ c, c ∈ steps → mounted "/kratix/input" "shared-input" true c ∧
                      mounted "/kratix/output" "shared-output" false c) ∧
    mounted "/work-creator-files/input" "shared-output" false writer ∧
    (∀ s, wp (adapter fs image reader) (λ r s', view s' = view s ∧ ∃ code, r = Ok code ∧
      (code = 0%Z → ∃ u y,
         coll (Collection:=subject_kind typ) (view s) !! subject_key typ p rr = Some u ∧
         yaml_Marshal u = inr y ∧
         pod_fs s' = <["/kratix/input/object.yaml" := y]> (pod_fs s))) s) ∧
    adapter (S:=S) fs image writer =
      create_work fs "/work-creator-files" (GetName p) (GetNamespace (pjr_job r))
        (default "" (request_name typ rr)) typ (pl_name pl) ∧
    adapter (S:=S) fs image status =
      exit_code (wrapped "failed to create Kubernetes client" (getK8sClient (container_env image status)) ;;;
                 run (PC:=subject_kind typ) fs params) ∧
    (p_objectNamespace params, p_objectName params) = subject_key typ p rr ∧
    p_isLastPipeline params = isLast.
Proof.
cbv zeta. destruct Hb as (_ & _ & f & Hf & obj & hash & cs & Ho & Hcs & Hns & _ & Hinit & Hcont & _).
destruct (factory_for_pipeline _ _ _ _ _ _ Hf) as [_ Hact].
unfold job_containers in Hcs. rewrite bool_decide_eq_true_2 in Hcs by done. injection Hcs as <-.
destruct (status_addresses _ _ _ _ _ _ _ _ isLast image Hf Ha Ho) as [[Hk Hkey] Hlast].
eexists (readerContainer f), (pipelineContainers f).1, (workCreatorContainer f), _, _.
split_and!; [exact Hinit|exact Hcont|unfold mounted; cbn; set_solver|apply user_containers_mounted|
  unfold mounted; cbn; set_solver|..].
- intros s. by eapply reader_outcome.
- rewrite Hns. by eapply writer_command.
- unfold adapter. assert (sh_words "update-status" = ["update-status"]) as Hw
    by by apply (sh_plain "update-status" []); [right; right; left|constructor].
  replace (pc_command (statusWriterContainer f obj _)) with ["sh"; "-c"; "update-status"]
    by (unfold statusWriterContainer; by destruct (ParseGroupVersion _)).
  rewrite Hw. cbn [bool_decide]. unfold update_status_main, update_status_run. cbv zeta. rewrite Hk. reflexivity.
- exact Hkey.
- exact Hlast.
Qed.
End subject.
