(* ===== verification/ProgramWitness.v ===== *)
(** * The programs of a pod on concrete objects *)

From S2P Require Import Prelude GoLib Files Codec Meta Api Kube Client Sim SimPromise SimStore Shared ResourceUtil.
From S2P Require Import Promise PromiseStore PipelineFactory WorkCreator StatusUpdater FactoryFacts FactoryWitness.
From S2P Require Import WorkCreatorWitness PromiseDeletion PromiseWitness Programs ProgramFacts.
From Stdlib Require Import Ascii.
#[local] Existing Instances redis_lib redis_converter Sim_Config foo_selectors.

(** ** A shell that splits at spaces *)
Fixpoint words (s acc : string) : list string :=
  match s with
  | "" => if bool_decide (acc = "") then [] else [acc]
  | String c s' =>
      if bool_decide (c = " "%char)
      then (if bool_decide (acc = "") then [] else [acc]) ++ words s' ""
      else words s' (acc +:+ String c "")
  end.
#[global] Instance space_shell : Shell := λ line, words line "".

Lemma words_word w rest acc :
  Forall word_char (String.list_ascii_of_string w) → words (w +:+ rest) acc = words rest (acc +:+ w).
Proof.
revert acc. induction w as [|c w IH]; intros acc Hw.
{ by rewrite string_app_nil_r. }
change (String c w +:+ rest) with (String c (w +:+ rest)). cbn [words]. cbn in Hw. apply Forall_cons in Hw as [Hc Hw]. rewrite bool_decide_eq_false_2.
- rewrite IH by done. by rewrite string_app_assoc.
- intros ->. revert Hc. apply (bool_decide_unpack (¬ _)). vm_compute. exact I.
Qed.

Lemma words_join ws : Forall plain_word ws → words (Strings.Join ws " ") "" = ws.
Proof.
induction ws as [|w ws IH]; [done|]. intros [[Hne Hw] Hws]%Forall_cons. destruct ws as [|w' ws].
- cbn [Strings.Join]. rewrite <-(string_app_nil_r w) at 1. rewrite words_word by done. cbn.
  by rewrite bool_decide_eq_false_2.
- change (Strings.Join (w :: w' :: ws) " ") with (w +:+ " " +:+ Strings.Join (w' :: ws) " ").
  rewrite words_word by done.
  change (" " +:+ Strings.Join (w' :: ws) " ") with (String " "%char (Strings.Join (w' :: ws) " ")).
  cbn [words]. rewrite bool_decide_eq_true_2 by done. rewrite bool_decide_eq_false_2 by done.
  cbn [app]. f_equal. by apply IH.
Qed.

#[global] Instance space_shell_laws : ShellLaws.
Proof.
intros program args Hp Ha. apply words_join, Forall_cons. split; [|done].
revert program Hp. apply Forall_forall. plain.
Qed.

(** ** A pod whose files are those of the environment *)
#[global] Instance Sim_Pod : Pod Sim := {|
  RestConfig := unit;
  InClusterConfig := sim_store (λ f, inr (tt, f));
  BuildConfigFromFlags _ _ := sim_store (λ f, inr (tt, f));
  NewForConfig _ := sim_store (λ f, inr (tt, f));
  GetConfigOrDie := sim_store (λ f, inr (tt, f));
  client_New _ := sim_store (λ f, inr (tt, f));
  AddToScheme := ret tt;
  os_WriteFile path content := sim_store (λ f, inr (tt, <[path := content]> f));
  os_ReadFile path := sim_store (λ f,
    match f !! path with Some c => inr (c, f) | None => inl ErrFileNotFound end);
  Fprint _ := ret tt;
  yaml_Marshal u := inr ("name: " +:+ GetName u);
|}.
#[global] Instance Sim_PodFiles : PodFiles Sim := sim_files.

Lemma sim_store_quiet {A} (a : A) : quiet (S:=Sim) (sim_store (λ f, inr (a, f))).
Proof.
intros s. apply (wp_elim _ _ _ _ _ (surjective_pairing _)). unfold sim_store.
by destruct (head (sim_faults s)) as [[x|]|].
Qed.

#[global] Instance Sim_pod_laws : PodLaws Sim.
Proof.
split; try (intros; apply sim_store_quiet).
- intros s. by apply wp_ret.
- intros t s. by apply wp_ret.
- intros Sp St C k s. apply wp_call; intros x s' Hr; (split; [|exact (sim_request_files _ _ _ _ Hr)]).
  + by apply get_ok in Hr as [].
  + by apply get_err in Hr as [].
- intros path content s. apply (wp_elim _ _ _ _ _ (surjective_pairing _)). unfold os_WriteFile, Sim_Pod, sim_store.
  by destruct (head (sim_faults s)) as [[x|]|].
- intros path s. apply (wp_elim _ _ _ _ _ (surjective_pairing _)). unfold os_ReadFile, Sim_Pod, sim_store.
  destruct (head (sim_faults s)) as [[x|]|]; [done|..]; by destruct (sim_files s !! path) eqn:E.
Qed.

(** ** The job of the first pipeline of a request *)
Definition a_pipeline : Pipeline := pipeline_named "a" all_permissions.
Definition generated := generatePipelinesObjects redis "resource" "configure" (Some db) sim_empty.
Definition no_env : string → string := λ _, "".
Definition stored_db : Sim := sim_of (set_coll (Collection:=parents_coll) (of_list [db]) empty_cluster).

Lemma db_addressed : well_addressed redis "resource" (Some db) a_pipeline.
Proof.
split_and!; [plain..|]. cbn. intros r [= <-].
split_and!; [plain..|done|]. by intros gvk crd [= _ <-].
Qed.

Lemma first_job_built : ∃ r rest, generated.1 = Ok (r :: rest) ∧
  built redis "resource" "configure" (Some db) a_pipeline false r.
Proof.
assert ("resource" ∈ [WorkflowTypeResource; WorkflowTypePromise]) as Ht by left.
assert ("configure" ∈ [WorkflowActionConfigure; WorkflowActionDelete]) as Ha by left.
pose proof (wp_generatePipelinesObjects redis "resource" "configure" (Some db) sim_empty Ht Ha) as Hwp.
read_off Hwp. destruct Hwp as (rs & Hr & _ & pls & Hp & Hlen & Hb). vm_compute in Hp. injection Hp as <-.
destruct rs as [|r rest]; [done|]. exists r, rest. split; [exact Hr|]. exact (Hb 0 _ _ eq_refl eq_refl).
Qed.

(** The reader of that pod, run where the request is stored. *)
Lemma job_steps_act_on_their_object_witness : ∃ r rest reader,
  generated.1 = Ok (r :: rest) ∧
  head (pod_initContainers (pt_spec (jsp_template (r_spec (pjr_job r))))) = Some reader ∧
  (∃ code s', adapter (S:=Sim) pod_files no_env reader stored_db = (Ok code, s') ∧
    (code = 0%Z → sim_files s' = {["/kratix/input/object.yaml" := "name: db"]})) ∧
  (adapter (S:=Sim) pod_files no_env (readerContainer factory) stored_db).1 = Ok 0%Z.
Proof.
destruct first_job_built as (r & rest & Hr & Hb).
destruct (job_steps_act_on_their_object (S:=Sim) redis "resource" (Some db) a_pipeline false r pod_files no_env
  ltac:(left) Hb db_addressed eq_refl)
  as (reader & steps & writer & status & params & Hi & _ & _ & _ & _ & Hread & _).
exists r, rest, reader. split; [exact Hr|]. split; [by rewrite Hi|]. split; [|vm_compute; reflexivity].
specialize (Hread stored_db). destruct (adapter pod_files no_env reader stored_db) as [c s'] eqn:E.
destruct (wp_intro _ _ _ _ _ E Hread) as (_ & code & Hcode & Hok). subst c. exists code, s'. split; [done|]. intros Hc.
destruct (Hok Hc) as (u & y & Hu & Hy & Hf). assert (u = db) as -> by (vm_compute in Hu; injection Hu as <-; reflexivity).
injection Hy as <-. exact Hf.
Defined.

(** A request of a cluster-scoped API has no namespace: the flag after the empty one becomes its
    value, and the name of the request is lost. *)
Definition cluster_db : Unstructured := set_meta (new_meta "" "db") db.
Definition cluster_factory : PipelineFactory := {|
  pf_id := "redis-resource-configure-a"; pf_promise := redis; pf_pipeline := a_pipeline;
  pf_namespace := GetNamespace cluster_db; pf_resourceRequest := Some cluster_db; pf_resourceWorkflow := true;
  pf_workflowAction := "configure"; pf_workflowType := "resource"; pf_clusterScoped := true;
  pf_crdPlural := "redis" |}.

Lemma cluster_scoped_request_lost fs :
  adapter (S:=Sim) fs no_env (workCreatorContainer cluster_factory) =
  create_work fs "/work-creator-files" "redis" "-workflow-type" "" "resource" "a".
Proof. reflexivity. Qed.
