(* ===== verification/Manager.v ===== *)
(** * The manager: [cmd/main.go]

    How the operator starts: its configuration, the defaults and options taken from it, and the
    loop that starts the manager again when the Promise controller asks for it.  Durations are
    in seconds. *)

From S2P Require Import Prelude GoLib Meta Api Kube Client Shared ResourceUtil Promise PipelineFactory.
From S2P Require Import Workflow WorkflowDelete.

(** ** The configuration *)
Record JobOptionsConfig := { jc_defaultBackoffLimit : option Z }.

Record WorkflowsConfig := {
  wc_defaultContainerSecurityContext : SecurityContext;
  wc_defaultImagePullPolicy : string;
  wc_jobOptions : JobOptionsConfig;
}.

Record LeaderElectionConfig := {
  le_leaseDuration : option Z;
  le_renewDeadline : option Z;
  le_retryPeriod : option Z;
}.

Record KratixConfig := {
  kc_workflows : WorkflowsConfig;
  kc_numberOfJobsToKeep : Z;
  kc_controllerLeaderElection : option LeaderElectionConfig;
  kc_selectiveCache : bool;
  kc_reconciliationInterval : option Z;
}.

(** [yaml.Unmarshal] into a configuration *)
Class ConfigLib := unmarshal_config : string → error + KratixConfig.

Section configuration.
Context {S : Type} `{World S, ConfigLib}.

(** Nothing when there is no config map. *)
Definition readKratixConfig : M S (option KratixConfig) :=
  let! r := try (Get (Sp:=ConfigMapSpec) (St:=unit) ("kratix-platform-system", "kratix")) in
  match r with
  | inl err =>
      if IsNotFound err then ret None
      else fail (ErrorWrap "failed to get kratix-platform-system/kratix configmap" err)
  | inr cm =>
      match cm_data (r_spec cm) !! "config" with
      | None => fail (ErrorMsg "configmap kratix-platform-system/kratix does not contain a 'config' key")
      | Some config =>
          match unmarshal_config config with
          | inl err =>
              fail (ErrorWrap "failed to unmarshal ConfigMap kratix-platform-system/kratix into Kratix config" err)
          | inr kratixConfig => ret (Some kratixConfig)
          end
      end
  end.
End configuration.

Definition numJobsToKeepDefault : Z := 5.
Definition DefaultReconciliationInterval : Z := 10 * 3600.

Definition getNumJobsToKeep (kratixConfig : option KratixConfig) : Z :=
  match kratixConfig with
  | None => numJobsToKeepDefault
  | Some c =>
      if bool_decide (kc_numberOfJobsToKeep c = 0%Z) then numJobsToKeepDefault
      else if bool_decide (kc_numberOfJobsToKeep c < 1)%Z then numJobsToKeepDefault
      else kc_numberOfJobsToKeep c
  end.

Definition getRegularReconciliationInterval (kratixConfig : option KratixConfig) : Z :=
  match kratixConfig with
  | Some c => default DefaultReconciliationInterval (kc_reconciliationInterval c)
  | None => DefaultReconciliationInterval
  end.

(** The package variables of [api/v1alpha1] that the configuration sets. *)
Record Defaults := {
  d_securityContext : option SecurityContext;
  d_imagePullPolicy : string;
  d_backoffLimit : option Z;
}.

Definition no_defaults : Defaults :=
  {| d_securityContext := None; d_imagePullPolicy := ""; d_backoffLimit := None |}.

Definition set_defaults (kratixConfig : option KratixConfig) (d : Defaults) : Defaults :=
  match kratixConfig with
  | None => d
  | Some c =>
      let w := kc_workflows c in
      {| d_securityContext := Some (wc_defaultContainerSecurityContext w);
         d_imagePullPolicy := wc_defaultImagePullPolicy w;
         d_backoffLimit := match jc_defaultBackoffLimit (wc_jobOptions w) with
                           | Some l => Some l
                           | None => d_backoffLimit d
                           end |}
  end.

(** What the pipeline factory sees of it. *)
Definition operator_config (image pullSecret : string) (kratixConfig : option KratixConfig) : Config :=
  let d := set_defaults kratixConfig no_defaults in
  {| PIPELINE_ADAPTER_IMG := image; PIPELINE_ADAPTER_PULL_SECRET := pullSecret;
     DefaultUserProvidedContainersSecurityContext := d_securityContext d;
     DefaultImagePullPolicy := d_imagePullPolicy d; DefaultJobBackoffLimit := d_backoffLimit d |}.

(** ** The options of the manager *)
Record Options := {
  o_leaderElection : bool;
  o_leaseDuration : option Z;
  o_renewDeadline : option Z;
  o_retryPeriod : option Z;
  (** the labels of the secrets that are cached, if not all *)
  o_cachedSecrets : option Labels;
}.

(** [x = &y] when [y] is set *)
Definition or_keep (new old : option Z) : option Z := match new with Some _ => new | None => old end.

(** Reads the election settings without looking whether there are any. *)
Definition setLeaderElectConfig (mgrOptions : Options) (kConfig : KratixConfig) : outcome Options :=
  match kc_controllerLeaderElection kConfig with
  | None => Panicked
  | Some le =>
      Ok {| o_leaderElection := o_leaderElection mgrOptions;
            o_leaseDuration := or_keep (le_leaseDuration le) (o_leaseDuration mgrOptions);
            o_renewDeadline := or_keep (le_renewDeadline le) (o_renewDeadline mgrOptions);
            o_retryPeriod := or_keep (le_retryPeriod le) (o_retryPeriod mgrOptions);
            o_cachedSecrets := o_cachedSecrets mgrOptions |}
  end.

Definition manager_options (enableLeaderElection : bool) (kratixConfig : option KratixConfig) : outcome Options :=
  let mgrOptions :=
    {| o_leaderElection := enableLeaderElection; o_leaseDuration := None; o_renewDeadline := None;
       o_retryPeriod := None; o_cachedSecrets := None |} in
  match kratixConfig with
  | None => Ok mgrOptions
  | Some c =>
      let elected := match kc_controllerLeaderElection c with
                     | Some _ => setLeaderElectConfig mgrOptions c
                     | None => Ok mgrOptions
                     end in
      match elected with
      | Ok o =>
          Ok (if kc_selectiveCache c then
                {| o_leaderElection := o_leaderElection o; o_leaseDuration := o_leaseDuration o;
                   o_renewDeadline := o_renewDeadline o; o_retryPeriod := o_retryPeriod o;
                   o_cachedSecrets := Some {["app.kubernetes.io/part-of" := "kratix"]} |}
              else o)
      | r => r
      end
  end.

(** ** Starting the manager again

    Each turn of the loop has a flag of its own that a restart is wanted and one that a restart
    is on its way; the function that cancels the manager is shared by all turns.  A call of
    [RestartManager] starts a goroutine that waits and then cancels; between its three steps, and
    between a stop and the next start, others may act. *)
Module Restart.
Inductive phase := Starting | Sleeping | Waking.

(** A goroutine, with the turn whose flags it has. *)
Record goroutine := { g_turn : nat; g_phase : phase }.

Record flags := { restartManager : bool; restartManagerInProgress : bool }.
Definition fresh_flags : flags := {| restartManager := false; restartManagerInProgress := false |}.

Record state := mkState {
  turn : nat;
  flags_of : gmap nat flags;
  goroutines : gmap nat goroutine;
  cancelled : bool;
  exited : option Z;
}.

Definition flags_at (x : state) (i : nat) : flags := default fresh_flags (flags_of x !! i).
Definition initial : state := mkState 0 ∅ ∅ false None.

(** [RestartManager] of turn [i]; [k] is the identity of a goroutine it may start. *)
Definition RestartManager (i k : nat) (x : state) : state :=
  let f := flags_at x i in
  mkState (turn x)
    (<[i := {| restartManager := true; restartManagerInProgress := restartManagerInProgress f |}]> (flags_of x))
    (if restartManagerInProgress f then goroutines x
     else <[k := {| g_turn := i; g_phase := Starting |}]> (goroutines x))
    (cancelled x) (exited x).

Definition set_inProgress (i : nat) (b : bool) (x : state) : gmap nat flags :=
  <[i := {| restartManager := restartManager (flags_at x i); restartManagerInProgress := b |}]> (flags_of x).

(** The goroutine starts to wait. *)
Definition begin_wait (i k : nat) (x : state) : state :=
  mkState (turn x) (set_inProgress i true x)
    (<[k := {| g_turn := i; g_phase := Sleeping |}]> (goroutines x)) (cancelled x) (exited x).

(** It wakes up. *)
Definition wake_up (i k : nat) (x : state) : state :=
  mkState (turn x) (set_inProgress i false x)
    (<[k := {| g_turn := i; g_phase := Waking |}]> (goroutines x)) (cancelled x) (exited x).

(** It cancels the manager that runs now, and ends. *)
Definition cancelManagerCtxFunc (k : nat) (x : state) : state :=
  mkState (turn x) (flags_of x) (base.delete k (goroutines x)) true (exited x).

(** The end of a turn: [mgr.Start] has returned, with an error or not.  A next turn makes a manager
    anew; that this may fail, which ends the process, is left out. *)
Definition manager_stopped (err : bool) (x : state) : state :=
  if negb (restartManager (flags_at x (turn x)))
  then mkState (turn x) (flags_of x) (goroutines x) (cancelled x) (Some (if err then 1 else 0)%Z)
  else
    let f := flags_at x (turn x) in
    let done := {| restartManager := false; restartManagerInProgress := restartManagerInProgress f |} in
    mkState (Datatypes.S (turn x))
      (<[Datatypes.S (turn x) := fresh_flags]> (<[turn x := done]> (flags_of x))) (goroutines x) false (exited x).

Inductive step : state → state → Prop :=
  | step_call i k x : exited x = None → i ≤ turn x → goroutines x !! k = None →
      step x (RestartManager i k x)
  | step_begin i k x : exited x = None →
      goroutines x !! k = Some {| g_turn := i; g_phase := Starting |} → step x (begin_wait i k x)
  | step_wake i k x : exited x = None →
      goroutines x !! k = Some {| g_turn := i; g_phase := Sleeping |} → step x (wake_up i k x)
  | step_cancel i k x : exited x = None →
      goroutines x !! k = Some {| g_turn := i; g_phase := Waking |} → step x (cancelManagerCtxFunc k x)
  | step_stop err x : exited x = None → cancelled x = true ∨ err = true → step x (manager_stopped err x).
End Restart.

(** ** What follows from the configuration *)
Lemma jobs_to_keep_positive c : (1 ≤ getNumJobsToKeep c)%Z.
Proof. unfold getNumJobsToKeep, numJobsToKeepDefault. destruct c; [|lia]. repeat case_bool_decide; lia. Qed.

Lemma newest_exists (l : list Job) :
  l ≠ [] → ∃ j, j ∈ l ∧ ∀ j', j' ∈ l → (created j' ≤ created j)%Z.
Proof.
induction l as [|x l IH]; [done|]. intros _. destruct (decide (l = [])) as [->|Hne].
{ exists x. split; [left|]. intros j' ->%list_elem_of_singleton. lia. }
destruct (IH Hne) as (j & Hj & Hmax). destruct (decide (created j ≤ created x)%Z).
- exists x. split; [left|]. intros j' [->|Hj']%elem_of_cons; [lia|]. specialize (Hmax _ Hj'). lia.
- exists j. split; [by right|]. intros j' [->|Hj']%elem_of_cons; [lia|auto].
Qed.

Section cleanup.
Context {S : Type} `{World S, Viewed S, !WorldLaws S, Lib, !LibLaws}.

(** Whatever is configured, cleaning up the jobs of a pipeline leaves its newest job, from which
    the next reconciliation decides what to do. *)
Lemma configured_cleanup_keeps_newest config opts (l : list Job) (s : S) :
  op_numberOfJobsToKeep opts = Z.to_nat (getNumJobsToKeep config) → l ≠ [] →
  NoDup (key <$> l) → (∀ j, j ∈ l → c_jobs (view s) !! key j = Some j) →
  wp (cleanupJobs opts l) (λ _ s', ∃ j, j ∈ l ∧ (∀ j', j' ∈ l → (created j' ≤ created j)%Z) ∧
    c_jobs (view s') !! key j = Some j) s.
Proof.
intros Hn Hne Hnd Hst. eapply wp_mono; [by apply cleanup_keeps_newest_jobs|].
intros [[]|e|] s'; cbn [post]; [|done|done].
intros [(done & rest & new & Hp & Hlen & Hold & _ & Hkept) _].
pose proof (jobs_to_keep_positive config) as Hpos.
assert (new ≠ []) as Hnew.
{ intros ->. cbn in Hlen. destruct l; [done|]. cbn in Hlen. lia. }
destruct (newest_exists new Hnew) as (j & Hj & Hmax). exists j.
assert (j ∈ l) as Hjl by (rewrite Hp; set_solver). split_and!; [done| |].
- intros j' Hj'. rewrite Hp, (assoc_L (++)) in Hj'. apply elem_of_app in Hj' as [Ho|Hj']; auto.
- rewrite Hkept by set_solver. auto.
Qed.
End cleanup.

(** ** Restarts are not lost *)
Module RestartFacts.
Import Restart.
Implicit Types x y : state.

Definition wanted x : Prop := restartManager (flags_at x (turn x)) = true.
Definition underway x (i : nat) : Prop := ∃ k g, goroutines x !! k = Some g ∧ g_turn g = i.

Record inv x : Prop := {
  (** A restart that is said to be on its way has a goroutine that waits. *)
  inv_busy : ∀ i, restartManagerInProgress (flags_at x i) = true →
    ∃ k, goroutines x !! k = Some {| g_turn := i; g_phase := Sleeping |};
  inv_wanted : wanted x → cancelled x = true ∨ underway x (turn x);
}.

Lemma flags_at_insert x t fs gs c e i f j :
  fs = <[i := f]> (flags_of x) → flags_at (mkState t fs gs c e) j = if decide (i = j) then f else flags_at x j.
Proof.
intros ->. unfold flags_at. cbn. case_decide as Hij; [subst; by rewrite lookup_insert_eq|by rewrite lookup_insert_ne].
Qed.

(** A goroutine stays on its way while its entry is only renewed. *)
Lemma underway_insert x t fs c e k i p j :
  (∀ g, goroutines x !! k = Some g → g_turn g = i) → underway x j →
  underway (mkState t fs (<[k := {| g_turn := i; g_phase := p |}]> (goroutines x)) c e) j.
Proof.
intros Hk (k' & g & Hg & Ht). destruct (decide (k = k')) as [->|Hne].
- exists k', {| g_turn := i; g_phase := p |}. cbn. rewrite lookup_insert_eq. split; [done|].
  by rewrite <-Ht, (Hk _ Hg).
- exists k', g. cbn. by rewrite lookup_insert_ne.
Qed.

Lemma call_inv i k x : goroutines x !! k = None → inv x → inv (RestartManager i k x).
Proof.
intros Hk [Hb Hw]. unfold RestartManager. split.
- intros j. erewrite flags_at_insert by done. intros Hj.
  assert (restartManagerInProgress (flags_at x j) = true) as (k' & Hk')%Hb by (case_decide; by subst).
  exists k'. cbn. destruct (restartManagerInProgress (flags_at x i)); [done|].
  rewrite lookup_insert_ne; [done|congruence].
- unfold wanted. cbn [turn]. erewrite flags_at_insert by done. cbn [cancelled]. case_decide as Hi; intros Hr.
  + right. destruct (restartManagerInProgress (flags_at x i)) eqn:Hp.
    * destruct (Hb i Hp) as (k' & Hk'). by exists k', {| g_turn := i; g_phase := Sleeping |}.
    * exists k, {| g_turn := i; g_phase := Starting |}. cbn. by rewrite lookup_insert_eq.
  + destruct (Hw Hr) as [Hc|Hu]; [by left|right].
    destruct (restartManagerInProgress (flags_at x i)); [exact Hu|]. apply underway_insert; [|done]. congruence.
Qed.

(** The goroutine [k] of turn [i] moves on, and sets the flag. *)
Lemma move_inv i k p p' b x :
  goroutines x !! k = Some {| g_turn := i; g_phase := p |} → (b = true → p' = Sleeping) →
  (p = Sleeping → b = false) → inv x →
  inv (mkState (turn x) (set_inProgress i b x) (<[k := {| g_turn := i; g_phase := p' |}]> (goroutines x))
         (cancelled x) (exited x)).
Proof.
intros Hk Hb' Hp [Hb Hw]. split.
- intros j. erewrite flags_at_insert by done. cbn. case_decide as Hij; cbn.
  + intros ->. rewrite Hb' by done. subst j. exists k. by rewrite lookup_insert_eq.
  + intros (k' & Hk')%Hb. exists k'. rewrite lookup_insert_ne; [done|]. intros ->. congruence.
- unfold wanted. cbn [turn cancelled]. erewrite flags_at_insert by done. intros Hr.
  assert (wanted x) as [Hc|Hu]%Hw by (unfold wanted; case_decide; by subst); [by left|right].
  apply underway_insert; [|done]. intros g Hg. rewrite Hk in Hg. by simplify_eq.
Qed.

Lemma cancel_inv i k x :
  goroutines x !! k = Some {| g_turn := i; g_phase := Waking |} → inv x → inv (cancelManagerCtxFunc k x).
Proof.
intros Hk [Hb _]. split; [|by left]. intros j (k' & Hk')%Hb. exists k'. cbn.
rewrite lookup_delete_ne; [done|]. intros ->. congruence.
Qed.

Lemma stop_inv err x : inv x → inv (manager_stopped err x).
Proof.
intros [Hb Hw]. unfold manager_stopped. destruct (restartManager (flags_at x (turn x))) eqn:Hr; cbn [negb].
- split.
  + intros j Hj. apply Hb. revert Hj. unfold flags_at. cbn. rewrite lookup_insert. case_decide; [done|].
    rewrite lookup_insert. by case_decide; subst.
  + unfold wanted, flags_at. cbn. by rewrite lookup_insert_eq.
- split; [exact Hb|]. unfold wanted. intros Hr'.
  change (restartManager (flags_at x (turn x)) = true) in Hr'. congruence.
Qed.

Lemma step_inv x y : step x y → inv x → inv y.
Proof.
intros [i k x0 _ _ Hk|i k x0 _ Hk|i k x0 _ Hk|i k x0 _ Hk|err x0 _ _] Hinv.
- by apply call_inv.
- by eapply move_inv.
- by eapply move_inv.
- by eapply cancel_inv.
- by apply stop_inv.
Qed.

Lemma reachable_inv x : rtc step initial x → inv x.
Proof.
intros Hx. assert (inv initial) as Hi by (split; [by intros i|done]). revert Hi.
induction Hx as [|a b c Hab _ IH]; [done|]. intros Ha. by eapply IH, step_inv.
Qed.

(** A step within a turn keeps a restart wanted and the process alive. *)
Lemma step_wanted x y :
  step x y → wanted x → (turn y = turn x ∧ wanted y ∧ exited y = None) ∨ turn y = Datatypes.S (turn x).
Proof.
intros [i k x0 He _ _|i k x0 He _|i k x0 He _|i k x0 He _|err x0 He _] Hw; unfold wanted in *; cbn [turn exited].
- left. unfold RestartManager. cbn [turn]. erewrite flags_at_insert by done. split_and!; [done| |done]. 
  case_decide; [done|exact Hw].
- left. unfold begin_wait. cbn [turn]. erewrite flags_at_insert by done. split_and!; [done| |done].
  case_decide as Hi; [cbn; by rewrite Hi|exact Hw].
- left. unfold wake_up. cbn [turn]. erewrite flags_at_insert by done. split_and!; [done| |done].
  case_decide as Hi; [cbn; by rewrite Hi|exact Hw].
- by left.
- right. unfold manager_stopped. by rewrite Hw.
Qed.

Lemma step_turn x y : step x y → turn x ≤ turn y.
Proof. intros []; cbn; try lia. unfold manager_stopped. case_match; cbn; lia. Qed.

Lemma wanted_survives x y :
  rtc step x y → exited x = None → wanted x → turn y = turn x → exited y = None ∧ wanted y.
Proof.
induction 1 as [x|x y z Hxy Hyz IH]; [done|]. intros He Hw Ht.
assert (turn y ≤ turn z) as Hle.
{ clear -Hyz. induction Hyz as [|a b c Hab _ IH]; [done|]. apply step_turn in Hab. lia. }
destruct (step_wanted _ _ Hxy Hw) as [(Hty & Hwy & Hey)|Hty]; [|lia]. apply IH; [done|done|lia].
Qed.

(** A goroutine, left to itself, cancels the manager. *)
Lemma goroutine_cancels x k g :
  exited x = None → goroutines x !! k = Some g →
  ∃ y, rtc step x y ∧ turn y = turn x ∧ cancelled y = true.
Proof.
intros He Hk. destruct g as [i p].
assert (∀ z, exited z = None → goroutines z !! k = Some {| g_turn := i; g_phase := Waking |} →
  ∃ y, rtc step z y ∧ turn y = turn z ∧ cancelled y = true) as Hwake.
{ intros z Hz Hkz. eexists. split; [eapply rtc_once, step_cancel; done|done]. }
assert (∀ z, exited z = None → goroutines z !! k = Some {| g_turn := i; g_phase := Sleeping |} →
  ∃ y, rtc step z y ∧ turn y = turn z ∧ cancelled y = true) as Hsleep.
{ intros z Hz Hkz. destruct (Hwake (wake_up i k z)) as (y & Hy & Ht & Hc); [done|apply lookup_insert_eq|].
  exists y. split; [|done]. eapply rtc_l; [by apply step_wake|done]. }
destruct p; [|by apply Hsleep|by apply Hwake].
destruct (Hsleep (begin_wait i k x)) as (y & Hy & Ht & Hc); [done|apply lookup_insert_eq|].
exists y. split; [|done]. eapply rtc_l; [by apply step_begin|done].
Qed.


(** ** On concrete runs *)

(** Two calls before the goroutine of the first runs start two goroutines. *)
Definition twice : state := RestartManager 0 1 (RestartManager 0 0 initial).

Lemma twice_reachable : rtc step initial twice.
Proof.
eapply rtc_l; [apply (step_call 0 0); done|]. apply rtc_once, (step_call 0 1); [done|done|reflexivity].
Qed.


(** A call after the goroutine has woken up, while the manager is being stopped, starts a goroutine that
    outlives the turn: it cancels the next manager, for which nobody asked for a restart, and
    the process ends. *)
Definition stray : state :=
  manager_stopped false (cancelManagerCtxFunc 1 (wake_up 0 1 (begin_wait 0 1
    (manager_stopped false (cancelManagerCtxFunc 0 (RestartManager 0 1
      (wake_up 0 0 (begin_wait 0 0 (RestartManager 0 0 initial))))))))).

Lemma stray_restart_ends_process : rtc step initial stray ∧ turn stray = 1 ∧ exited stray = Some 0%Z.
Proof.
split; [|split; vm_compute; reflexivity].
eapply rtc_l; [apply (step_call 0 0); done|].
eapply rtc_l; [apply (step_begin 0 0); reflexivity|].
eapply rtc_l; [apply (step_wake 0 0); reflexivity|].
eapply rtc_l; [apply (step_call 0 1); [reflexivity|done|reflexivity]|].
eapply rtc_l; [apply (step_cancel 0 0); reflexivity|].
eapply rtc_l; [apply (step_stop false); [reflexivity|by left]|].
eapply rtc_l; [apply (step_begin 0 1); reflexivity|].
eapply rtc_l; [apply (step_wake 0 1); reflexivity|].
eapply rtc_l; [apply (step_cancel 0 1); reflexivity|].
apply rtc_once, (step_stop false); [reflexivity|by left].
Qed.
End RestartFacts.
