(* ===== verification/Setup.v ===== *)
(** * How the manager is put together: [main] and the [SetupWithManager] functions

    A turn of the loop of [cmd/main.go]: a manager is made, the eight controllers, the four webhooks
    and the two checks are registered with it, and it is started.  Every controller that is
    registered runs a step of the system of [System.v]. *)

From S2P Require Import Prelude GoLib Files Codec Meta Api Kube Client Shared ResourceUtil Promise.
From S2P Require Import PromiseStore WorkCreator StatusUpdater PipelineFactory Workflow DynamicController.
From S2P Require Import PromiseController Scheduler WorkController StateStore WorkPlacementController.
From S2P Require Import DestinationController StateStoreController PromiseRelease HealthRecord System Manager.
From S2P Require Import Sim SimPromise SimStore FactoryWitness DynamicWitness WorkCreatorWitness DestinationFacts ReleaseWitness SystemWitness.

(** ** What is registered *)

(** An index of a kind by a field, with the keys of an object. *)
Inductive Index :=
  | IndexDestinations (field : string) (keys : Destination → outcome (list string))
  | IndexBucketStateStores (field : string) (keys : BucketStateStore → outcome (list string))
  | IndexGitStateStores (field : string) (keys : GitStateStore → outcome (list string)).

(** A watch on other objects, with the requests an object gives. *)
Inductive Watch (S : Type) :=
  | WatchPromises (requests : Promise → list Key)
  | WatchDestinations (requests : Destination → M S (list Key))
  | WatchStateStores (kind : string) (requests : string → M S (list Key))
  | WatchSecrets (requests : Key → M S (list Key)).
Arguments WatchPromises {S} _.
Arguments WatchDestinations {S} _.
Arguments WatchStateStores {S} _ _.
Arguments WatchSecrets {S} _.

(** A controller: its kind, whether only changes of the spec wake it up, the kinds it owns, its
    watches, and what it runs. *)
Record Controller (S : Type) := mkController {
  ctl_for : string;
  ctl_generationChanged : bool;
  ctl_owns : list string;
  ctl_watches : list (Watch S);
  ctl_reconcile : Key → M (SystemState S) Result;
}.
Arguments mkController {S} _ _ _ _ _.
Arguments ctl_for {S} _.
Arguments ctl_reconcile {S} _ _.

Record Webhook := { wh_for : string; wh_defaulter : bool; wh_validator : bool }.

Inductive Registration (S : Type) :=
  | NewManager (o : Options)
  | IndexField (i : Index)
  | NewController (c : Controller S)
  | NewWebhook (w : Webhook)
  | AddHealthzCheck (name : string)
  | AddReadyzCheck (name : string).
Arguments NewManager {S} _.
Arguments IndexField {S} _.
Arguments NewController {S} _.
Arguments NewWebhook {S} _.
Arguments AddHealthzCheck {S} _.
Arguments AddReadyzCheck {S} _.

(** The library: a call that registers something can fail; [mgr.Start] returns when the manager
    stops.  [w_restart] is the flag of the turn that a restart is wanted. *)
Class ControllerRuntime (T S : Type) := {
  w_register : Registration S → T → (error + unit) * T;
  w_start : T → (error + unit) * T;
  w_restart : T → bool;
}.

(** ** Reconcilers over the memory of the process *)
Section memory.
Context {S A : Type}.

Definition on_env (m : M S A) : M (SystemState S) A := λ x,
  let '(r, s) := m (sys_env x) in (r, mkSystem s (sys_started x) (sys_versions x)).
Definition on_started (m : M (S * Started) A) : M (SystemState S) A := λ x,
  let '(r, st) := m (sys_env x, sys_started x) in (r, mkSystem st.1 st.2 (sys_versions x)).
Definition on_versions (m : M (S * gmap string string) A) : M (SystemState S) A := λ x,
  let '(r, sv) := m (sys_env x, sys_versions x) in (r, mkSystem sv.1 (sys_started x) sv.2).

Lemma on_env_run m s st v : (on_env m (mkSystem s st v)).2 = mkSystem (m s).2 st v.
Proof. unfold on_env. cbn. by destruct (m s). Qed.
Lemma on_started_run m s st v :
  (on_started m (mkSystem s st v)).2 = let s' := (m (s, st)).2 in mkSystem s'.1 s'.2 v.
Proof. unfold on_started. cbn. by destruct (m (s, st)). Qed.
Lemma on_versions_run m s st v :
  (on_versions m (mkSystem s st v)).2 = let s' := (m (s, v)).2 in mkSystem s'.1 st s'.2.
Proof. unfold on_versions. cbn. by destruct (m (s, v)). Qed.
End memory.

(** ** The controllers *)
Section setup.
Context {T S : Type} `{!ControllerRuntime T S}.
Context `{World S, Viewed S, !WorldLaws S, Lib, !LibLaws, PromiseLib, Config, PromiseCodec}.
Context `{Codec, YamlEncoder, TimeLib, ControllerManager S, !ControllerManagerLaws S}.
Context `{!StateStoreWriter S, !StoredFiles S, !StateStoreLaws S, CanaryLib, WorkCreatorLib, StatusLib}.
Context `{!PromiseFetcher S, !PromiseFetcherLaws S, ReleaseLib, DetailsLib}.
Variable kratixConfig : option KratixConfig.

Definition register (r : Registration S) : M T unit := call (w_register r).

Definition NumberOfJobsToKeep : nat := Z.to_nat (getNumJobsToKeep kratixConfig).
Definition ReconciliationInterval : Z := getRegularReconciliationInterval kratixConfig.

Definition promise_controller : Controller S :=
  mkController "Promise" false ["Job"] [WatchPromises requestsForPromise]
    (λ req, on_started (PromiseReconciler.Reconcile NumberOfJobsToKeep ReconciliationInterval req)).
Definition PromiseReconciler_SetupWithManager : M T unit := register (NewController promise_controller).

Definition work_controller : Controller S :=
  mkController "Work" false ["WorkPlacement"]
    [WatchDestinations WorkReconciler.requestReconciliationOfWorksOnDestination]
    (λ req, on_env (WorkReconciler.Reconcile req)).
Definition WorkReconciler_SetupWithManager : M T unit := register (NewController work_controller).

Definition stateStoreReference : string := "stateStoreRef".
Definition destination_keys (d : Destination) : outcome (list string) :=
  Ok [DestinationReconciler.stateStoreRefKey (ssr_kind (ds_stateStoreRef (r_spec d)))
        (ssr_name (ds_stateStoreRef (r_spec d)))].
Definition destination_controller : Controller S :=
  mkController "Destination" false []
    [WatchStateStores "BucketStateStore" (DestinationReconciler.findDestinationsForStateStore "BucketStateStore");
     WatchStateStores "GitStateStore" (DestinationReconciler.findDestinationsForStateStore "GitStateStore")]
    (λ req, on_env (DestinationReconciler.Reconcile req)).
Definition DestinationReconciler_SetupWithManager : M T unit :=
  register (IndexField (IndexDestinations stateStoreReference destination_keys)) ;;;
  register (NewController destination_controller).

Definition workplacement_controller : Controller S :=
  mkController "WorkPlacement" false [] [] (λ req, on_versions (WorkPlacementReconciler.Reconcile req)).
Definition WorkPlacementReconciler_SetupWithManager : M T unit :=
  register (NewController workplacement_controller).

Definition promiserelease_controller : Controller S :=
  mkController "PromiseRelease" false ["Promise"] [] (λ req, on_env (PromiseReleaseReconciler.Reconcile req)).
Definition PromiseReleaseReconciler_SetupWithManager : M T unit :=
  register (NewController promiserelease_controller).

Definition healthrecord_controller : Controller S :=
  mkController "HealthRecord" false [] [] (λ req, on_env (HealthRecordReconciler.Reconcile req)).
Definition HealthRecordReconciler_SetupWithManager : M T unit :=
  register (NewController healthrecord_controller).

Definition secretRefFieldName : string := "secretRef".
Definition bucket_controller : Controller S :=
  mkController "BucketStateStore" true [] [WatchSecrets BucketStateStoreReconciler.findStateStoresReferencingSecret]
    (λ req, on_env (BucketStateStoreReconciler.Reconcile req)).
Definition BucketStateStoreReconciler_SetupWithManager : M T unit :=
  register (IndexField (IndexBucketStateStores secretRefFieldName bucket_index)) ;;;
  register (NewController bucket_controller).

Definition git_controller : Controller S :=
  mkController "GitStateStore" true [] [WatchSecrets GitStateStoreReconciler.findStateStoresReferencingSecret]
    (λ req, on_env (GitStateStoreReconciler.Reconcile req)).
Definition GitStateStoreReconciler_SetupWithManager : M T unit :=
  register (IndexField (IndexGitStateStores secretRefFieldName git_index)) ;;;
  register (NewController git_controller).

(** ** The webhooks *)
Definition webhook_for (kind : string) (defaulter : bool) : Webhook :=
  {| wh_for := kind; wh_defaulter := defaulter; wh_validator := true |}.
Definition SetupPromiseWebhookWithManager : M T unit := register (NewWebhook (webhook_for "Promise" true)).
Definition SetupPromiseReleaseWebhookWithManager : M T unit :=
  register (NewWebhook (webhook_for "PromiseRelease" false)).
Definition SetupDestinationWebhookWithManager : M T unit :=
  register (NewWebhook (webhook_for "Destination" true)).
Definition SetupBucketStateStoreWebhookWithManager : M T unit :=
  register (NewWebhook (webhook_for "BucketStateStore" false)).

(** ** A turn of the loop *)

Definition setup_manager (enableLeaderElection : bool) : M T unit :=
  let! mgrOptions := lift (manager_options enableLeaderElection kratixConfig) in
  register (NewManager mgrOptions) ;;;
  PromiseReconciler_SetupWithManager ;;;
  WorkReconciler_SetupWithManager ;;;
  DestinationReconciler_SetupWithManager ;;;
  WorkPlacementReconciler_SetupWithManager ;;;
  SetupPromiseWebhookWithManager ;;;
  PromiseReleaseReconciler_SetupWithManager ;;;
  SetupPromiseReleaseWebhookWithManager ;;;
  HealthRecordReconciler_SetupWithManager ;;;
  SetupDestinationWebhookWithManager ;;;
  BucketStateStoreReconciler_SetupWithManager ;;;
  GitStateStoreReconciler_SetupWithManager ;;;
  SetupBucketStateStoreWebhookWithManager ;;;
  register (AddHealthzCheck "healthz") ;;;
  register (AddReadyzCheck "readyz").

(** The configuration is read once; an error ends the process. *)
Definition load_config `{ConfigLib} : M S (option KratixConfig) :=
  let! r := try readKratixConfig in
  match r with inl _ => panic | inr c => ret c end.

(** The exit code, unless there is another turn. *)
Definition run_turn (enableLeaderElection : bool) : M T (option Z) :=
  let! r := try (setup_manager enableLeaderElection) in
  match r with
  | inl _ => ret (Some 1%Z)
  | inr _ =>
      let! err := try (call w_start) in
      let! restartManager := (λ t, (Ok (w_restart t), t)) in
      if negb restartManager then
        ret (Some match err with inl _ => 1%Z | inr _ => 0%Z end)
      else ret None
  end.
End setup.

(** ** What a start means *)

(** What is registered with the manager, and what was whenever one was started. *)
Class Registry (T S : Type) := {
  registered : T → list (Registration S);
  starts : T → list (list (Registration S));
}.

Class ControllerRuntimeLaws (T S : Type) `{!ControllerRuntime T S, !Registry T S} : Prop := {
  register_ok r t t' : w_register r t = (inr tt, t') → starts t' = starts t ∧
    registered t' = match r with NewManager _ => [r] | _ => registered t ++ [r] end;
  register_error r t e t' : w_register r t = (inl e, t') → starts t' = starts t;
  start_registered t r t' : w_start t = (r, t') →
    registered t' = registered t ∧ starts t' = starts t ++ [registered t];
}.

Section facts.
Context {T S : Type} `{!ControllerRuntime T S, !Registry T S, !ControllerRuntimeLaws T S}.
Context `{World S, Viewed S, !WorldLaws S, Lib, !LibLaws, PromiseLib, Config, PromiseCodec}.
Context `{Codec, YamlEncoder, TimeLib, ControllerManager S, !ControllerManagerLaws S}.
Context `{!StateStoreWriter S, !StoredFiles S, !StateStoreLaws S, CanaryLib, WorkCreatorLib, StatusLib}.
Context `{!PromiseFetcher S, !PromiseFetcherLaws S, ReleaseLib, DetailsLib}.
Variable kratixConfig : option KratixConfig.
Implicit Types t : T.

(** The program adds the registrations, or fails without a start. *)
Definition adds {A} (m : M T A) (rs : list (Registration S)) : Prop :=
  ∀ t, wp m (λ r t', r ≠ Panicked ∧ starts t' = starts t ∧
    ∀ a, r = Ok a → registered t' = registered t ++ rs) t.

Definition manager_free (r : Registration S) : bool := match r with NewManager _ => false | _ => true end.

Lemma adds_register r : manager_free r = true → adds (register r) [r].
Proof.
intros Hr t. apply wp_call.
- intros [] t' [Hs Hreg]%register_ok. split_and!; [done|done|]. intros _ _. by destruct r.
- intros e t' Hs%register_error. by split_and!.
Qed.

Lemma adds_bind {A B} (m : M T A) (k : A → M T B) rs rs' :
  adds m rs → (∀ a, adds (k a) rs') → adds (bind m k) (rs ++ rs').
Proof.
intros Hm Hk t. apply wp_bind. eapply wp_mono; [apply Hm|]. intros [a|e|] t1 (Hp & Hs1 & Hr1); [|done|done].
eapply wp_mono; [apply Hk|]. intros r t2 (Hp2 & Hs2 & Hr2). split_and!; [done|congruence|].
intros b Hb. by rewrite (Hr2 b Hb), (Hr1 a eq_refl), <-(assoc_L (++)).
Qed.

Lemma adds_cons {B} r (k : unit → M T B) rs :
  manager_free r = true → (∀ a, adds (k a) rs) → adds (bind (register r) k) (r :: rs).
Proof. intros Hr. apply (adds_bind (register r) k [r] rs), adds_register, Hr. Qed.

(** What a manager is started with. *)
Definition registrations (o : Options) : list (Registration S) :=
  [NewManager o;
   NewController (promise_controller kratixConfig);
   NewController work_controller;
   IndexField (IndexDestinations stateStoreReference destination_keys);
   NewController destination_controller;
   NewController workplacement_controller;
   NewWebhook (webhook_for "Promise" true);
   NewController promiserelease_controller;
   NewWebhook (webhook_for "PromiseRelease" false);
   NewController healthrecord_controller;
   NewWebhook (webhook_for "Destination" true);
   IndexField (IndexBucketStateStores secretRefFieldName bucket_index);
   NewController bucket_controller;
   IndexField (IndexGitStateStores secretRefFieldName git_index);
   NewController git_controller;
   NewWebhook (webhook_for "BucketStateStore" false);
   AddHealthzCheck "healthz";
   AddReadyzCheck "readyz"].

Lemma manager_options_ok elect : ∃ o, manager_options elect kratixConfig = Ok o.
Proof.
unfold manager_options, setLeaderElectConfig. destruct kratixConfig as [c|]; [|eauto].
destruct (kc_controllerLeaderElection c); eauto.
Qed.

Lemma wp_setup_manager elect o t :
  manager_options elect kratixConfig = Ok o →
  wp (setup_manager kratixConfig elect) (λ r t', r ≠ Panicked ∧ starts t' = starts t ∧
    ∀ a, r = Ok a → registered t' = registrations o) t.
Proof.
intros Ho. unfold setup_manager. apply wp_bind, wp_lift. rewrite Ho.
apply wp_bind, wp_call; [|intros e t' Hs%register_error; by split_and!].
intros [] t1 [Hs1 Hr1]%register_ok. simpl in Hr1.
match goal with |- wp ?m _ _ => assert (adds m (tail (registrations o))) as Hadds end.
{ unfold registrations. cbn [tail].
  unfold PromiseReconciler_SetupWithManager, WorkReconciler_SetupWithManager,
    WorkPlacementReconciler_SetupWithManager, SetupPromiseWebhookWithManager,
    PromiseReleaseReconciler_SetupWithManager, SetupPromiseReleaseWebhookWithManager,
    HealthRecordReconciler_SetupWithManager, SetupDestinationWebhookWithManager,
    SetupBucketStateStoreWebhookWithManager.
  do 2 (apply adds_cons; [done|intros _]).
  apply (adds_bind _ _ [_; _]); [apply adds_cons; [done|]; intros _; by apply adds_register|intros _].
  do 6 (apply adds_cons; [done|intros _]).
  do 2 (apply (adds_bind _ _ [_; _]); [apply adds_cons; [done|]; intros _; by apply adds_register|intros _]).
  do 2 (apply adds_cons; [done|intros _]). by apply adds_register. }
eapply wp_mono; [apply Hadds|]. intros r t2 (Hp & Hs2 & Hr2). split_and!; [done|congruence|].
intros a Ha. by rewrite (Hr2 a Ha), Hr1.
Qed.

(** Every controller runs a step of the system. *)
Lemma controllers_step o c req x :
  NewController c ∈ registrations o →
  step (NumberOfJobsToKeep kratixConfig) (ReconciliationInterval kratixConfig) x (ctl_reconcile c req x).2.
Proof.
destruct x as [s st v]. unfold registrations.
rewrite !elem_of_cons, elem_of_nil. intros Hc.
destruct_or! Hc; try done; injection Hc as ->; cbn [ctl_reconcile]; unfold promise_controller, work_controller,
  destination_controller, workplacement_controller, promiserelease_controller, healthrecord_controller,
  bucket_controller, git_controller; cbn [ctl_reconcile];
  rewrite ?on_env_run, ?on_started_run, ?on_versions_run; constructor.
Qed.

(** How a turn ends: something could not be registered, or the manager was started with everything. *)
Definition turn_ends (o : Options) t (r : outcome (option Z)) t' : Prop :=
  starts t' = starts t ∧ r = Ok (Some 1%Z) ∨
  ∃ t1 err, starts t1 = starts t ∧ registered t1 = registrations o ∧ w_start t1 = (err, t') ∧
    starts t' = starts t ++ [registrations o] ∧
    r = Ok (if w_restart t' then None else Some match err with inl _ => 1%Z | inr _ => 0%Z end).

(** C36: the manager is started only after everything has been registered with it, in order: the
    controllers of the eight kinds, the indexes before the controllers that look things up by them,
    the webhooks and the checks; if anything cannot be registered, nothing is started and the
    process ends with 1.  After the manager stopped the process goes on exactly when a restart was
    asked for, and otherwise ends with 0 or, on an error, with 1.  Whatever controller is registered,
    a run of it is a step of the system, with the number of jobs and the interval of the
    configuration, and so keeps the invariant of the system. *)
Theorem manager_runs_system elect t :
  wp (run_turn kratixConfig elect) (λ r t', ∃ o, manager_options elect kratixConfig = Ok o ∧ turn_ends o t r t' ∧
    ∀ c req x, NewController c ∈ registrations o →
      step (NumberOfJobsToKeep kratixConfig) (ReconciliationInterval kratixConfig) x (ctl_reconcile c req x).2 ∧
      (invariant x → invariant (ctl_reconcile c req x).2)) t.
Proof.
destruct (manager_options_ok elect) as [o Ho].
assert (∀ c req x, NewController c ∈ registrations o →
  step (NumberOfJobsToKeep kratixConfig) (ReconciliationInterval kratixConfig) x (ctl_reconcile c req x).2 ∧
  (invariant x → invariant (ctl_reconcile c req x).2)) as Hsteps.
{ intros c req x Hc. pose proof (controllers_step o c req x Hc) as Hst. split; [done|]. by eapply step_invariant. }
unfold run_turn. apply wp_bind, wp_try. eapply wp_mono; [by apply wp_setup_manager|].
intros [[]|e|] t1 (Hp & Hs1 & Hr1); [| |done].
2:{ apply wp_ret. exists o. split_and!; [done|by left|done]. }
specialize (Hr1 tt eq_refl). apply wp_bind, wp_try, wp_call; intros a t2 Hst;
  destruct (start_registered _ _ _ Hst) as [_ Hs2]; rewrite Hs1, Hr1 in Hs2;
  apply wp_bind, (wp_elim _ _ _ (Ok (w_restart t2)) t2); try done;
  destruct (w_restart t2) eqn:Hw; apply wp_ret; exists o; (split_and!; [done| |done]);
  right; eexists t1, _; rewrite Hw; by split_and!.
Qed.
End facts.

(** ** A concrete start *)

(** A library that accepts the first registrations only, as many as it is told. *)
Record SimRuntime (S : Type) := mkRuntime {
  rt_accepts : nat;
  rt_registered : list (Registration S);
  rt_starts : list (list (Registration S));
}.
Arguments mkRuntime {S} _ _ _.
Arguments rt_accepts {S} _.
Arguments rt_registered {S} _.
Arguments rt_starts {S} _.

#[global] Instance Sim_Runtime S : ControllerRuntime (SimRuntime S) S := {|
  w_register r t :=
    match rt_accepts t with
    | 0 => (inl (ErrorMsg "refused"), t)
    | Datatypes.S n =>
        (inr tt, mkRuntime n match r with NewManager _ => [r] | _ => rt_registered t ++ [r] end (rt_starts t))
    end;
  w_start t := (inr tt, mkRuntime (rt_accepts t) (rt_registered t) (rt_starts t ++ [rt_registered t]));
  w_restart _ := false |}.
#[global] Instance Sim_Registry S : Registry (SimRuntime S) S :=
  {| registered := rt_registered; starts := rt_starts |}.
#[global] Instance Sim_RuntimeLaws S : ControllerRuntimeLaws (SimRuntime S) S.
Proof.
split; [intros r [[] l st] t'|intros r [[] l st] e t'|intros t r t']; cbn; intros [=]; subst; first [done|by split].
Qed.

#[local] Existing Instances Sim_PromiseLib Sim_Config Sim_Time Sim_Canary foo_selectors.

Lemma manager_runs_system_witness :
  let run := run_turn (S:=Sim) None false (mkRuntime 18 [] []) in
  run.1 = Ok (Some 0%Z) ∧
  (∃ o, starts run.2 = [registrations (S:=Sim) None o]) ∧
  (run_turn (S:=Sim) None false (mkRuntime 17 [] [])).1 = Ok (Some 1%Z).
Proof.
cbv zeta. pose proof (manager_runs_system (S:=Sim) None false (mkRuntime 18 [] [])) as (o & Ho & Hend & _).
assert ((run_turn (S:=Sim) None false (mkRuntime 18 [] [])).1 = Ok (Some 0%Z)) as Hr by reflexivity.
split_and!; [exact Hr| |reflexivity]. exists o.
destruct Hend as [[_ Hr']|(t1 & err & _ & _ & _ & Hs & _)]; [|exact Hs]. exfalso. rewrite Hr in Hr'. clear -Hr'. discriminate.
Defined.
