(* ===== verification/Installer.v ===== *)
(** * The quick-start installer and the resource builder: [hack/]

    [hack/kratix-quick-start-installer] installs the platform with [kubectl], which it calls again
    when it fails; [hack/worker-resource-builder] collects the documents of a directory as the
    dependencies of a Promise.  Durations are in seconds. *)

From Stdlib Require Import Ascii.
From S2P Require Import Prelude GoLib Files Meta Api Promise StatusUpdater Programs.
From S2P Require Import FactoryWitness.

(** ** The installer *)

(** What the installer uses of its host: a run of [kubectl] gives its output, of both streams, and
    an error unless it ended well. *)
Class Host (S : Type) := {
  w_kubectl : list string → S → (string * option error) * S;
  w_sleep : Z → S → unit * S;
  w_print : string → S → unit * S;
}.

Definition GetEnv (Getenv : string → string) (envKey fallback : string) : string :=
  let val := Getenv envKey in
  if bool_decide (val ≠ "") then val else fallback.

Definition nl : string := String "010"%char "".

Module Quickstart.
Section lib.
Context {S : Type} `{Host S}.
(** [os.Getenv], when the program starts *)
Variable Getenv : string → string.

Definition CertManagerURL : string := GetEnv Getenv "CERT_MANAGER_URL"
  "https://github.com/cert-manager/cert-manager/releases/download/v1.15.0/cert-manager.yaml".
Definition KratixInstallURL : string := GetEnv Getenv "KRATIX_INSTALL_URL"
  "https://github.com/syntasso/kratix/releases/latest/download/install-all-in-one.yaml".
Definition KratixConfigURL : string := GetEnv Getenv "KRATIX_CONFIG_URL"
  "https://github.com/syntasso/kratix/releases/latest/download/config-all-in-one.yaml".

Definition maxRetries : nat := 5.

(** The turns of the loop that are left; the buffer holds the output so far. *)
Fixpoint attempts (outputToStd : bool) (args : list string) (left : nat) (combinedOutput : string)
    : M S (string * option error) :=
  match left with
  | 0 => ret (combinedOutput, Some (ErrorMsg ("command failed after " +:+ pretty maxRetries +:+
                                              " retries: kubectl " +:+ Strings.Join args " ")))
  | Datatypes.S left' =>
      let! run := total (w_kubectl args) in
      let '(out, err) := run in
      (if outputToStd then total (w_print out) else ret tt) ;;;
      match err with
      | None => ret (combinedOutput +:+ out, None)
      | Some e =>
          total (w_print ("  ⚠️  kubectl failed (attempt " +:+ pretty (maxRetries - left') +:+ "/" +:+
                          pretty maxRetries +:+ "): " +:+ Error e +:+ nl)) ;;;
          total (w_sleep 10) ;;;
          attempts outputToStd args left' (combinedOutput +:+ out)
      end
  end.

Definition kubectlWithRetry (outputToStd : bool) (args : list string) : M S (string * option error) :=
  attempts outputToStd args maxRetries "".

Definition KubectlWithRetry (args : list string) : M S unit :=
  let! r := kubectlWithRetry true args in
  match r.2 with Some e => fail e | None => ret tt end.

Definition KubectlWithRetryOutputOnly (args : list string) : M S (string * option error) :=
  kubectlWithRetry false args.

Definition wait_args (namespace labelSelector : string) : list string :=
  ["wait"; "--for=condition=Ready"; "pod"; "-l"; labelSelector; "-n"; namespace; "--timeout=180s"].

Definition WaitForPod (namespace labelSelector : string) : M S unit :=
  KubectlWithRetry (wait_args namespace labelSelector).

Definition namespace_args (ns : string) : list string := ["get"; "namespace"; ns].

Fixpoint namespace_appears (ns : string) (left : nat) : M S unit :=
  match left with
  | 0 => fail (ErrorMsg ("namespace '" +:+ ns +:+ "' did not appear in time"))
  | Datatypes.S left' =>
      let! run := total (w_kubectl (namespace_args ns)) in
      match run.2 with
      | None => ret tt
      | Some _ => total (w_sleep 5) ;;; namespace_appears ns left'
      end
  end.

Definition WaitForNamespace (ns : string) : M S unit := namespace_appears ns 30.

Definition Println (line : string) : M S unit := total (w_print (line +:+ nl)).

Definition announce (step totalSteps : nat) (what : string) : M S unit :=
  Println (nl +:+ "🔹 Step " +:+ pretty step +:+ "/" +:+ pretty totalSteps +:+ ": " +:+ what).

Definition apply_args (url : string) : list string := ["apply"; "--filename"; url].

Definition InstallCertManager (step totalSteps : nat) : M S unit :=
  announce step totalSteps "Installing cert-manager" ;;;
  wrapped "applying cert-manager" (KubectlWithRetry (apply_args CertManagerURL)) ;;;
  Println "  └─ Waiting for cert-manager pods to become Ready..." ;;;
  WaitForPod "cert-manager" "app.kubernetes.io/component=controller" ;;;
  WaitForPod "cert-manager" "app.kubernetes.io/component=cainjector" ;;;
  WaitForPod "cert-manager" "app.kubernetes.io/component=webhook".

Definition InstallKratix (step totalSteps : nat) : M S unit :=
  announce step totalSteps "Installing Kratix" ;;;
  wrapped "applying kratix" (KubectlWithRetry (apply_args KratixInstallURL)) ;;;
  Println "  └─ Waiting for kratix-platform pods to become Ready..." ;;;
  WaitForPod "kratix-platform-system" "app.kubernetes.io/instance=kratix-platform".

Definition ConfigureKratix (step totalSteps : nat) : M S unit :=
  announce step totalSteps "Configuring Kratix" ;;;
  wrapped "applying config" (KubectlWithRetry (apply_args KratixConfigURL)) ;;;
  Println "  └─ Waiting for namespace 'kratix-worker-system' to appear..." ;;;
  WaitForNamespace "kratix-worker-system".

Definition FinalizeInstall (totalSteps : nat) : M S unit :=
  announce totalSteps totalSteps "Verifying install complete" ;;;
  Println "  └─ All systems are up!" ;;;
  Println "✅ Kratix installation complete!".

(** [main] of the installer: [log.Fatal] ends it with 1. *)
Definition install : M S unit :=
  InstallCertManager 1 4 ;;; InstallKratix 2 4 ;;; ConfigureKratix 3 4 ;;; FinalizeInstall 4.
Definition installer_main : M S Z := exit_code install.
End lib.
End Quickstart.
Import Quickstart.

(** *** The calls it makes *)

(** The commands that were run, each with whether it ended well. *)
Class Ran (S : Type) := ran : S → list (list string * bool).

Definition ended_well (err : option error) : bool := match err with None => true | Some _ => false end.

Class HostLaws (S : Type) `{Host S, Ran S} : Prop := {
  kubectl_ran args s out err s' : w_kubectl args s = (out, err, s') → ran s' = ran s ++ [(args, ended_well err)];
  sleep_ran n s u s' : w_sleep n s = (u, s') → ran s' = ran s;
  print_ran t s u s' : w_print t s = (u, s') → ran s' = ran s;
}.

(** Commands in order, each with the number of times it may be tried: a command is tried until it
    ends well, the next is not tried before that, and one that failed as often as it may ends
    the whole. *)
Inductive follows : list (list string * nat) → list (list string * bool) → bool → Prop :=
  | follows_end : follows [] [] true
  | follows_next args n k plan tried ok : k < n → follows plan tried ok →
      follows ((args, n) :: plan) (replicate k (args, false) ++ (args, true) :: tried) ok
  | follows_stop args n plan : follows ((args, n) :: plan) (replicate n (args, false)) false.

Section installer.
Context {S : Type} `{Host S, Ran S, !HostLaws S}.
Variable Getenv : string → string.
Implicit Types s : S.

(** A program that carries out the plan, [Q] being what holds afterwards. *)
Definition carries_out {A} (m : M S A) (plan : list (list string * nat)) : Prop :=
  ∀ s, wp m (λ r s', ∃ tried ok, ran s' = ran s ++ tried ∧ follows plan tried ok ∧
    match r with Ok _ => ok = true | Fail _ => ok = false | Panicked => False end) s.

Lemma follows_app plan1 plan2 tried1 tried2 ok :
  follows plan1 tried1 true → follows plan2 tried2 ok → follows (plan1 ++ plan2) (tried1 ++ tried2) ok.
Proof.
intros H1 H2. remember true as b eqn:Hb. induction H1 as [|args n k plan tried ok' Hk H1 IH|]; [done| |done].
rewrite <-(assoc_L (++)). simpl. constructor; auto.
Qed.

Lemma follows_stopped plan1 plan2 tried : follows plan1 tried false → follows (plan1 ++ plan2) tried false.
Proof.
intros H1. remember false as b eqn:Hb. induction H1; simpl; [done|constructor; auto|constructor].
Qed.

Lemma carries_seq {A B} (m : M S A) (k : A → M S B) plan1 plan2 :
  carries_out m plan1 → (∀ a, carries_out (k a) plan2) → carries_out (bind m k) (plan1 ++ plan2).
Proof.
intros Hm Hk s. apply wp_bind. eapply wp_mono; [apply Hm|].
intros [a|e|] s1 (t1 & ok1 & Hr1 & Hf1 & Hok1); [|exists t1, false|done].
- subst ok1. eapply wp_mono; [apply Hk|]. intros r s2 (t2 & ok2 & Hr2 & Hf2 & Hok2).
  exists (t1 ++ t2), ok2. split_and!; [by rewrite Hr2, Hr1, <-(assoc_L (++))|by apply follows_app|done].
- subst ok1. split_and!; [done|by apply follows_stopped|done].
Qed.

Lemma carries_nothing {A} (m : M S A) :
  (∀ s, wp m (λ r s', ran s' = ran s ∧ ∃ a, r = Ok a) s) → carries_out m [].
Proof.
intros Hm s. eapply wp_mono; [apply Hm|]. intros r s' [Hr [a ->]]. exists [], true.
rewrite Hr, app_nil_r. split_and!; [done|constructor|done].
Qed.

Lemma carries_print t : carries_out (total (w_print t)) [].
Proof. apply carries_nothing. intros s. apply wp_total. intros [] s' Hs. split; [by eapply print_ran|eauto]. Qed.

Lemma carries_wrapped {A} msg (m : M S A) plan : carries_out m plan → carries_out (wrapped msg m) plan.
Proof.
intros Hm s. apply wp_bind, wp_try. eapply wp_mono; [apply Hm|]. by intros [a|e|] s' Hs.
Qed.

(** A command that failed once may be tried once less. *)
Lemma follows_retry args n tried ok :
  follows [(args, n)] tried ok → follows [(args, Datatypes.S n)] ((args, false) :: tried) ok.
Proof.
intros Hf. inversion Hf as [|a n' k pl tr ok' Hk Hend|]; simplify_eq/=.
- apply (follows_next args (Datatypes.S n) (Datatypes.S k)); [lia|done].
- apply (follows_stop args (Datatypes.S n)).
Qed.

(** [m], whose result tells whether it succeeded, tries one command. *)
Definition tries {A} (failed : A → bool) (m : M S A) args n : Prop :=
  ∀ s, wp m (λ r s', ∃ tried a, r = Ok a ∧ ran s' = ran s ++ tried ∧
    follows [(args, n)] tried (negb (failed a))) s.

Lemma tries_attempts std args n buf :
  tries (λ r, negb (ended_well r.2)) (attempts std args n buf) args n.
Proof.
revert buf. induction n as [|n IH]; intros buf s.
{ apply wp_ret. eexists [], _. rewrite app_nil_r. split_and!; [done|done|apply (follows_stop args 0)]. }
simpl. apply wp_bind, wp_total. intros [out err] s1 Hr1. apply kubectl_ran in Hr1.
assert (wp (if std then total (w_print out) else ret tt) (λ r s2, r = Ok tt ∧ ran s2 = ran s1) s1) as Hprint.
{ destruct std; [|by apply wp_ret]. apply wp_total. intros [] s2 Hs2. split; [done|]. by eapply print_ran. }
apply wp_bind. eapply wp_mono; [exact Hprint|]. intros r s2 [-> Hr2].
destruct err as [e|].
- apply wp_bind, wp_total. intros [] s3 Hr3%print_ran. apply wp_bind, wp_total. intros [] s4 Hr4%sleep_ran.
  eapply wp_mono; [apply IH|]. intros r s5 (tried & a & -> & Hr5 & Hf).
  exists ((args, false) :: tried), a. split_and!; [done| |by apply follows_retry].
  by rewrite Hr5, Hr4, Hr3, Hr2, Hr1, <-(assoc_L (++)).
- apply wp_ret. eexists [(args, true)], _. split_and!; [done|by rewrite Hr2, Hr1|].
  apply (follows_next args (Datatypes.S n) 0); [lia|constructor].
Qed.

Lemma carries_kubectl args : carries_out (KubectlWithRetry args) [(args, maxRetries)].
Proof.
intros s. apply wp_bind. eapply wp_mono; [apply tries_attempts|].
intros r s' (tried & [out err] & -> & Hr & Hf). rewrite negb_involutive in Hf. simpl in *.
destruct err; [apply wp_fail|apply wp_ret]; eauto.
Qed.

Lemma carries_namespace ns n : carries_out (namespace_appears ns n) [(namespace_args ns, n)].
Proof.
induction n as [|n IH]; intros s.
{ apply wp_fail. exists [], false. rewrite app_nil_r. split_and!; [done|apply (follows_stop _ 0)|done]. }
simpl. apply wp_bind, wp_total. intros [out err] s1 Hr1%kubectl_ran. destruct err as [e|]; simpl.
- apply wp_bind, wp_total. intros [] s2 Hr2%sleep_ran. eapply wp_mono; [apply IH|].
  intros r s3 (tried & ok & Hr3 & Hf & Hok). exists ((namespace_args ns, false) :: tried), ok.
  split_and!; [by rewrite Hr3, Hr2, Hr1, <-(assoc_L (++))|by apply follows_retry|done].
- apply wp_ret. eexists [(namespace_args ns, true)], true. split_and!; [done| |done].
  apply (follows_next _ (Datatypes.S n) 0); [lia|constructor].
Qed.

(** What the installer does, in order. *)
Definition installation : list (list string * nat) :=
  [(apply_args (CertManagerURL Getenv), 5);
   (wait_args "cert-manager" "app.kubernetes.io/component=controller", 5);
   (wait_args "cert-manager" "app.kubernetes.io/component=cainjector", 5);
   (wait_args "cert-manager" "app.kubernetes.io/component=webhook", 5);
   (apply_args (KratixInstallURL Getenv), 5);
   (wait_args "kratix-platform-system" "app.kubernetes.io/instance=kratix-platform", 5);
   (apply_args (KratixConfigURL Getenv), 5);
   (namespace_args "kratix-worker-system", 30)].

Lemma carries_silent {A B} (m : M S A) (k : A → M S B) plan :
  carries_out m [] → (∀ a, carries_out (k a) plan) → carries_out (bind m k) plan.
Proof. apply (carries_seq m k [] plan). Qed.
Lemma carries_one {A B} (m : M S A) (k : A → M S B) c plan :
  carries_out m [c] → (∀ a, carries_out (k a) plan) → carries_out (bind m k) (c :: plan).
Proof. apply (carries_seq m k [c] plan). Qed.

Create HintDb installer.
Hint Resolve carries_print carries_wrapped carries_kubectl carries_namespace : installer.
Ltac carry :=
  repeat first
    [ apply carries_silent; [solve [apply carries_print]|intros _]
    | apply carries_one; [solve [auto with installer]|intros _]
    | solve [auto with installer] ].

Lemma carries_InstallCertManager i n : carries_out (InstallCertManager Getenv i n) (take 4 installation).
Proof. unfold InstallCertManager, announce, Println, WaitForPod, installation. simpl. carry. Qed.
Lemma carries_InstallKratix i n : carries_out (InstallKratix Getenv i n) (take 2 (drop 4 installation)).
Proof. unfold InstallKratix, announce, Println, WaitForPod, installation. simpl. carry. Qed.
Lemma carries_ConfigureKratix i n : carries_out (ConfigureKratix Getenv i n) (drop 6 installation).
Proof. unfold ConfigureKratix, announce, Println, WaitForNamespace, installation. cbn [take drop]. carry. Qed.
Lemma carries_FinalizeInstall n : carries_out (FinalizeInstall n) [].
Proof. unfold FinalizeInstall, announce, Println. carry. Qed.

Lemma carries_install : carries_out (install Getenv) installation.
Proof.
change installation with (take 4 installation ++ take 2 (drop 4 installation) ++ drop 6 installation ++ []) at 1.
apply carries_seq; [apply carries_InstallCertManager|intros _].
apply carries_seq; [apply carries_InstallKratix|intros _].
apply carries_seq; [apply carries_ConfigureKratix|intros _]. apply carries_FinalizeInstall.
Qed.

Lemma follows_bounded plan tried ok : follows plan tried ok → length tried ≤ sum_list plan.*2.
Proof.
induction 1 as [|args n k plan tried ok Hk _ IH|args n plan]; [done|..]; rewrite fmap_cons; cbn [sum_list_with snd].
- rewrite length_app, length_replicate. cbn [length]. unfold id at 1. lia.
- rewrite length_replicate. unfold id. lia.
Qed.

(** The commands that ended well are the first ones of the plan, in order. *)
Lemma follows_done plan tried ok : follows plan tried ok →
  ∃ n, (filter (λ c, c.2 = true) tried).*1 = take n plan.*1 ∧ (ok = true → n = length plan).
Proof.
induction 1 as [|args n k plan tried ok Hk _ (m & Hm & Hok)|args n plan].
- by exists 0.
- exists (Datatypes.S m). rewrite filter_app, filter_empty, filter_cons_True; [|done|by apply Forall_replicate].
  rewrite app_nil_l, !fmap_cons, Hm. split; [done|]. intros Ht. cbn. by rewrite Hok.
- exists 0. rewrite filter_empty; [|by apply Forall_replicate]. done.
Qed.

(** The quick-start installer works through its commands in order (cert-manager, its three pods,
    Kratix, its pod, the configuration, the namespace of the worker): a command is tried until it
    ends well, at most five times, the check for the namespace at most thirty times, and the next
    is not tried before.  It calls [kubectl] at most 65 times, the calls that end well are the
    first commands of the list, each once and in order, and the exit code is 0 exactly when all
    of them did. *)
Theorem installation_in_order s :
  wp (installer_main Getenv) (λ r s', ∃ tried ok n, ran s' = ran s ++ tried ∧
    follows installation tried ok ∧ r = Ok (if ok then 0 else 1)%Z ∧ length tried ≤ 65 ∧
    (filter (λ c, c.2 = true) tried).*1 = take n installation.*1 ∧ (ok = true → n = 8)) s.
Proof.
apply wp_bind, wp_try. eapply wp_mono; [apply carries_install|].
intros r s' (tried & ok & Hr & Hf & Hok). destruct (follows_done _ _ _ Hf) as (n & Hn & Hall).
pose proof (follows_bounded _ _ _ Hf) as Hb. simpl in Hb.
destruct r as [a|e|]; [| |done]; apply wp_ret; exists tried, ok, n; split_and!; auto; by subst.
Qed.
End installer.

(** On a host where the pod of Kratix is never ready: commands that name it fail. *)
#[global] Instance Sim_Host : Host (list (list string * bool)) := {|
  w_kubectl args s :=
    let err := if bool_decide ("kratix-platform-system" ∈ args) then Some (ErrorMsg "timed out") else None in
    (("", err), s ++ [(args, ended_well err)]);
  w_sleep _ s := (tt, s);
  w_print _ s := (tt, s) |}.
#[global] Instance Sim_Ran : Ran (list (list string * bool)) := id.
#[global] Instance Sim_HostLaws : HostLaws (list (list string * bool)).
Proof. split; [intros args s out err s' [= _ <- <-]|intros n s u s' [= _ <-]|intros t s u s' [= _ <-]]; done. Qed.

Lemma installation_in_order_witness :
  ∃ tried, installer_main (λ _, "") [] = (Ok 1%Z, tried) ∧ follows (installation (λ _, "")) tried false ∧
    length tried = 10.
Proof.
pose proof (installation_in_order (λ _, "") []) as (tried & ok & n & Hr & Hf & Hok & _).
exists tried. destruct (installer_main (λ _, "") []) as [r s'] eqn:E. cbn [fst snd] in *.
assert (r = Ok 1%Z ∧ length s' = 10) as [-> Hl]
  by (assert (E' := E); vm_compute in E'; injection E' as <- <-; split; reflexivity).
change (s' = [] ++ tried) in Hr. rewrite app_nil_l in Hr. subst s'. destruct ok; [discriminate|]. done.
Defined.

Example installation_stops_at_kratix :
  installer_main (λ _, "") [] = (Ok 1%Z, ((λ c, (c, true)) <$> take 5 (installation (λ _, "")).*1) ++
    replicate 5 (wait_args "kratix-platform-system" "app.kubernetes.io/instance=kratix-platform", false)).
Proof. vm_compute. reflexivity. Qed.

(** ** The resource builder *)

Inductive DecodeError := EndOfFile | OtherError (e : error).

(** What the builder uses of its libraries: a decoder of a stream of documents, for a file that
    was opened or not, and the conversion of a Promise.  A call of [Decode] leaves a nil pointer
    for a null document, and what it was given when it fails. *)
Class BuilderLib := {
  Decoder : Type;
  NewYAMLOrJSONDecoder : error + Entry → Decoder;
  Decode : Decoder → option JSON * option DecodeError * Decoder;
  unmarshal_promise : string → error + Promise;
  marshal_promise : Promise → error + string;
}.

(** *** The accessors of an unstructured object *)
Fixpoint get_field (name : string) (fields : list (string * JSON)) : option JSON :=
  match fields with
  | [] => None
  | f :: fields' => if bool_decide (f.1 = name) then Some f.2 else get_field name fields'
  end.
Definition field (name : string) (j : JSON) : option JSON :=
  match j with JObj fields => get_field name fields | _ => None end.
Definition string_of (j : option JSON) : string := match j with Some (JStr s) => s | _ => "" end.

Definition GetKind (us : JSON) : string := string_of (field "kind" us).
Definition GetNamespace (us : JSON) : string :=
  match field "metadata" us with Some m => string_of (field "namespace" m) | None => "" end.

Fixpoint set_field (name : string) (v : JSON) (fields : list (string * JSON)) : list (string * JSON) :=
  match fields with
  | [] => [(name, v)]
  | f :: fields' => if bool_decide (f.1 = name) then (name, v) :: fields' else f :: set_field name v fields'
  end.

(** Metadata that is no map stays as it is. *)
Definition SetNamespace (ns : string) (us : JSON) : JSON :=
  match us with
  | JObj fields =>
      match field "metadata" us with
      | None => JObj (set_field "metadata" (JObj [("namespace", JStr ns)]) fields)
      | Some (JObj m) => JObj (set_field "metadata" (JObj (set_field "namespace" (JStr ns) m)) fields)
      | Some _ => us
      end
  | _ => us
  end.

Section builder.
Context `{BuilderLib}.

(** What becomes of a document. *)
Definition namespaced (us : JSON) : JSON :=
  if bool_decide (GetNamespace us = "") && bool_decide (GetKind us ≠ "Namespace")
  then SetNamespace "default" us else us.

(** The documents of a file; [None] when the fuel does not suffice. *)
Fixpoint decode_all (fuel : nat) (d : Decoder) (resources : list JSON) : option (list JSON) :=
  match fuel with
  | 0 => None
  | S fuel' =>
      match Decode d with
      | (None, _, d') => decode_all fuel' d' resources
      | (Some us, Some EndOfFile, d') => Some resources
      | (Some us, _, d') => decode_all fuel' d' (resources ++ [namespaced us])
      end
  end.

Fixpoint read_files (fuel : nat) (fs : Entry) (resourcesPath : string) (files : list (string * Entry))
    (resources : list JSON) : option (list JSON) :=
  match files with
  | [] => Some resources
  | fileInfo :: files' =>
      let fileName := Filepath.Join [resourcesPath; fileInfo.1] in
      let file := lookup_file fs fileName in
      match decode_all fuel (NewYAMLOrJSONDecoder file) resources with
      | None => None
      | Some resources' => read_files fuel fs resourcesPath files' resources'
      end
  end.

Definition set_dependencies (deps : list JSON) (p : Promise) : Promise :=
  let sp := r_spec p in
  mkResource (r_meta p)
    {| prs_kind := prs_kind sp; prs_apiVersion := prs_apiVersion sp; prs_api := prs_api sp;
       prs_workflows := prs_workflows sp; prs_requiredPromises := prs_requiredPromises sp;
       prs_dependencies := deps; prs_destinationSelectors := prs_destinationSelectors sp |}
    (r_status p).

Definition builder_flags : gmap string string := list_to_map [("resources-dir", ""); ("promise", "")].

(** The exit code and what is printed; [None] when the fuel does not suffice. *)
Definition builder_main (fuel : nat) (fs : Entry) (args : list string) : option (Z * string) :=
  match Flag.Parse builder_flags args with
  | Flag.Refused => Some (2%Z, "")
  | Flag.HelpRequested => Some (0%Z, "")
  | Flag.Parsed flags _ =>
      let resourcesPath := default "" (flags !! "resources-dir") in
      let promisePath := default "" (flags !! "promise") in
      if bool_decide (resourcesPath = "") then Some (1%Z, "Must provide -resources-dir" +:+ nl)
      else if bool_decide (promisePath = "") then Some (1%Z, "Must provide -promise" +:+ nl)
      else
        match ReadDir fs resourcesPath with
        | inl _ => Some (1%Z, "Error reading resourcesPath: " +:+ resourcesPath +:+ nl)
        | inr files =>
            match read_files fuel fs resourcesPath files [] with
            | None => None
            | Some resources =>
                match ReadFile fs promisePath with
                | inl _ => Some (1%Z, "")
                | inr promiseFile =>
                    match unmarshal_promise promiseFile with
                    | inl _ => Some (1%Z, "")
                    | inr promise =>
                        let bytes := marshal_promise (set_dependencies resources promise) in
                        Some (0%Z, match bytes with inr t => t | inl _ => "" end +:+ nl)
                    end
                end
            end
        end
  end.

(** *** What it collects *)

(** The documents a decoder gives before it ends, nil ones left out. *)
Inductive documents : Decoder → nat → list JSON → Prop :=
  | documents_end d us d' : Decode d = (Some us, Some EndOfFile, d') → documents d 1 []
  | documents_null d err d' n l : Decode d = (None, err, d') → documents d' n l → documents d (S n) l
  | documents_next d us err d' n l : Decode d = (Some us, err, d') → err ≠ Some EndOfFile →
      documents d' n l → documents d (S n) (us :: l).

Lemma decode_all_documents d n l fuel resources :
  documents d n l → n ≤ fuel → decode_all fuel d resources = Some (resources ++ (namespaced <$> l)).
Proof.
intros Hd. revert fuel resources. induction Hd as [d us d' Hd|d err d' n l Hd _ IH|d us err d' n l Hd Hne _ IH];
  intros [|fuel] resources Hf; [lia| |lia| |lia|]; simpl; rewrite Hd.
- by rewrite app_nil_r.
- apply IH. lia.
- destruct err as [[|e]|]; [done|..]; rewrite IH by lia; by rewrite <-(assoc_L (++)).
Qed.

(** A decoder that keeps failing, as for a directory or a file that cannot be read: the builder
    never ends. *)
Theorem unreadable_file_never_ends d us e fuel resources :
  Decode d = (Some us, Some (OtherError e), d) → decode_all fuel d resources = None.
Proof.
intros Hd. revert resources. induction fuel as [|fuel IH]; intros resources; [done|]. simpl. rewrite Hd. apply IH.
Qed.

(** The files of the directory in order, with their documents. *)
Definition holds (fs : Entry) (dir : string) (files : list (string * Entry)) (n : nat) (ls : list (list JSON)) : Prop :=
  Forall2 (λ f l, ∃ m, m ≤ n ∧ documents (NewYAMLOrJSONDecoder (lookup_file fs (Filepath.Join [dir; f.1]))) m l)
    files ls.

Lemma read_files_holds fs dir files n ls fuel resources :
  holds fs dir files n ls → n ≤ fuel →
  read_files fuel fs dir files resources = Some (resources ++ (namespaced <$> concat ls)).
Proof.
intros Hh Hf. revert resources. induction Hh as [|f l files ls (m & Hm & Hd) _ IH]; intros resources; simpl.
- by rewrite app_nil_r.
- rewrite (decode_all_documents _ m l) by (done || lia). rewrite IH. by rewrite fmap_app, (assoc_L (++)).
Qed.

(** When every file ends, the builder prints the Promise with all documents of all files, in order,
    as its dependencies; those without a namespace are put into the default one, unless they are
    namespaces. *)
Theorem builder_collects fs args flags rest dir path files n ls promiseFile promise text fuel :
  Flag.Parse builder_flags args = Flag.Parsed flags rest →
  flags !! "resources-dir" = Some dir → flags !! "promise" = Some path → dir ≠ "" → path ≠ "" →
  ReadDir fs dir = inr files → holds fs dir files n ls → n ≤ fuel →
  ReadFile fs path = inr promiseFile → unmarshal_promise promiseFile = inr promise →
  marshal_promise (set_dependencies (namespaced <$> concat ls) promise) = inr text →
  builder_main fuel fs args = Some (0%Z, text +:+ nl).
Proof.
intros Hflags Hdir Hpath Hd Hp Hls Hh Hfuel Hread Hun Hma. unfold builder_main.
rewrite Hflags, Hdir, Hpath. change (default "" (Some dir)) with dir. change (default "" (Some path)) with path.
rewrite !bool_decide_false by done.
by rewrite Hls, (read_files_holds _ _ _ n ls) , Hread, Hun, app_nil_l, Hma by done.
Qed.
End builder.

Lemma get_set_field name v fields : get_field name (set_field name v fields) = Some v.
Proof.
induction fields as [|f fields IH]; simpl; [by rewrite bool_decide_true|].
case_bool_decide as Hf; simpl; [by rewrite bool_decide_true|by rewrite bool_decide_false].
Qed.

(** The namespace of a document that had none and is no namespace. *)
Lemma namespaced_default fields :
  let us := JObj fields in
  GetNamespace us = "" → GetKind us ≠ "Namespace" →
  (∀ m, field "metadata" us = Some m → ∃ ms, m = JObj ms) → GetNamespace (namespaced us) = "default".
Proof.
cbv zeta. intros Hns Hk Hm. unfold namespaced. rewrite !bool_decide_true by done. simpl in *.
destruct (get_field "metadata" fields) as [m|] eqn:E.
- destruct (Hm m eq_refl) as [ms ->]. unfold GetNamespace. simpl. by rewrite !get_set_field; simpl; rewrite get_set_field.
- unfold GetNamespace. simpl. by rewrite get_set_field.
Qed.

(** *** On a concrete directory *)

(** A decoder of files that hold one document, a ConfigMap for every file; what cannot be read gives
    an error for ever. *)
#[local] Instance Sim_Builder : BuilderLib := {|
  Decoder := error + (bool * Entry);
  NewYAMLOrJSONDecoder file := match file with
    | inl e => inl e | inr (File t) => inr (true, File t) | inr _ => inl errIsDir end;
  Decode d := match d with
    | inl e => (Some (JObj []), Some (OtherError e), d)
    | inr (true, File t) => (Some (JObj [("kind", JStr "ConfigMap"); ("data", JStr t)]), None, inr (false, File t))
    | inr _ => (Some (JObj []), Some EndOfFile, d)
    end;
  unmarshal_promise t := if bool_decide (t = "promise") then inr redis else inl (ErrorMsg t);
  marshal_promise p := inr (GetName p +:+ " " +:+ pretty (length (prs_dependencies (r_spec p)))) |}.

Definition resources : Entry := Dir [("p.yaml", File "promise"); ("r", Dir [("a.yaml", File "a"); ("b.yaml", File "b")])].

Lemma builder_collects_witness :
  builder_main 2 resources ["-resources-dir"; "/r"; "--promise=/p.yaml"] = Some (0%Z, "redis 2" +:+ nl).
Proof.
set (docs := [[JObj [("kind", JStr "ConfigMap"); ("data", JStr "a")]]; [JObj [("kind", JStr "ConfigMap"); ("data", JStr "b")]]]).
apply (builder_collects resources _ {["resources-dir" := "/r"; "promise" := "/p.yaml"]} [] "/r" "/p.yaml"
  [("a.yaml", File "a"); ("b.yaml", File "b")] 2 docs "promise" redis); try done.
repeat constructor; exists 2; (split; [lia|]); (eapply documents_next; [reflexivity|done|]);
  eapply documents_end; reflexivity.
Defined.

Lemma unreadable_file_never_ends_witness fuel :
  decode_all fuel (NewYAMLOrJSONDecoder (lookup_file resources "/r")) [] = None.
Proof. exact (unreadable_file_never_ends (inl errIsDir) (JObj []) errIsDir fuel [] eq_refl). Defined.
